(* ===== verification/_CoqProject ===== *)
-Q . S2P
Prelude.v
Bytes.v
ByteCodec.v
BootContract.v
ContractSpec.v
ContractCodec.v
ContractProps.v
BootElf.v
ElfSpec.v
ElfProps.v
Console.v
Memory.v
Scenario.v
Kernel.v
Loader.v
LoaderContract.v
LoaderProps.v
Protocol.v
ProtocolProps.v
Pipeline.v
Text.v
Lexer.v
HostScenario.v
HostRun.v
HostRunProps.v
Artifact.v
HostFs.v
HostFsProps.v
RawImage.v
RawImageProps.v
FatProps.v
DiskImage.v
DiskImageProps.v
DiskDemo.v
Repro.v
ReproProps.v
ReproTotal.v
ReproDemo.v
XtaskCli.v
XtaskCliProps.v
Polyctl.v
HostExec.v
HostExecProps.v
QemuArgs.v
Statistics.v
StatisticsProps.v
BootRunner.v
BootRunnerProps.v
BootDemo.v
GuestRun.v
VolumeBoot.v
Inspect.v
InspectProps.v
XtaskCliTypes.v
Xtask.v
XtaskProps.v
XtaskRuns.v
Acceptance.v
AcceptanceDemo.v
Lifecycle.v
LifecycleDemo.v
BuildScript.v
Entry.v
Linker.v
