(* ===== verification/Prelude.v ===== *)
(** * PolytopeOS: a verification of its boot path and of the host tools around it

    PolytopeOS boots in four steps.  A UEFI loader (crates/uefi-loader) reads
    two files from the boot volume, validates the kernel with the ELF
    validator (crates/boot-elf), copies its segments into physical memory,
    leaves the boot services, builds the boot contract (crates/boot-contract)
    from the firmware's memory map and jumps to the kernel.  The entry shim
    (arch/x86_64/boot/entry.S) clears .bss and calls the kernel
    (crates/kernel), which parses the contract and reports through the debug
    console and the QEMU exit device (crates/arch-x86_64).  On the host,
    crates/xtask builds twice and compares, inspects the linked kernel, puts it
    into an image, boots that image in an emulator, reads the log, classifies the
    boot and checks its outcome.  The diagnostic
    records are the only channel between guest and host.

    ** How the code is modelled

    A fallible Rust function is a computation in [exec E A], with an outcome for
    a value, for an error and for a panic: the boot profile of Cargo.toml
    compiles with overflow checks and aborts on a panic, so a failed index, an
    overflow or a failed assertion is the outcome [Panic] and its absence is a
    theorem.  Methods on [&mut self] are state-passing computations [st].
    Integers are [Z] with the width in the operation ([checked_add 64], [uint w]).
    Byte slices are lists of bytes, [str] is a list of Unicode scalar values.
    Code that is not in the repository is an argument: the UEFI boot services
    (record [Loader.Firmware], its documented behaviour the class
    [LoaderProps.FirmwareLaws]; the transition out of them may fail for good, which
    resets the machine), the processor that runs the loaded code
    ([Pipeline.Processor]; the class [Pipeline.RunsKernel] says of an ELF file that
    it is a build of this kernel, that is, that the processor, started at its entry
    point on memory that holds its image, does what the shim and the kernel's
    source say), the linker ([Linker.LinkOutput]), the emulator's reading of option
    arguments ([QemuArgs.OptionSyntax]), the UART's answers, QEMU's exit status,
    the SHA-256 function, what the host's file system, its process calls and its
    standard streams answer, and how reads are split.

    ** Files

    - Prelude: outcomes, machine integers, state passing, bounded loops, sorted
      lists, the [nopanic] hints and the inversion tactics.
    - Bytes, ByteCodec: slices, little-endian numbers; the [Reader] and [Writer]
      of crates/boot-contract/src/lib.rs and the class [Codec] of their laws.
    - BootContract, ContractSpec, ContractCodec, ContractProps: the contract,
      its builder, encoder, parser and validators; the ABI policy as
      propositions; its fields as instances of [Codec]; the theorems.
    - BootElf, ElfSpec, ElfProps: the ELF validator and segment iterator
      (crates/boot-elf/src/lib.rs); the loading policy [elf_ok]; the theorems.
    - Console: the early console and the exit device as a trace of port accesses
      (crates/arch-x86_64/src/lib.rs).
    - Memory, Scenario, Kernel: physical memory; the loader's scenario file
      (crates/uefi-loader/src/lib.rs); the boot phases, records and entry point
      of the kernel (crates/kernel/src/).
    - Loader, LoaderContract, LoaderProps: crates/uefi-loader/src/main.rs as
      state passing over a [World] (firmware and memory); what it hands over;
      the theorems.
    - Protocol, ProtocolProps: the host's protocol parser and classification
      (crates/xtask/src/qemu.rs), and the logs it accepts as paths of a state
      machine.
    - Pipeline: loader, processor, entry shim (arch/x86_64/boot/entry.S), kernel
      and host composed.
    - Text, Lexer: UTF-8, lines and fields; the compiler's lexer
      (crates/compiler/src/lib.rs).
    - HostScenario, HostRun, HostRunProps: the host's scenario file
      (crates/xtask/src/image.rs); captured logs, reports, outcome validators
      and the log observer (crates/xtask/src/qemu.rs).
    - Artifact: first difference and hexadecimal digests
      (crates/xtask/src/lib.rs).
    - HostFs, HostFsProps: the three atomic writers of crates/xtask and its
      temporary directories (temporary.rs), over a file system that keeps every
      intermediate state.
    - RawImage, RawImageProps, FatProps: the byte-level GPT, FAT32 and PE checks
      of crates/xtask/src/image.rs, and the layouts they decide.
    - DiskImage, DiskImageProps, DiskDemo: the rest of image.rs (validator,
      builder, file reads) over the record [DiskCrates] that stands for the gpt,
      fatfs and uuid crates; an image for the witnesses.
    - Repro, ReproProps, ReproTotal, ReproDemo: crates/xtask/src/repro.rs over the
      record [Host] of programs and files; that the check always ends; a host for
      the witnesses.
    - XtaskCli, XtaskCliProps, XtaskCliTypes: the option parser and requests of
      crates/xtask/src/main.rs; which options are accepted; which requests result.
    - Polyctl: crates/polyctl/src/main.rs.
    - HostExec, HostExecProps, QemuArgs: the bounded execution of qemu.rs with
      its child guards and memory sampler, over the record [Machine] of clock
      and processes; the emulator's arguments.
    - Statistics, StatisticsProps: the baseline statistics of qemu.rs in binary64
      arithmetic.
    - BootRunner, BootRunnerProps, BootDemo: [observe_boot], [run_boot] and
      [run_baseline] of qemu.rs and the boot commands of main.rs, over the record
      [BootHost]; a host for the witnesses.
    - GuestRun: what the bounded execution reports of a guest whose output and
      status are given (class [Emulates]).
    - VolumeBoot: the loader on a firmware that serves the files of a validated
      image (class [ServesVolume]).
    - Xtask, XtaskProps, XtaskRuns: the program of crates/xtask/src/main.rs from
      its arguments to its exit status and outputs, each command the operation
      of its component embedded in one world; that it always exits; what its
      exit status 0 says.
    - Acceptance, AcceptanceDemo: image, firmware, loader, kernel, emulator, host
      and program composed; a concrete system for the witnesses.
    - Lifecycle, LifecycleDemo: the image command followed by a boot test of what it
      wrote.
    - BuildScript: crates/kernel/build.rs.
    - Inspect, InspectProps: the kernel inspector and its linker-map parser
      (crates/xtask/src/inspect.rs).
    - Entry: the entry shim (arch/x86_64/boot/entry.S) as instructions on a
      processor state, refining the function of Pipeline.
    - Linker: the linker script (arch/x86_64/kernel/linker.ld) as a location
      counter with its assertions.

    ** What is shown

    - Contract: the parser accepts exactly the encodings of contracts that
      satisfy the policy, both round trips hold, accepted memory maps are
      ordered and disjoint, errors name the first fault, the builder accepts
      exactly the maps that fit, and nothing panics.
    - ELF: the validator is exactly the policy; the iterator visits exactly the
      load segments; they are page-separate, inside the load window and never
      writable and executable; the entry lies in one executable segment.
    - Loader: memory after loading is exactly the image the file describes, the
      bounded file read terminates and is exact, the memory map is handed over
      entry by entry, and the loader never panics and ends in one of four ways,
      each with its cause: a failure record (preparation or memory map), the
      firmware's cold reset, or the three handoff records and the jump.
    - Kernel and console: success is reported exactly for a valid normal
      contract, every entry reports exactly once, the length record is about the
      supplied length only, records reach the debug console whatever the UART
      does, and the copy to the UART is bounded.
    - Host: the log grammar is the boot state machine, classification is exact,
      an accepted run followed its scenario record by record, the observer of
      the growing log is exact, host and loader agree on scenario files.
    - Boot images: the validator accepts exactly the declared layout, files of the
      volume are read exactly, what the builder returns reads back, and what the
      image command writes passes the checks of a later boot test.
    - Boots on the host: no program runs before the image is validated, and only
      copies of exactly the validated bytes are booted, each at its place on the
      command line; a boot always ends and has waited for its processes; a
      baseline consists of validated boots of one identity and its statistics
      are order statistics; the linker map is written where it is checked.
    - Host effects: files are replaced atomically, an execution ends and makes a
      wait for every process it started (which reaps it unless the call fails),
      UTF-8 paths cannot inject emulator options, and outside of help the request
      is exactly what the options say, none of them ignored.
    - The program: every request a command line can make is well typed; xtask
      exits with 0 or 1, or panics because a standard stream cannot be written; it
      waits for its processes, removes its temporary directories and prints one
      result or one error; status 0 means that the command did its work.
    - Reproducibility: a successful check means two independent builds whose
      loaders, kernels and images have equal bytes and no host path in them, and
      the requested outputs hold these bytes (the linker map is the first build's,
      neither compared nor scanned); the path scan and the flag encoding are exact.
    - Inspection: an accepted kernel has the layout of the linker script, loading
      it leaves the stack guard page alone and zeroes .bss and the stack, and the
      linker map is read without ambiguity.
    - Entry and layout: the shim's code does what its model says from any processor
      state; for non-empty sections the script can only fail on the load limit,
      and any linker output that is as the script says passes the inspection and
      is entered.
    - End to end: for every firmware within its laws, the host's reading of a boot
      of the built kernel is the one the scenario calls for, and a cold reset is
      read as an unexpected exit or a timeout; an image the host validates never
      fails in the loader for its contents; and on an emulator that runs the
      guest in time, [run_boot] accepts every validated image with the built
      kernel and the boot-test command exits with 0.
    - Compiler and artifacts: the lexer cuts the source into ordered, exact
      spans; the first difference is the first; digests render injectively.

    ** Bounds and fuel

    [loop_pow2 n] runs a body at most [2 ^ n] times.  The loader's file read uses
    [n = 25]: the file limit is 16 MiB and every iteration but the last reads a
    byte, so [2 ^ 25] iterations suffice, as [bounded_read_is_exact] shows.
    The segment iterations have the number of program headers and one as fuel,
    UTF-8 decoding the number of bytes, lexing the number of characters and one,
    the log cursor the length of the file and one, a file of the boot volume
    [loop_pow2 25] for its 24 MiB, a directory listing its bound of expected
    entries and three, the wait loop the timeout divided by the poll interval
    and two, [write_all] the number of bytes; in each case the theorems
    show the result, not only its correctness if there is one.  The UART poll
    is the code's own bound of 4096; the shim has its longest path of 21
    instructions.  [usize] has 64 bits, as on both targets.

    ** What is not modelled

    The instructions of the transfer from the loader, page tables, non-maskable
    interrupts and the firmware itself; the compiled code of the kernel, for which
    the model of its source stands ([RunsKernel]); the linker beyond what its script
    says; what a guest does after a cold reset; the texts of error messages and of
    JSON.
    Code of other crates (uefi, gpt, fatfs, uuid, sha2, serde_json,
    ovmf-prebuilt) is a parameter. *)

From stdpp Require Export base list numbers option strings.
From Stdlib Require Export Lia ZArith Sorting.Sorted.

#[global] Open Scope Z_scope.

(** * Outcomes of a Rust computation

    The boot crates are compiled with [overflow-checks = true] and
    [panic = "abort"] (profile [boot] of Cargo.toml), so a computation either
    returns a value, returns an error, or panics: an index out of range, an
    arithmetic overflow, a failed assertion.  Panics are kept as a third
    outcome, so that their absence is a theorem and not an assumption. *)
Inductive exec (E A : Type) : Type :=
| Ok (a : A)
| Err (e : E)
| Panic.
Arguments Ok {E A} a.
Arguments Err {E A} e.
Arguments Panic {E A}.

#[global] Instance exec_ret E : MRet (exec E) := fun A a => Ok a.
#[global] Instance exec_bind E : MBind (exec E) := fun A B f m =>
  match m with
  | Ok a => f a
  | Err e => Err e
  | Panic => Panic
  end.
#[global] Instance exec_fmap E : FMap (exec E) := fun A B f m =>
  match m with
  | Ok a => Ok (f a)
  | Err e => Err e
  | Panic => Panic
  end.

(** [if c { return Err(e) }] *)
Definition fail_if {E} (c : bool) (e : E) : exec E unit :=
  if c then Err e else Ok tt.

(** [Option::ok_or] *)
Definition ok_or {E A} (o : option A) (e : E) : exec E A :=
  match o with Some a => Ok a | None => Err e end.

(** [Result::map_err] *)
Definition map_err {E F A} (f : E -> F) (m : exec E A) : exec F A :=
  match m with
  | Ok a => Ok a
  | Err e => Err (f e)
  | Panic => Panic
  end.

(** [Option::expect] and array indexing: a missing value is a panic. *)
Definition or_panic {E A} (o : option A) : exec E A :=
  match o with Some a => Ok a | None => Panic end.

Definition is_ok {E A} (m : exec E A) : bool :=
  match m with Ok _ => true | _ => false end.

Section Outcomes.
Context {E : Type}.

Lemma is_ok_ex {A} (m : exec E A) : is_ok m = true -> exists a, m = Ok a.
Proof. destruct m; naive_solver. Qed.

Lemma bind_Ok {A B} (m : exec E A) (f : A -> exec E B) b :
  m ≫= f = Ok b <-> exists a, m = Ok a /\ f a = Ok b.
Proof. destruct m; simpl; split; try naive_solver. Qed.

Lemma bind_Err {A B} (m : exec E A) (f : A -> exec E B) e :
  m ≫= f = Err e <-> m = Err e \/ exists a, m = Ok a /\ f a = Err e.
Proof. destruct m; simpl; split; naive_solver. Qed.

Lemma bind_Panic {A B} (m : exec E A) (f : A -> exec E B) :
  m ≫= f = Panic <-> m = Panic \/ exists a, m = Ok a /\ f a = Panic.
Proof. destruct m; simpl; split; naive_solver. Qed.

Lemma bind_no_panic {A B} (m : exec E A) (f : A -> exec E B) :
  m <> Panic -> (forall a, m = Ok a -> f a <> Panic) -> m ≫= f <> Panic.
Proof. destruct m; simpl; naive_solver. Qed.

Lemma bind_assoc {A B C} (m : exec E A) (f : A -> exec E B) (g : B -> exec E C) :
  (m ≫= f) ≫= g = m ≫= (fun a => f a ≫= g).
Proof. by destruct m. Qed.

Lemma fail_if_Ok c (e : E) u : fail_if c e = Ok u <-> c = false.
Proof. destruct c, u; simpl; naive_solver. Qed.

Lemma fail_if_Err c (e e' : E) : fail_if c e = Err e' <-> c = true /\ e' = e.
Proof. destruct c; simpl; naive_solver. Qed.

Lemma fail_if_no_panic c (e : E) : fail_if c e <> Panic.
Proof. by destruct c. Qed.

Lemma ok_or_Ok {A} (o : option A) (e : E) a : ok_or o e = Ok a <-> o = Some a.
Proof. destruct o; simpl; naive_solver. Qed.

Lemma ok_or_Err {A} (o : option A) (e e' : E) :
  ok_or o e = Err e' <-> o = None /\ e' = e.
Proof. destruct o; simpl; naive_solver. Qed.

Lemma ok_or_no_panic {A} (o : option A) (e : E) : ok_or o e <> Panic.
Proof. by destruct o. Qed.

Lemma map_err_Ok {F A} (f : E -> F) (m : exec E A) a :
  map_err f m = Ok a <-> m = Ok a.
Proof. destruct m; simpl; naive_solver. Qed.

Lemma map_err_no_panic {F A} (f : E -> F) (m : exec E A) :
  m <> Panic -> map_err f m <> Panic.
Proof. by destruct m. Qed.

Lemma or_panic_Ok {A} (o : option A) a : or_panic (E:=E) o = Ok a <-> o = Some a.
Proof. destruct o; simpl; naive_solver. Qed.
End Outcomes.

(** The guards of a computation that returned [Ok], as a conjunction. *)
Lemma bind_fail_if {E A} c (e : E) (k : exec E A) a :
  (fail_if c e ;; k) = Ok a <-> c = false /\ k = Ok a.
Proof. destruct c; simpl; naive_solver. Qed.

Lemma bind_unit {E A} (m : exec E unit) (k : exec E A) a :
  (m ;; k) = Ok a <-> m = Ok tt /\ k = Ok a.
Proof. destruct m as [[]| |]; simpl; naive_solver. Qed.

(** Sequencing after a value, without unfolding the rest. *)
Lemma bind_value {E A B} (a : A) (k : A -> exec E B) : (Ok a ≫= k) = k a.
Proof. done. Qed.

Lemma fail_if_tt {E} c (e : E) : fail_if c e = Ok tt <-> c = false.
Proof. apply fail_if_Ok. Qed.

(** Turns boolean guards into arithmetic facts, in the goal and in the context. *)
Ltac bool_solve :=
  repeat progress
    (rewrite ?negb_involutive, ?negb_false_iff, ?negb_true_iff, ?orb_false_iff,
      ?orb_true_iff, ?andb_true_iff, ?andb_false_iff, ?bool_decide_eq_true,
      ?bool_decide_eq_false, ?Z.eqb_eq, ?Z.eqb_neq, ?Z.ltb_ge, ?Z.leb_le,
      ?Z.leb_gt, ?Z.ltb_lt in * ).

(** Evaluates a decidable proposition about closed terms. *)
Ltac by_decide := apply (bool_decide_unpack _); vm_compute; exact I.

(** Hint database of panic freedom: [auto with nopanic] discharges the routine
    steps, each component adds its own operations. *)
Create HintDb nopanic.
#[export] Hint Resolve bind_no_panic fail_if_no_panic ok_or_no_panic
  map_err_no_panic : nopanic.
#[export] Hint Extern 1 (Ok _ <> Panic) => discriminate : nopanic.
#[export] Hint Extern 1 (Err _ <> Panic) => discriminate : nopanic.

(** Splits every step of a successful (or failing) monadic computation in the
    context into its intermediate results. *)
Ltac inv_exec_step :=
  match goal with
  | H : (_ ≫= _) = Ok _ |- _ =>
      apply bind_Ok in H; destruct H as (? & ? & H)
  | H : fail_if _ _ = Ok ?u |- _ => apply fail_if_Ok in H; try clear u
  | H : ok_or _ _ = Ok _ |- _ => apply ok_or_Ok in H
  | H : or_panic _ = Ok _ |- _ => apply or_panic_Ok in H
  | H : map_err _ _ = Ok _ |- _ => apply map_err_Ok in H
  | H : Ok _ = Ok _ |- _ => injection H as H
  | H : Err _ = Ok _ |- _ => discriminate H
  | H : Panic = Ok _ |- _ => discriminate H
  end.
Ltac inv_exec := repeat (inv_exec_step; simplify_eq).

(** * Machine integers

    A Rust [uN] is a [Z] in the range [0, 2^N); [usize] is 64 bits wide, the
    width of the two boot targets and of the supported hosts. *)
Definition uint (w x : Z) : Prop := 0 <= x < 2 ^ w.
#[global] Instance uint_dec w x : Decision (uint w x).
Proof. unfold uint. apply _. Defined.

Definition u64_MAX : Z := 2 ^ 64 - 1.

(** [checked_add] and [checked_mul] on a [w]-bit type. *)
Definition checked_add (w a b : Z) : option Z :=
  if a + b <? 2 ^ w then Some (a + b) else None.
Definition checked_mul (w a b : Z) : option Z :=
  if a * b <? 2 ^ w then Some (a * b) else None.
(** [checked_sub] on an unsigned type. *)
Definition checked_sub (a b : Z) : option Z :=
  if b <=? a then Some (a - b) else None.
(** The plain operators: an overflow is a panic under [overflow-checks]. *)
Definition add_panic {E} (w a b : Z) : exec E Z := or_panic (checked_add w a b).
Definition sub_panic {E} (a b : Z) : exec E Z := or_panic (checked_sub a b).
(** [!x] on a [w]-bit type. *)
Definition bitnot (w x : Z) : Z := Z.lxor x (Z.ones w).
(** [u64::try_from] of a wider or equally wide unsigned value. *)
Definition try_uint (w x : Z) : option Z := if x <? 2 ^ w then Some x else None.
(** [is_power_of_two] *)
Definition is_power_of_two (x : Z) : bool :=
  (0 <? x) && (Z.land x (x - 1) =? 0).
(** [div_ceil] *)
Definition div_ceil (a b : Z) : Z := (a + b - 1) / b.

Lemma checked_add_Some w a b c :
  checked_add w a b = Some c <-> c = a + b /\ a + b < 2 ^ w.
Proof. unfold checked_add. destruct (Z.ltb_spec (a + b) (2 ^ w)); naive_solver lia. Qed.

Lemma checked_add_None w a b : checked_add w a b = None <-> 2 ^ w <= a + b.
Proof. unfold checked_add. destruct (Z.ltb_spec (a + b) (2 ^ w)); naive_solver lia. Qed.

Lemma checked_mul_Some w a b c :
  checked_mul w a b = Some c <-> c = a * b /\ a * b < 2 ^ w.
Proof. unfold checked_mul. destruct (Z.ltb_spec (a * b) (2 ^ w)); naive_solver lia. Qed.

Lemma checked_sub_Some a b c : checked_sub a b = Some c <-> c = a - b /\ b <= a.
Proof. unfold checked_sub. destruct (Z.leb_spec b a); naive_solver lia. Qed.

Lemma try_uint_Some w a b : try_uint w a = Some b -> b = a.
Proof. unfold try_uint. destruct (a <? 2 ^ w); naive_solver. Qed.

Lemma add_panic_Ok {E} w a b c :
  add_panic (E:=E) w a b = Ok c <-> c = a + b /\ a + b < 2 ^ w.
Proof. unfold add_panic. by rewrite or_panic_Ok, checked_add_Some. Qed.

Lemma add_panic_exact {E} w a b :
  a + b < 2 ^ w -> add_panic (E:=E) w a b = Ok (a + b).
Proof. intros. by apply add_panic_Ok. Qed.

Lemma sub_panic_exact {E} a b : b <= a -> sub_panic (E:=E) a b = Ok (a - b).
Proof. intros. unfold sub_panic. apply or_panic_Ok. by apply checked_sub_Some. Qed.

(** The bits of [x] outside a mask: zero exactly when [x] lies in the mask. *)
Lemma land_bitnot w x m :
  0 <= w -> uint w x -> uint w m -> Z.land x (bitnot w m) = Z.ldiff x m.
Proof.
  intros Hw Hx Hm. unfold bitnot. apply Z.bits_inj'. intros n Hn.
  rewrite Z.land_spec, Z.lxor_spec, Z.ldiff_spec.
  destruct (Z.ltb_spec n w) as [Hlt|Hge].
  - rewrite Z.ones_spec_low by lia. by rewrite xorb_true_r.
  - destruct Hx as [Hx0 Hx]. destruct (decide (x = 0)) as [->|].
    + by rewrite Z.bits_0.
    + rewrite (Z.bits_above_log2 x n); [done|done|].
      apply Z.log2_lt_pow2; [lia|].
      eapply Z.lt_le_trans; [exact Hx|]. apply Z.pow_le_mono_r; lia.
Qed.

Lemma land_bitnot_0 w x :
  0 <= w -> uint w x -> Z.land x (bitnot w 0) = x.
Proof.
  intros. rewrite land_bitnot by (unfold uint in *; lia). apply Z.ldiff_0_r.
Qed.

Lemma ldiff_1_eq_0 x : 0 <= x -> Z.ldiff x 1 = 0 <-> x = 0 \/ x = 1.
Proof.
  intros Hx. split; [|by intros [->| ->]].
  intros H. assert (x = Z.land x 1) as Hl.
  { apply Z.bits_inj'. intros n Hn. rewrite Z.land_spec.
    apply (f_equal (fun z => Z.testbit z n)) in H.
    rewrite Z.ldiff_spec, Z.bits_0 in H.
    destruct (Z.testbit x n), (Z.testbit 1 n); simpl in *; congruence. }
  change 1 with (Z.ones 1) in Hl. rewrite Z.land_ones in Hl by lia.
  pose proof (Z.mod_pos_bound x (2 ^ 1)). lia.
Qed.

(** * State threaded through fallible code

    Methods on [&mut self] are functions of the state; sequencing stops at the
    first error or panic. *)
Definition st (S E A : Type) : Type := S -> exec E (A * S).

#[global] Instance st_ret S E : MRet (st S E) := fun A a s => Ok (a, s).
#[global] Instance st_bind S E : MBind (st S E) := fun A B f m s =>
  match m s with
  | Ok (a, s') => f a s'
  | Err e => Err e
  | Panic => Panic
  end.

Lemma st_bind_Ok {S E A B} (m : st S E A) (f : A -> st S E B) s a s' :
  m s = Ok (a, s') -> (m ≫= f) s = f a s'.
Proof. intros H. unfold mbind, st_bind. by rewrite H. Qed.

Lemma st_bind_inv {S E A B} (m : st S E A) (f : A -> st S E B) s b s'' :
  (m ≫= f) s = Ok (b, s'') -> exists a s', m s = Ok (a, s') /\ f a s' = Ok (b, s'').
Proof. unfold mbind, st_bind. intros H. destruct (m s) as [[a s']|e|]; eauto; done. Qed.

(** [for x in l { body(x) }] *)
Fixpoint for_each {S E A} (body : A -> st S E unit) (l : list A) : st S E unit :=
  match l with
  | [] => mret tt
  | x :: t => body x ;; for_each body t
  end.

(** [for _ in 0..n { out.push(get()) }]: [n] results in order. *)
Fixpoint repeat_n {S E A} (n : nat) (get : st S E A) : st S E (list A) :=
  match n with
  | O => mret []
  | Datatypes.S n => x ← get; t ← repeat_n n get; mret (x :: t)
  end.

(** ** Filters *)
Lemma filter_none {A} (P : A -> Prop) `{forall x, Decision (P x)} (l : list A) :
  (forall x, x ∈ l -> ~ P x) -> filter P l = [].
Proof.
  induction l as [|x l IH]; intros Hl; [done|]. rewrite filter_cons_False by (apply Hl; left).
  apply IH. intros y Hy. apply Hl. by right.
Qed.

Lemma filter_all {A} (P : A -> Prop) `{forall x, Decision (P x)} (l : list A) :
  (forall x, x ∈ l -> P x) -> filter P l = l.
Proof.
  induction l as [|x l IH]; intros Hl; [done|]. rewrite filter_cons_True by (apply Hl; left).
  f_equal. apply IH. intros y Hy. apply Hl. by right.
Qed.

(** * Sorted lists *)
Lemma StronglySorted_lookup {A} (R : A -> A -> Prop) l :
  StronglySorted R l ->
  forall i j x y, (i < j)%nat -> l !! i = Some x -> l !! j = Some y -> R x y.
Proof.
  induction 1 as [|a l Hl IH Ha]; [done|]. intros [|i] [|j] x y Hij Hx Hy; simpl in *; try lia.
  - simplify_eq. rewrite Forall_forall in Ha. apply Ha. eapply list_elem_of_lookup_2, Hy.
  - eapply IH; [|done..]. lia.
Qed.

Lemma StronglySorted_snoc {A} (R : A -> A -> Prop) l x :
  StronglySorted R (l ++ [x]) <-> StronglySorted R l /\ Forall (fun y => R y x) l.
Proof.
  induction l as [|y l IH]; simpl.
  - split; [intros _; split; constructor|intros _; repeat constructor].
  - split.
    + inversion 1 as [|? ? Hs Hf]; subst. apply IH in Hs as [Hs Hx].
      apply Forall_app in Hf as [Hf Hy]. inversion Hy; subst. by repeat constructor.
    + intros [Hs Hf]. inversion Hs; subst. inversion Hf; subst.
      constructor; [by apply IH|]. apply Forall_app_2; [done|by constructor].
Qed.

(** * Loops

    [loop]s and [while]s whose number of iterations is bounded by a large
    number: at most [2 ^ n] iterations of [body], run lazily, so that the
    bound costs nothing when the loop stops early. *)
Inductive flow (S R : Type) : Type :=
| Continue (s : S)
| Break (r : R).
Arguments Continue {S R} s.
Arguments Break {S R} r.

Fixpoint loop_pow2 {S R} (n : nat) (body : S -> flow S R) (s : S) : flow S R :=
  match n with
  | O => body s
  | Datatypes.S n =>
      match loop_pow2 n body s with
      | Continue s => loop_pow2 n body s
      | Break r => Break r
      end
  end.

(** A body that decreases a measure breaks within the bound. *)
Lemma loop_pow2_breaks {S R} (body : S -> flow S R) (Inv : S -> Prop) (measure : S -> Z) n :
  (forall s s', Inv s -> body s = Continue s' -> Inv s' /\ 0 <= measure s' < measure s) ->
  forall s, Inv s ->
  match loop_pow2 n body s with
  | Continue s' => Inv s' /\ 0 <= measure s' /\ measure s' + 2 ^ Z.of_nat n <= measure s
  | Break r => True
  end.
Proof.
  intros Hb. induction n as [|n IH]; intros s Hs; cbn [loop_pow2].
  - destruct (body s) as [s'|] eqn:E; [|done]. destruct (Hb s s' Hs E) as [? ?]. change (2 ^ Z.of_nat 0) with 1.
    split_and!; [done|lia..].
  - specialize (IH s Hs) as H1. destruct (loop_pow2 n body s) as [s'|]; [|done].
    destruct H1 as (Hi & _ & H1). specialize (IH s' Hi) as H2.
    destruct (loop_pow2 n body s') as [s''|]; [|done].
    destruct H2 as (? & ? & H2). split_and!; [done..|].
    rewrite Nat2Z.inj_succ, Z.pow_succ_r by lia. lia.
Qed.

(** Whatever the body keeps true holds of what the loop returns. *)
Lemma loop_pow2_ind {S R} (body : S -> flow S R) (Inv : S -> Prop) (Post : R -> Prop) n :
  (forall s, Inv s -> match body s with Continue s' => Inv s' | Break r => Post r end) ->
  forall s, Inv s -> match loop_pow2 n body s with Continue s' => Inv s' | Break r => Post r end.
Proof.
  intros Hb. induction n as [|n IH]; intros s Hs; cbn [loop_pow2]; [by apply Hb|].
  specialize (IH s Hs) as H1. destruct (loop_pow2 n body s) as [s'|]; [by apply IH|done].
Qed.

(** A loop whose body keeps [Inv], decreases a measure below [2 ^ n] and
    establishes [Post] when it stops, stops with [Post]. *)
Lemma loop_pow2_total {S R} (body : S -> flow S R) (Inv : S -> Prop) (Post : R -> Prop)
    (measure : S -> Z) n s :
  (forall s, Inv s -> match body s with
    | Continue s' => Inv s' /\ 0 <= measure s' < measure s
    | Break r => Post r end) ->
  Inv s -> measure s < 2 ^ Z.of_nat n ->
  exists r, loop_pow2 n body s = Break r /\ Post r.
Proof.
  intros Hb Hs Hm.
  pose proof (loop_pow2_breaks body Inv measure n) as H1.
  pose proof (loop_pow2_ind body Inv Post n) as H2.
  specialize (H1 ltac:(intros t t' Ht E; specialize (Hb t Ht); by rewrite E in Hb) s Hs).
  specialize (H2 ltac:(intros t Ht; specialize (Hb t Ht); destruct (body t); tauto) s Hs).
  destruct (loop_pow2 n body s) as [s'|r]; [lia|by exists r].
Qed.
