(* ===== verification/Bytes.v ===== *)
(** Byte strings: the slice operations and little-endian conversions of
    [core] that the boot crates use, and the checked field readers shared by
    the ELF validator (boot-elf) and the image validator (xtask).

    A [u8] is a [Z]; [is_bytes] is the typing invariant of a byte slice. *)

From S2P Require Import Prelude.

(** [slice.len()] as a machine integer. *)
Abbreviation len l := (Z.of_nat (length l)).

Definition is_bytes (l : list Z) : Prop := Forall (uint 8) l.
#[global] Instance is_bytes_dec l : Decision (is_bytes l).
Proof. unfold is_bytes. apply _. Defined.

(** The [n] elements from index [s]. *)
Definition sub_list {A} (l : list A) (s n : Z) : list A :=
  take (Z.to_nat n) (drop (Z.to_nat s) l).

(** [slice.get(s..e)] *)
Definition get_range {A} (l : list A) (s e : Z) : option (list A) :=
  if (s <=? e) && (e <=? len l) then Some (sub_list l s (e - s)) else None.

(** [&slice[s..e]]: panics where [get] returns [None]. *)
Definition index_range {E A} (l : list A) (s e : Z) : exec E (list A) :=
  or_panic (get_range l s e).

(** [slice.get(i)] *)
Definition get_at {A} (l : list A) (i : Z) : option A :=
  if (0 <=? i) && (i <? len l) then l !! Z.to_nat i else None.

(** [slice[i]] *)
Definition index_at {E A} (l : list A) (i : Z) : exec E A := or_panic (get_at l i).

(** [uN::from_le_bytes] and [uN::to_le_bytes]. *)
Fixpoint from_le_bytes (l : list Z) : Z :=
  match l with
  | [] => 0
  | b :: t => b + 256 * from_le_bytes t
  end.

Fixpoint to_le_bytes (n : nat) (v : Z) : list Z :=
  match n with
  | O => []
  | S n => v mod 256 :: to_le_bytes n (v / 256)
  end.

(** ** Slices *)
Section Slices.
Context {A : Type}.
Implicit Types l : list A.

Lemma get_range_Some l s e r :
  0 <= s ->
  get_range l s e = Some r <-> s <= e <= len l /\ r = sub_list l s (e - s).
Proof.
  intros Hs. unfold get_range.
  destruct (Z.leb_spec s e), (Z.leb_spec e (len l)); simpl; naive_solver lia.
Qed.

Lemma get_range_exact l s e :
  s <= e -> e <= len l -> get_range l s e = Some (sub_list l s (e - s)).
Proof.
  intros. unfold get_range.
  destruct (Z.leb_spec s e), (Z.leb_spec e (len l)); simpl; auto; lia.
Qed.

Lemma index_range_exact {E} l s e :
  s <= e -> e <= len l -> index_range (E:=E) l s e = Ok (sub_list l s (e - s)).
Proof. intros. unfold index_range. by rewrite get_range_exact. Qed.

Lemma index_range_prefix {E} l n :
  0 <= n <= len l -> index_range (E:=E) l 0 n = Ok (take (Z.to_nat n) l).
Proof. intros. rewrite index_range_exact by lia. unfold sub_list. by rewrite Z.sub_0_r. Qed.

Lemma index_range_drop {E} l n :
  0 <= n <= len l -> index_range (E:=E) l n (len l) = Ok (drop (Z.to_nat n) l).
Proof.
  intros. rewrite index_range_exact by lia. unfold sub_list.
  rewrite take_ge; [done|]. rewrite length_drop. lia.
Qed.

Lemma length_sub_list l s n :
  0 <= s -> 0 <= n -> s + n <= len l -> len (sub_list l s n) = n.
Proof. intros. unfold sub_list. rewrite length_take, length_drop. lia. Qed.

Lemma sub_list_app_mid l1 l2 l3 :
  sub_list (l1 ++ l2 ++ l3) (len l1) (len l2) = l2.
Proof. unfold sub_list. by rewrite !Nat2Z.id, drop_app_length, take_app_length. Qed.

Lemma sub_list_all l : sub_list l 0 (len l) = l.
Proof. unfold sub_list. rewrite Nat2Z.id. simpl. by rewrite drop_0, firstn_all. Qed.

(** Two consecutive ranges make one. *)
Lemma sub_list_split l s n m :
  0 <= s -> 0 <= n -> 0 <= m ->
  sub_list l s (n + m) = sub_list l s n ++ sub_list l (s + n) m.
Proof.
  intros. unfold sub_list. rewrite !Z2Nat.inj_add by lia.
  by rewrite <- drop_drop, <- take_take_drop.
Qed.

(** A range of a range. *)
Lemma sub_list_sub_list l a n b m :
  0 <= a -> 0 <= b -> 0 <= m -> b + m <= n ->
  sub_list (sub_list l a n) b m = sub_list l (a + b) m.
Proof.
  intros. unfold sub_list. rewrite skipn_firstn_comm, drop_drop, take_take. f_equal; [|f_equal]; lia.
Qed.

Lemma sub_list_Forall (P : A -> Prop) l s n :
  Forall P l -> Forall P (sub_list l s n).
Proof. intros. unfold sub_list. by apply Forall_take, Forall_drop. Qed.

(** A range of a list is the middle of a split of that list. *)
Lemma sub_list_decompose l s n :
  0 <= s -> 0 <= n -> s + n <= len l ->
  l = take (Z.to_nat s) l ++ sub_list l s n ++ drop (Z.to_nat (s + n)) l.
Proof.
  intros. unfold sub_list. rewrite Z2Nat.inj_add by lia.
  rewrite <- drop_drop, take_drop. by rewrite take_drop.
Qed.

Lemma get_at_Some l i x :
  get_at l i = Some x <-> 0 <= i /\ l !! Z.to_nat i = Some x.
Proof.
  unfold get_at. destruct (Z.leb_spec 0 i), (Z.ltb_spec i (len l)); simpl.
  - naive_solver.
  - split; [done|]. intros [_ Hx]. apply lookup_lt_Some in Hx. lia.
  - split; [done|]. lia.
  - split; [done|]. lia.
Qed.

Lemma get_at_lt l i : 0 <= i < len l -> is_Some (get_at l i).
Proof.
  intros. destruct (lookup_lt_is_Some_2 l (Z.to_nat i)) as [x Hx]; [lia|].
  exists x. apply get_at_Some. auto with lia.
Qed.

Lemma sub_list_1 l i x : get_at l i = Some x -> sub_list l i 1 = [x].
Proof.
  rewrite get_at_Some. intros [_ H]. unfold sub_list.
  rewrite <- (take_drop_middle l _ x H) at 1.
  rewrite drop_app_ge; rewrite length_take_le;
    try (apply lookup_lt_Some in H; lia).
  by rewrite Nat.sub_diag.
Qed.
End Slices.

Lemma is_bytes_app l1 l2 : is_bytes l1 -> is_bytes l2 -> is_bytes (l1 ++ l2).
Proof. apply Forall_app_2. Qed.

(** ** Little-endian integers *)
Lemma length_to_le_bytes n v : length (to_le_bytes n v) = n.
Proof. revert v. induction n; simpl; auto. Qed.

Lemma to_le_bytes_is_bytes n v : is_bytes (to_le_bytes n v).
Proof.
  revert v. induction n as [|n IH]; intros; [constructor|].
  constructor; [|apply IH]. unfold uint. apply Z.mod_pos_bound. lia.
Qed.

Lemma from_le_bytes_range l :
  is_bytes l -> uint (8 * len l) (from_le_bytes l).
Proof.
  unfold uint. induction 1 as [|b t Hb Ht IH]; [simpl; lia|].
  cbn [from_le_bytes length]. unfold uint in Hb.
  replace (8 * Z.of_nat (S (length t))) with (8 + 8 * len t) by lia.
  rewrite Z.pow_add_r by lia. change (2 ^ 8) with 256 in *. lia.
Qed.

Lemma from_to_le_bytes n v :
  uint (8 * Z.of_nat n) v -> from_le_bytes (to_le_bytes n v) = v.
Proof.
  revert v. induction n as [|n IH]; intros v Hv.
  - unfold uint in Hv. simpl in *. change (2 ^ (8 * 0)) with 1 in Hv. lia.
  - cbn [to_le_bytes from_le_bytes]. rewrite IH.
    + pose proof (Z.div_mod v 256). lia.
    + unfold uint in *.
      replace (8 * Z.of_nat (S n)) with (8 + 8 * Z.of_nat n) in Hv by lia.
      rewrite Z.pow_add_r in Hv by lia. change (2 ^ 8) with 256 in Hv.
      split; [apply Z.div_pos; lia|]. apply Z.div_lt_upper_bound; lia.
Qed.

Lemma to_from_le_bytes l :
  is_bytes l -> to_le_bytes (length l) (from_le_bytes l) = l.
Proof.
  induction 1 as [|b t Hb Ht IH]; [done|].
  cbn [from_le_bytes to_le_bytes length]. unfold uint in Hb. change (2 ^ 8) with 256 in Hb.
  rewrite (Z.mul_comm 256), Z.mod_add, Z.mod_small by lia.
  rewrite Z.div_add, Z.div_small by lia. by rewrite Z.add_0_l, IH.
Qed.

#[global] Arguments from_le_bytes : simpl never.
#[global] Arguments to_le_bytes : simpl never.

(** ** Checked reads at an offset (boot-elf, xtask image) *)

(** [read_array]: the [n] bytes at [offset], if they are all in the slice. *)
Definition read_array (n : Z) (bytes : list Z) (offset : Z) : option (list Z) :=
  e ← checked_add 64 offset n; get_range bytes offset e.

Definition read_u16 (bytes : list Z) (offset : Z) : option Z :=
  from_le_bytes <$> read_array 2 bytes offset.
Definition read_u32 (bytes : list Z) (offset : Z) : option Z :=
  from_le_bytes <$> read_array 4 bytes offset.
Definition read_u64 (bytes : list Z) (offset : Z) : option Z :=
  from_le_bytes <$> read_array 8 bytes offset.

(** Slices are at most [isize::MAX] bytes long. *)
Definition slice_ok (bytes : list Z) : Prop :=
  is_bytes bytes /\ len bytes < 2 ^ 63.

Section Reads.
Variable bytes : list Z.
Hypothesis Hbytes : slice_ok bytes.

Lemma read_array_exact n offset :
  0 <= offset -> 0 <= n -> offset + n <= len bytes ->
  read_array n bytes offset = Some (sub_list bytes offset n).
Proof.
  destruct Hbytes. intros. unfold read_array, checked_add.
  destruct (Z.ltb_spec (offset + n) (2 ^ 64)); [|lia]. simpl.
  rewrite get_range_exact by lia. do 2 f_equal. lia.
Qed.

Lemma read_array_Some n offset l :
  0 <= offset -> 0 <= n -> read_array n bytes offset = Some l ->
  offset + n <= len bytes /\ l = sub_list bytes offset n.
Proof.
  intros ? ? H. unfold read_array in H.
  apply bind_Some in H as (e & He & H).
  apply checked_add_Some in He as [-> _].
  apply get_range_Some in H as [? ->]; [|done].
  split; [lia|f_equal; lia].
Qed.

Lemma sub_list_uint offset n :
  0 <= offset -> 0 <= n -> offset + n <= len bytes ->
  uint (8 * n) (from_le_bytes (sub_list bytes offset n)).
Proof.
  intros. rewrite <- (length_sub_list bytes offset n) at 1 by done.
  apply from_le_bytes_range, sub_list_Forall, Hbytes.
Qed.
End Reads.
