(* ===== verification/ByteCodec.v ===== *)
(** The byte cursor of boot-contract ([Reader] and [Writer]) and the interface
    between a record and its serialized form.

    [Codec get put wf size] states what the contract parser relies on for each
    record of the ABI: [get] consumes exactly [size] bytes and never panics
    inside the buffer, [put] is the little-endian layout of the record, and the
    two are inverse on well-typed records. *)

From S2P Require Import Prelude Bytes.

Record Reader := mkReader { rd_bytes : list Z; rd_position : Z }.

Definition Reader_new (bytes : list Z) : Reader := mkReader bytes 0.

(** The common body of [array_8], [u16], [u32] and [u64]: copy the [n] bytes at
    the cursor and advance it. *)
Definition Reader_take {E} (n : Z) : st Reader E (list Z) := fun r =>
  e ← add_panic 64 (rd_position r) n;
  value ← index_range (rd_bytes r) (rd_position r) e;
  position ← add_panic 64 (rd_position r) n;
  Ok (value, mkReader (rd_bytes r) position).

Definition Reader_array_8 {E} : st Reader E (list Z) := Reader_take 8.
Definition Reader_u16 {E} : st Reader E Z := v ← Reader_take 2; mret (from_le_bytes v).
Definition Reader_u32 {E} : st Reader E Z := v ← Reader_take 4; mret (from_le_bytes v).
Definition Reader_u64 {E} : st Reader E Z := v ← Reader_take 8; mret (from_le_bytes v).

Record Writer := mkWriter { wr_bytes : list Z; wr_position : Z }.

Definition Writer_new (bytes : list Z) : Writer := mkWriter bytes 0.

(** [Writer::bytes]: overwrite the range at the cursor and advance it. *)
Definition Writer_bytes {E} (value : list Z) : st Writer E unit := fun w =>
  e ← add_panic 64 (wr_position w) (len value);
  _ ← index_range (wr_bytes w) (wr_position w) e;
  Ok (tt, mkWriter (take (Z.to_nat (wr_position w)) (wr_bytes w) ++ value
                      ++ drop (Z.to_nat e) (wr_bytes w)) e).

Definition Writer_u16 {E} (value : Z) : st Writer E unit := Writer_bytes (to_le_bytes 2 value).
Definition Writer_u32 {E} (value : Z) : st Writer E unit := Writer_bytes (to_le_bytes 4 value).
Definition Writer_u64 {E} (value : Z) : st Writer E unit := Writer_bytes (to_le_bytes 8 value).

(** ** The interface *)

(** A reader whose next [n] bytes are in the buffer. *)
Definition readable (r : Reader) (n : Z) : Prop :=
  slice_ok (rd_bytes r) /\ 0 <= rd_position r /\ 0 <= n /\
  rd_position r + n <= len (rd_bytes r).

Definition advance (r : Reader) (n : Z) : Reader :=
  mkReader (rd_bytes r) (rd_position r + n).

Definition next_bytes (r : Reader) (n : Z) : list Z :=
  sub_list (rd_bytes r) (rd_position r) n.

Class Codec {A : Type} (get : forall E, st Reader E A) (put : A -> list Z)
    (wf : A -> Prop) (size : Z) : Prop := {
  codec_size : 0 <= size;
  codec_get : forall E r, readable r size ->
    exists a, get E r = Ok (a, advance r size) /\ wf a /\ put a = next_bytes r size;
  codec_len : forall a, wf a -> len (put a) = size;
  codec_bytes : forall a, wf a -> is_bytes (put a);
  codec_inj : forall a b, wf a -> wf b -> put a = put b -> a = b
}.

(** ** Cursor arithmetic *)
Lemma readable_weaken r n m : readable r n -> 0 <= m <= n -> readable r m.
Proof. unfold readable. intuition lia. Qed.

Lemma readable_advance r n m :
  readable r (n + m) -> 0 <= n -> 0 <= m -> readable (advance r n) m.
Proof. unfold readable, advance. simpl. intuition lia. Qed.

Lemma advance_advance r n m : advance (advance r n) m = advance r (n + m).
Proof. unfold advance. simpl. f_equal. lia. Qed.

Lemma next_bytes_split r n m :
  0 <= rd_position r -> 0 <= n -> 0 <= m ->
  next_bytes r (n + m) = next_bytes r n ++ next_bytes (advance r n) m.
Proof. intros. unfold next_bytes, advance. simpl. by apply sub_list_split. Qed.

Lemma Reader_take_exact {E} r n :
  readable r n -> Reader_take (E:=E) n r = Ok (next_bytes r n, advance r n).
Proof.
  intros ([_ ?] & ? & ? & ?). unfold Reader_take.
  rewrite !add_panic_exact by lia. simpl.
  rewrite index_range_exact by lia. simpl. unfold next_bytes, advance.
  do 4 f_equal. lia.
Qed.

Lemma next_bytes_is_bytes r n : readable r n -> is_bytes (next_bytes r n).
Proof. intros [[? _] _]. by apply sub_list_Forall. Qed.

Lemma length_next_bytes r n : readable r n -> len (next_bytes r n) = n.
Proof. intros (_ & ? & ? & ?). by apply length_sub_list. Qed.

(** ** Primitive codecs *)
#[global] Instance Codec_array_8 :
  Codec (fun E => Reader_array_8 (E:=E)) id (fun l => is_bytes l /\ len l = 8) 8.
Proof.
  split; [lia| | tauto | tauto | done].
  intros E r Hr. exists (next_bytes r 8). unfold Reader_array_8.
  rewrite Reader_take_exact by done.
  auto using next_bytes_is_bytes, length_next_bytes.
Qed.

Lemma Codec_uint (n : nat) :
  Codec (fun E => (v ← Reader_take (E:=E) (Z.of_nat n); mret (from_le_bytes v)))
    (to_le_bytes n) (uint (8 * Z.of_nat n)) (Z.of_nat n).
Proof.
  split.
  - lia.
  - intros E r Hr. exists (from_le_bytes (next_bytes r (Z.of_nat n))).
    erewrite st_bind_Ok by (by apply Reader_take_exact). split; [done|].
    pose proof (length_next_bytes _ _ Hr) as Hl.
    pose proof (next_bytes_is_bytes _ _ Hr) as Hb. split.
    + rewrite <- Hl at 1. by apply from_le_bytes_range.
    + replace n with (length (next_bytes r (Z.of_nat n))) at 1 by lia.
      by apply to_from_le_bytes.
  - intros. by rewrite length_to_le_bytes.
  - intros. apply to_le_bytes_is_bytes.
  - intros a b Ha Hb H. apply (f_equal from_le_bytes) in H.
    by rewrite !from_to_le_bytes in H.
Qed.

#[global] Instance Codec_u16 :
  Codec (fun E => Reader_u16 (E:=E)) (to_le_bytes 2) (uint 16) 2 := Codec_uint 2.
#[global] Instance Codec_u32 :
  Codec (fun E => Reader_u32 (E:=E)) (to_le_bytes 4) (uint 32) 4 := Codec_uint 4.
#[global] Instance Codec_u64 :
  Codec (fun E => Reader_u64 (E:=E)) (to_le_bytes 8) (uint 64) 8 := Codec_uint 8.

(** ** Arrays of records *)
Section Arrays.
Context {A : Type} {get : forall E, st Reader E A} {put : A -> list Z}
  {wf : A -> Prop} {size : Z} `{!Codec get put wf size}.

Lemma concat_put_len l :
  Forall wf l -> len (concat (put <$> l)) = len l * size.
Proof.
  induction 1 as [|a l Ha Hl IH]; [simpl; lia|].
  cbn [fmap list_fmap concat length]. rewrite length_app, Nat2Z.inj_add, IH.
  rewrite (codec_len a Ha). lia.
Qed.

#[global] Instance Codec_array (n : nat) :
  Codec (fun E => repeat_n n (get E)) (fun l => concat (put <$> l))
    (fun l => length l = n /\ Forall wf l) (Z.of_nat n * size).
Proof.
  pose proof codec_size as Hs. split.
  - nia.
  - intros E. induction n as [|n IH]; intros r Hr.
    { exists []. unfold advance, next_bytes, sub_list. simpl.
      destruct r. simpl. rewrite Z.add_0_r. auto. }
    replace (Z.of_nat (S n) * size) with (size + Z.of_nat n * size) in * by lia.
    destruct (codec_get E r) as (a & Ha & Hwa & Hpa);
      [eapply readable_weaken; [done|nia]|].
    destruct (IH (advance r size)) as (t & Ht & [Hlt Hwt] & Hpt);
      [apply readable_advance; [done|lia|nia]|].
    exists (a :: t). cbn [repeat_n]. erewrite st_bind_Ok by done.
    erewrite st_bind_Ok by done. split_and!.
    + by rewrite advance_advance.
    + simpl. by f_equal.
    + by constructor.
    + cbn [fmap list_fmap concat]. rewrite next_bytes_split by (destruct Hr as (?&?&?&?); nia).
      congruence.
  - intros l [<- Hl]. by apply concat_put_len.
  - intros l [_ Hl]. clear Hs. induction Hl as [|a l Ha Hl IH]; [constructor|].
    simpl. apply Forall_app_2; [by apply codec_bytes|done].
  - intros l1. revert n. induction l1 as [|a l1 IH];
      intros n [|b l2] [<- H1] [H2 H3] Heq; try done.
    inversion H1; inversion H3; subst. simpl in Heq.
    assert (length (put a) = length (put b)) as Hlen.
    { pose proof (codec_len a). pose proof (codec_len b). naive_solver lia. }
    apply app_inj_1 in Heq as [Hh Ht]; [|done].
    f_equal; [by apply codec_inj|]. eapply (IH (length l1)); simpl in *; auto with lia.
Qed.
End Arrays.

(** ** Writers *)

(** [writes m l]: [m] replaces the next [len l] bytes by [l]. *)
Definition writes {E} (m : st Writer E unit) (l : list Z) : Prop :=
  forall pre old post,
    length old = length l -> len (pre ++ old ++ post) < 2 ^ 63 ->
    m (mkWriter (pre ++ old ++ post) (len pre))
    = Ok (tt, mkWriter (pre ++ l ++ post) (len pre + len l)).

Lemma writes_bytes {E} l : writes (E:=E) (Writer_bytes l) l.
Proof.
  intros pre old post Hlen Hmax. rewrite !length_app in Hmax. unfold Writer_bytes. simpl.
  rewrite add_panic_exact by lia. simpl.
  rewrite index_range_exact by (rewrite ?length_app; lia). simpl.
  do 3 f_equal. rewrite Nat2Z.id, take_app_length. do 2 f_equal.
  rewrite <- Nat2Z.inj_add, Nat2Z.id, <- Hlen, <- drop_drop.
  by rewrite drop_app_length, drop_app_length.
Qed.

Lemma writes_seq {E} (m1 m2 : st Writer E unit) l1 l2 :
  writes m1 l1 -> writes m2 l2 -> writes (m1 ;; m2) (l1 ++ l2).
Proof.
  intros H1 H2 pre old post Hlen Hmax.
  rewrite <- (take_drop (length l1) old) in Hmax |- *.
  set (o1 := take (length l1) old) in *. set (o2 := drop (length l1) old) in *.
  rewrite length_app in Hlen.
  assert (length o1 = length l1) as Ho1 by (unfold o1; rewrite length_take; lia).
  assert (length o2 = length l2) as Ho2 by (unfold o2; rewrite length_drop; lia).
  rewrite <- app_assoc. erewrite st_bind_Ok.
  2:{ apply H1; [done|]. revert Hmax. by rewrite <- app_assoc. }
  replace (pre ++ l1 ++ o2 ++ post) with ((pre ++ l1) ++ o2 ++ post) by by rewrite <- app_assoc.
  replace (len pre + len l1) with (len (pre ++ l1)) by (rewrite length_app; lia).
  rewrite H2; [|done|revert Hmax; rewrite !length_app; lia].
  do 3 f_equal; rewrite ?length_app, ?app_assoc; [done|lia].
Qed.

Lemma writes_nil {E} : writes (E:=E) (mret tt) [].
Proof.
  intros pre old post H _. apply nil_length_inv in H as ->. simpl.
  unfold mret, st_ret. by rewrite Z.add_0_r.
Qed.

Lemma writes_for_each {E A} (body : A -> st Writer E unit) (put : A -> list Z) l :
  (forall a, writes (body a) (put a)) ->
  writes (for_each body l) (concat (put <$> l)).
Proof.
  intros Hb. induction l as [|a l IH]; [apply writes_nil|].
  apply writes_seq; [apply Hb|apply IH].
Qed.

Create HintDb writers.
#[export] Hint Resolve writes_bytes writes_seq writes_nil writes_for_each : writers.
#[export] Hint Extern 1 (writes (Writer_u16 _) _) => apply writes_bytes : writers.
#[export] Hint Extern 1 (writes (Writer_u32 _) _) => apply writes_bytes : writers.
#[export] Hint Extern 1 (writes (Writer_u64 _) _) => apply writes_bytes : writers.

(** ** Records as sequences of fields *)

(** One field of a record: [get] succeeds and leaves the rest of the record to
    the continuation. *)
Lemma codec_bind {E A B} {get : forall E, st Reader E A} {put : A -> list Z}
    {wf : A -> Prop} {n : Z} `{!Codec get put wf n}
    (f : A -> st Reader E B) (Q : B -> Prop) r m :
  readable r (n + m) -> 0 <= m ->
  (forall a, wf a -> put a = next_bytes r n -> readable (advance r n) m ->
     exists b, f a (advance r n) = Ok (b, advance (advance r n) m) /\ Q b) ->
  exists b, (get E ≫= f) r = Ok (b, advance r (n + m)) /\ Q b.
Proof.
  intros Hr Hm Hf. pose proof codec_size as Hn.
  destruct (codec_get E r) as (a & Ha & Hwf & Hput);
    [eapply readable_weaken; [done|lia]|].
  destruct (Hf a Hwf Hput) as (b & Hb & HQ); [by apply readable_advance|].
  exists b. erewrite st_bind_Ok by done. by rewrite Hb, advance_advance.
Qed.

Lemma codec_ret {E B} (b : B) (Q : B -> Prop) r :
  Q b -> exists b', mret (M:=st Reader E) b r = Ok (b', advance r 0) /\ Q b'.
Proof.
  intros HQ. exists b. split; [|done]. unfold mret, st_ret, advance.
  destruct r. simpl. by rewrite Z.add_0_r.
Qed.

Lemma next_bytes_0 r : next_bytes r 0 = [].
Proof. done. Qed.

(** A record codec, once its size is written as the sum of its fields' sizes
    ending in 0. *)
Ltac codec_record_get :=
  let E := fresh "E" in let r := fresh "r" in let Hr := fresh "Hr" in
  intros E r Hr;
  let Hpos := fresh "Hpos" in
  assert (0 <= rd_position r) as Hpos by (destruct Hr as (_ & ? & _); done);
  repeat (eapply codec_bind; [eassumption|lia|]; intros);
  apply codec_ret; split;
  [| rewrite !next_bytes_split by (unfold advance; simpl; lia);
     rewrite ?next_bytes_0, ?app_nil_r;
     repeat match goal with
       | H : _ = next_bytes _ _ |- _ => rewrite <- H; clear H
       end;
     reflexivity ].

Ltac split_app_eq :=
  repeat match goal with
  | H : ?a ++ _ = ?b ++ _ |- _ =>
      apply app_inj_1 in H; [destruct H as [? H]|rewrite ?length_to_le_bytes; lia]
  end.

Lemma to_le_bytes_inj n a b :
  uint (8 * Z.of_nat n) a -> uint (8 * Z.of_nat n) b ->
  to_le_bytes n a = to_le_bytes n b -> a = b.
Proof. intros ? ? H. by apply (codec_inj (Codec := Codec_uint n)). Qed.

Lemma to_le_bytes_inj_16 a b :
  to_le_bytes 2 a = to_le_bytes 2 b -> uint 16 a -> uint 16 b -> a = b.
Proof. intros. by apply (to_le_bytes_inj 2). Qed.
Lemma to_le_bytes_inj_32 a b :
  to_le_bytes 4 a = to_le_bytes 4 b -> uint 32 a -> uint 32 b -> a = b.
Proof. intros. by apply (to_le_bytes_inj 4). Qed.
Lemma to_le_bytes_inj_64 a b :
  to_le_bytes 8 a = to_le_bytes 8 b -> uint 64 a -> uint 64 b -> a = b.
Proof. intros. by apply (to_le_bytes_inj 8). Qed.

Create HintDb codec.
#[export] Hint Resolve to_le_bytes_inj_16 to_le_bytes_inj_32 to_le_bytes_inj_64 : codec.
#[export] Hint Resolve to_le_bytes_is_bytes is_bytes_app : codec.
