(* ===== verification/BootContract.v ===== *)
(** crates/boot-contract/src/lib.rs: the versioned loader-to-kernel ABI.

    The data types of the handoff, the builder, the encoder, the
    pre-validation of the raw header and the parser with its four validators.
    Fields keep the order of the [repr(C)] structs; their names carry a prefix
    for the struct they belong to. *)

From S2P Require Import Prelude Bytes ByteCodec.

(** * Constants *)

(** [*b"POLYBOOT"] *)
Definition BOOT_MAGIC : list Z := [80; 79; 76; 89; 66; 79; 79; 84].
Definition ABI_MAJOR : Z := 1.
Definition ABI_MINOR : Z := 0.
Definition PAGE_SIZE : Z := 4096.
Definition PAGE_SIZE_BYTES : Z := 4096.
Definition MAX_MEMORY_REGIONS : Z := 128.
Definition BOOT_HEADER_SIZE : Z := 32.
Definition MEMORY_REGION_SIZE : Z := 32.
(** [size_of::<BootInfo>()], fixed to 4176 by the assertion at the end of the
    crate. *)
Definition BOOT_INFO_SIZE : Z := 4176.
(** [offset_of!(BootInfo, header) + offset_of!(BootHeader, abi_major)] *)
Definition ABI_MAJOR_OFFSET : Z := 8.
(** [offset_of!(BootInfo, header) + offset_of!(BootHeader, total_size)] *)
Definition TOTAL_SIZE_OFFSET : Z := 16.
Definition KNOWN_HEADER_FLAGS : Z := 0.
Definition BOOT_HEADER_SIZE_U32 : Z := 32.
Definition BOOT_INFO_SIZE_U32 : Z := 4176.
Definition MEMORY_REGION_SIZE_U32 : Z := 32.
Definition MAX_MEMORY_REGIONS_U32 : Z := 128.
Definition PLATFORM_FLAG_RSDP_PRESENT : Z := 1.
Definition KNOWN_PLATFORM_FLAGS : Z := PLATFORM_FLAG_RSDP_PRESENT.
Definition SCENARIO_FLAG_TEST_ONLY : Z := 1.
Definition KNOWN_SCENARIO_FLAGS : Z := SCENARIO_FLAG_TEST_ONLY.
Definition MIN_RSDP_LENGTH : Z := 20.
Definition MAX_RSDP_LENGTH : Z := 4096.

(** * Data *)

Record BootHeader := mkBootHeader {
  bh_magic : list Z;
  bh_abi_major : Z;
  bh_abi_minor : Z;
  bh_header_size : Z;
  bh_total_size : Z;
  bh_memory_region_size : Z;
  bh_memory_region_count : Z;
  bh_flags : Z
}.

Definition BootHeader_current : BootHeader :=
  mkBootHeader BOOT_MAGIC ABI_MAJOR ABI_MINOR BOOT_HEADER_SIZE_U32
    BOOT_INFO_SIZE_U32 MEMORY_REGION_SIZE_U32 0 0.

(** [FirmwareKind], [Architecture], [ScenarioKind] and [MemoryKind] are
    transparent wrappers of a [u32]. *)
Definition FirmwareKind_UEFI : Z := 1.
Definition Architecture_X86_64 : Z := 1.

Record PlatformInfo := mkPlatformInfo {
  pi_firmware : Z;
  pi_architecture : Z;
  pi_flags : Z;
  pi_rsdp_address : Z;
  pi_rsdp_length : Z;
  pi_boot_cpu_id : Z
}.

Definition PlatformInfo_x86_64_uefi (boot_cpu_id : Z) : PlatformInfo :=
  mkPlatformInfo FirmwareKind_UEFI Architecture_X86_64 0 0 0 boot_cpu_id.

Definition with_rsdp (self : PlatformInfo) (address length : Z) : PlatformInfo :=
  mkPlatformInfo (pi_firmware self) (pi_architecture self)
    (Z.lor (pi_flags self) PLATFORM_FLAG_RSDP_PRESENT) address length
    (pi_boot_cpu_id self).

Definition ScenarioKind_NORMAL : Z := 0.
Definition ScenarioKind_INCOMPATIBLE_VERSION : Z := 1.
Definition ScenarioKind_MALFORMED_METADATA : Z := 2.
Definition ScenarioKind_DELIBERATE_PANIC : Z := 3.

Record ScenarioInfo := mkScenarioInfo {
  si_kind : Z;
  si_flags : Z;
  si_argument : Z
}.

Definition ScenarioInfo_normal : ScenarioInfo := mkScenarioInfo ScenarioKind_NORMAL 0 0.
Definition ScenarioInfo_test (kind argument : Z) : ScenarioInfo :=
  mkScenarioInfo kind SCENARIO_FLAG_TEST_ONLY argument.

Definition MemoryKind_EMPTY : Z := 0.
Definition MemoryKind_RESERVED : Z := 1.
Definition MemoryKind_USABLE : Z := 2.
Definition MemoryKind_RECLAIMABLE : Z := 3.
Definition MemoryKind_KERNEL_IMAGE : Z := 4.
Definition MemoryKind_BOOT_CONTRACT : Z := 5.
Definition MemoryKind_FIRMWARE_RUNTIME : Z := 6.
Definition MemoryKind_ACPI_RECLAIMABLE : Z := 7.
Definition MemoryKind_ACPI_NVS : Z := 8.
Definition MemoryKind_MMIO : Z := 9.

(** [matches!(self.0, 1..=9)] *)
Definition MemoryKind_is_known (kind : Z) : bool := (1 <=? kind) && (kind <=? 9).

Record MemoryRegion := mkMemoryRegion {
  mr_start : Z;
  mr_length : Z;
  mr_kind : Z;
  mr_source_kind : Z;
  mr_attributes : Z
}.
#[global] Instance MemoryRegion_eq_dec : EqDecision MemoryRegion.
Proof. solve_decision. Defined.

Definition MemoryRegion_EMPTY : MemoryRegion := mkMemoryRegion 0 0 MemoryKind_EMPTY 0 0.

Definition MemoryRegion_new (start length kind source_kind attributes : Z) : MemoryRegion :=
  mkMemoryRegion start length kind source_kind attributes.

Record BootInfo := mkBootInfo {
  bi_header : BootHeader;
  bi_platform : PlatformInfo;
  bi_scenario : ScenarioInfo;
  bi_memory_regions : list MemoryRegion
}.

Definition BootInfo_new (platform : PlatformInfo) (scenario : ScenarioInfo) : BootInfo :=
  mkBootInfo BootHeader_current platform scenario
    (replicate (Z.to_nat MAX_MEMORY_REGIONS) MemoryRegion_EMPTY).

Record PrevalidatedHeader := mkPrevalidatedHeader {
  pv_abi_major : Z;
  pv_abi_minor : Z;
  pv_total_size : Z;
  pv_memory_region_count : Z
}.

(** [ValidatedBootInfo]: the proof wrapper, built only by [validate]. *)
Record ValidatedBootInfo := mkValidatedBootInfo { vb_info : BootInfo }.

Definition ValidatedBootInfo_as_ref (self : ValidatedBootInfo) : BootInfo := vb_info self.
Definition ValidatedBootInfo_into_inner (self : ValidatedBootInfo) : BootInfo := vb_info self.

(** [&self.0.memory_regions[..self.0.header.memory_region_count as usize]] *)
Definition ValidatedBootInfo_memory_regions {E} (self : ValidatedBootInfo)
    : exec E (list MemoryRegion) :=
  index_range (bi_memory_regions (vb_info self)) 0
    (bh_memory_region_count (bi_header (vb_info self))).

Inductive ValidationError :=
| Truncated (provided required : Z)
| LengthMismatch (provided declared : Z)
| BadMagic
| UnsupportedVersion (major minor : Z)
| HeaderSize (found expected : Z)
| TotalSize (found expected : Z)
| MemoryRegionSize (found expected : Z)
| TooManyMemoryRegions (count maximum : Z)
| UnknownHeaderFlags (flags : Z)
| RegionIndexOutOfBounds (index : Z)
| UnsupportedFirmware (kind : Z)
| UnsupportedArchitecture (architecture : Z)
| UnknownPlatformFlags (flags : Z)
| InconsistentRsdpPresence
| InvalidRsdpRange (address length : Z)
| UnknownScenario (kind : Z)
| UnknownScenarioFlags (flags : Z)
| ScenarioNotMarkedTestOnly (kind : Z)
| NormalScenarioHasTestState
| ActiveMemoryRegionIsEmpty (index : Z)
| EmptyMemoryRegion (index : Z)
| UnalignedMemoryRegion (index start length : Z)
| MemoryRegionOverflow (index : Z)
| UnknownMemoryKind (index kind : Z)
| UnsortedMemoryRegions (previous current : Z)
| OverlappingMemoryRegions (previous current : Z)
| NonZeroUnusedMemoryRegion (index : Z).

Inductive EncodeError :=
| Invalid (e : ValidationError)
| BufferTooSmall (provided required : Z).

(** * Validation *)

(** The checks on the decoded header fields are the same in [prevalidate] and
    in [validate_header]. *)
Definition validate_header (header : BootHeader) : exec ValidationError unit :=
  fail_if (negb (bool_decide (bh_magic header = BOOT_MAGIC))) BadMagic ;;
  fail_if (negb ((bh_abi_major header =? ABI_MAJOR) && (bh_abi_minor header =? ABI_MINOR)))
    (UnsupportedVersion (bh_abi_major header) (bh_abi_minor header)) ;;
  fail_if (negb (bh_header_size header =? BOOT_HEADER_SIZE_U32))
    (HeaderSize (bh_header_size header) BOOT_HEADER_SIZE_U32) ;;
  fail_if (negb (bh_total_size header =? BOOT_INFO_SIZE_U32))
    (TotalSize (bh_total_size header) BOOT_INFO_SIZE_U32) ;;
  fail_if (negb (bh_memory_region_size header =? MEMORY_REGION_SIZE_U32))
    (MemoryRegionSize (bh_memory_region_size header) MEMORY_REGION_SIZE_U32) ;;
  fail_if (MAX_MEMORY_REGIONS_U32 <? bh_memory_region_count header)
    (TooManyMemoryRegions (bh_memory_region_count header) MAX_MEMORY_REGIONS_U32) ;;
  fail_if (negb (Z.land (bh_flags header) (bitnot 32 KNOWN_HEADER_FLAGS) =? 0))
    (UnknownHeaderFlags (bh_flags header)) ;;
  Ok tt.

Definition validate_platform (platform : PlatformInfo) : exec ValidationError unit :=
  fail_if (negb (pi_firmware platform =? FirmwareKind_UEFI))
    (UnsupportedFirmware (pi_firmware platform)) ;;
  fail_if (negb (pi_architecture platform =? Architecture_X86_64))
    (UnsupportedArchitecture (pi_architecture platform)) ;;
  fail_if (negb (Z.land (pi_flags platform) (bitnot 64 KNOWN_PLATFORM_FLAGS) =? 0))
    (UnknownPlatformFlags (pi_flags platform)) ;;
  let rsdp_present := negb (Z.land (pi_flags platform) PLATFORM_FLAG_RSDP_PRESENT =? 0) in
  if negb rsdp_present then
    fail_if (negb (pi_rsdp_address platform =? 0) || negb (pi_rsdp_length platform =? 0))
      InconsistentRsdpPresence
  else
    let valid_length := (MIN_RSDP_LENGTH <=? pi_rsdp_length platform)
                        && (pi_rsdp_length platform <=? MAX_RSDP_LENGTH) in
    let valid_address := negb (pi_rsdp_address platform =? 0)
                         && (pi_rsdp_address platform mod 16 =? 0) in
    let has_end := bool_decide (is_Some
                     (checked_add 64 (pi_rsdp_address platform) (pi_rsdp_length platform))) in
    fail_if (negb valid_length || negb valid_address || negb has_end)
      (InvalidRsdpRange (pi_rsdp_address platform) (pi_rsdp_length platform)).

Definition validate_scenario (scenario : ScenarioInfo) : exec ValidationError unit :=
  fail_if (negb ((0 <=? si_kind scenario) && (si_kind scenario <=? 3)))
    (UnknownScenario (si_kind scenario)) ;;
  fail_if (negb (Z.land (si_flags scenario) (bitnot 32 KNOWN_SCENARIO_FLAGS) =? 0))
    (UnknownScenarioFlags (si_flags scenario)) ;;
  if si_kind scenario =? ScenarioKind_NORMAL then
    fail_if (negb (si_flags scenario =? 0) || negb (si_argument scenario =? 0))
      NormalScenarioHasTestState
  else
    fail_if (Z.land (si_flags scenario) SCENARIO_FLAG_TEST_ONLY =? 0)
      (ScenarioNotMarkedTestOnly (si_kind scenario)).

(** The body of the loop over the active regions: the checks of one region and
    the end address it passes on. *)
Definition check_region (index : Z) (region : MemoryRegion)
    (previous : option (Z * Z * Z)) : exec ValidationError (option (Z * Z * Z)) :=
  fail_if (mr_kind region =? MemoryKind_EMPTY) (ActiveMemoryRegionIsEmpty index) ;;
  fail_if (negb (MemoryKind_is_known (mr_kind region)))
    (UnknownMemoryKind index (mr_kind region)) ;;
  fail_if (mr_length region =? 0) (EmptyMemoryRegion index) ;;
  fail_if (negb (mr_start region mod PAGE_SIZE =? 0) || negb (mr_length region mod PAGE_SIZE =? 0))
    (UnalignedMemoryRegion index (mr_start region) (mr_length region)) ;;
  e ← ok_or (checked_add 64 (mr_start region) (mr_length region)) (MemoryRegionOverflow index);
  match previous with
  | Some (previous_index, previous_start, previous_end) =>
      fail_if (mr_start region <? previous_start) (UnsortedMemoryRegions previous_index index) ;;
      fail_if (mr_start region <? previous_end) (OverlappingMemoryRegions previous_index index)
  | None => Ok tt
  end ;;
  Ok (Some (index, mr_start region, e)).

(** [for (index, region) in (0_u32..).zip(info.memory_regions[..count].iter())] *)
Fixpoint check_active (index : Z) (regions : list MemoryRegion)
    (previous : option (Z * Z * Z)) : exec ValidationError unit :=
  match regions with
  | [] => Ok tt
  | region :: rest =>
      previous ← check_region index region previous;
      check_active (index + 1) rest previous
  end.

(** [for (offset, region) in (0_u32..).zip(info.memory_regions[count..].iter())] *)
Fixpoint check_unused (count offset : Z) (regions : list MemoryRegion)
    : exec ValidationError unit :=
  match regions with
  | [] => Ok tt
  | region :: rest =>
      (if bool_decide (region = MemoryRegion_EMPTY) then Ok tt
       else index ← add_panic 32 count offset; Err (NonZeroUnusedMemoryRegion index)) ;;
      check_unused count (offset + 1) rest
  end.

Definition validate_regions (info : BootInfo) : exec ValidationError unit :=
  let count := bh_memory_region_count (bi_header info) in
  active ← index_range (bi_memory_regions info) 0 count;
  check_active 0 active None ;;
  unused ← index_range (bi_memory_regions info) count (len (bi_memory_regions info));
  check_unused count 0 unused ;;
  Ok tt.

Definition validate_ref (info : BootInfo) : exec ValidationError unit :=
  validate_header (bi_header info) ;;
  validate_platform (bi_platform info) ;;
  validate_scenario (bi_scenario info) ;;
  validate_regions info ;;
  Ok tt.

Definition BootInfo_validate (self : BootInfo) : exec ValidationError ValidatedBootInfo :=
  validate_ref self ;;
  Ok (mkValidatedBootInfo self).

(** * Building *)

(** [set_memory_region(&mut self, index, region)]: the updated contract. *)
Definition set_memory_region (self : BootInfo) (index : Z) (region : MemoryRegion)
    : exec ValidationError BootInfo :=
  fail_if (MAX_MEMORY_REGIONS <=? index) (RegionIndexOutOfBounds index) ;;
  _ ← index_at (bi_memory_regions self) index;
  let regions := <[Z.to_nat index := region]> (bi_memory_regions self) in
  count ← add_panic 64 index 1;
  let h := bi_header self in
  header ← (if bh_memory_region_count h <? count then
              count ← ok_or (try_uint 32 count) (RegionIndexOutOfBounds index);
              Ok (mkBootHeader (bh_magic h) (bh_abi_major h) (bh_abi_minor h)
                    (bh_header_size h) (bh_total_size h) (bh_memory_region_size h)
                    count (bh_flags h))
            else Ok h);
  Ok (mkBootInfo header (bi_platform self) (bi_scenario self) regions).

(** * Encoding *)

Definition write_header {E} (h : BootHeader) : st Writer E unit :=
  Writer_bytes (bh_magic h) ;;
  Writer_u16 (bh_abi_major h) ;;
  Writer_u16 (bh_abi_minor h) ;;
  Writer_u32 (bh_header_size h) ;;
  Writer_u32 (bh_total_size h) ;;
  Writer_u32 (bh_memory_region_size h) ;;
  Writer_u32 (bh_memory_region_count h) ;;
  Writer_u32 (bh_flags h).

Definition write_platform {E} (p : PlatformInfo) : st Writer E unit :=
  Writer_u32 (pi_firmware p) ;;
  Writer_u32 (pi_architecture p) ;;
  Writer_u64 (pi_flags p) ;;
  Writer_u64 (pi_rsdp_address p) ;;
  Writer_u32 (pi_rsdp_length p) ;;
  Writer_u32 (pi_boot_cpu_id p).

Definition write_scenario {E} (s : ScenarioInfo) : st Writer E unit :=
  Writer_u32 (si_kind s) ;;
  Writer_u32 (si_flags s) ;;
  Writer_u64 (si_argument s).

Definition write_region {E} (r : MemoryRegion) : st Writer E unit :=
  Writer_u64 (mr_start r) ;;
  Writer_u64 (mr_length r) ;;
  Writer_u32 (mr_kind r) ;;
  Writer_u32 (mr_source_kind r) ;;
  Writer_u64 (mr_attributes r).

Definition write_info {E} (self : BootInfo) : st Writer E unit :=
  write_header (bi_header self) ;;
  write_platform (bi_platform self) ;;
  write_scenario (bi_scenario self) ;;
  for_each write_region (bi_memory_regions self).

(** [encode(&self, output)]: the returned length and the buffer afterwards.
    Nothing is written before the last failing check. *)
Definition encode (self : BootInfo) (output : list Z) : exec EncodeError (Z * list Z) :=
  map_err Invalid (validate_ref self) ;;
  fail_if (len output <? BOOT_INFO_SIZE) (BufferTooSmall (len output) BOOT_INFO_SIZE) ;;
  window ← index_range output 0 BOOT_INFO_SIZE;
  '(_, writer) ← write_info self (Writer_new window);
  (* debug_assert_eq!(writer.position, BOOT_INFO_SIZE) is not compiled in the
     boot profile *)
  Ok (BOOT_INFO_SIZE, wr_bytes writer ++ drop (Z.to_nat BOOT_INFO_SIZE) output).

(** * Decoding *)

Definition read_header {E} : st Reader E BootHeader :=
  magic ← Reader_array_8;
  abi_major ← Reader_u16;
  abi_minor ← Reader_u16;
  header_size ← Reader_u32;
  total_size ← Reader_u32;
  memory_region_size ← Reader_u32;
  memory_region_count ← Reader_u32;
  flags ← Reader_u32;
  mret (mkBootHeader magic abi_major abi_minor header_size total_size
          memory_region_size memory_region_count flags).

Definition read_platform {E} : st Reader E PlatformInfo :=
  firmware ← Reader_u32;
  architecture ← Reader_u32;
  flags ← Reader_u64;
  rsdp_address ← Reader_u64;
  rsdp_length ← Reader_u32;
  boot_cpu_id ← Reader_u32;
  mret (mkPlatformInfo firmware architecture flags rsdp_address rsdp_length boot_cpu_id).

Definition read_scenario {E} : st Reader E ScenarioInfo :=
  kind ← Reader_u32;
  flags ← Reader_u32;
  argument ← Reader_u64;
  mret (mkScenarioInfo kind flags argument).

Definition read_region {E} : st Reader E MemoryRegion :=
  start ← Reader_u64;
  length ← Reader_u64;
  kind ← Reader_u32;
  source_kind ← Reader_u32;
  attributes ← Reader_u64;
  mret (mkMemoryRegion start length kind source_kind attributes).

(** [for region in &mut memory_regions { *region = .. }] *)
Definition read_regions {E} : st Reader E (list MemoryRegion) :=
  repeat_n (Z.to_nat MAX_MEMORY_REGIONS) read_region.

Definition read_info {E} : st Reader E BootInfo :=
  header ← read_header;
  platform ← read_platform;
  scenario ← read_scenario;
  memory_regions ← read_regions;
  mret (mkBootInfo header platform scenario memory_regions).

Definition prevalidate (bytes : list Z) : exec ValidationError PrevalidatedHeader :=
  fail_if (len bytes <? BOOT_HEADER_SIZE) (Truncated (len bytes) BOOT_HEADER_SIZE) ;;
  '(h, _) ← read_header (Reader_new bytes);
  fail_if (negb (bool_decide (bh_magic h = BOOT_MAGIC))) BadMagic ;;
  fail_if (negb ((bh_abi_major h =? ABI_MAJOR) && (bh_abi_minor h =? ABI_MINOR)))
    (UnsupportedVersion (bh_abi_major h) (bh_abi_minor h)) ;;
  fail_if (negb (bh_header_size h =? BOOT_HEADER_SIZE_U32))
    (HeaderSize (bh_header_size h) BOOT_HEADER_SIZE_U32) ;;
  fail_if (negb (bh_total_size h =? BOOT_INFO_SIZE_U32))
    (TotalSize (bh_total_size h) BOOT_INFO_SIZE_U32) ;;
  fail_if (negb (bh_memory_region_size h =? MEMORY_REGION_SIZE_U32))
    (MemoryRegionSize (bh_memory_region_size h) MEMORY_REGION_SIZE_U32) ;;
  fail_if (MAX_MEMORY_REGIONS_U32 <? bh_memory_region_count h)
    (TooManyMemoryRegions (bh_memory_region_count h) MAX_MEMORY_REGIONS_U32) ;;
  fail_if (negb (Z.land (bh_flags h) (bitnot 32 KNOWN_HEADER_FLAGS) =? 0))
    (UnknownHeaderFlags (bh_flags h)) ;;
  let declared := bh_total_size h in
  fail_if (len bytes <? declared) (Truncated (len bytes) declared) ;;
  fail_if (negb (len bytes =? declared)) (LengthMismatch (len bytes) declared) ;;
  Ok (mkPrevalidatedHeader (bh_abi_major h) (bh_abi_minor h) (bh_total_size h)
        (bh_memory_region_count h)).

Definition parse (bytes : list Z) : exec ValidationError ValidatedBootInfo :=
  prevalidate bytes ;;
  '(info, _) ← read_info (Reader_new bytes);
  (* debug_assert_eq!(reader.position, BOOT_INFO_SIZE) is not compiled in the
     boot profile *)
  BootInfo_validate info.
