(* ===== verification/ContractSpec.v ===== *)
(** What a boot contract promises, stated without reference to the checks that
    establish it, and the proof that the validators of boot-contract decide
    exactly that.

    [wf_*] are the typing invariants of the Rust structs (field widths, array
    lengths); [valid_*] are the documented policy of ABI 1.0. *)

From S2P Require Import Prelude Bytes ByteCodec BootContract.

(** * Typing invariants *)
Definition wf_header (h : BootHeader) : Prop :=
  (is_bytes (bh_magic h) /\ len (bh_magic h) = 8) /\
  uint 16 (bh_abi_major h) /\ uint 16 (bh_abi_minor h) /\
  uint 32 (bh_header_size h) /\ uint 32 (bh_total_size h) /\
  uint 32 (bh_memory_region_size h) /\ uint 32 (bh_memory_region_count h) /\
  uint 32 (bh_flags h).

Definition wf_platform (p : PlatformInfo) : Prop :=
  uint 32 (pi_firmware p) /\ uint 32 (pi_architecture p) /\ uint 64 (pi_flags p) /\
  uint 64 (pi_rsdp_address p) /\ uint 32 (pi_rsdp_length p) /\ uint 32 (pi_boot_cpu_id p).

Definition wf_scenario (s : ScenarioInfo) : Prop :=
  uint 32 (si_kind s) /\ uint 32 (si_flags s) /\ uint 64 (si_argument s).

Definition wf_region (r : MemoryRegion) : Prop :=
  uint 64 (mr_start r) /\ uint 64 (mr_length r) /\ uint 32 (mr_kind r) /\
  uint 32 (mr_source_kind r) /\ uint 64 (mr_attributes r).

Definition wf_regions (l : list MemoryRegion) : Prop :=
  length l = Z.to_nat MAX_MEMORY_REGIONS /\ Forall wf_region l.

Definition wf_info (i : BootInfo) : Prop :=
  wf_header (bi_header i) /\ wf_platform (bi_platform i) /\
  wf_scenario (bi_scenario i) /\ wf_regions (bi_memory_regions i).

(** * Policy *)
Definition region_end (r : MemoryRegion) : Z := mr_start r + mr_length r.

(** A nonempty, page-aligned range of a known kind that ends below 2^64. *)
Definition region_ok (r : MemoryRegion) : Prop :=
  1 <= mr_kind r <= 9 /\ 0 < mr_length r /\
  mr_start r mod PAGE_SIZE = 0 /\ mr_length r mod PAGE_SIZE = 0 /\
  region_end r < 2 ^ 64.

Definition before (r s : MemoryRegion) : Prop := region_end r <= mr_start s.

(** Every earlier region ends before every later one starts. *)
Definition regions_ok (l : list MemoryRegion) : Prop :=
  Forall region_ok l /\ StronglySorted before l.

Definition valid_header (h : BootHeader) : Prop :=
  h = mkBootHeader BOOT_MAGIC ABI_MAJOR ABI_MINOR BOOT_HEADER_SIZE BOOT_INFO_SIZE
        MEMORY_REGION_SIZE (bh_memory_region_count h) 0 /\
  bh_memory_region_count h <= MAX_MEMORY_REGIONS.

Definition valid_platform (p : PlatformInfo) : Prop :=
  pi_firmware p = FirmwareKind_UEFI /\ pi_architecture p = Architecture_X86_64 /\
  ((pi_flags p = 0 /\ pi_rsdp_address p = 0 /\ pi_rsdp_length p = 0) \/
   (pi_flags p = PLATFORM_FLAG_RSDP_PRESENT /\
    MIN_RSDP_LENGTH <= pi_rsdp_length p <= MAX_RSDP_LENGTH /\
    pi_rsdp_address p <> 0 /\ pi_rsdp_address p mod 16 = 0 /\
    pi_rsdp_address p + pi_rsdp_length p < 2 ^ 64)).

Definition valid_scenario (s : ScenarioInfo) : Prop :=
  s = ScenarioInfo_normal \/
  (1 <= si_kind s <= 3 /\ si_flags s = SCENARIO_FLAG_TEST_ONLY).

(** The active regions are the first [count] of the array; the rest are the
    canonical empty record. *)
Definition active_regions (i : BootInfo) : list MemoryRegion :=
  take (Z.to_nat (bh_memory_region_count (bi_header i))) (bi_memory_regions i).

Definition unused_regions (i : BootInfo) : list MemoryRegion :=
  drop (Z.to_nat (bh_memory_region_count (bi_header i))) (bi_memory_regions i).

Definition valid_info (i : BootInfo) : Prop :=
  valid_header (bi_header i) /\ valid_platform (bi_platform i) /\
  valid_scenario (bi_scenario i) /\
  regions_ok (active_regions i) /\
  Forall (eq MemoryRegion_EMPTY) (unused_regions i).

(** * The validators decide the policy *)
Lemma validate_header_iff h :
  wf_header h -> validate_header h = Ok tt <-> valid_header h.
Proof.
  intros (_ & _ & _ & _ & _ & _ & Hc & Hf).
  unfold validate_header. rewrite !bind_fail_if.
  rewrite land_bitnot_0 by (done || lia). bool_solve.
  unfold valid_header. destruct h; simpl in *.
  unfold BOOT_HEADER_SIZE_U32, BOOT_INFO_SIZE_U32, MEMORY_REGION_SIZE_U32,
    MAX_MEMORY_REGIONS_U32, BOOT_HEADER_SIZE, BOOT_INFO_SIZE, MEMORY_REGION_SIZE,
    MAX_MEMORY_REGIONS.
  split; [intros (-> & [-> ->] & -> & -> & -> & ? & -> & _); auto|].
  intros [[=] ?]. by subst.
Qed.

Lemma flag_bit_cases f w :
  0 <= w -> uint w f -> 1 < 2 ^ w ->
  Z.land f (bitnot w 1) = 0 <-> f = 0 \/ f = 1.
Proof.
  intros ? Hf ?. rewrite land_bitnot by (done || unfold uint in *; lia).
  apply ldiff_1_eq_0. unfold uint in Hf. lia.
Qed.

Lemma is_Some_checked_add w a b : is_Some (checked_add w a b) <-> a + b < 2 ^ w.
Proof.
  split; [intros [c Hc%checked_add_Some]; lia|].
  intros. exists (a + b). by apply checked_add_Some.
Qed.

Lemma validate_platform_iff p :
  wf_platform p -> validate_platform p = Ok tt <-> valid_platform p.
Proof.
  intros (_ & _ & Hf & Ha & Hl & _).
  unfold validate_platform. rewrite !bind_fail_if. bool_solve.
  unfold KNOWN_PLATFORM_FLAGS, PLATFORM_FLAG_RSDP_PRESENT.
  rewrite (flag_bit_cases (pi_flags p) 64) by (done || lia).
  unfold valid_platform. apply and_iff_compat_l, and_iff_compat_l.
  unfold PLATFORM_FLAG_RSDP_PRESENT. unfold uint in *. split.
  - intros [[H0|H1] H].
    + rewrite H0 in H. simpl in H. rewrite fail_if_tt in H. bool_solve. left. tauto.
    + rewrite H1 in H. simpl in H. rewrite fail_if_tt in H. bool_solve.
      rewrite is_Some_checked_add in H. right. tauto.
  - intros [(H0 & Ha0 & Hl0)|(H1 & H)].
    + rewrite H0. simpl. rewrite fail_if_tt, Ha0, Hl0. auto.
    + rewrite H1. simpl. rewrite fail_if_tt. bool_solve.
      rewrite is_Some_checked_add. tauto.
Qed.

Lemma validate_scenario_iff s :
  wf_scenario s -> validate_scenario s = Ok tt <-> valid_scenario s.
Proof.
  intros (Hk & Hf & _). unfold validate_scenario. rewrite !bind_fail_if. bool_solve.
  unfold KNOWN_SCENARIO_FLAGS, SCENARIO_FLAG_TEST_ONLY, ScenarioKind_NORMAL.
  rewrite (flag_bit_cases (si_flags s) 32) by (done || lia).
  unfold valid_scenario, ScenarioInfo_normal, SCENARIO_FLAG_TEST_ONLY, ScenarioKind_NORMAL.
  destruct s as [k f a]; simpl in *. unfold uint in *.
  destruct (Z.eqb_spec k 0) as [->|Hne]; rewrite fail_if_tt; bool_solve.
  - split; [naive_solver|]. intros [[=]|]; subst; intuition lia.
  - split.
    + intros (? & [->| ->] & H); [done|]. right. lia.
    + intros [[=]|[? ->]]; [lia|]. split_and!; [lia|lia|by right|done].
Qed.

(** ** Regions *)

(** The lower bound the next region has to respect. *)
Definition previous_end (previous : option (Z * Z * Z)) : Z :=
  match previous with Some (_, _, e) => e | None => 0 end.

Definition previous_ok (previous : option (Z * Z * Z)) : Prop :=
  match previous with Some (_, s, e) => s <= e | None => True end.

Fixpoint ordered_from (lo : Z) (l : list MemoryRegion) : Prop :=
  match l with
  | [] => True
  | r :: t => lo <= mr_start r /\ ordered_from (region_end r) t
  end.

Lemma check_region_Ok index r previous p' :
  wf_region r -> previous_ok previous ->
  check_region index r previous = Ok p' <->
  region_ok r /\ previous_end previous <= mr_start r /\
  p' = Some (index, mr_start r, region_end r).
Proof.
  intros (Hs & Hl & Hk & _) Hp. unfold uint in *. unfold check_region.
  rewrite !bind_fail_if. unfold MemoryKind_EMPTY, MemoryKind_is_known, region_ok. bool_solve.
  rewrite bind_Ok. setoid_rewrite ok_or_Ok. setoid_rewrite checked_add_Some.
  setoid_rewrite bind_Ok. unfold region_end.
  split.
  - intros (? & [? ?] & ? & [? ?] & e & [-> ?] & u & Hu & [=<-]).
    split; [lia|]. split; [|done].
    destruct previous as [[[pi ps] pe]|]; simpl in *; [|lia].
    apply bind_fail_if in Hu as [? Hu]. apply fail_if_Ok in Hu. bool_solve. lia.
  - intros (Hr & Hle & ->). split_and!; try lia.
    exists (mr_start r + mr_length r). split; [lia|]. exists tt. split; [|done].
    destruct previous as [[[pi ps] pe]|]; simpl in *; [|done].
    apply bind_fail_if. rewrite fail_if_tt. bool_solve. lia.
Qed.

Lemma check_active_ordered l : forall index previous,
  Forall wf_region l -> previous_ok previous ->
  check_active index l previous = Ok tt <->
  Forall region_ok l /\ ordered_from (previous_end previous) l.
Proof.
  induction l as [|r l IH]; intros index previous Hwf Hp.
  { simpl. rewrite Forall_nil. naive_solver. }
  inversion Hwf as [|? ? Hr Hl]; subst. cbn [check_active ordered_from].
  rewrite bind_Ok, Forall_cons. setoid_rewrite check_region_Ok; [|done..]. split.
  - intros (p' & (Hok & Hle & ->) & H). apply IH in H; [|done|].
    + naive_solver.
    + destruct Hok as (_ & ? & _). simpl. unfold region_end. lia.
  - intros ([Hok Hoks] & Hle & Hord).
    exists (Some (index, mr_start r, region_end r)). split; [done|].
    apply IH; [done| |done]. destruct Hok as (_ & ? & _). simpl. unfold region_end. lia.
Qed.

Lemma ordered_from_sorted l lo :
  Forall region_ok l ->
  ordered_from lo l <-> Forall (fun r => lo <= mr_start r) l /\ StronglySorted before l.
Proof.
  intros Hok. revert lo. induction Hok as [|r l Hr Hl IH]; intros lo.
  { split; repeat constructor. }
  cbn [ordered_from]. rewrite IH, Forall_cons. split.
  - intros (Hlo & Hfa & Hss). split_and!; [done| |by constructor].
    eapply Forall_impl; [exact Hfa|]. intros s Hs. destruct Hr as (_ & ? & _).
    unfold region_end in *. simpl in Hs. lia.
  - intros ([Hlo Hfa] & Hss). inversion Hss; subst. by split.
Qed.

Lemma check_active_iff l :
  Forall wf_region l -> check_active 0 l None = Ok tt <-> regions_ok l.
Proof.
  intros Hwf. rewrite check_active_ordered by done. unfold regions_ok. simpl.
  split.
  - intros [Hok Hord]. split; [done|]. by apply ordered_from_sorted in Hord as [_ ?].
  - intros [Hok Hss]. split; [done|]. apply ordered_from_sorted; [done|]. split; [|done].
    eapply Forall_impl; [exact Hwf|]. intros r (? & _). unfold uint in *. lia.
Qed.

Lemma check_unused_iff count l : forall offset,
  check_unused count offset l = Ok tt <-> Forall (eq MemoryRegion_EMPTY) l.
Proof.
  induction l as [|r l IH]; intros offset; [simpl; rewrite Forall_nil; naive_solver|].
  cbn [check_unused]. rewrite Forall_cons, bind_Ok. case_bool_decide as Hr.
  - setoid_rewrite IH. naive_solver.
  - split; [|naive_solver]. intros (u & H & _). exfalso. revert H.
    rewrite bind_Ok. naive_solver.
Qed.

Lemma index_range_take {E A} (l : list A) n :
  0 <= n <= len l -> index_range (E:=E) l 0 n = Ok (take (Z.to_nat n) l).
Proof.
  intros. rewrite index_range_exact by lia. unfold sub_list.
  by rewrite Z.sub_0_r, drop_0.
Qed.

Lemma validate_regions_iff i :
  wf_info i -> bh_memory_region_count (bi_header i) <= MAX_MEMORY_REGIONS ->
  validate_regions i = Ok tt <->
  regions_ok (active_regions i) /\ Forall (eq MemoryRegion_EMPTY) (unused_regions i).
Proof.
  intros (Hh & _ & _ & Hlen & Hwf) Hc.
  assert (0 <= bh_memory_region_count (bi_header i) <= len (bi_memory_regions i)) as Hr.
  { rewrite Hlen. unfold MAX_MEMORY_REGIONS in *.
    destruct Hh as (_ & _ & _ & _ & _ & _ & [? _] & _). lia. }
  unfold validate_regions. rewrite index_range_take, index_range_drop by done.
  cbn [mbind exec_bind]. fold (active_regions i) (unused_regions i).
  rewrite <- check_active_iff by (by apply Forall_take).
  rewrite <- (check_unused_iff (bh_memory_region_count (bi_header i)) _ 0).
  destruct (check_active _ _ _) as [[]| |], (check_unused _ _ _) as [[]| |]; naive_solver.
Qed.

(** [validate_ref] accepts exactly the well-typed contracts that satisfy the
    policy. *)
Lemma validate_ref_valid i : wf_info i -> validate_ref i = Ok tt <-> valid_info i.
Proof.
  intros Hwf. pose proof Hwf as (Hh & Hp & Hs & Hr). unfold validate_ref, valid_info.
  rewrite <- validate_header_iff, <- validate_platform_iff, <- validate_scenario_iff by done.
  destruct (validate_header (bi_header i)) as [[]| |] eqn:Eh; [|naive_solver..].
  apply validate_header_iff in Eh as [_ Hc]; [|done].
  rewrite <- validate_regions_iff by done. cbn [mbind exec_bind].
  destruct (validate_platform (bi_platform i)) as [[]| |]; [|naive_solver..].
  destruct (validate_scenario (bi_scenario i)) as [[]| |]; [|naive_solver..].
  cbn [mbind exec_bind]. destruct (validate_regions i) as [[]| |]; naive_solver.
Qed.
