(* ===== verification/ContractCodec.v ===== *)
(** The byte layout of ABI 1.0: each record of the contract is a [Codec], so
    the parser and the encoder of boot-contract are inverse to each other, the
    parser accepts exactly the encodings of valid contracts, and neither
    panics. *)

From S2P Require Import Prelude Bytes ByteCodec BootContract ContractSpec.

(** * The exact little-endian layout *)
Definition header_bytes (h : BootHeader) : list Z :=
  bh_magic h ++ to_le_bytes 2 (bh_abi_major h) ++ to_le_bytes 2 (bh_abi_minor h) ++
  to_le_bytes 4 (bh_header_size h) ++ to_le_bytes 4 (bh_total_size h) ++
  to_le_bytes 4 (bh_memory_region_size h) ++ to_le_bytes 4 (bh_memory_region_count h) ++
  to_le_bytes 4 (bh_flags h).

Definition platform_bytes (p : PlatformInfo) : list Z :=
  to_le_bytes 4 (pi_firmware p) ++ to_le_bytes 4 (pi_architecture p) ++
  to_le_bytes 8 (pi_flags p) ++ to_le_bytes 8 (pi_rsdp_address p) ++
  to_le_bytes 4 (pi_rsdp_length p) ++ to_le_bytes 4 (pi_boot_cpu_id p).

Definition scenario_bytes (s : ScenarioInfo) : list Z :=
  to_le_bytes 4 (si_kind s) ++ to_le_bytes 4 (si_flags s) ++ to_le_bytes 8 (si_argument s).

Definition region_bytes (r : MemoryRegion) : list Z :=
  to_le_bytes 8 (mr_start r) ++ to_le_bytes 8 (mr_length r) ++ to_le_bytes 4 (mr_kind r) ++
  to_le_bytes 4 (mr_source_kind r) ++ to_le_bytes 8 (mr_attributes r).

Definition regions_bytes (l : list MemoryRegion) : list Z := concat (region_bytes <$> l).

Definition info_bytes (i : BootInfo) : list Z :=
  header_bytes (bi_header i) ++ platform_bytes (bi_platform i) ++
  scenario_bytes (bi_scenario i) ++ regions_bytes (bi_memory_regions i).

(** * Codecs of the records *)
Lemma header_fields :
  Codec (fun E => read_header (E:=E)) header_bytes wf_header
    (8 + (2 + (2 + (4 + (4 + (4 + (4 + (4 + 0)))))))).
Proof.
  unfold wf_header. split; [lia| | | |].
  - codec_record_get. simpl. tauto.
  - intros h Hh. unfold header_bytes. rewrite !length_app, !length_to_le_bytes. lia.
  - intros h Hh. unfold header_bytes.
    destruct Hh as [[? _] _]. auto 10 with codec.
  - intros a b Ha Hb Heq. unfold header_bytes in Heq. destruct_and!. split_app_eq.
    destruct a, b; simpl in *; f_equal; eauto with codec.
Qed.
#[global] Instance Codec_header :
  Codec (fun E => read_header (E:=E)) header_bytes wf_header 32 := header_fields.

Lemma platform_fields :
  Codec (fun E => read_platform (E:=E)) platform_bytes wf_platform
    (4 + (4 + (8 + (8 + (4 + (4 + 0)))))).
Proof.
  unfold wf_platform. split; [lia| | | |].
  - codec_record_get. simpl. tauto.
  - intros p _. unfold platform_bytes. rewrite !length_app, !length_to_le_bytes. lia.
  - intros p _. unfold platform_bytes. auto 10 with codec.
  - intros a b Ha Hb Heq. unfold platform_bytes in Heq. destruct_and!. split_app_eq.
    destruct a, b; simpl in *; f_equal; eauto with codec.
Qed.
#[global] Instance Codec_platform :
  Codec (fun E => read_platform (E:=E)) platform_bytes wf_platform 32 := platform_fields.

Lemma scenario_fields :
  Codec (fun E => read_scenario (E:=E)) scenario_bytes wf_scenario (4 + (4 + (8 + 0))).
Proof.
  unfold wf_scenario. split; [lia| | | |].
  - codec_record_get. simpl. tauto.
  - intros s _. unfold scenario_bytes. rewrite !length_app, !length_to_le_bytes. lia.
  - intros s _. unfold scenario_bytes. auto 10 with codec.
  - intros a b Ha Hb Heq. unfold scenario_bytes in Heq. destruct_and!. split_app_eq.
    destruct a, b; simpl in *; f_equal; eauto with codec.
Qed.
#[global] Instance Codec_scenario :
  Codec (fun E => read_scenario (E:=E)) scenario_bytes wf_scenario 16 := scenario_fields.

Lemma region_fields :
  Codec (fun E => read_region (E:=E)) region_bytes wf_region (8 + (8 + (4 + (4 + (8 + 0))))).
Proof.
  unfold wf_region. split; [lia| | | |].
  - codec_record_get. simpl. tauto.
  - intros r _. unfold region_bytes. rewrite !length_app, !length_to_le_bytes. lia.
  - intros r _. unfold region_bytes. auto 10 with codec.
  - intros a b Ha Hb Heq. unfold region_bytes in Heq. destruct_and!. split_app_eq.
    destruct a, b; simpl in *; f_equal; eauto with codec.
Qed.
#[global] Instance Codec_region :
  Codec (fun E => read_region (E:=E)) region_bytes wf_region 32 := region_fields.

#[global] Instance Codec_regions :
  Codec (fun E => read_regions (E:=E)) regions_bytes wf_regions 4096
  := Codec_array (get := fun E => read_region (E:=E)) (Z.to_nat MAX_MEMORY_REGIONS).

Lemma info_fields :
  Codec (fun E => read_info (E:=E)) info_bytes wf_info (32 + (32 + (16 + (4096 + 0)))).
Proof.
  unfold wf_info. split; [done| | | |].
  - codec_record_get. simpl in *. tauto.
  - intros i (Hh & Hp & Hs & Hr). unfold info_bytes. rewrite !length_app, !Nat2Z.inj_add.
    by rewrite (codec_len _ Hh), (codec_len _ Hp), (codec_len _ Hs), (codec_len _ Hr).
  - intros i (Hh & Hp & Hs & Hr). unfold info_bytes.
    apply is_bytes_app; [exact (codec_bytes _ Hh)|].
    apply is_bytes_app; [exact (codec_bytes _ Hp)|].
    apply is_bytes_app; [exact (codec_bytes _ Hs)|exact (codec_bytes _ Hr)].
  - intros a b (Hah & Hap & Has & Har) (Hbh & Hbp & Hbs & Hbr) Heq. unfold info_bytes in Heq.
    pose proof (codec_len _ Hah). pose proof (codec_len _ Hap). pose proof (codec_len _ Has).
    pose proof (codec_len _ Hbh). pose proof (codec_len _ Hbp). pose proof (codec_len _ Hbs).
    split_app_eq. destruct a, b; simpl in *.
    f_equal; [by apply codec_inj..|by apply (codec_inj (wf := wf_regions))].
Qed.
#[global] Instance Codec_info :
  Codec (fun E => read_info (E:=E)) info_bytes wf_info BOOT_INFO_SIZE := info_fields.

(** Decoding an encoded record gives it back, wherever it lies in a buffer. *)
Lemma codec_decode {A} {get : forall E, st Reader E A} {put wf size}
    `{!Codec get put wf size} E (a : A) :
  wf a -> size < 2 ^ 63 ->
  get E (Reader_new (put a)) = Ok (a, mkReader (put a) size).
Proof.
  intros Ha Hsz. pose proof (codec_len a Ha) as Hlen. pose proof codec_size as Hs.
  destruct (codec_get E (Reader_new (put a))) as (b & Hb & Hwb & Hpb).
  { unfold readable, slice_ok. simpl. split_and!; [by apply codec_bytes|lia..]. }
  rewrite Hb. do 2 f_equal. apply codec_inj; [done..|].
  rewrite Hpb. unfold next_bytes, Reader_new. simpl. rewrite <- Hlen.
  apply sub_list_all.
Qed.

Lemma info_bytes_len i : wf_info i -> len (info_bytes i) = BOOT_INFO_SIZE.
Proof. apply codec_len. Qed.

(** The header occupies the first 32 bytes. *)
Lemma read_header_info {E} i :
  wf_info i ->
  read_header (E:=E) (Reader_new (info_bytes i))
  = Ok (bi_header i, mkReader (info_bytes i) BOOT_HEADER_SIZE).
Proof.
  intros Hi. pose proof (info_bytes_len i Hi) as Hlen.
  destruct (codec_get E (Reader_new (info_bytes i)) (Codec := Codec_header))
    as (h & Hh & Hwf & Hput).
  { unfold readable, slice_ok. simpl. split_and!; [by apply codec_bytes|..];
      rewrite ?Hlen; unfold BOOT_INFO_SIZE; lia. }
  rewrite Hh. do 2 f_equal. apply codec_inj; [done|apply Hi|].
  rewrite Hput. unfold next_bytes, Reader_new, info_bytes.
  cbn [rd_bytes rd_position].
  replace 32 with (len (header_bytes (bi_header i)))
    by exact (codec_len (Codec := Codec_header) _ (proj1 Hi)).
  exact (sub_list_app_mid [] (header_bytes (bi_header i)) _).
Qed.

(** * Encoding *)
Lemma write_info_writes {E} i : writes (E:=E) (write_info i) (info_bytes i).
Proof.
  unfold write_info, write_header, write_platform, write_scenario, info_bytes,
    header_bytes, platform_bytes, scenario_bytes, regions_bytes.
  repeat apply writes_seq; auto with writers.
  apply writes_for_each. intros r. unfold write_region, region_bytes.
  repeat apply writes_seq; auto with writers.
Qed.

Lemma encode_exact i output :
  wf_info i -> valid_info i ->
  BOOT_INFO_SIZE <= len output < 2 ^ 63 ->
  encode i output
  = Ok (BOOT_INFO_SIZE, info_bytes i ++ drop (Z.to_nat BOOT_INFO_SIZE) output).
Proof.
  intros Hwf Hv Hlen. unfold encode.
  rewrite (proj2 (validate_ref_valid i Hwf) Hv). cbn [map_err mbind exec_bind].
  destruct (Z.ltb_spec (len output) BOOT_INFO_SIZE); [lia|]. cbn [fail_if].
  rewrite index_range_take by (unfold BOOT_INFO_SIZE in *; lia). cbn [mbind exec_bind].
  pose proof (write_info_writes (E:=EncodeError) i [] (take (Z.to_nat BOOT_INFO_SIZE) output) [])
    as Hw. rewrite !app_nil_r in Hw. cbn [app length] in Hw. change (Z.of_nat 0) with 0 in Hw.
  pose proof (info_bytes_len i Hwf). unfold Writer_new.
  assert (len (take (Z.to_nat BOOT_INFO_SIZE) output) = BOOT_INFO_SIZE) as Ht.
  { rewrite length_take. unfold BOOT_INFO_SIZE in *. lia. }
  rewrite Hw; [done|lia|]. rewrite Ht. done.
Qed.

Lemma encode_Ok_inv i output n out :
  wf_info i -> len output < 2 ^ 63 -> encode i output = Ok (n, out) ->
  valid_info i /\ BOOT_INFO_SIZE <= len output /\ n = BOOT_INFO_SIZE /\
  out = info_bytes i ++ drop (Z.to_nat BOOT_INFO_SIZE) output.
Proof.
  intros Hwf Hmax H. pose proof H as H0. unfold encode in H.
  apply bind_Ok in H as ([] & Hval & H). apply map_err_Ok in Hval.
  apply validate_ref_valid in Hval; [|done].
  apply bind_fail_if in H as [Hlen _]. bool_solve.
  rewrite encode_exact in H0 by (done || lia). by simplify_eq.
Qed.

(** * Parsing *)

(** What [prevalidate] checks after the length of the header. *)
Lemma prevalidate_header bytes h r :
  read_header (E:=ValidationError) (Reader_new bytes) = Ok (h, r) ->
  BOOT_HEADER_SIZE <= len bytes ->
  (p ← prevalidate bytes; mret tt)
  = (validate_header h ;;
     fail_if (len bytes <? bh_total_size h) (Truncated (len bytes) (bh_total_size h)) ;;
     fail_if (negb (len bytes =? bh_total_size h)) (LengthMismatch (len bytes) (bh_total_size h))).
Proof.
  intros Hh Hlen. unfold prevalidate, validate_header.
  destruct (Z.ltb_spec (len bytes) BOOT_HEADER_SIZE); [lia|].
  rewrite Hh. cbn [fail_if mbind exec_bind].
  repeat match goal with
  | |- context [fail_if ?c _] => destruct c; cbn [fail_if mbind exec_bind]; [done|]
  end. done.
Qed.

Lemma read_header_total {E} bytes :
  slice_ok bytes -> BOOT_HEADER_SIZE <= len bytes ->
  exists h, read_header (E:=E) (Reader_new bytes) = Ok (h, mkReader bytes BOOT_HEADER_SIZE)
    /\ wf_header h.
Proof.
  intros Hb Hlen. destruct (codec_get E (Reader_new bytes) (Codec := Codec_header))
    as (h & Hh & Hwf & _); [|by exists h].
  unfold readable. simpl. unfold BOOT_HEADER_SIZE in Hlen. auto with lia.
Qed.

Lemma read_info_total {E} bytes :
  slice_ok bytes -> len bytes = BOOT_INFO_SIZE ->
  exists i, read_info (E:=E) (Reader_new bytes) = Ok (i, mkReader bytes BOOT_INFO_SIZE)
    /\ wf_info i /\ bytes = info_bytes i.
Proof.
  intros Hb Hlen. destruct (codec_get E (Reader_new bytes) (Codec := Codec_info))
    as (i & Hi & Hwf & Hput).
  { unfold readable. simpl. split_and!; auto; rewrite ?Hlen; unfold BOOT_INFO_SIZE; lia. }
  exists i. split; [done|]. split; [done|]. rewrite Hput. unfold next_bytes. simpl.
  rewrite <- Hlen. by rewrite sub_list_all.
Qed.

(** Pre-validation passes only on input of the exact contract length. *)
Lemma prevalidate_Ok_len bytes p : prevalidate bytes = Ok p -> len bytes = BOOT_INFO_SIZE.
Proof.
  unfold prevalidate. intros H. apply bind_fail_if in H as [_ H].
  apply bind_Ok in H as ([h r] & _ & H). rewrite !bind_fail_if in H.
  bool_solve. unfold BOOT_INFO_SIZE, BOOT_INFO_SIZE_U32 in *. naive_solver lia.
Qed.

Lemma prevalidate_valid i : wf_info i -> valid_header (bi_header i) ->
  is_ok (prevalidate (info_bytes i)) = true.
Proof.
  intros Hwf Hv. pose proof (info_bytes_len i Hwf) as Hlen.
  pose proof (prevalidate_header (info_bytes i) _ _ (read_header_info i Hwf)) as H.
  rewrite Hlen in H. specialize (H ltac:(done)).
  rewrite (proj2 (validate_header_iff (bi_header i) (proj1 Hwf)) Hv) in H.
  replace (bh_total_size (bi_header i)) with BOOT_INFO_SIZE in H by (by destruct Hv as [-> _]).
  by destruct (prevalidate (info_bytes i)).
Qed.

(** [parse] accepts exactly the encodings of valid contracts. *)
Lemma parse_Ok_iff bytes v :
  slice_ok bytes ->
  parse bytes = Ok v <->
  wf_info (vb_info v) /\ valid_info (vb_info v) /\ bytes = info_bytes (vb_info v).
Proof.
  intros Hb. unfold parse. split.
  - intros H. apply bind_Ok in H as (p & Hp & H). apply prevalidate_Ok_len in Hp.
    destruct (read_info_total (E:=ValidationError) bytes Hb Hp) as (i & Hi & Hwf & Heq).
    rewrite Hi in H. cbn [mbind exec_bind] in H. unfold BootInfo_validate in H.
    apply bind_Ok in H as ([] & Hv & [=<-]). simpl.
    by apply validate_ref_valid in Hv.
  - intros (Hwf & Hv & ->).
    pose proof (prevalidate_valid _ Hwf (proj1 Hv)) as Hp.
    destruct (prevalidate _); [|done..]. cbn [mbind exec_bind].
    rewrite (codec_decode (put := info_bytes)) by done. cbn [mbind exec_bind].
    unfold BootInfo_validate. rewrite (proj2 (validate_ref_valid _ Hwf) Hv).
    by destruct v.
Qed.
