(* ===== verification/ContractProps.v ===== *)
(** The correctness theorems of boot-contract: validation refines the policy,
    parsing and encoding are inverse and panic free, truncated input is
    classified, the builder fills the region array in order, and every reported
    region fault is present in the contract. *)

From S2P Require Import Prelude Bytes ByteCodec BootContract ContractSpec ContractCodec.

(** * Panic freedom *)
Ltac no_panic :=
  repeat (apply bind_no_panic; [solve [auto with nopanic]|intros ? ?]);
  auto with nopanic.

Lemma validate_header_no_panic h : validate_header h <> Panic.
Proof. unfold validate_header. no_panic. Qed.

Lemma validate_platform_no_panic p : validate_platform p <> Panic.
Proof. unfold validate_platform. no_panic. destruct (negb (negb _)); auto with nopanic. Qed.

Lemma validate_scenario_no_panic s : validate_scenario s <> Panic.
Proof. unfold validate_scenario. no_panic.
  destruct (si_kind s =? _); auto with nopanic. Qed.

Lemma check_region_no_panic index r previous : check_region index r previous <> Panic.
Proof.
  unfold check_region. no_panic. apply bind_no_panic; [|auto with nopanic].
  destruct previous as [[[? ?] ?]|]; no_panic.
Qed.

Lemma check_active_no_panic l index previous : check_active index l previous <> Panic.
Proof.
  revert index previous. induction l as [|r l IH]; intros; [done|].
  apply bind_no_panic; [apply check_region_no_panic|intros; apply IH].
Qed.

Lemma check_unused_no_panic count l : forall offset,
  count + offset + len l < 2 ^ 32 -> check_unused count offset l <> Panic.
Proof.
  induction l as [|r l IH]; intros offset Hlen; [done|].
  cbn [length] in Hlen. apply bind_no_panic.
  - case_bool_decide; [done|]. rewrite add_panic_exact by lia. done.
  - intros. apply IH. lia.
Qed.
#[export] Hint Resolve validate_header_no_panic validate_platform_no_panic
  validate_scenario_no_panic check_active_no_panic : nopanic.

Lemma validate_ref_no_panic i : wf_info i -> validate_ref i <> Panic.
Proof.
  intros Hwf. pose proof Hwf as (Hh & _ & _ & Hlen & _). unfold validate_ref.
  apply bind_no_panic; [auto with nopanic|]. intros [] Hv.
  apply validate_header_iff in Hv as [_ Hc]; [|done].
  no_panic. apply bind_no_panic; [|done]. unfold validate_regions.
  assert (0 <= bh_memory_region_count (bi_header i) <= len (bi_memory_regions i)) as Hr.
  { rewrite Hlen. unfold MAX_MEMORY_REGIONS in *.
    destruct Hh as (_ & _ & _ & _ & _ & _ & [? _] & _). lia. }
  rewrite index_range_take, index_range_drop by done. cbn [mbind exec_bind].
  apply bind_no_panic; [auto with nopanic|]. intros. apply bind_no_panic; [|done].
  apply check_unused_no_panic. rewrite length_drop, Hlen. unfold MAX_MEMORY_REGIONS in *. lia.
Qed.

Lemma prevalidate_no_panic bytes : slice_ok bytes -> prevalidate bytes <> Panic.
Proof.
  intros Hb. unfold prevalidate. apply bind_no_panic; [auto with nopanic|].
  intros [] Hlen. apply fail_if_Ok in Hlen. bool_solve.
  destruct (read_header_total (E:=ValidationError) bytes Hb Hlen) as (h & -> & _).
  cbn [mbind exec_bind]. no_panic.
Qed.

(** * A sample contract, as the unit tests build it *)
Definition sample_region0 : MemoryRegion :=
  MemoryRegion_new 0x100000 0x200000 MemoryKind_RESERVED 0 0.
Definition sample_region1 : MemoryRegion :=
  MemoryRegion_new 0x300000 0x400000 MemoryKind_USABLE 7 8.
Definition sample_built : exec ValidationError BootInfo :=
  i ← set_memory_region (BootInfo_new (PlatformInfo_x86_64_uefi 0) ScenarioInfo_normal)
        0 sample_region0;
  set_memory_region i 1 sample_region1.
Definition sample_info : BootInfo :=
  match sample_built with
  | Ok i => i
  | _ => BootInfo_new (PlatformInfo_x86_64_uefi 0) ScenarioInfo_normal
  end.

#[global] Instance wf_info_dec i : Decision (wf_info i).
Proof.
  unfold wf_info, wf_header, wf_platform, wf_scenario, wf_regions, wf_region, is_bytes.
  apply _.
Defined.

Lemma sample_wf : wf_info sample_info.
Proof. by_decide. Qed.

Lemma sample_valid : valid_info sample_info.
Proof. apply validate_ref_valid; [apply sample_wf|by vm_compute]. Qed.

Lemma info_bytes_slice_ok i : wf_info i -> slice_ok (info_bytes i).
Proof.
  intros Hwf. split; [by apply (codec_bytes (put := info_bytes))|].
  by rewrite info_bytes_len.
Qed.

Lemma sample_parsed : parse (info_bytes sample_info) = Ok (mkValidatedBootInfo sample_info).
Proof.
  apply parse_Ok_iff; [apply info_bytes_slice_ok, sample_wf|].
  split_and!; [apply sample_wf|apply sample_valid|done].
Qed.

(** * Theorems *)

(** The validators decide the policy: on every well-typed contract
    [validate_ref] returns [Ok] exactly when the header is the fixed ABI 1.0
    header, the platform and scenario fields are consistent, the active regions
    are nonempty, page aligned, of known kind, below 2^64, in order and
    disjoint, and every unused record is zero; it never panics. *)
Theorem validation_refines_policy (i : BootInfo) :
  wf_info i ->
  (validate_ref i = Ok tt <-> valid_info i) /\ validate_ref i <> Panic.
Proof. intros Hwf. split; [by apply validate_ref_valid|by apply validate_ref_no_panic]. Qed.

Lemma validation_refines_policy_witness :
  wf_info sample_info /\ validate_ref sample_info = Ok tt.
Proof.
  split; [apply sample_wf|].
  apply (validation_refines_policy sample_info sample_wf), sample_valid.
Defined.

(** C4. The parser accepts exactly the encodings of valid contracts: on any
    byte slice, [parse] returns a contract if and only if that contract is
    well typed and valid and the slice is its exact little-endian layout.  So
    no trailing, reordered or non-canonical bytes are accepted. *)
Theorem parse_accepts_exactly_encodings (bytes : list Z) (v : ValidatedBootInfo) :
  slice_ok bytes ->
  (parse bytes = Ok v <->
   wf_info (vb_info v) /\ valid_info (vb_info v) /\ bytes = info_bytes (vb_info v)).
Proof. apply parse_Ok_iff. Qed.

Lemma parse_accepts_exactly_encodings_witness :
  slice_ok (info_bytes sample_info) /\
  parse (info_bytes sample_info) = Ok (mkValidatedBootInfo sample_info).
Proof.
  pose proof (info_bytes_slice_ok _ sample_wf) as Hb. split; [done|].
  apply (parse_accepts_exactly_encodings _ (mkValidatedBootInfo sample_info) Hb).
  split_and!; [apply sample_wf|apply sample_valid|done].
Defined.

(** C31. Encoding then parsing gives the contract back: whenever [encode]
    succeeds on a well-typed contract, the first [n] bytes of the buffer parse
    to that contract, and the bytes after them are untouched. *)
Theorem encode_parse_roundtrip (i : BootInfo) (output out : list Z) (n : Z) :
  wf_info i -> len output < 2 ^ 63 ->
  encode i output = Ok (n, out) ->
  parse (take (Z.to_nat n) out) = Ok (mkValidatedBootInfo i) /\
  drop (Z.to_nat n) out = drop (Z.to_nat n) output.
Proof.
  intros Hwf Hmax H. apply encode_Ok_inv in H as (Hv & Hlen & -> & ->); [|done..].
  pose proof (info_bytes_len i Hwf) as Hl.
  replace (Z.to_nat BOOT_INFO_SIZE) with (length (info_bytes i)) by lia.
  rewrite take_app_length, drop_app_length. split; [|done].
  apply parse_Ok_iff; [by apply info_bytes_slice_ok|done].
Qed.

Lemma encode_parse_roundtrip_witness :
  parse (take (Z.to_nat BOOT_INFO_SIZE)
           (info_bytes sample_info ++ drop (Z.to_nat BOOT_INFO_SIZE) (replicate 4200 7)))
  = Ok (mkValidatedBootInfo sample_info).
Proof.
  apply (encode_parse_roundtrip sample_info (replicate 4200 7) _ BOOT_INFO_SIZE).
  - apply sample_wf.
  - rewrite length_replicate. lia.
  - apply encode_exact; [apply sample_wf|apply sample_valid|].
    rewrite length_replicate. unfold BOOT_INFO_SIZE. lia.
Defined.

(** Parsing then encoding gives the bytes back: a contract accepted by
    [parse] encodes, into any large enough buffer, to the very bytes it was
    parsed from (the property the fuzz target asserts). *)
Theorem parse_encode_roundtrip (bytes output : list Z) (v : ValidatedBootInfo) :
  slice_ok bytes -> BOOT_INFO_SIZE <= len output < 2 ^ 63 ->
  parse bytes = Ok v ->
  encode (ValidatedBootInfo_into_inner v) output
  = Ok (BOOT_INFO_SIZE, bytes ++ drop (Z.to_nat BOOT_INFO_SIZE) output).
Proof.
  intros Hb Hlen H. apply parse_Ok_iff in H as (Hwf & Hv & ->); [|done].
  by apply encode_exact.
Qed.

Lemma parse_encode_roundtrip_witness :
  encode sample_info (replicate 4176 0)
  = Ok (BOOT_INFO_SIZE, info_bytes sample_info ++ drop 4176 (replicate 4176 0)).
Proof.
  apply (parse_encode_roundtrip (info_bytes sample_info) (replicate 4176 0)
           (mkValidatedBootInfo sample_info)).
  - apply info_bytes_slice_ok, sample_wf.
  - rewrite length_replicate. unfold BOOT_INFO_SIZE. lia.
  - apply sample_parsed.
Defined.

Lemma contract_parse_no_panic bytes : slice_ok bytes -> parse bytes <> Panic.
Proof.
  intros Hb. unfold parse.
  apply bind_no_panic; [by apply prevalidate_no_panic|]. intros p Hp.
  apply prevalidate_Ok_len in Hp.
  destruct (read_info_total (E:=ValidationError) bytes Hb Hp) as (i & -> & Hwf & _).
  cbn [mbind exec_bind]. apply bind_no_panic; [by apply validate_ref_no_panic|done].
Qed.

(** The kernel-side parser never panics: no byte slice makes [parse] or
    [prevalidate] index out of range or overflow, whatever its length and
    contents. *)
Theorem parse_never_panics (bytes : list Z) :
  slice_ok bytes -> prevalidate bytes <> Panic /\ parse bytes <> Panic.
Proof.
  intros Hb. split; [by apply prevalidate_no_panic|by apply contract_parse_no_panic].
Qed.

Lemma parse_never_panics_witness : slice_ok [0x50; 0xff] /\ parse [0x50; 0xff] <> Panic.
Proof.
  assert (slice_ok [0x50; 0xff]) as H by (split; [by apply (bool_decide_unpack _)|simpl; lia]).
  split; [exact H|]. exact (proj2 (parse_never_panics _ H)).
Defined.

(** ** Truncated input *)
Lemma read_header_take {E} i n :
  wf_info i -> BOOT_HEADER_SIZE <= n <= BOOT_INFO_SIZE ->
  exists r, read_header (E:=E) (Reader_new (take (Z.to_nat n) (info_bytes i)))
            = Ok (bi_header i, r).
Proof.
  intros Hwf Hn. pose proof (info_bytes_len i Hwf) as Hlen.
  pose proof (codec_len (Codec := Codec_header) _ (proj1 Hwf)) as Hhl.
  unfold BOOT_HEADER_SIZE, BOOT_INFO_SIZE in *.
  destruct (codec_get E (Reader_new (take (Z.to_nat n) (info_bytes i))) (Codec := Codec_header))
    as (h & Hh & Hwh & Hput).
  { destruct (info_bytes_slice_ok i Hwf). unfold readable, slice_ok. simpl.
    rewrite length_take. split_and!; [by apply Forall_take|lia..]. }
  rewrite Hh. eexists. do 2 f_equal. apply codec_inj; [done|apply Hwf|].
  rewrite Hput. unfold next_bytes, Reader_new, info_bytes. cbn [rd_bytes rd_position].
  rewrite take_app_ge by lia. rewrite <- Hhl at 1.
  exact (sub_list_app_mid [] (header_bytes (bi_header i)) _).
Qed.

(** Every proper prefix of a valid contract is rejected as truncated before
    anything is decoded, and the error names the length that was missing: the
    32-byte header or the 4176-byte contract. *)
Theorem truncated_prefix_rejected (bytes : list Z) (v : ValidatedBootInfo) (n : Z) :
  slice_ok bytes -> parse bytes = Ok v -> 0 <= n < BOOT_INFO_SIZE ->
  parse (take (Z.to_nat n) bytes)
  = Err (Truncated n (if n <? BOOT_HEADER_SIZE then BOOT_HEADER_SIZE else BOOT_INFO_SIZE)).
Proof.
  intros Hb H Hn. apply parse_Ok_iff in H as (Hwf & Hv & ->); [|done].
  set (i := vb_info v) in *. pose proof (info_bytes_len i Hwf) as Hlen.
  assert (len (take (Z.to_nat n) (info_bytes i)) = n) as Hln by (rewrite length_take; lia).
  unfold parse. destruct (Z.ltb_spec n BOOT_HEADER_SIZE).
  - unfold prevalidate. rewrite Hln. destruct (Z.ltb_spec n BOOT_HEADER_SIZE); [done|lia].
  - destruct (read_header_take (E:=ValidationError) i n Hwf) as (r & Hr); [lia|].
    pose proof (prevalidate_header _ _ _ Hr) as Hp. rewrite Hln in Hp.
    specialize (Hp ltac:(done)).
    rewrite (proj2 (validate_header_iff _ (proj1 Hwf)) (proj1 Hv)) in Hp.
    replace (bh_total_size (bi_header i)) with BOOT_INFO_SIZE in Hp
      by (destruct Hv as [[-> _] _]; done).
    cbn [mbind exec_bind] in Hp. destruct (Z.ltb_spec n BOOT_INFO_SIZE); [|lia].
    by destruct (prevalidate _); simplify_eq/=.
Qed.

Lemma truncated_prefix_rejected_witness :
  parse (take 100 (info_bytes sample_info)) = Err (Truncated 100 BOOT_INFO_SIZE).
Proof.
  apply (truncated_prefix_rejected (info_bytes sample_info) (mkValidatedBootInfo sample_info) 100).
  - apply info_bytes_slice_ok, sample_wf.
  - apply sample_parsed.
  - unfold BOOT_INFO_SIZE. lia.
Defined.

(** ** The memory map handed to the kernel *)
Definition contains (r : MemoryRegion) (address : Z) : Prop :=
  mr_start r <= address < region_end r.

Lemma regions_ok_owner l i j r s a :
  regions_ok l -> l !! i = Some r -> l !! j = Some s ->
  contains r a -> contains s a -> i = j.
Proof.
  intros [_ Hss] Hi Hj Hr Hs. unfold contains in *.
  destruct (lt_eq_lt_dec i j) as [[Hlt|]|Hlt]; [|done|].
  - pose proof (StronglySorted_lookup _ _ Hss _ _ _ _ Hlt Hi Hj) as H.
    unfold before in H. lia.
  - pose proof (StronglySorted_lookup _ _ Hss _ _ _ _ Hlt Hj Hi) as H.
    unfold before in H. lia.
Qed.

(** The memory map of an accepted contract is usable as it is: the accessor
    returns exactly [memory_region_count] regions without panicking, each one is
    nonempty, page aligned and of a known kind, and no physical address belongs
    to two of them. *)
Theorem parsed_memory_map_is_partition (bytes : list Z) (v : ValidatedBootInfo) :
  slice_ok bytes -> parse bytes = Ok v ->
  exists l, ValidatedBootInfo_memory_regions (E:=ValidationError) v = Ok l /\
    len l = bh_memory_region_count (bi_header (vb_info v)) /\
    Forall region_ok l /\
    (forall i j r s address, l !! i = Some r -> l !! j = Some s ->
       contains r address -> contains s address -> i = j).
Proof.
  intros Hb H. apply parse_Ok_iff in H as (Hwf & Hv & _); [|done].
  exists (active_regions (vb_info v)). unfold ValidatedBootInfo_memory_regions.
  pose proof Hwf as ((_ & _ & _ & _ & _ & _ & [Hc0 _] & _) & _ & _ & Hlen & _).
  destruct Hv as ([_ Hc] & _ & _ & Hok & _). unfold MAX_MEMORY_REGIONS in *.
  split; [apply index_range_take; rewrite Hlen; lia|].
  split; [unfold active_regions; rewrite length_take, Hlen; lia|].
  split; [apply Hok|]. intros. by eapply regions_ok_owner.
Qed.

Lemma parsed_memory_map_is_partition_witness :
  exists l, ValidatedBootInfo_memory_regions (E:=ValidationError)
              (mkValidatedBootInfo sample_info) = Ok l /\ len l = 2.
Proof.
  destruct (parsed_memory_map_is_partition (info_bytes sample_info)
              (mkValidatedBootInfo sample_info)) as (l & Hl & Hc & _).
  - apply info_bytes_slice_ok, sample_wf.
  - apply sample_parsed.
  - exists l. split; [exact Hl|]. rewrite Hc. reflexivity.
Defined.

(** ** The builder *)

(** [set_memory_region] at consecutive indices, as the loader calls it. *)
Fixpoint fill_regions (i : BootInfo) (index : Z) (l : list MemoryRegion)
    : exec ValidationError BootInfo :=
  match l with
  | [] => Ok i
  | r :: t => i ← set_memory_region i index r; fill_regions i (index + 1) t
  end.

Definition with_count (h : BootHeader) (count : Z) : BootHeader :=
  mkBootHeader (bh_magic h) (bh_abi_major h) (bh_abi_minor h) (bh_header_size h)
    (bh_total_size h) (bh_memory_region_size h) count (bh_flags h).

Lemma set_memory_region_exact i index r :
  length (bi_memory_regions i) = Z.to_nat MAX_MEMORY_REGIONS ->
  0 <= index ->
  set_memory_region i index r =
  if index <? MAX_MEMORY_REGIONS then
    Ok (mkBootInfo
          (with_count (bi_header i) (Z.max (bh_memory_region_count (bi_header i)) (index + 1)))
          (bi_platform i) (bi_scenario i)
          (<[Z.to_nat index := r]> (bi_memory_regions i)))
  else Err (RegionIndexOutOfBounds index).
Proof.
  intros Hlen Hi. unfold set_memory_region, MAX_MEMORY_REGIONS in *.
  destruct (Z.leb_spec 128 index), (Z.ltb_spec index 128); try lia; [done|].
  cbn [fail_if mbind exec_bind]. unfold index_at.
  destruct (get_at_lt (bi_memory_regions i) index) as [x ->]; [lia|].
  cbn [or_panic mbind exec_bind]. rewrite add_panic_exact by lia. cbn [mbind exec_bind].
  destruct (Z.ltb_spec (bh_memory_region_count (bi_header i)) (index + 1)).
  - unfold try_uint. destruct (Z.ltb_spec (index + 1) (2 ^ 32)); [|lia].
    cbn [ok_or mbind exec_bind]. unfold with_count. do 3 f_equal. lia.
  - cbn [mbind exec_bind]. rewrite Z.max_l by lia. by destruct i as [[]].
Qed.

(** [set_memory_region] on a well-typed contract rejects exactly the indices
    past the 128 slots; otherwise it stores the region in its slot, leaves every
    other slot and field alone, extends the active count to include the slot and
    keeps the contract well typed. *)
Theorem set_memory_region_spec (i : BootInfo) (index : Z) (r : MemoryRegion) :
  wf_info i -> wf_region r -> 0 <= index ->
  (MAX_MEMORY_REGIONS <= index -> set_memory_region i index r = Err (RegionIndexOutOfBounds index)) /\
  (index < MAX_MEMORY_REGIONS -> exists i', set_memory_region i index r = Ok i' /\
     wf_info i' /\
     bi_memory_regions i' !! Z.to_nat index = Some r /\
     (forall k, k <> Z.to_nat index -> bi_memory_regions i' !! k = bi_memory_regions i !! k) /\
     bh_memory_region_count (bi_header i')
       = Z.max (bh_memory_region_count (bi_header i)) (index + 1) /\
     bi_platform i' = bi_platform i /\ bi_scenario i' = bi_scenario i).
Proof.
  intros (Hh & Hp & Hs & Hlen & Hr) Hwr Hi. rewrite set_memory_region_exact by done.
  split; intros Hc; destruct (Z.ltb_spec index MAX_MEMORY_REGIONS); try lia; [done|].
  eexists. split; [done|]. unfold MAX_MEMORY_REGIONS in *.
  unfold wf_info, wf_regions. cbn [bi_memory_regions bi_header bi_platform bi_scenario].
  rewrite length_insert. split_and!; auto.
  - destruct Hh as (? & ? & ? & ? & ? & ? & ? & ?). unfold wf_header, with_count, uint in *.
    simpl. split_and!; tauto || lia.
  - by apply Forall_insert.
  - apply list_lookup_insert_eq. lia.
  - intros k Hk. by apply list_lookup_insert_ne.
Qed.

Lemma set_memory_region_spec_witness :
  set_memory_region sample_info 200 sample_region0 = Err (RegionIndexOutOfBounds 200).
Proof.
  apply (set_memory_region_spec sample_info 200 sample_region0).
  - apply sample_wf.
  - unfold wf_region. by_decide.
  - lia.
  - unfold MAX_MEMORY_REGIONS. lia.
Defined.

Lemma insert_at_end {A} (l1 : list A) k x y :
  <[length l1 := x]> (l1 ++ replicate (S k) y) = (l1 ++ [x]) ++ replicate k y.
Proof. rewrite insert_app_r_alt, Nat.sub_diag by done. simpl. by rewrite <- app_assoc. Qed.

Lemma fill_regions_exact p s l : forall done_ rest,
  (length done_ + length rest)%nat = Z.to_nat MAX_MEMORY_REGIONS ->
  rest = replicate (length rest) MemoryRegion_EMPTY ->
  fill_regions
    (mkBootInfo (with_count BootHeader_current (len done_)) p s (done_ ++ rest))
    (len done_) l =
  if len done_ + len l <=? MAX_MEMORY_REGIONS then
    Ok (mkBootInfo (with_count BootHeader_current (len (done_ ++ l))) p s
          ((done_ ++ l) ++ drop (length l) rest))
  else Err (RegionIndexOutOfBounds MAX_MEMORY_REGIONS).
Proof.
  induction l as [|r l IH]; intros done_ rest Hlen Hrest.
  { simpl. rewrite Z.add_0_r, app_nil_r, drop_0. unfold MAX_MEMORY_REGIONS in *.
    destruct (Z.leb_spec (len done_) 128); [done|lia]. }
  cbn [fill_regions]. rewrite set_memory_region_exact; [|simpl; rewrite length_app; done|lia].
  cbn [bi_memory_regions bi_header bi_platform bi_scenario].
  destruct (Z.ltb_spec (len done_) MAX_MEMORY_REGIONS) as [Hlt|Hge].
  - destruct rest as [|x rest]; [simpl in Hlen; unfold MAX_MEMORY_REGIONS in *; lia|].
    simpl in Hrest. injection Hrest as -> Hrest. cbn [mbind exec_bind].
    rewrite Nat2Z.id, Hrest.
    change (MemoryRegion_EMPTY :: replicate (length rest) MemoryRegion_EMPTY)
      with (replicate (S (length rest)) MemoryRegion_EMPTY).
    rewrite insert_at_end, <- Hrest.
    pose proof (IH (done_ ++ [r]) rest) as H. rewrite length_app in H. simpl in H.
    replace (Z.max (bh_memory_region_count (with_count BootHeader_current (len done_)))
               (len done_ + 1)) with (Z.of_nat (length done_ + 1)) by (simpl; lia).
    replace (len done_ + 1) with (Z.of_nat (length done_ + 1)) by lia.
    unfold with_count in *. simpl in *. rewrite H by (done || lia).
    rewrite <- !(app_assoc done_). cbn [app length drop].
    rewrite <- ?Hrest.
    by replace (Z.of_nat (length done_ + 1) + len l) with (len done_ + Z.of_nat (S (length l))) by lia.
  - destruct (Z.leb_spec (len done_ + len (r :: l)) MAX_MEMORY_REGIONS) as [Hle|_].
    + simpl in Hle. lia.
    + unfold MAX_MEMORY_REGIONS in *. cbn [mbind exec_bind]. do 2 f_equal. lia.
Qed.

(** The contract the loader builds from a list of regions. *)
Definition built_info (p : PlatformInfo) (s : ScenarioInfo) (l : list MemoryRegion) : BootInfo :=
  mkBootInfo (with_count BootHeader_current (len l)) p s
    (l ++ replicate (Z.to_nat MAX_MEMORY_REGIONS - length l) MemoryRegion_EMPTY).

Lemma fill_regions_new p s l :
  fill_regions (BootInfo_new p s) 0 l =
  if len l <=? MAX_MEMORY_REGIONS then Ok (built_info p s l)
  else Err (RegionIndexOutOfBounds MAX_MEMORY_REGIONS).
Proof.
  pose proof (fill_regions_exact p s l [] (replicate (Z.to_nat MAX_MEMORY_REGIONS) MemoryRegion_EMPTY))
    as H. rewrite length_replicate in H. specialize (H eq_refl eq_refl).
  cbn [app length] in H. change (Z.of_nat 0) with 0 in H. rewrite Z.add_0_l in H.
  unfold BootInfo_new. change BootHeader_current with (with_count BootHeader_current 0).
  rewrite H. unfold built_info. by rewrite drop_replicate.
Qed.

Lemma wf_region_EMPTY : wf_region MemoryRegion_EMPTY.
Proof. unfold wf_region. by_decide. Qed.

Lemma built_info_wf p s l :
  wf_platform p -> wf_scenario s -> Forall wf_region l -> len l <= MAX_MEMORY_REGIONS ->
  wf_info (built_info p s l).
Proof.
  intros Hp Hs Hl Hlen. unfold MAX_MEMORY_REGIONS in *. unfold wf_info, wf_regions. simpl.
  rewrite length_app, length_replicate. split_and!; [|done|done| |].
  - unfold wf_header, with_count. simpl. split_and!; try (unfold uint; lia); by_decide.
  - unfold MAX_MEMORY_REGIONS. lia.
  - apply Forall_app_2; [done|]. apply Forall_replicate, wf_region_EMPTY.
Qed.

Lemma built_info_valid p s l :
  wf_platform p -> wf_scenario s -> Forall wf_region l -> len l <= MAX_MEMORY_REGIONS ->
  valid_platform p -> valid_scenario s -> valid_info (built_info p s l) <-> regions_ok l.
Proof.
  intros Hp Hs Hl Hlen Hvp Hvs. unfold valid_info, active_regions, unused_regions. simpl.
  rewrite Nat2Z.id, take_app_length, drop_app_length. split; [tauto|].
  intros. split_and!; auto; [by split|]. by apply Forall_replicate.
Qed.

(** Filling a fresh contract with a list of regions succeeds exactly when
    the list fits in the 128 slots, and the result validates exactly when the
    list is in order, disjoint and well formed; a longer list is rejected at
    index 128. *)
Theorem builder_accepts_exactly_bounded_maps (p : PlatformInfo) (s : ScenarioInfo)
    (l : list MemoryRegion) :
  wf_platform p -> valid_platform p -> wf_scenario s -> valid_scenario s -> Forall wf_region l ->
  (MAX_MEMORY_REGIONS < len l ->
     fill_regions (BootInfo_new p s) 0 l = Err (RegionIndexOutOfBounds MAX_MEMORY_REGIONS)) /\
  (len l <= MAX_MEMORY_REGIONS -> exists i, fill_regions (BootInfo_new p s) 0 l = Ok i /\
     active_regions i = l /\ (validate_ref i = Ok tt <-> regions_ok l)).
Proof.
  intros Hp Hvp Hs Hvs Hl. rewrite fill_regions_new.
  split; intros H; destruct (Z.leb_spec (len l) MAX_MEMORY_REGIONS); try lia; [done|].
  eexists. split; [done|]. split.
  - unfold active_regions, built_info. simpl. by rewrite Nat2Z.id, take_app_length.
  - rewrite validate_ref_valid by (by apply built_info_wf). by apply built_info_valid.
Qed.

Lemma builder_accepts_exactly_bounded_maps_witness :
  exists i, fill_regions (BootInfo_new (PlatformInfo_x86_64_uefi 0) ScenarioInfo_normal) 0
              [sample_region0; sample_region1] = Ok i /\
    active_regions i = [sample_region0; sample_region1].
Proof.
  destruct (builder_accepts_exactly_bounded_maps (PlatformInfo_x86_64_uefi 0)
    ScenarioInfo_normal [sample_region0; sample_region1]) as [_ H].
  - unfold wf_platform. by_decide.
  - split; [done|]. split; [done|]. by left.
  - unfold wf_scenario. by_decide.
  - left. reflexivity.
  - repeat apply Forall_cons_2; [unfold wf_region; by_decide..|constructor].
  - destruct H as (i & Hi & Ha & _); [unfold MAX_MEMORY_REGIONS; simpl; lia|].
    exists i. exact (conj Hi Ha).
Defined.

(** ** Reported faults *)

(** What each region error claims about the region it names and the one before
    it. *)
Inductive region_fault (index : Z) (r : MemoryRegion) (previous : option (Z * Z * Z))
    : ValidationError -> Prop :=
| fault_empty_kind :
    mr_kind r = MemoryKind_EMPTY -> region_fault index r previous (ActiveMemoryRegionIsEmpty index)
| fault_unknown_kind :
    9 < mr_kind r -> region_fault index r previous (UnknownMemoryKind index (mr_kind r))
| fault_zero_length :
    mr_length r = 0 -> region_fault index r previous (EmptyMemoryRegion index)
| fault_unaligned :
    mr_start r mod PAGE_SIZE <> 0 \/ mr_length r mod PAGE_SIZE <> 0 ->
    region_fault index r previous (UnalignedMemoryRegion index (mr_start r) (mr_length r))
| fault_overflow :
    2 ^ 64 <= region_end r -> region_fault index r previous (MemoryRegionOverflow index)
| fault_unsorted pi ps pe :
    previous = Some (pi, ps, pe) -> mr_start r < ps ->
    region_fault index r previous (UnsortedMemoryRegions pi index)
| fault_overlap pi ps pe :
    previous = Some (pi, ps, pe) -> ps <= mr_start r < pe ->
    region_fault index r previous (OverlappingMemoryRegions pi index).

Lemma check_region_Err index r previous e :
  wf_region r -> check_region index r previous = Err e -> region_fault index r previous e.
Proof.
  intros (Hs & Hl & Hk & _) H. unfold uint in *. unfold check_region, MemoryKind_is_known in H.
  apply bind_Err in H as [H|([] & Hk0 & H)].
  { apply fail_if_Err in H as [H ->]. bool_solve. by constructor. }
  apply bind_Err in H as [H|([] & Hk1 & H)].
  { apply fail_if_Err in H as [H ->]. apply fail_if_Ok in Hk0. unfold MemoryKind_EMPTY in *.
    bool_solve. constructor. lia. }
  apply bind_Err in H as [H|([] & Hl0 & H)].
  { apply fail_if_Err in H as [H ->]. bool_solve. by constructor. }
  apply bind_Err in H as [H|([] & Ha & H)].
  { apply fail_if_Err in H as [H ->]. bool_solve. by constructor. }
  apply bind_Err in H as [H|(e_ & _ & H)].
  { apply ok_or_Err in H as [H ->]. apply checked_add_None in H. by constructor. }
  apply bind_Err in H as [H|([] & _ & H)]; [|done].
  destruct previous as [[[pi ps] pe]|]; [|done].
  apply bind_Err in H as [H|([] & H1 & H)]; apply fail_if_Err in H as [H ->]; bool_solve.
  - by econstructor.
  - apply fail_if_Ok in H1. bool_solve. by econstructor.
Qed.

(** The region before position [length l], as the loop carries it. *)
Definition last_region (l : list MemoryRegion) : option (Z * Z * Z) :=
  r ← last l; Some (len l - 1, mr_start r, region_end r).

Lemma ordered_from_snoc l r : forall lo,
  ordered_from lo (l ++ [r]) <->
  ordered_from lo l /\ match last l with Some x => region_end x | None => lo end <= mr_start r.
Proof.
  induction l as [|x l IH]; intros lo; [simpl; tauto|].
  cbn [app ordered_from]. rewrite IH. rewrite last_cons. destruct (last l); tauto.
Qed.

Lemma check_active_first_fault e l : forall before_,
  Forall wf_region (before_ ++ l) ->
  Forall region_ok before_ -> ordered_from 0 before_ ->
  check_active (len before_) l (last_region before_) = Err e ->
  exists k r, (before_ ++ l) !! k = Some r /\ (length before_ <= k)%nat /\
    regions_ok (take k (before_ ++ l)) /\
    region_fault (Z.of_nat k) r (last_region (take k (before_ ++ l))) e.
Proof.
  induction l as [|r l IH]; intros before_ Hwf Hok Hord H; [done|].
  pose proof Hwf as Hwf'. apply Forall_app in Hwf as [Hwb Hwf]. inversion Hwf; subst.
  assert (previous_ok (last_region before_)) as Hp.
  { unfold last_region. destruct (last before_) as [x|] eqn:Ex; [|done]. simpl.
    apply last_Some_elem_of in Ex. rewrite Forall_forall in Hok.
    destruct (Hok x Ex) as (_ & ? & _). unfold region_end. lia. }
  cbn [check_active] in H. apply bind_Err in H as [H|(p' & Hr & H)].
  - exists (length before_), r. rewrite lookup_app_r, Nat.sub_diag, take_app_length by done.
    split_and!; [done|done| |by apply check_region_Err].
    split; [done|]. by eapply ordered_from_sorted.
  - apply check_region_Ok in Hr as (Hrok & Hle & ->); [|done..].
    destruct (IH (before_ ++ [r])) as (k & s & Hk & Hlt & Hreg & Hf).
    + by rewrite <- app_assoc.
    + apply Forall_app_2; [done|by constructor].
    + apply ordered_from_snoc. split; [done|]. unfold last_region in Hle.
      by destruct (last before_).
    + unfold last_region. rewrite last_snoc, length_app. simpl.
      rewrite Nat2Z.inj_add. replace (len before_ + Z.of_nat 1) with (len before_ + 1) by lia.
      by replace (len before_ + 1 - 1) with (len before_) by lia.
    + rewrite <- app_assoc in *. exists k, s. split_and!; [done| |done..].
      rewrite length_app in Hlt. simpl in Hlt. lia.
Qed.

Lemma check_unused_first_fault count e l : forall offset,
  count + offset + len l < 2 ^ 32 ->
  check_unused count offset l = Err e ->
  exists k r, l !! k = Some r /\ r <> MemoryRegion_EMPTY /\
    Forall (eq MemoryRegion_EMPTY) (take k l) /\
    e = NonZeroUnusedMemoryRegion (count + (offset + Z.of_nat k)).
Proof.
  induction l as [|r l IH]; intros offset Hlen H; [done|]. cbn [length] in Hlen.
  cbn [check_unused] in H. case_bool_decide as Hr.
  - cbn [mbind exec_bind] in H. destruct (IH (offset + 1)) as (k & s & Hk & Hs & Hfa & ->);
      [lia|done|]. exists (S k), s. simpl. split_and!; [done|done|by constructor|].
    f_equal. lia.
  - rewrite add_panic_exact in H by lia. simplify_eq/=. exists 0%nat, r.
    split_and!; [done|done|constructor|f_equal; lia].
Qed.

(** C36. A region error is truthful and first: when [validate_regions] rejects a
    contract whose header passed, the error names an active region that really
    has the reported fault while all the regions before it are in order, or,
    when all active regions are fine, the first unused record that is not
    zero. *)
Theorem region_error_is_first_fault (i : BootInfo) (e : ValidationError) :
  wf_info i -> valid_header (bi_header i) -> validate_regions i = Err e ->
  (exists k r, active_regions i !! k = Some r /\
     regions_ok (take k (active_regions i)) /\
     region_fault (Z.of_nat k) r (last_region (take k (active_regions i))) e) \/
  (regions_ok (active_regions i) /\
   exists k r, unused_regions i !! k = Some r /\ r <> MemoryRegion_EMPTY /\
     Forall (eq MemoryRegion_EMPTY) (take k (unused_regions i)) /\
     e = NonZeroUnusedMemoryRegion (bh_memory_region_count (bi_header i) + Z.of_nat k)).
Proof.
  intros ((_ & _ & _ & _ & _ & _ & [Hc0 _] & _) & _ & _ & Hlen & Hwf) [_ Hc] H.
  unfold MAX_MEMORY_REGIONS in *. unfold validate_regions in H.
  rewrite index_range_take, index_range_drop in H by (rewrite Hlen; lia).
  cbn [mbind exec_bind] in H. fold (active_regions i) (unused_regions i) in H.
  apply bind_Err in H as [H|([] & Hok & H)].
  - left. destruct (check_active_first_fault e (active_regions i) []) as (k & r & ? & _ & ? & ?);
      [by apply Forall_take|constructor|done|done|]. by exists k, r.
  - right. apply check_active_iff in Hok; [|by apply Forall_take]. split; [done|].
    apply bind_Err in H as [H|([] & _ & H)]; [|done].
    apply check_unused_first_fault in H as (k & r & ? & ? & ? & ->).
    + exists k, r. by rewrite Z.add_0_l.
    + unfold unused_regions. rewrite length_drop, Hlen. lia.
Qed.

(** The sample contract with its two regions swapped. *)
Definition unsorted_info : BootInfo :=
  built_info (PlatformInfo_x86_64_uefi 0) ScenarioInfo_normal [sample_region1; sample_region0].

Lemma region_error_is_first_fault_witness :
  validate_regions unsorted_info = Err (UnsortedMemoryRegions 0 1) /\
  ((exists k r, active_regions unsorted_info !! k = Some r /\
     regions_ok (take k (active_regions unsorted_info)) /\
     region_fault (Z.of_nat k) r (last_region (take k (active_regions unsorted_info)))
       (UnsortedMemoryRegions 0 1)) \/
   (regions_ok (active_regions unsorted_info) /\
    exists k r, unused_regions unsorted_info !! k = Some r /\ r <> MemoryRegion_EMPTY /\
     Forall (eq MemoryRegion_EMPTY) (take k (unused_regions unsorted_info)) /\
     UnsortedMemoryRegions 0 1 = NonZeroUnusedMemoryRegion
       (bh_memory_region_count (bi_header unsorted_info) + Z.of_nat k))).
Proof.
  assert (validate_regions unsorted_info = Err (UnsortedMemoryRegions 0 1)) as H
    by (vm_compute; reflexivity).
  split; [exact H|]. apply (region_error_is_first_fault unsorted_info).
  - by_decide.
  - split; [reflexivity|]. vm_compute. discriminate.
  - exact H.
Defined.
