(* ===== verification/BootElf.v ===== *)
(** The kernel ELF validator: crates/boot-elf/src/lib.rs.

    [parse] accepts a small subset of ELF64 executables; [segments] iterates
    over the load segments of an accepted image.  The functions that return an
    [Option] and contain an unchecked addition are computations in
    [exec unit]: [Ok] is [Some], [Err tt] is [None], [Panic] an overflow. *)

From S2P Require Import Prelude Bytes.

(** ** Constants *)
Definition MIN_LOAD_ADDRESS : Z := 0x200000.
Definition MAX_LOAD_ADDRESS_EXCLUSIVE : Z := 0x40000000.
Definition KERNEL_BASE_ADDRESS : Z := 0x04000000.
Definition KERNEL_LOAD_LIMIT : Z := 0x04800000.
Definition STACK_GUARD_ADDRESS : Z := 0x047ff000.
Definition STACK_BASE_ADDRESS : Z := 0x04800000.
Definition STACK_SIZE_BYTES : Z := 0x00010000.
Definition MAX_ELF_FILE_SIZE : Z := 16 * 1024 * 1024.
Definition MAX_PROGRAM_HEADERS : Z := 8.
Definition MAX_LOAD_SEGMENTS : Z := 4.
Definition MAX_TOTAL_LOAD_SIZE : Z := 64 * 1024 * 1024.
Definition PAGE_SIZE : Z := 4096.
Definition MAX_SEGMENT_ALIGNMENT : Z := 2 * 1024 * 1024.

Definition ELF_HEADER_SIZE : Z := 64.
Definition PROGRAM_HEADER_SIZE : Z := 56.
Definition ELF_MAGIC : list Z := [0x7f; 0x45; 0x4c; 0x46].
Definition ELFCLASS64 : Z := 2.
Definition ELFDATA2LSB : Z := 1.
Definition EV_CURRENT : Z := 1.
Definition ELFOSABI_SYSV : Z := 0.
Definition ET_EXEC : Z := 2.
Definition EM_X86_64 : Z := 62.
Definition PT_NULL : Z := 0.
Definition PT_LOAD : Z := 1.
Definition PF_X : Z := 1.
Definition PF_W : Z := 2.
Definition PF_R : Z := 4.
Definition KNOWN_SEGMENT_FLAGS : Z := Z.lor (Z.lor PF_X PF_W) PF_R.

(** ** Data *)

(** [SegmentFlags] is a transparent [u32]; its three predicates. *)
Definition is_readable (flags : Z) : bool := negb (Z.land flags PF_R =? 0).
Definition is_writable (flags : Z) : bool := negb (Z.land flags PF_W =? 0).
Definition is_executable (flags : Z) : bool := negb (Z.land flags PF_X =? 0).

Record LoadSegment := mkLoadSegment {
  ls_index : Z;
  ls_flags : Z;
  ls_file_offset : Z;
  ls_virtual_address : Z;
  ls_physical_address : Z;
  ls_file_size : Z;
  ls_memory_size : Z;
  ls_alignment : Z;
  ls_file_data : list Z
}.

(** [self.memory_size - self.file_size] *)
Definition zero_fill_size {E} (s : LoadSegment) : exec E Z :=
  sub_panic (ls_memory_size s) (ls_file_size s).

Record ValidatedElf := mkValidatedElf {
  ve_bytes : list Z;
  ve_entry_point : Z;
  ve_program_header_offset : Z;
  ve_program_header_count : Z;
  ve_load_segment_count : Z
}.

Record LoadSegments := mkLoadSegments {
  it_bytes : list Z;
  it_program_header_offset : Z;
  it_program_header_count : Z;
  it_next_index : Z
}.

Definition segments (self : ValidatedElf) : LoadSegments :=
  {| it_bytes := ve_bytes self;
     it_program_header_offset := ve_program_header_offset self;
     it_program_header_count := ve_program_header_count self;
     it_next_index := 0 |}.

Inductive ParseError :=
| Truncated (provided required : Z)
| FileTooLarge (size maximum : Z)
| BadMagic
| UnsupportedClass (class : Z)
| UnsupportedByteOrder (encoding : Z)
| UnsupportedIdentificationVersion (version : Z)
| UnsupportedOsAbi (os_abi : Z)
| UnsupportedAbiVersion (version : Z)
| NonZeroIdentificationPadding
| UnsupportedObjectType (object_type : Z)
| UnsupportedMachine (machine : Z)
| UnsupportedVersion (version : Z)
| UnsupportedElfFlags (flags : Z)
| InvalidHeaderSize (found expected : Z)
| InvalidProgramHeaderSize (found expected : Z)
| InvalidProgramHeaderCount (count maximum : Z)
| ProgramHeaderTableOverlapsHeader (offset : Z)
| ProgramHeaderTableOverflow
| ProgramHeaderTableOutOfBounds (end_ file_size : Z)
| UnsupportedProgramHeaderType (index kind : Z)
| TooManyLoadSegments (count maximum : Z)
| NoLoadSegments
| UnknownSegmentFlags (index flags : Z)
| NonReadableSegment (index : Z)
| WriteExecuteSegment (index : Z)
| EmptyMemorySegment (index : Z)
| FileLargerThanMemory (index file_size memory_size : Z)
| SegmentFileRangeOverflow (index : Z)
| SegmentFileRangeOutOfBounds (index end_ file_size : Z)
| SegmentMemoryRangeOverflow (index : Z)
| SegmentOutsideLoadWindow (index start end_ : Z)
| VirtualPhysicalAddressMismatch (index virtual_address physical_address : Z)
| InvalidSegmentAlignment (index alignment : Z)
| MisalignedSegment (index address file_offset alignment : Z)
| UnsortedSegments (previous current : Z)
| OverlappingSegments (previous current : Z)
| TotalLoadSizeOverflow
| TotalLoadSizeTooLarge (size maximum : Z)
| EntryOutsideLoadWindow (entry : Z)
| EntryNotExecutable (entry : Z).

Record ElfHeader := mkElfHeader {
  eh_entry : Z;
  eh_program_header_offset : Z;
  eh_program_header_count : Z;
  eh_program_header_table_end : Z;
  eh_file_size : Z
}.

Record ProgramHeader := mkProgramHeader {
  ph_kind : Z;
  ph_flags : Z;
  ph_file_offset : Z;
  ph_virtual_address : Z;
  ph_physical_address : Z;
  ph_file_size : Z;
  ph_memory_size : Z;
  ph_alignment : Z
}.

(** ** Decoding *)
Definition align_up (value alignment : Z) : option Z :=
  (fun sum => Z.land sum (bitnot 64 (alignment - 1))) <$>
    checked_add 64 value (alignment - 1).

Definition decode_program_header (bytes : list Z) (table_offset index : Z)
    : exec unit ProgramHeader :=
  rel ← ok_or (checked_mul 64 index PROGRAM_HEADER_SIZE) tt;
  offset ← ok_or (checked_add 64 table_offset rel) tt;
  kind ← ok_or (read_u32 bytes offset) tt;
  o ← add_panic 64 offset 4; flags ← ok_or (read_u32 bytes o) tt;
  o ← add_panic 64 offset 8; file_offset ← ok_or (read_u64 bytes o) tt;
  o ← add_panic 64 offset 16; virtual_address ← ok_or (read_u64 bytes o) tt;
  o ← add_panic 64 offset 24; physical_address ← ok_or (read_u64 bytes o) tt;
  o ← add_panic 64 offset 32; file_size ← ok_or (read_u64 bytes o) tt;
  o ← add_panic 64 offset 40; memory_size ← ok_or (read_u64 bytes o) tt;
  o ← add_panic 64 offset 48; alignment ← ok_or (read_u64 bytes o) tt;
  Ok {| ph_kind := kind; ph_flags := flags; ph_file_offset := file_offset;
        ph_virtual_address := virtual_address; ph_physical_address := physical_address;
        ph_file_size := file_size; ph_memory_size := memory_size;
        ph_alignment := alignment |}.

(** [usize::try_from] of a [u64] is the identity on the 64-bit targets; it is
    kept as a conversion that could fail. *)
Definition load_segment_from_header (bytes : list Z) (index : Z) (header : ProgramHeader)
    : option LoadSegment :=
  start ← try_uint 64 (ph_file_offset header);
  file_end ← checked_add 64 (ph_file_offset header) (ph_file_size header);
  end_ ← try_uint 64 file_end;
  file_data ← get_range bytes start end_;
  Some {| ls_index := index; ls_flags := ph_flags header;
          ls_file_offset := ph_file_offset header;
          ls_virtual_address := ph_virtual_address header;
          ls_physical_address := ph_physical_address header;
          ls_file_size := ph_file_size header;
          ls_memory_size := ph_memory_size header;
          ls_alignment := ph_alignment header;
          ls_file_data := file_data |}.

(** ** Validation *)
Definition validate_identification (bytes : list Z) : exec ParseError unit :=
  fail_if (negb (bool_decide (get_range bytes 0 4 = Some ELF_MAGIC))) BadMagic ;;
  b4 ← index_at bytes 4;
  fail_if (negb (b4 =? ELFCLASS64)) (UnsupportedClass b4) ;;
  b5 ← index_at bytes 5;
  fail_if (negb (b5 =? ELFDATA2LSB)) (UnsupportedByteOrder b5) ;;
  b6 ← index_at bytes 6;
  fail_if (negb (b6 =? EV_CURRENT)) (UnsupportedIdentificationVersion b6) ;;
  b7 ← index_at bytes 7;
  fail_if (negb (b7 =? ELFOSABI_SYSV)) (UnsupportedOsAbi b7) ;;
  b8 ← index_at bytes 8;
  fail_if (negb (b8 =? 0)) (UnsupportedAbiVersion b8) ;;
  padding ← index_range bytes 9 16;
  fail_if (existsb (fun byte => negb (byte =? 0)) padding) NonZeroIdentificationPadding.

Definition parse_header (bytes : list Z) : exec ParseError ElfHeader :=
  let truncated := Truncated (len bytes) ELF_HEADER_SIZE in
  object_type ← ok_or (read_u16 bytes 16) truncated;
  machine ← ok_or (read_u16 bytes 18) truncated;
  version ← ok_or (read_u32 bytes 20) truncated;
  entry ← ok_or (read_u64 bytes 24) truncated;
  program_header_offset ← ok_or (read_u64 bytes 32) truncated;
  flags ← ok_or (read_u32 bytes 48) truncated;
  header_size ← ok_or (read_u16 bytes 52) truncated;
  program_header_size ← ok_or (read_u16 bytes 54) truncated;
  program_header_count ← ok_or (read_u16 bytes 56) truncated;
  fail_if (negb (object_type =? ET_EXEC)) (UnsupportedObjectType object_type) ;;
  fail_if (negb (machine =? EM_X86_64)) (UnsupportedMachine machine) ;;
  fail_if (negb (version =? EV_CURRENT)) (UnsupportedVersion version) ;;
  fail_if (negb (flags =? 0)) (UnsupportedElfFlags flags) ;;
  fail_if (negb (header_size =? ELF_HEADER_SIZE)) (InvalidHeaderSize header_size ELF_HEADER_SIZE) ;;
  fail_if (negb (program_header_size =? PROGRAM_HEADER_SIZE))
    (InvalidProgramHeaderSize program_header_size PROGRAM_HEADER_SIZE) ;;
  fail_if ((program_header_count =? 0) || (MAX_PROGRAM_HEADERS <? program_header_count))
    (InvalidProgramHeaderCount program_header_count MAX_PROGRAM_HEADERS) ;;
  fail_if (program_header_offset <? 64) (ProgramHeaderTableOverlapsHeader program_header_offset) ;;
  table_size ← ok_or (checked_mul 64 program_header_count 56) ProgramHeaderTableOverflow;
  program_header_table_end ←
    ok_or (checked_add 64 program_header_offset table_size) ProgramHeaderTableOverflow;
  let file_size := default u64_MAX (try_uint 64 (len bytes)) in
  fail_if (file_size <? program_header_table_end)
    (ProgramHeaderTableOutOfBounds program_header_table_end file_size) ;;
  program_header_offset ← ok_or (try_uint 64 program_header_offset)
    (ProgramHeaderTableOutOfBounds program_header_table_end file_size);
  fail_if (negb ((MIN_LOAD_ADDRESS <=? entry) && (entry <? MAX_LOAD_ADDRESS_EXCLUSIVE)))
    (EntryOutsideLoadWindow entry) ;;
  Ok {| eh_entry := entry; eh_program_header_offset := program_header_offset;
        eh_program_header_count := program_header_count;
        eh_program_header_table_end := program_header_table_end;
        eh_file_size := file_size |}.

Definition validate_load_segment (index : Z) (header : ProgramHeader) (file_size : Z)
    : exec ParseError Z :=
  fail_if (negb (Z.land (ph_flags header) (bitnot 32 KNOWN_SEGMENT_FLAGS) =? 0))
    (UnknownSegmentFlags index (ph_flags header)) ;;
  fail_if (Z.land (ph_flags header) PF_R =? 0) (NonReadableSegment index) ;;
  fail_if (Z.land (ph_flags header) (Z.lor PF_W PF_X) =? Z.lor PF_W PF_X)
    (WriteExecuteSegment index) ;;
  fail_if (ph_memory_size header =? 0) (EmptyMemorySegment index) ;;
  fail_if (ph_memory_size header <? ph_file_size header)
    (FileLargerThanMemory index (ph_file_size header) (ph_memory_size header)) ;;
  file_end ← ok_or (checked_add 64 (ph_file_offset header) (ph_file_size header))
    (SegmentFileRangeOverflow index);
  fail_if (file_size <? file_end) (SegmentFileRangeOutOfBounds index file_end file_size) ;;
  fail_if (negb (ph_virtual_address header =? ph_physical_address header))
    (VirtualPhysicalAddressMismatch index (ph_virtual_address header)
       (ph_physical_address header)) ;;
  fail_if (negb (is_power_of_two (ph_alignment header))
           || negb ((PAGE_SIZE <=? ph_alignment header)
                    && (ph_alignment header <=? MAX_SEGMENT_ALIGNMENT)))
    (InvalidSegmentAlignment index (ph_alignment header)) ;;
  fail_if (negb (ph_physical_address header mod PAGE_SIZE =? 0)
           || negb (ph_physical_address header mod ph_alignment header
                    =? ph_file_offset header mod ph_alignment header))
    (MisalignedSegment index (ph_physical_address header) (ph_file_offset header)
       (ph_alignment header)) ;;
  end_ ← ok_or (checked_add 64 (ph_physical_address header) (ph_memory_size header))
    (SegmentMemoryRangeOverflow index);
  fail_if ((ph_physical_address header <? MIN_LOAD_ADDRESS) || (MAX_LOAD_ADDRESS_EXCLUSIVE <? end_))
    (SegmentOutsideLoadWindow index (ph_physical_address header) end_) ;;
  Ok end_.

(** The local variables of [validate_program_headers]'s loop. *)
Record ScanState := mkScanState {
  sc_load_count : Z;
  sc_total_load_size : Z;
  sc_previous : option (Z * Z * Z);
  sc_entry_is_executable : bool
}.

(** One iteration of the loop, on the header at [index]. *)
Definition scan_header (elf : ElfHeader) (index : Z) (header : ProgramHeader) (s : ScanState)
    : exec ParseError ScanState :=
  if ph_kind header =? PT_NULL then Ok s else
  fail_if (negb (ph_kind header =? PT_LOAD))
    (UnsupportedProgramHeaderType index (ph_kind header)) ;;
  load_count ← add_panic 16 (sc_load_count s) 1;
  fail_if (MAX_LOAD_SEGMENTS <? load_count) (TooManyLoadSegments load_count MAX_LOAD_SEGMENTS) ;;
  end_ ← validate_load_segment index header (eh_file_size elf);
  page_end ← ok_or (align_up end_ PAGE_SIZE) (SegmentMemoryRangeOverflow index);
  match sc_previous s with
  | Some (previous_index, previous_start, previous_end) =>
      fail_if (ph_physical_address header <? previous_start)
        (UnsortedSegments previous_index index) ;;
      fail_if (ph_physical_address header <? previous_end)
        (OverlappingSegments previous_index index)
  | None => Ok tt
  end ;;
  total_load_size ← ok_or (checked_add 64 (sc_total_load_size s) (ph_memory_size header))
    TotalLoadSizeOverflow;
  fail_if (MAX_TOTAL_LOAD_SIZE <? total_load_size)
    (TotalLoadSizeTooLarge total_load_size MAX_TOTAL_LOAD_SIZE) ;;
  entry_here ←
    (if negb (Z.land (ph_flags header) PF_X =? 0) && (ph_virtual_address header <=? eh_entry elf)
     then limit ← add_panic 64 (ph_virtual_address header) (ph_memory_size header);
          Ok (eh_entry elf <? limit)
     else Ok false);
  Ok {| sc_load_count := load_count; sc_total_load_size := total_load_size;
        sc_previous := Some (index, ph_physical_address header, page_end);
        sc_entry_is_executable := entry_here || sc_entry_is_executable s |}.

(** [for index in 0..elf.program_header_count], from [index], [n] iterations. *)
Fixpoint scan_headers (bytes : list Z) (elf : ElfHeader) (n : nat) (index : Z) (s : ScanState)
    : exec ParseError ScanState :=
  match n with
  | O => Ok s
  | S n =>
      header ← map_err
        (fun _ => ProgramHeaderTableOutOfBounds (eh_program_header_table_end elf) (eh_file_size elf))
        (decode_program_header bytes (eh_program_header_offset elf) index);
      s ← scan_header elf index header s;
      scan_headers bytes elf n (index + 1) s
  end.

Definition validate_program_headers (bytes : list Z) (elf : ElfHeader) : exec ParseError Z :=
  s ← scan_headers bytes elf (Z.to_nat (eh_program_header_count elf)) 0
        {| sc_load_count := 0; sc_total_load_size := 0; sc_previous := None;
           sc_entry_is_executable := false |};
  fail_if (sc_load_count s =? 0) NoLoadSegments ;;
  fail_if (negb (sc_entry_is_executable s)) (EntryNotExecutable (eh_entry elf)) ;;
  Ok (sc_load_count s).

Definition parse (bytes : list Z) : exec ParseError ValidatedElf :=
  fail_if (len bytes <? ELF_HEADER_SIZE) (Truncated (len bytes) ELF_HEADER_SIZE) ;;
  fail_if (MAX_ELF_FILE_SIZE <? len bytes) (FileTooLarge (len bytes) MAX_ELF_FILE_SIZE) ;;
  validate_identification bytes ;;
  header ← parse_header bytes;
  load_segment_count ← validate_program_headers bytes header;
  Ok {| ve_bytes := bytes; ve_entry_point := eh_entry header;
        ve_program_header_offset := eh_program_header_offset header;
        ve_program_header_count := eh_program_header_count header;
        ve_load_segment_count := load_segment_count |}.

(** ** The segment iterator *)

(** [Iterator::next]: the [while] loop makes at most
    [program_header_count - next_index] iterations, the fuel. *)
Fixpoint next_loop (fuel : nat) (it : LoadSegments) : exec unit (option LoadSegment * LoadSegments) :=
  if it_next_index it <? it_program_header_count it then
    match fuel with
    | O => Err tt
    | S fuel =>
        let index := it_next_index it in
        next_index ← add_panic 16 index 1;
        let it := {| it_bytes := it_bytes it;
                     it_program_header_offset := it_program_header_offset it;
                     it_program_header_count := it_program_header_count it;
                     it_next_index := next_index |} in
        match decode_program_header (it_bytes it) (it_program_header_offset it) index with
        | Panic => Panic
        | Err _ => Ok (None, it)
        | Ok header =>
            if ph_kind header =? PT_LOAD
            then Ok (load_segment_from_header (it_bytes it) index header, it)
            else next_loop fuel it
        end
    end
  else Ok (None, it).

Definition next (it : LoadSegments) : exec unit (option LoadSegment * LoadSegments) :=
  next_loop (Z.to_nat (it_program_header_count it - it_next_index it)) it.

Definition size_hint {E} (it : LoadSegments) : exec E (Z * option Z) :=
  remaining ← sub_panic (it_program_header_count it) (it_next_index it);
  Ok (0, Some remaining).

(** The items a [for] loop over the iterator visits; [Err tt] is fuel
    exhaustion. *)
Fixpoint collect (fuel : nat) (it : LoadSegments) : exec unit (list LoadSegment) :=
  match fuel with
  | O => Err tt
  | S fuel =>
      '(item, it) ← next it;
      match item with
      | None => Ok []
      | Some s => rest ← collect fuel it; Ok (s :: rest)
      end
  end.

Definition collect_segments (v : ValidatedElf) : exec unit (list LoadSegment) :=
  collect (S (Z.to_nat (ve_program_header_count v))) (segments v).
