(* ===== verification/ElfSpec.v ===== *)
(** What boot-elf promises: the bounded kernel ELF policy stated on the bytes
    of the file, and the lemmas that connect each check of [BootElf] with the
    clause it enforces. *)

From S2P Require Import Prelude Bytes BootElf.

(** ** The file as a specification sees it *)

(** The [n]-byte little-endian field at [offset]. *)
Definition field (bytes : list Z) (offset n : Z) : Z :=
  from_le_bytes (sub_list bytes offset n).

Definition header_at (bytes : list Z) (offset : Z) : ProgramHeader :=
  {| ph_kind := field bytes offset 4; ph_flags := field bytes (offset + 4) 4;
     ph_file_offset := field bytes (offset + 8) 8;
     ph_virtual_address := field bytes (offset + 16) 8;
     ph_physical_address := field bytes (offset + 24) 8;
     ph_file_size := field bytes (offset + 32) 8;
     ph_memory_size := field bytes (offset + 40) 8;
     ph_alignment := field bytes (offset + 48) 8 |}.

Definition entry_of (bytes : list Z) : Z := field bytes 24 8.
Definition phoff_of (bytes : list Z) : Z := field bytes 32 8.
Definition phnum_of (bytes : list Z) : Z := field bytes 56 2.

(** The program headers [i .. i + n), each with its index. *)
Definition headers_from (bytes : list Z) (phoff i : Z) (n : nat) : list (Z * ProgramHeader) :=
  (fun k => (i + Z.of_nat k, header_at bytes (phoff + (i + Z.of_nat k) * 56))) <$> seq 0 n.

Definition headers_of (bytes : list Z) : list (Z * ProgramHeader) :=
  headers_from bytes (phoff_of bytes) 0 (Z.to_nat (phnum_of bytes)).

Definition is_load (h : Z * ProgramHeader) : Prop := ph_kind h.2 = PT_LOAD.
#[global] Instance is_load_dec h : Decision (is_load h).
Proof. unfold is_load. apply _. Defined.

Definition loads_of (bytes : list Z) : list (Z * ProgramHeader) := filter is_load (headers_of bytes).

(** The end of a memory range, rounded up to a page. *)
Definition page_up (x : Z) : Z := (x + 4095) / 4096 * 4096.

Definition seg_end (h : ProgramHeader) : Z := ph_physical_address h + ph_memory_size h.

(** The permissions of a load segment: R, RX or RW. *)
Definition segment_ok (file_size : Z) (h : ProgramHeader) : Prop :=
  (ph_flags h = 4 \/ ph_flags h = 5 \/ ph_flags h = 6) /\
  0 < ph_memory_size h /\
  ph_file_size h <= ph_memory_size h /\
  ph_file_offset h + ph_file_size h <= file_size /\
  ph_virtual_address h = ph_physical_address h /\
  (exists k, 12 <= k <= 21 /\ ph_alignment h = 2 ^ k) /\
  ph_physical_address h mod 4096 = 0 /\
  ph_physical_address h mod ph_alignment h = ph_file_offset h mod ph_alignment h /\
  MIN_LOAD_ADDRESS <= ph_physical_address h /\
  seg_end h <= MAX_LOAD_ADDRESS_EXCLUSIVE.

(** Page-rounded, [a] lies below [b]. *)
Definition below (a b : Z * ProgramHeader) : Prop :=
  page_up (seg_end a.2) <= ph_physical_address b.2.

Definition total_memory (l : list (Z * ProgramHeader)) : Z :=
  foldr (fun h acc => ph_memory_size h.2 + acc) 0 l.

(** [entry] lies in the executable segment [h]. *)
Definition covers (entry : Z) (h : ProgramHeader) : Prop :=
  ph_flags h = 5 /\ ph_virtual_address h <= entry < ph_virtual_address h + ph_memory_size h.

Definition ident : list Z := ELF_MAGIC ++ [2; 1; 1; 0; 0] ++ replicate 7 0.

Record elf_header_ok (bytes : list Z) : Prop := {
  eo_min : 64 <= len bytes;
  eo_max : len bytes <= MAX_ELF_FILE_SIZE;
  eo_ident : sub_list bytes 0 16 = ident;
  eo_type : field bytes 16 2 = ET_EXEC;
  eo_machine : field bytes 18 2 = EM_X86_64;
  eo_version : field bytes 20 4 = EV_CURRENT;
  eo_flags : field bytes 48 4 = 0;
  eo_ehsize : field bytes 52 2 = 64;
  eo_phentsize : field bytes 54 2 = 56;
  eo_phnum : 1 <= phnum_of bytes <= MAX_PROGRAM_HEADERS;
  eo_phoff : 64 <= phoff_of bytes;
  eo_table : phoff_of bytes + 56 * phnum_of bytes <= len bytes;
  eo_entry : MIN_LOAD_ADDRESS <= entry_of bytes < MAX_LOAD_ADDRESS_EXCLUSIVE
}.

Record elf_loads_ok (bytes : list Z) : Prop := {
  el_kinds : Forall (fun h => ph_kind h.2 = PT_NULL \/ ph_kind h.2 = PT_LOAD) (headers_of bytes);
  el_count : 1 <= len (loads_of bytes) <= MAX_LOAD_SEGMENTS;
  el_segments : Forall (fun h => segment_ok (len bytes) h.2) (loads_of bytes);
  el_sorted : StronglySorted below (loads_of bytes);
  el_total : total_memory (loads_of bytes) <= MAX_TOTAL_LOAD_SIZE;
  el_entry : Exists (fun h => covers (entry_of bytes) h.2) (loads_of bytes)
}.

Definition elf_ok (bytes : list Z) : Prop := elf_header_ok bytes /\ elf_loads_ok bytes.

(** What [parse] returns for a file that satisfies the policy. *)
Definition validated (bytes : list Z) : ValidatedElf :=
  {| ve_bytes := bytes; ve_entry_point := entry_of bytes;
     ve_program_header_offset := phoff_of bytes;
     ve_program_header_count := phnum_of bytes;
     ve_load_segment_count := len (loads_of bytes) |}.

(** The segment a loader sees for program header [h]. *)
Definition segment_of (bytes : list Z) (h : Z * ProgramHeader) : LoadSegment :=
  {| ls_index := h.1; ls_flags := ph_flags h.2; ls_file_offset := ph_file_offset h.2;
     ls_virtual_address := ph_virtual_address h.2;
     ls_physical_address := ph_physical_address h.2;
     ls_file_size := ph_file_size h.2; ls_memory_size := ph_memory_size h.2;
     ls_alignment := ph_alignment h.2;
     ls_file_data := sub_list bytes (ph_file_offset h.2) (ph_file_size h.2) |}.

(** ** Integer lemmas *)
Lemma is_power_of_two_iff x : is_power_of_two x = true <-> exists k, 0 <= k /\ x = 2 ^ k.
Proof.
  unfold is_power_of_two. rewrite andb_true_iff, Z.ltb_lt, Z.eqb_eq. split.
  - intros [Hx Hl]. exists (Z.log2 x). split; [apply Z.log2_nonneg|].
    pose proof (Z.log2_spec x Hx) as [Hlo Hhi].
    destruct (Z.eq_dec x (2 ^ Z.log2 x)) as [|Hne]; [done|].
    assert (Z.log2 (x - 1) = Z.log2 x) as He.
    { apply Z.log2_unique; [apply Z.log2_nonneg|lia]. }
    assert (0 < x - 1) by (pose proof (Z.pow_pos_nonneg 2 (Z.log2 x)); pose proof (Z.log2_nonneg x); lia).
    apply (f_equal (fun z => Z.testbit z (Z.log2 x))) in Hl.
    rewrite Z.land_spec, Z.bit_log2, Z.bits_0 in Hl by done.
    rewrite <- He, Z.bit_log2 in Hl by done. done.
  - intros (k & Hk & ->). pose proof (Z.pow_pos_nonneg 2 k). split; [lia|].
    replace (2 ^ k - 1) with (Z.ones k) by (rewrite Z.ones_equiv; lia).
    rewrite Z.land_ones by done. apply Z.mod_same. lia.
Qed.

Lemma align_up_page x :
  0 <= x -> x + 4095 < 2 ^ 64 -> align_up x PAGE_SIZE = Some (page_up x).
Proof.
  intros. unfold align_up, PAGE_SIZE. change (4096 - 1) with 4095.
  rewrite (proj2 (checked_add_Some 64 x 4095 (x + 4095))) by done.
  cbn [fmap option_fmap option_map]. f_equal.
  rewrite land_bitnot by (unfold uint; lia). change 4095 with (Z.ones 12) at 2.
  by rewrite Z.ldiff_ones_r, Z.shiftl_mul_pow2, Z.shiftr_div_pow2 by lia.
Qed.

Lemma page_up_bounds x : x <= page_up x < x + 4096.
Proof. unfold page_up. Z.to_euclidean_division_equations; lia. Qed.

Lemma page_up_mono x y : x <= y -> page_up x <= page_up y.
Proof. unfold page_up. Z.to_euclidean_division_equations; lia. Qed.

Lemma flags_ok_iff f :
  uint 32 f ->
  (Z.land f (bitnot 32 KNOWN_SEGMENT_FLAGS) =? 0) = true /\
  (Z.land f PF_R =? 0) = false /\
  (Z.land f (Z.lor PF_W PF_X) =? Z.lor PF_W PF_X) = false <->
  f = 4 \/ f = 5 \/ f = 6.
Proof.
  intros Hf. rewrite land_bitnot by (done || by_decide).
  split.
  - intros (Hk & Hr & Hw). apply Z.eqb_eq in Hk.
    assert (f < 8).
    { change KNOWN_SEGMENT_FLAGS with (Z.ones 3) in Hk. rewrite Z.ldiff_ones_r in Hk by lia.
      rewrite Z.shiftl_mul_pow2, Z.shiftr_div_pow2 in Hk by lia. destruct Hf.
      change (2 ^ 3) with 8 in Hk. Z.to_euclidean_division_equations; lia. }
    destruct Hf as [Hf _].
    assert (f = 0 \/ f = 1 \/ f = 2 \/ f = 3 \/ f = 4 \/ f = 5 \/ f = 6 \/ f = 7) as Hc by lia.
    destruct Hc as [->|[->|[->|[->|[->|[->|[->| ->]]]]]]]; try discriminate; auto.
  - intros [->|[->| ->]]; vm_compute; auto.
Qed.

(** ** Reads *)
Section Reads.
Variable bytes : list Z.
Hypothesis Hb : slice_ok bytes.

Lemma field_uint offset n :
  0 <= offset -> 0 <= n -> offset + n <= len bytes -> uint (8 * n) (field bytes offset n).
Proof. intros. by apply sub_list_uint. Qed.

Lemma read_u16_field offset :
  0 <= offset -> offset + 2 <= len bytes -> read_u16 bytes offset = Some (field bytes offset 2).
Proof. intros. unfold read_u16. by rewrite read_array_exact by (done || lia). Qed.
Lemma read_u32_field offset :
  0 <= offset -> offset + 4 <= len bytes -> read_u32 bytes offset = Some (field bytes offset 4).
Proof. intros. unfold read_u32. by rewrite read_array_exact by (done || lia). Qed.
Lemma read_u64_field offset :
  0 <= offset -> offset + 8 <= len bytes -> read_u64 bytes offset = Some (field bytes offset 8).
Proof. intros. unfold read_u64. by rewrite read_array_exact by (done || lia). Qed.

Lemma decode_header_at off i :
  0 <= off -> 0 <= i -> off + i * 56 + 56 <= len bytes ->
  decode_program_header bytes off i = Ok (header_at bytes (off + i * 56)).
Proof.
  intros. destruct Hb as [_ Hlen]. unfold decode_program_header, PROGRAM_HEADER_SIZE.
  rewrite (proj2 (checked_mul_Some 64 i 56 _)) by (split; [done|lia]).
  cbn [ok_or mbind exec_bind].
  rewrite (proj2 (checked_add_Some 64 off _ _)) by (split; [done|lia]).
  cbn [ok_or mbind exec_bind].
  repeat first [rewrite read_u32_field by lia | rewrite read_u64_field by lia
               | rewrite add_panic_exact by lia]; cbn [ok_or mbind exec_bind].
  repeat first [rewrite read_u32_field by lia | rewrite read_u64_field by lia
               | rewrite add_panic_exact by lia | progress cbn [ok_or mbind exec_bind]].
  done.
Qed.

(** Typing of a decoded header. *)
Definition wf_header (h : ProgramHeader) : Prop :=
  uint 32 (ph_kind h) /\ uint 32 (ph_flags h) /\ uint 64 (ph_file_offset h) /\
  uint 64 (ph_virtual_address h) /\ uint 64 (ph_physical_address h) /\
  uint 64 (ph_file_size h) /\ uint 64 (ph_memory_size h) /\ uint 64 (ph_alignment h).

Lemma header_at_wf o : 0 <= o -> o + 56 <= len bytes -> wf_header (header_at bytes o).
Proof.
  intros. unfold wf_header, header_at. cbn [ph_kind ph_flags ph_file_offset ph_virtual_address
    ph_physical_address ph_file_size ph_memory_size ph_alignment].
  split_and!; (apply (field_uint _ 4) || apply (field_uint _ 8)); lia.
Qed.
End Reads.

Lemma headers_from_cons bytes phoff i n :
  headers_from bytes phoff i (S n) =
  (i, header_at bytes (phoff + i * 56)) :: headers_from bytes phoff (i + 1) n.
Proof.
  unfold headers_from. cbn [seq fmap list_fmap]. f_equal; [f_equal; [lia|do 2 f_equal; lia]|].
  rewrite <- fmap_S_seq, <- list_fmap_compose. apply list_fmap_ext. intros ? k _.
  simpl. f_equal; [lia|do 2 f_equal; lia].
Qed.

(** ** One load segment *)
Lemma alignment_ok_iff a :
  is_power_of_two a = true /\ (PAGE_SIZE <=? a) = true /\ (a <=? MAX_SEGMENT_ALIGNMENT) = true <->
  exists k, 12 <= k <= 21 /\ a = 2 ^ k.
Proof.
  unfold PAGE_SIZE, MAX_SEGMENT_ALIGNMENT. rewrite is_power_of_two_iff, !Z.leb_le.
  change (2 * 1024 * 1024) with (2 ^ 21). change 4096 with (2 ^ 12). split.
  - intros ((k & Hk & ->) & Hlo & Hhi). exists k. split; [|done].
    by rewrite <- !Z.pow_le_mono_r_iff in * by lia.
  - intros (k & Hk & ->). split; [exists k; split; [lia|done]|].
    split; apply Z.pow_le_mono_r; lia.
Qed.

Lemma validate_load_segment_iff index h file_size e :
  wf_header h -> file_size < 2 ^ 63 ->
  validate_load_segment index h file_size = Ok e <-> segment_ok file_size h /\ e = seg_end h.
Proof.
  intros (_ & Hf & Ho & _ & Hp & Hs & Hm & _) Hfs. unfold uint in Ho, Hp, Hs, Hm.
  unfold validate_load_segment, segment_ok. split.
  - intros H. inv_exec. rewrite ?negb_false_iff, ?orb_false_iff, ?andb_true_iff in *.
    destruct_and?. rewrite ?negb_false_iff, ?andb_true_iff in *. destruct_and?.
    repeat match goal with Hc : checked_add _ _ _ = Some _ |- _ =>
      apply checked_add_Some in Hc as [-> _] end.
    split; [|done]. split_and!; try (by apply alignment_ok_iff); try (by apply flags_ok_iff);
      bool_solve; unfold seg_end; auto; try lia; unfold PAGE_SIZE in *; lia.
  - intros [(Hfl & Hm0 & Hsz & Hfo & Hva & Hal & Hpg & Hcg & Hmin & Hmax) ->].
    apply flags_ok_iff in Hfl as (-> & -> & ->); [|done]. apply alignment_ok_iff in Hal as (-> & -> & ->).
    unfold seg_end, MAX_LOAD_ADDRESS_EXCLUSIVE in *.
    cbn [negb fail_if mbind exec_bind]. rewrite !(proj2 (checked_add_Some 64 _ _ _)) by (split; [done|lia]).
    cbn [ok_or mbind exec_bind].
    repeat (apply bind_fail_if; split; [bool_solve; unfold PAGE_SIZE; auto; lia|]; cbn [ok_or mbind exec_bind]).
    done.
Qed.

(** ** The scan over the program headers *)

(** What holds of the load headers met so far. *)
Definition loads_inv (file_size : Z) (l : list (Z * ProgramHeader)) : Prop :=
  len l <= MAX_LOAD_SEGMENTS /\ Forall (fun h => segment_ok file_size h.2) l /\
  StronglySorted below l /\ total_memory l <= MAX_TOTAL_LOAD_SIZE.

Definition covers_b (entry : Z) (h : ProgramHeader) : bool :=
  (ph_flags h =? 5) && (ph_virtual_address h <=? entry)
  && (entry <? ph_virtual_address h + ph_memory_size h).

Lemma covers_b_iff entry h : covers_b entry h = true <-> covers entry h.
Proof. unfold covers_b, covers. rewrite !andb_true_iff, Z.eqb_eq, Z.leb_le, Z.ltb_lt. tauto. Qed.

(** The loop variables after the load headers [l]. *)
Definition state_of (entry : Z) (l : list (Z * ProgramHeader)) : ScanState :=
  {| sc_load_count := len l; sc_total_load_size := total_memory l;
     sc_previous := (fun h : Z * ProgramHeader =>
       (h.1, ph_physical_address h.2, page_up (seg_end h.2))) <$> last l;
     sc_entry_is_executable := existsb (fun h => covers_b entry h.2) l |}.

Lemma total_memory_app l1 l2 : total_memory (l1 ++ l2) = total_memory l1 + total_memory l2.
Proof. induction l1 as [|x l1 IH]; simpl; [done|]. rewrite IH. lia. Qed.

Lemma total_memory_nonneg fs l : Forall (fun h => segment_ok fs h.2) l -> 0 <= total_memory l.
Proof. induction 1 as [|x l (_ & Hm & _) _ IH]; simpl; lia. Qed.

(** Only the last segment has to be compared with the next one. *)
Lemma below_last_iff fs l x :
  Forall (fun h => segment_ok fs h.2) l -> StronglySorted below l ->
  Forall (fun y => below y x) l <-> match last l with Some y => below y x | None => True end.
Proof.
  intros Hok Hs. destruct l as [|y l _] using rev_ind; [by split; auto|].
  rewrite last_snoc. apply StronglySorted_snoc in Hs as [_ Hb].
  apply Forall_app in Hok as [_ Hy].
  apply Forall_singleton in Hy as (_ & Hm & _). split.
  - intros [_ Hx]%Forall_app. by inversion Hx.
  - intros H. apply Forall_app_2; [|by constructor].
    eapply Forall_impl; [exact Hb|]. intros z Hz. unfold below in *.
    pose proof (page_up_bounds (seg_end y.2)). unfold seg_end in *. lia.
Qed.

Lemma loads_inv_snoc fs l x :
  loads_inv fs (l ++ [x]) <->
  loads_inv fs l /\ len l + 1 <= MAX_LOAD_SEGMENTS /\ segment_ok fs x.2 /\
  match last l with Some y => below y x | None => True end /\
  total_memory l + ph_memory_size x.2 <= MAX_TOTAL_LOAD_SIZE.
Proof.
  unfold loads_inv. rewrite length_app, Forall_app, StronglySorted_snoc, total_memory_app.
  cbn [length total_memory foldr]. rewrite Forall_singleton. split.
  - intros (Hl & [Hf Hx] & [Hs Hb] & Ht). rewrite <- below_last_iff by done.
    pose proof Hx as (_ & Hm & _). split_and!; auto; lia.
  - intros ((Hl & Hf & Hs & Ht) & Hc & Hx & Hb & Ht'). rewrite below_last_iff by done.
    split_and!; auto; lia.
Qed.

Lemma app_cons_snoc {A} (l1 l2 : list A) x : l1 ++ x :: l2 = (l1 ++ [x]) ++ l2.
Proof. by rewrite <- app_assoc. Qed.

Lemma loads_inv_app fs l1 l2 : loads_inv fs (l1 ++ l2) -> loads_inv fs l1.
Proof.
  induction l2 as [|x l2 IH] using rev_ind; [by rewrite app_nil_r|].
  rewrite app_assoc. intros [? _]%loads_inv_snoc. by apply IH.
Qed.

Lemma loads_inv_nil fs : loads_inv fs [].
Proof. unfold loads_inv, MAX_LOAD_SEGMENTS, MAX_TOTAL_LOAD_SIZE. simpl. split_and!; constructor || lia. Qed.

Lemma state_of_snoc entry l index h :
  state_of entry (l ++ [(index, h)]) =
  {| sc_load_count := len l + 1; sc_total_load_size := total_memory l + ph_memory_size h;
     sc_previous := Some (index, ph_physical_address h, page_up (seg_end h));
     sc_entry_is_executable :=
       covers_b entry h || existsb (fun h => covers_b entry h.2) l |}.
Proof.
  unfold state_of. rewrite last_snoc, length_app, total_memory_app, existsb_app. simpl.
  f_equal; [lia|lia|]. by rewrite orb_false_r, orb_comm.
Qed.

(** The executable test of the loop, on a header that passed validation. *)
Lemma entry_test_exact entry fs h :
  segment_ok fs h ->
  (if negb (Z.land (ph_flags h) PF_X =? 0) && (ph_virtual_address h <=? entry)
   then limit ← add_panic (E:=ParseError) 64 (ph_virtual_address h) (ph_memory_size h);
        Ok (entry <? limit)
   else Ok false) = Ok (covers_b entry h).
Proof.
  intros (Hf & Hm & _ & _ & Hv & _ & _ & _ & _ & Hmax). unfold covers_b.
  unfold seg_end, MAX_LOAD_ADDRESS_EXCLUSIVE in Hmax.
  rewrite add_panic_exact by lia. cbn [mbind exec_bind].
  destruct Hf as [->|[->| ->]]; cbn; destruct (ph_virtual_address h <=? entry); done.
Qed.

Section Scan.
Variables (bytes : list Z) (elf : ElfHeader).
Hypothesis Hfs : eh_file_size elf < 2 ^ 63.

(** The order check against the segment loaded before. *)
Lemma order_test_iff l x u (Hok : Forall (fun h => segment_ok (eh_file_size elf) h.2) l) index :
  match sc_previous (state_of (eh_entry elf) l) with
  | Some (previous_index, previous_start, previous_end) =>
      fail_if (ph_physical_address x.2 <? previous_start) (UnsortedSegments previous_index index) ;;
      fail_if (ph_physical_address x.2 <? previous_end) (OverlappingSegments previous_index index)
  | None => Ok tt
  end = Ok u <-> match last l with Some y => below y x | None => True end.
Proof.
  cbn [state_of sc_previous]. destruct (last l) as [y|] eqn:Ey; [|by destruct u].
  cbn [fmap option_fmap option_map]. rewrite bind_fail_if, fail_if_Ok, !Z.ltb_ge.
  apply last_Some_elem_of in Ey. rewrite Forall_forall in Hok.
  destruct (Hok y Ey) as (_ & Hm & _). unfold below.
  pose proof (page_up_bounds (seg_end y.2)). unfold seg_end in *. lia.
Qed.

Lemma scan_header_iff index h l s :
  wf_header h -> loads_inv (eh_file_size elf) l ->
  scan_header elf index h (state_of (eh_entry elf) l) = Ok s <->
  (ph_kind h = PT_NULL /\ s = state_of (eh_entry elf) l) \/
  (ph_kind h = PT_LOAD /\ loads_inv (eh_file_size elf) (l ++ [(index, h)]) /\
   s = state_of (eh_entry elf) (l ++ [(index, h)])).
Proof.
  intros Hw Hinv. pose proof Hinv as (Hlen & Hok & _ & Ht).
  pose proof (total_memory_nonneg _ _ Hok) as Ht0.
  assert (uint 64 (ph_memory_size h)) as Hm by apply Hw. unfold uint in Hm.
  unfold scan_header, PT_NULL, PT_LOAD. destruct (Z.eqb_spec (ph_kind h) 0) as [->|Hk].
  { split; [intros [= <-]; by left|]. by intros [[_ ->]|[? _]]. }
  rewrite bind_fail_if, negb_false_iff, Z.eqb_eq.
  rewrite loads_inv_snoc. unfold MAX_LOAD_SEGMENTS, MAX_TOTAL_LOAD_SIZE in *.
  rewrite (add_panic_exact 16) by (cbn [state_of sc_load_count]; lia).
  cbn [state_of sc_load_count sc_total_load_size sc_entry_is_executable mbind exec_bind].
  split.
  - intros [Hk1 H]. right. split; [done|].
    apply bind_fail_if in H as [Hc H]. apply bind_Ok in H as (e & He & H).
    apply validate_load_segment_iff in He as [Hseg ->]; [|done..].
    pose proof Hseg as (_ & Hmp & _ & _ & _ & _ & _ & _ & Hmin & Hmax).
    unfold MIN_LOAD_ADDRESS, MAX_LOAD_ADDRESS_EXCLUSIVE, seg_end in Hmin, Hmax.
    rewrite align_up_page in H by (unfold seg_end; lia). cbn [ok_or mbind exec_bind] in H.
    apply bind_Ok in H as (u & Ho & H). apply (order_test_iff l (index, h)) in Ho; [|done].
    apply bind_Ok in H as (t & Htot & H). apply ok_or_Ok, checked_add_Some in Htot as [-> _].
    apply bind_fail_if in H as [Hlim H].
    rewrite (entry_test_exact _ _ _ Hseg) in H. cbn [mbind exec_bind] in H.
    injection H as <-. bool_solve. split; [split_and!; [done|lia|done|done|simpl; lia]|].
    symmetry. apply state_of_snoc.
  - intros [[? _]|(Hk1 & (_ & Hc & Hseg & Ho & Hlim) & ->)]; [done|]. split; [done|].
    cbn [snd] in *. apply bind_fail_if. split; [apply Z.ltb_ge; lia|].
    pose proof Hseg as (_ & Hmp & _ & _ & _ & _ & _ & _ & Hmin & Hmax).
    unfold MIN_LOAD_ADDRESS, MAX_LOAD_ADDRESS_EXCLUSIVE, seg_end in Hmin, Hmax.
    rewrite (proj2 (validate_load_segment_iff index h (eh_file_size elf) (seg_end h) Hw Hfs))
      by done.
    cbn [mbind exec_bind]. rewrite align_up_page by (unfold seg_end; lia).
    cbn [ok_or mbind exec_bind].
    pose proof (proj2 (order_test_iff l (index, h) tt Hok index) Ho) as Ho'.
    cbn [snd state_of sc_previous] in Ho' |- *. rewrite Ho'. cbn [mbind exec_bind].
    rewrite (proj2 (checked_add_Some 64 _ _ _)) by (split; [done|lia]).
    cbn [ok_or mbind exec_bind]. apply bind_fail_if. split; [apply Z.ltb_ge; lia|].
    rewrite (entry_test_exact _ _ _ Hseg). cbn [mbind exec_bind].
    f_equal. symmetry. apply state_of_snoc.
Qed.

Lemma validate_load_segment_no_panic index h fs : validate_load_segment index h fs <> Panic.
Proof. unfold validate_load_segment. repeat (apply bind_no_panic; [auto with nopanic|intros]). done. Qed.

Lemma scan_header_no_panic index h l :
  wf_header h -> loads_inv (eh_file_size elf) l ->
  scan_header elf index h (state_of (eh_entry elf) l) <> Panic.
Proof.
  intros Hw (Hlen & _). unfold scan_header, MAX_LOAD_SEGMENTS in *.
  destruct (ph_kind h =? PT_NULL); [done|].
  apply bind_no_panic; [auto with nopanic|intros _ _].
  rewrite (add_panic_exact 16) by (cbn [state_of sc_load_count]; lia). cbn [mbind exec_bind].
  apply bind_no_panic; [auto with nopanic|intros _ _].
  apply bind_no_panic; [apply validate_load_segment_no_panic|intros e He].
  apply validate_load_segment_iff in He as [Hseg _]; [|done..].
  apply bind_no_panic; [auto with nopanic|intros p _].
  apply bind_no_panic.
  { destruct (sc_previous _) as [[[? ?] ?]|]; [|done].
    apply bind_no_panic; [auto with nopanic|intros; auto with nopanic]. }
  intros _ _. apply bind_no_panic; [auto with nopanic|intros t _].
  apply bind_no_panic; [auto with nopanic|intros _ _].
  by rewrite (entry_test_exact _ _ _ Hseg).
Qed.

Hypothesis Hb : slice_ok bytes.
Hypothesis Hoff : 0 <= eh_program_header_offset elf.

(** The scan from [index] with the load headers [l] behind it. *)
Lemma scan_headers_iff n : forall index l s,
  0 <= index -> loads_inv (eh_file_size elf) l ->
  eh_program_header_offset elf + (index + Z.of_nat n) * 56 <= len bytes ->
  let hs := headers_from bytes (eh_program_header_offset elf) index n in
  scan_headers bytes elf n index (state_of (eh_entry elf) l) = Ok s <->
  Forall (fun h => ph_kind h.2 = PT_NULL \/ ph_kind h.2 = PT_LOAD) hs /\
  loads_inv (eh_file_size elf) (l ++ filter is_load hs) /\
  s = state_of (eh_entry elf) (l ++ filter is_load hs).
Proof.
  induction n as [|n IH]; intros index l s Hi Hinv Hlen hs; subst hs.
  { cbn. rewrite app_nil_r. split; [intros [= <-]; auto|]. by intros (_ & _ & ->). }
  rewrite headers_from_cons, Forall_cons. cbn [scan_headers].
  rewrite decode_header_at by (done || lia). cbn [map_err mbind exec_bind].
  set (h := header_at bytes _). assert (wf_header h) as Hw by (apply header_at_wf; [done|lia..]).
  rewrite bind_Ok. setoid_rewrite scan_header_iff; [|done..].
  split.
  - intros (s' & [[Hk ->]|(Hk & Hinv' & ->)] & H).
    + rewrite filter_cons_False by (unfold is_load; cbn [snd]; by rewrite Hk).
      apply IH in H as (Hf & ? & ->); [by auto|done || lia..].
    + rewrite filter_cons_True by done. apply IH in H as (Hf & ? & ->); [|done || lia..].
      rewrite <- app_assoc in *. simpl in *. auto.
  - intros ([[Hk|Hk] Hf] & Hinv' & ->); cbn [snd] in Hk.
    + rewrite (filter_cons_False is_load (index, h)) in Hinv' |- * by (unfold is_load; cbn [snd]; by rewrite Hk).
      exists (state_of (eh_entry elf) l). split; [by left|]. apply IH; [done || lia..|auto].
    + rewrite (filter_cons_True is_load (index, h)) in Hinv' |- * by done.
      rewrite app_cons_snoc in Hinv'.
      pose proof (loads_inv_app _ _ _ Hinv').
      exists (state_of (eh_entry elf) (l ++ [(index, h)])). split; [by auto|].
      rewrite (app_cons_snoc l (filter _ _)). apply IH; [lia|done|lia|auto].
Qed.

Lemma scan_headers_no_panic n : forall index l,
  0 <= index -> loads_inv (eh_file_size elf) l ->
  eh_program_header_offset elf + (index + Z.of_nat n) * 56 <= len bytes ->
  scan_headers bytes elf n index (state_of (eh_entry elf) l) <> Panic.
Proof.
  induction n as [|n IH]; intros index l Hi Hinv Hlen; [done|]. cbn [scan_headers].
  rewrite decode_header_at by (done || lia). cbn [map_err mbind exec_bind].
  set (h := header_at bytes _). assert (wf_header h) as Hw by (apply header_at_wf; [done|lia..]).
  apply bind_no_panic; [by apply scan_header_no_panic|]. intros s Hs.
  apply (scan_header_iff index h l s Hw Hinv) in Hs as [[_ ->]|(_ & ? & ->)]; apply IH; done || lia.
Qed.
End Scan.
