(* ===== verification/ElfProps.v ===== *)
(** Theorems about the kernel ELF validator: [BootElf.parse] accepts exactly the
    files of the policy [elf_ok], never panics, and the segment iterator yields
    exactly the load segments of the file. *)

From S2P Require Import Prelude Bytes BootElf ElfSpec.

(** ** The file header *)
Lemma index_at_exact {E A} (l : list A) i x :
  0 <= i -> l !! Z.to_nat i = Some x -> index_at (E:=E) l i = Ok x.
Proof. intros. apply or_panic_Ok, get_at_Some. auto. Qed.

(** Evaluates the constant conversions [Z.to_nat c] of the goal. *)
Ltac eval_to_nat :=
  repeat match goal with |- context [Z.to_nat ?z] =>
    let n := eval vm_compute in (Z.to_nat z) in change (Z.to_nat z) with n end.

Lemma split_at_16 (bytes : list Z) :
  64 <= len bytes -> exists b0 b1 b2 b3 b4 b5 b6 b7 b8 b9 b10 b11 b12 b13 b14 b15 rest,
    bytes = b0 :: b1 :: b2 :: b3 :: b4 :: b5 :: b6 :: b7 :: b8 :: b9 :: b10 :: b11 :: b12 ::
            b13 :: b14 :: b15 :: rest.
Proof.
  intros H. do 16 (destruct bytes as [|? bytes]; [simpl in H; lia|]). by repeat eexists.
Qed.

Lemma validate_identification_iff bytes :
  64 <= len bytes ->
  validate_identification bytes = Ok tt <-> sub_list bytes 0 16 = ident.
Proof.
  intros Hlen. unfold validate_identification.
  rewrite get_range_exact by lia. rewrite index_range_exact by lia.
  pose proof (split_at_16 bytes Hlen) as (b0 & b1 & b2 & b3 & b4 & b5 & b6 & b7 & b8 & b9 & b10 & b11 & b12
    & b13 & b14 & b15 & rest & ->).
  do 5 (erewrite index_at_exact by (done || reflexivity)). cbn [mbind exec_bind].
  rewrite !bind_fail_if, fail_if_tt. unfold sub_list. eval_to_nat. cbn.
  rewrite !orb_false_iff, !negb_false_iff, bool_decide_eq_true, !Z.eqb_eq.
  unfold ident, ELF_MAGIC, ELFCLASS64, ELFDATA2LSB, EV_CURRENT, ELFOSABI_SYSV. cbn.
  split; [intros; destruct_and?; by simplify_eq|intros H; by simplify_eq].
Qed.

Lemma validate_identification_no_panic bytes :
  64 <= len bytes -> validate_identification bytes <> Panic.
Proof.
  intros Hlen. unfold validate_identification. rewrite index_range_exact by lia.
  pose proof (split_at_16 bytes Hlen) as (b0 & b1 & b2 & b3 & b4 & b5 & b6 & b7 & b8 & b9 & b10 & b11 & b12
    & b13 & b14 & b15 & rest & ->).
  do 5 (erewrite index_at_exact by (done || reflexivity)). cbn [mbind exec_bind].
  repeat (apply bind_no_panic; [auto with nopanic|intros _ _]). auto with nopanic.
Qed.

(** What [parse_header] returns for a file that satisfies the policy. *)
Definition header_of (bytes : list Z) : ElfHeader :=
  {| eh_entry := entry_of bytes; eh_program_header_offset := phoff_of bytes;
     eh_program_header_count := phnum_of bytes;
     eh_program_header_table_end := phoff_of bytes + phnum_of bytes * 56;
     eh_file_size := len bytes |}.

Section Header.
Variable bytes : list Z.
Hypothesis Hb : slice_ok bytes.
Hypothesis Hlen : 64 <= len bytes.

Lemma file_size_exact : default u64_MAX (try_uint 64 (len bytes)) = len bytes.
Proof.
  destruct Hb. unfold try_uint. by rewrite (proj2 (Z.ltb_lt _ _)) by lia.
Qed.

Lemma phoff_uint : uint 64 (phoff_of bytes).
Proof. apply (field_uint bytes Hb 32 8); lia. Qed.

Lemma phnum_uint : uint 16 (phnum_of bytes).
Proof. apply (field_uint bytes Hb 56 2); lia. Qed.

(** The guards of [parse_header] once its nine reads have succeeded. *)
Lemma parse_header_reads :
  parse_header bytes =
  (fail_if (negb (field bytes 16 2 =? ET_EXEC)) (UnsupportedObjectType (field bytes 16 2)) ;;
   fail_if (negb (field bytes 18 2 =? EM_X86_64)) (UnsupportedMachine (field bytes 18 2)) ;;
   fail_if (negb (field bytes 20 4 =? EV_CURRENT)) (UnsupportedVersion (field bytes 20 4)) ;;
   fail_if (negb (field bytes 48 4 =? 0)) (UnsupportedElfFlags (field bytes 48 4)) ;;
   fail_if (negb (field bytes 52 2 =? ELF_HEADER_SIZE))
     (InvalidHeaderSize (field bytes 52 2) ELF_HEADER_SIZE) ;;
   fail_if (negb (field bytes 54 2 =? PROGRAM_HEADER_SIZE))
     (InvalidProgramHeaderSize (field bytes 54 2) PROGRAM_HEADER_SIZE) ;;
   fail_if ((phnum_of bytes =? 0) || (MAX_PROGRAM_HEADERS <? phnum_of bytes))
     (InvalidProgramHeaderCount (phnum_of bytes) MAX_PROGRAM_HEADERS) ;;
   fail_if (phoff_of bytes <? 64) (ProgramHeaderTableOverlapsHeader (phoff_of bytes)) ;;
   table_size ← ok_or (checked_mul 64 (phnum_of bytes) 56) ProgramHeaderTableOverflow;
   table_end ← ok_or (checked_add 64 (phoff_of bytes) table_size) ProgramHeaderTableOverflow;
   fail_if (len bytes <? table_end) (ProgramHeaderTableOutOfBounds table_end (len bytes)) ;;
   offset ← ok_or (try_uint 64 (phoff_of bytes))
     (ProgramHeaderTableOutOfBounds table_end (len bytes));
   fail_if (negb ((MIN_LOAD_ADDRESS <=? entry_of bytes)
                  && (entry_of bytes <? MAX_LOAD_ADDRESS_EXCLUSIVE)))
     (EntryOutsideLoadWindow (entry_of bytes)) ;;
   Ok {| eh_entry := entry_of bytes; eh_program_header_offset := offset;
         eh_program_header_count := phnum_of bytes;
         eh_program_header_table_end := table_end; eh_file_size := len bytes |}).
Proof.
  unfold parse_header. rewrite file_size_exact.
  rewrite !read_u16_field, !read_u32_field, !read_u64_field by (done || lia).
  reflexivity.
Qed.

Lemma parse_header_no_panic : parse_header bytes <> Panic.
Proof.
  rewrite parse_header_reads. repeat (apply bind_no_panic; [auto with nopanic|intros]). done.
Qed.

(** The clauses of the policy that [parse_header] enforces. *)
Definition fields_ok : Prop :=
  field bytes 16 2 = ET_EXEC /\ field bytes 18 2 = EM_X86_64 /\
  field bytes 20 4 = EV_CURRENT /\ field bytes 48 4 = 0 /\
  field bytes 52 2 = 64 /\ field bytes 54 2 = 56 /\
  1 <= phnum_of bytes <= MAX_PROGRAM_HEADERS /\ 64 <= phoff_of bytes /\
  phoff_of bytes + 56 * phnum_of bytes <= len bytes /\
  MIN_LOAD_ADDRESS <= entry_of bytes < MAX_LOAD_ADDRESS_EXCLUSIVE.

Lemma parse_header_iff h : parse_header bytes = Ok h <-> fields_ok /\ h = header_of bytes.
Proof.
  pose proof phnum_uint as Hn. pose proof phoff_uint as Ho. unfold uint in Hn, Ho.
  destruct Hb as [_ Hmax]. rewrite parse_header_reads, !bind_fail_if.
  unfold fields_ok, header_of, ELF_HEADER_SIZE, PROGRAM_HEADER_SIZE, MAX_PROGRAM_HEADERS.
  rewrite (proj2 (checked_mul_Some 64 _ _ _)) by (split; [done|lia]). cbn [ok_or mbind exec_bind].
  unfold try_uint. rewrite (proj2 (Z.ltb_lt (phoff_of bytes) (2 ^ 64))) by lia. split.
  - intros (? & ? & ? & ? & ? & ? & ? & ? & H). apply bind_Ok in H as (e & He & H).
    apply ok_or_Ok, checked_add_Some in He as [-> _].
    apply bind_fail_if in H as [? H]. cbn [ok_or mbind exec_bind] in H.
    apply bind_fail_if in H as [? H]. injection H as <-. bool_solve. split; [|done].
    destruct_and?. split_and!; auto; lia.
  - intros [(? & ? & ? & ? & ? & ? & ? & ? & ? & ?) ->].
    rewrite (proj2 (checked_add_Some 64 _ _ _)) by (split; [done|lia]).
    cbn [ok_or mbind exec_bind]. rewrite !bind_fail_if. bool_solve. split_and!; auto; lia.
Qed.
End Header.

(** ** The whole file *)
Lemma elf_header_ok_iff bytes :
  64 <= len bytes ->
  elf_header_ok bytes <->
  len bytes <= MAX_ELF_FILE_SIZE /\ sub_list bytes 0 16 = ident /\ fields_ok bytes.
Proof.
  intros. unfold fields_ok. split.
  - intros []. split_and!; auto; lia.
  - intros (? & ? & ? & ? & ? & ? & ? & ? & ? & ? & ? & ?). by constructor.
Qed.

Lemma existsb_covers entry l :
  existsb (fun h : Z * ProgramHeader => covers_b entry h.2) l = true <->
  Exists (fun h => covers entry h.2) l.
Proof.
  rewrite existsb_exists, Exists_exists. setoid_rewrite covers_b_iff.
  by setoid_rewrite list_elem_of_In.
Qed.

Section Headers.
Variable bytes : list Z.
Hypothesis Hb : slice_ok bytes.
Hypothesis Hh : elf_header_ok bytes.

Lemma validate_program_headers_iff n :
  validate_program_headers bytes (header_of bytes) = Ok n <->
  elf_loads_ok bytes /\ n = len (loads_of bytes).
Proof.
  destruct Hh as [Hmin Hmax _ _ _ _ _ _ _ Hn Ho Ht _]. destruct Hb as [_ Hl].
  unfold validate_program_headers. rewrite bind_Ok.
  setoid_rewrite (scan_headers_iff bytes (header_of bytes) Hl Hb ltac:(simpl; lia)
    (Z.to_nat (phnum_of bytes)) 0 []);
    [|done|apply loads_inv_nil|simpl; lia].
  cbn [header_of eh_entry eh_file_size eh_program_header_offset app].
  change (filter is_load (headers_from bytes (phoff_of bytes) 0 (Z.to_nat (phnum_of bytes))))
    with (loads_of bytes). split.
  - intros (s & (Hk & (Hc & Hs & Ho' & Hm) & ->) & H). rewrite !bind_fail_if in H.
    cbn [state_of sc_load_count sc_entry_is_executable] in H.
    destruct H as (Hc0 & He & [= <-]). split; [|done].
    constructor; [done| |done..|by rewrite <- existsb_covers, <- negb_false_iff].
    bool_solve. lia.
  - intros [[Hk Hc Hs Ho' Hm He] ->]. exists (state_of (entry_of bytes) (loads_of bytes)).
    split; [split_and!; [done|split_and!; [lia|done..]|done]|].
    rewrite !bind_fail_if. cbn [state_of sc_load_count sc_entry_is_executable].
    rewrite negb_false_iff, existsb_covers, Z.eqb_neq. split_and!; [lia|done|done].
Qed.

Lemma validate_program_headers_no_panic :
  validate_program_headers bytes (header_of bytes) <> Panic.
Proof.
  destruct Hh as [Hmin Hmax _ _ _ _ _ _ _ Hn Ho Ht _]. destruct Hb as [_ Hl].
  unfold validate_program_headers. apply bind_no_panic; [|intros; auto with nopanic].
  apply (scan_headers_no_panic bytes (header_of bytes) Hl Hb ltac:(simpl; lia)
    _ 0 []); [done|apply loads_inv_nil|simpl; lia].
Qed.
End Headers.

Lemma elf_parse_Ok_iff bytes v :
  slice_ok bytes -> parse bytes = Ok v <-> elf_ok bytes /\ v = validated bytes.
Proof.
  intros Hb. unfold parse, ELF_HEADER_SIZE. rewrite !bind_fail_if, !Z.ltb_ge. split.
  - intros (Hmin & Hmax & H). apply bind_Ok in H as ([] & Hid & H).
    apply validate_identification_iff in Hid; [|done].
    apply bind_Ok in H as (h & Hhd & H). apply parse_header_iff in Hhd as [Hf ->]; [|done..].
    assert (elf_header_ok bytes) as Hh by (by apply elf_header_ok_iff).
    apply bind_Ok in H as (n & Hn & H).
    apply validate_program_headers_iff in Hn as [Hl ->]; [|done..].
    by injection H as <-.
  - intros [[Hh Hl] ->]. pose proof (eo_min _ Hh).
    apply elf_header_ok_iff in Hh as Hh'; [|done]. destruct Hh' as (? & Hid & Hf).
    split_and!; [done..|]. apply validate_identification_iff in Hid; [|done]. rewrite Hid.
    cbn [mbind exec_bind]. rewrite (proj2 (parse_header_iff bytes Hb ltac:(done) _)) by done.
    cbn [mbind exec_bind]. by rewrite (proj2 (validate_program_headers_iff bytes Hb Hh (len (loads_of bytes)))).
Qed.

(** ** The iterator *)
Section Iterator.
Variable bytes : list Z.
Hypothesis Hb : slice_ok bytes.
Hypothesis Hok : elf_ok bytes.

Definition it_at (i : Z) : LoadSegments :=
  {| it_bytes := bytes; it_program_header_offset := phoff_of bytes;
     it_program_header_count := phnum_of bytes; it_next_index := i |}.

Lemma segment_from_header i h :
  wf_header h -> segment_ok (len bytes) h ->
  load_segment_from_header bytes i h = Some (segment_of bytes (i, h)).
Proof.
  intros (_ & _ & Ho & _ & _ & Hs & _) (_ & _ & _ & Hf & _). destruct Hb as [_ Hl].
  unfold uint in Ho, Hs. unfold load_segment_from_header, try_uint.
  rewrite (proj2 (Z.ltb_lt (ph_file_offset h) (2 ^ 64))) by lia.
  rewrite (proj2 (checked_add_Some 64 _ _ _)) by (split; [done|lia]).
  cbn [mbind option_bind]. rewrite (proj2 (Z.ltb_lt _ _)) by lia.
  cbn [mbind option_bind]. rewrite get_range_exact by lia. cbn [mbind option_bind].
  unfold segment_of. cbn [fst snd]. do 3 f_equal. lia.
Qed.

(** One call of [next] with [n + 1] program headers left. *)
Lemma next_at i n :
  0 <= i -> i + Z.of_nat (S n) = phnum_of bytes ->
  let h := (i, header_at bytes (phoff_of bytes + i * 56)) in
  (is_load h -> segment_ok (len bytes) h.2) ->
  next (it_at i) = if decide (is_load h) then Ok (Some (segment_of bytes h), it_at (i + 1))
                   else next (it_at (i + 1)).
Proof.
  intros Hi Hn h Hseg. destruct Hok as [[_ _ _ _ _ _ _ _ _ Hc Ho Ht _] _].
  unfold MAX_PROGRAM_HEADERS in *. unfold next. cbn [it_at it_program_header_count it_next_index].
  replace (Z.to_nat (phnum_of bytes - i)) with (S n) by lia.
  replace (Z.to_nat (phnum_of bytes - (i + 1))) with n by lia.
  cbn [next_loop it_at it_program_header_count it_next_index it_bytes it_program_header_offset].
  rewrite (proj2 (Z.ltb_lt _ _)) by lia. rewrite add_panic_exact by lia. cbn [mbind exec_bind].
  rewrite decode_header_at by (done || lia).
  assert (wf_header h.2) as Hw by (apply header_at_wf; [done|lia..]).
  unfold is_load in *. fold (it_at (i + 1)). change (header_at _ _) with h.2.
  destruct (decide (ph_kind h.2 = PT_LOAD)) as [Hk|Hk].
  - rewrite (proj2 (Z.eqb_eq _ _)) by done. by rewrite segment_from_header by auto.
  - by rewrite (proj2 (Z.eqb_neq _ _)) by done.
Qed.

Lemma next_end : next (it_at (phnum_of bytes)) = Ok (None, it_at (phnum_of bytes)).
Proof.
  unfold next. cbn [it_at it_program_header_count it_next_index]. rewrite Z.sub_diag.
  simpl. by rewrite Z.ltb_irrefl.
Qed.

Lemma collect_at n : forall i fuel,
  0 <= i -> i + Z.of_nat n = phnum_of bytes -> (n < fuel)%nat ->
  Forall (fun h => segment_ok (len bytes) h.2)
    (filter is_load (headers_from bytes (phoff_of bytes) i n)) ->
  collect fuel (it_at i) =
    Ok (segment_of bytes <$> filter is_load (headers_from bytes (phoff_of bytes) i n)).
Proof.
  induction n as [|n IH]; intros i fuel Hi Hn Hf Hs; (destruct fuel as [|fuel]; [lia|]).
  { replace i with (phnum_of bytes) by lia. cbn [collect]. by rewrite next_end. }
  rewrite headers_from_cons in *. cbn [collect]. rewrite (next_at i n) by
    (done || intros Hl; rewrite filter_cons_True in Hs by done; by inversion Hs).
  destruct (decide (is_load _)) as [Hl|Hl].
  - rewrite filter_cons_True in * by done. inversion Hs; subst. cbn [mbind exec_bind].
    rewrite IH by (done || lia). done.
  - rewrite filter_cons_False in * by done. rewrite <- (IH (i + 1) (S fuel)) by (done || lia).
    done.
Qed.

Lemma collect_segments_exact :
  collect_segments (validated bytes) = Ok (segment_of bytes <$> loads_of bytes).
Proof.
  destruct Hok as [[_ _ _ _ _ _ _ _ _ Hc _ _ _] [_ _ Hs _ _ _]].
  unfold collect_segments. cbn [validated ve_program_header_count].
  apply (collect_at _ 0); [done|lia|lia|done].
Qed.
End Iterator.

Lemma elf_parse_no_panic bytes : slice_ok bytes -> parse bytes <> Panic.
Proof.
  intros Hb. unfold parse, ELF_HEADER_SIZE, MAX_ELF_FILE_SIZE.
  apply bind_no_panic; [auto with nopanic|]. intros [] Hmin%fail_if_tt.
  apply bind_no_panic; [auto with nopanic|]. intros [] Hmax%fail_if_tt. bool_solve.
  apply bind_no_panic; [by apply validate_identification_no_panic|]. intros [] Hid.
  apply validate_identification_iff in Hid; [|done].
  apply bind_no_panic; [by apply parse_header_no_panic|]. intros h Hh.
  apply parse_header_iff in Hh as [Hf ->]; [|done..].
  apply bind_no_panic; [|done].
  apply validate_program_headers_no_panic; [done|]. by apply elf_header_ok_iff.
Qed.

(** Each segment carries its slice of the file, which fits in its memory. *)
Lemma segment_sizes bytes :
  slice_ok bytes -> elf_ok bytes ->
  Forall (fun s => len (ls_file_data s) = ls_file_size s /\ ls_file_size s <= ls_memory_size s)
    (segment_of bytes <$> loads_of bytes).
Proof.
  intros Hb Hok. apply Forall_fmap, Forall_forall. intros h Hin.
  destruct Hok as [[_ _ _ _ _ _ _ _ _ Hc Ho Ht _] [_ _ Hs _ _ _]].
  rewrite Forall_forall in Hs. destruct (Hs h Hin) as (_ & _ & Hfm & Hfo & _).
  apply list_elem_of_filter in Hin as [_ (k & -> & Hk)%list_elem_of_fmap].
  apply elem_of_seq in Hk. destruct (header_at_wf bytes Hb (phoff_of bytes + (0 + Z.of_nat k) * 56))
    as (_ & _ & Hof & _ & _ & Hsz & _); [lia..|]. unfold uint in Hof, Hsz.
  cbn [compose segment_of ls_file_data ls_file_size ls_memory_size snd] in *. split; [|done].
  by rewrite length_sub_list by lia.
Qed.

(** ** A sample kernel

    One RX segment of two pages that maps the whole 128-byte file, entered at
    the byte after the program header: the code there is the shim's first four
    instructions ([cli], [cld], [movq %rdi, %r12], [movq %rsi, %r13]). *)
Definition sample_code : list Z := [0xfa; 0xfc; 0x49; 0x89; 0xfc; 0x49; 0x89; 0xf5].
Definition sample_elf : list Z :=
  ident ++ to_le_bytes 2 ET_EXEC ++ to_le_bytes 2 EM_X86_64 ++ to_le_bytes 4 1 ++
  to_le_bytes 8 (KERNEL_BASE_ADDRESS + 120) ++ to_le_bytes 8 64 ++ to_le_bytes 8 0 ++
  to_le_bytes 4 0 ++ to_le_bytes 2 64 ++ to_le_bytes 2 56 ++ to_le_bytes 2 1 ++
  to_le_bytes 6 0 ++
  to_le_bytes 4 PT_LOAD ++ to_le_bytes 4 5 ++ to_le_bytes 8 0 ++
  to_le_bytes 8 KERNEL_BASE_ADDRESS ++ to_le_bytes 8 KERNEL_BASE_ADDRESS ++
  to_le_bytes 8 128 ++ to_le_bytes 8 8192 ++ to_le_bytes 8 4096 ++ sample_code.

Lemma sample_elf_slice : slice_ok sample_elf.
Proof. split; [by_decide|vm_compute; reflexivity]. Qed.

Lemma sample_elf_parses : parse sample_elf = Ok (validated sample_elf).
Proof. vm_compute. reflexivity. Qed.

(** ** Properties *)

(** C5. The validator is exactly the policy: [parse] accepts a byte slice if and
    only if it satisfies [elf_ok] (identification, header fields, table in
    bounds, known header kinds, one to four load segments, each readable and
    never writable and executable, inside the load window, aligned, sorted and
    disjoint after rounding to pages, 64 MiB in total, entry point in an
    executable segment), and the value it returns is determined by the file. *)
Theorem elf_parse_accepts_exactly_policy (bytes : list Z) (v : ValidatedElf) :
  slice_ok bytes ->
  parse bytes = Ok v <-> elf_ok bytes /\ v = validated bytes.
Proof. apply elf_parse_Ok_iff. Qed.

Lemma elf_parse_accepts_exactly_policy_witness :
  elf_ok sample_elf /\ validated sample_elf = validated sample_elf.
Proof.
  apply (elf_parse_accepts_exactly_policy sample_elf (validated sample_elf)).
  - exact sample_elf_slice.
  - exact sample_elf_parses.
Defined.

(** No byte slice, however malformed, makes the ELF validator panic: its
    index expressions stay in range and its unchecked additions never
    overflow. *)
Theorem elf_parse_never_panics (bytes : list Z) : slice_ok bytes -> parse bytes <> Panic.
Proof. apply elf_parse_no_panic. Qed.

Lemma elf_parse_never_panics_witness : parse (0x7f :: replicate 70 255) <> Panic.
Proof. apply elf_parse_never_panics. split; [by_decide|vm_compute; reflexivity]. Defined.

(** A loop over the segments of an accepted file terminates and visits
    exactly the [PT_LOAD] headers of the file in table order, as many as
    [segment_count] says; each item carries exactly its slice of the file, and
    its zero-fill size is the rest of the memory range. *)
Theorem iterator_yields_exactly_load_segments (bytes : list Z) (v : ValidatedElf) :
  slice_ok bytes -> parse bytes = Ok v ->
  collect_segments v = Ok (segment_of bytes <$> loads_of bytes) /\
  ve_load_segment_count v = len (segment_of bytes <$> loads_of bytes) /\
  Forall (fun s => len (ls_file_data s) = ls_file_size s /\
                   zero_fill_size (E:=unit) s = Ok (ls_memory_size s - ls_file_size s))
    (segment_of bytes <$> loads_of bytes).
Proof.
  intros Hb [Hok ->]%elf_parse_Ok_iff; [|done]. split; [by apply collect_segments_exact|].
  split; [by rewrite length_fmap|]. eapply Forall_impl; [by apply segment_sizes|].
  cbn beta. intros s [Hl Hfm]. split; [done|by apply sub_panic_exact].
Qed.

Lemma iterator_yields_exactly_load_segments_witness :
  collect_segments (validated sample_elf) = Ok (segment_of sample_elf <$> loads_of sample_elf) /\
  len (segment_of sample_elf <$> loads_of sample_elf) = 1.
Proof.
  destruct (iterator_yields_exactly_load_segments sample_elf (validated sample_elf)) as (H & _ & _).
  - exact sample_elf_slice.
  - exact sample_elf_parses.
  - split; [exact H|vm_compute; reflexivity].
Defined.

(** The pages a segment occupies: from its page-aligned start up to its end
    rounded to a page. *)
Definition segment_pages (s : LoadSegment) (a : Z) : Prop :=
  ls_physical_address s <= a < page_up (ls_physical_address s + ls_memory_size s).

Lemma segments_separate bytes i j a b p :
  elf_ok bytes ->
  (segment_of bytes <$> loads_of bytes) !! i = Some a ->
  (segment_of bytes <$> loads_of bytes) !! j = Some b ->
  segment_pages a p -> segment_pages b p -> i = j.
Proof.
  intros [_ [_ _ _ Hs _ _]] (x & -> & Hx)%list_lookup_fmap_Some (y & -> & Hy)%list_lookup_fmap_Some.
  unfold segment_pages. cbn [segment_of ls_physical_address ls_memory_size]. intros Ha Hb.
  destruct (Nat.lt_trichotomy i j) as [Hij|[->|Hji]]; [|done|].
  - pose proof (StronglySorted_lookup _ _ Hs _ _ _ _ Hij Hx Hy) as H. unfold below, seg_end in H. lia.
  - pose proof (StronglySorted_lookup _ _ Hs _ _ _ _ Hji Hy Hx) as H. unfold below, seg_end in H. lia.
Qed.

Lemma total_memory_segments bytes l :
  total_memory l = foldr (fun s acc => ls_memory_size s + acc) 0 (segment_of bytes <$> l).
Proof. induction l as [|x l IH]; [done|]. unfold total_memory in *. simpl. by rewrite IH. Qed.

(** C32. The segments a loader sees are safe to load page by page: every one
    starts on a page, lies in the load window, is identity mapped, readable
    and never both writable and executable; no page belongs to two of them;
    together they ask for at most 64 MiB. *)
Theorem loaded_segments_are_safe (bytes : list Z) (v : ValidatedElf) (segs : list LoadSegment) :
  slice_ok bytes -> parse bytes = Ok v -> collect_segments v = Ok segs ->
  Forall (fun s => ls_physical_address s mod 4096 = 0 /\
    MIN_LOAD_ADDRESS <= ls_physical_address s /\
    ls_physical_address s + ls_memory_size s <= MAX_LOAD_ADDRESS_EXCLUSIVE /\
    ls_virtual_address s = ls_physical_address s /\ 0 < ls_memory_size s /\
    is_readable (ls_flags s) = true /\
    is_writable (ls_flags s) && is_executable (ls_flags s) = false) segs /\
  (forall i j a b p, segs !! i = Some a -> segs !! j = Some b ->
     segment_pages a p -> segment_pages b p -> i = j) /\
  foldr (fun s acc => ls_memory_size s + acc) 0 segs <= MAX_TOTAL_LOAD_SIZE.
Proof.
  intros Hb [Hok ->]%elf_parse_Ok_iff; [|done]. rewrite collect_segments_exact by done.
  intros [= <-]. split; [|split].
  - apply Forall_fmap. destruct Hok as [_ [_ _ Hs _ _ _]]. eapply Forall_impl; [exact Hs|].
    intros h (Hf & ? & _ & _ & ? & _ & ? & _ & ? & ?). simpl. unfold seg_end in *.
    split_and!; try done; by destruct Hf as [->|[->| ->]].
  - intros. by eapply segments_separate.
  - rewrite <- total_memory_segments. apply Hok.
Qed.

Lemma loaded_segments_are_safe_witness :
  foldr (fun s acc => ls_memory_size s + acc) 0 (segment_of sample_elf <$> loads_of sample_elf)
    <= MAX_TOTAL_LOAD_SIZE.
Proof.
  apply (loaded_segments_are_safe sample_elf (validated sample_elf)).
  - exact sample_elf_slice.
  - exact sample_elf_parses.
  - vm_compute. reflexivity.
Defined.

(** The entry point of an accepted kernel lies in one and only one of the
    segments the loader sees, and that one is executable and not writable. *)
Theorem entry_in_unique_executable_segment (bytes : list Z) (v : ValidatedElf)
    (segs : list LoadSegment) :
  slice_ok bytes -> parse bytes = Ok v -> collect_segments v = Ok segs ->
  exists k s, segs !! k = Some s /\
    is_executable (ls_flags s) = true /\ is_writable (ls_flags s) = false /\
    ls_physical_address s <= ve_entry_point v < ls_physical_address s + ls_memory_size s /\
    forall k' s', segs !! k' = Some s' -> segment_pages s' (ve_entry_point v) -> k' = k.
Proof.
  intros Hb [Hok ->]%elf_parse_Ok_iff; [|done]. rewrite collect_segments_exact by done.
  intros [= <-]. pose proof Hok as [_ [_ _ Hs _ _ He]].
  apply Exists_exists in He as (h & Hin & Hf & Hr). rewrite Forall_forall in Hs.
  destruct (Hs h Hin) as (_ & _ & _ & _ & Hv & _). apply list_elem_of_lookup_1 in Hin as (k & Hk).
  assert ((segment_of bytes <$> loads_of bytes) !! k = Some (segment_of bytes h)) as Hs'
    by (by rewrite list_lookup_fmap, Hk).
  exists k, (segment_of bytes h). cbn [segment_of ls_flags ls_physical_address ls_memory_size].
  cbn [validated ve_entry_point].
  rewrite Hf, <- Hv. split_and!; [done..|lia|lia|]. intros k' s' Hk' Hp.
  eapply segments_separate; [done..|]. unfold segment_pages.
  cbn [segment_of ls_physical_address ls_memory_size validated ve_entry_point]. rewrite <- Hv.
  pose proof (page_up_bounds (ph_virtual_address h.2 + ph_memory_size h.2)). lia.
Qed.

Lemma entry_in_unique_executable_segment_witness :
  exists k s, (segment_of sample_elf <$> loads_of sample_elf) !! k = Some s /\
    is_executable (ls_flags s) = true /\ is_writable (ls_flags s) = false /\
    ls_physical_address s <= KERNEL_BASE_ADDRESS + 120
      < ls_physical_address s + ls_memory_size s /\
    forall k' s', (segment_of sample_elf <$> loads_of sample_elf) !! k' = Some s' ->
      segment_pages s' (KERNEL_BASE_ADDRESS + 120) -> k' = k.
Proof.
  apply (entry_in_unique_executable_segment sample_elf (validated sample_elf)).
  - exact sample_elf_slice.
  - exact sample_elf_parses.
  - vm_compute. reflexivity.
Defined.
