(* ===== verification/Console.v ===== *)
(** Early x86_64 mechanisms: crates/arch-x86_64/src/lib.rs.

    The console is a sequence of port accesses.  The machine records every
    access in order; what the UART answers to a line-status read is an oracle
    [lsr], the value of the [n]-th read, about which nothing is assumed. *)

From S2P Require Import Prelude Bytes.

(** A byte string literal [b"..."]. *)
Definition ascii_bytes (s : string) : list Z :=
  (fun c => Z.of_N (Ascii.N_of_ascii c)) <$> String.list_ascii_of_string s.

Definition LF : Z := 10.
Definition CR : Z := 13.

(** ** Ports *)
Definition COM1 : Z := 0x3f8.
Definition DEBUGCON : Z := 0xe9.
Definition QEMU_EXIT : Z := 0xf4.
Definition TRANSMIT_READY : Z := 0x20.
Definition MAX_TRANSMIT_POLLS : nat := Z.to_nat 4096.
Definition MAX_RECORD_BYTES : nat := Z.to_nat 256.

Inductive QemuExitCode := Success | ContractRejected | KernelPanic | LoaderFailure | KernelReturned.
#[global] Instance QemuExitCode_eq_dec : EqDecision QemuExitCode.
Proof. solve_decision. Defined.

(** [code as u32] *)
Definition QemuExitCode_value (code : QemuExitCode) : Z :=
  match code with
  | Success => 0x10
  | ContractRejected => 0x20
  | KernelPanic => 0x21
  | LoaderFailure => 0x22
  | KernelReturned => 0x23
  end.

(** One port access, with the value written or read. *)
Inductive io :=
| OutU8 (port value : Z)
| OutU32 (port value : Z)
| InU8 (port value : Z).

(** The accesses so far, in order, and the number of status reads among them. *)
Record Machine := mkMachine { m_trace : list io; m_reads : nat }.

Definition power_on : Machine := {| m_trace := []; m_reads := 0 |}.

Definition out_u8 (port value : Z) (m : Machine) : Machine :=
  {| m_trace := m_trace m ++ [OutU8 port value]; m_reads := m_reads m |}.

Definition out_u32 (port value : Z) (m : Machine) : Machine :=
  {| m_trace := m_trace m ++ [OutU32 port value]; m_reads := m_reads m |}.

Section Console.
Variable lsr : nat -> Z.

Definition in_u8 (port : Z) (m : Machine) : Z * Machine :=
  (lsr (m_reads m),
   {| m_trace := m_trace m ++ [InU8 port (lsr (m_reads m))]; m_reads := S (m_reads m) |}).

(** ** [EarlyConsole] *)
Record EarlyConsole := mkEarlyConsole { initialized : bool }.

Definition initialize (c : EarlyConsole) (m : Machine) : EarlyConsole * Machine :=
  let m := out_u8 (COM1 + 1) 0x00 m in
  let m := out_u8 (COM1 + 3) 0x80 m in
  let m := out_u8 COM1 0x03 m in
  let m := out_u8 (COM1 + 1) 0x00 m in
  let m := out_u8 (COM1 + 3) 0x03 m in
  let m := out_u8 (COM1 + 2) 0xc7 m in
  let m := out_u8 (COM1 + 4) 0x0b m in
  ({| initialized := true |}, m).

(** [EarlyConsole::new] *)
Definition EarlyConsole_new (m : Machine) : EarlyConsole * Machine :=
  initialize {| initialized := false |} m.

(** [for _ in 0..MAX_TRANSMIT_POLLS], [n] iterations left. *)
Fixpoint poll_serial (n : nat) (byte : Z) (m : Machine) : Machine :=
  match n with
  | O => m
  | S n =>
      let '(status, m) := in_u8 (COM1 + 5) m in
      if negb (Z.land status TRANSMIT_READY =? 0) then out_u8 COM1 byte m
      else poll_serial n byte m
  end.

Definition write_serial_byte (byte : Z) (m : Machine) : Machine :=
  poll_serial MAX_TRANSMIT_POLLS byte m.

Definition write_byte (c : EarlyConsole) (byte : Z) (m : Machine) : EarlyConsole * Machine :=
  let '(c, m) := if negb (initialized c) then initialize c m else (c, m) in
  let m := if byte =? LF then write_serial_byte CR m else m in
  let m := write_serial_byte byte m in
  let m := out_u8 DEBUGCON byte m in
  (c, m).

Fixpoint write_bytes (c : EarlyConsole) (bytes : list Z) (m : Machine) : EarlyConsole * Machine :=
  match bytes with
  | [] => (c, m)
  | byte :: rest => let '(c, m) := write_byte c byte m in write_bytes c rest m
  end.

Definition write_record (c : EarlyConsole) (record : list Z) (m : Machine)
    : EarlyConsole * Machine :=
  let '(c, m) := write_bytes c (take MAX_RECORD_BYTES record) m in
  write_byte c LF m.

(** [qemu_exit]: the exit write; the halt loop after it does nothing more. *)
Definition qemu_exit (code : QemuExitCode) (m : Machine) : Machine :=
  out_u32 QEMU_EXIT (QemuExitCode_value code) m.

(** ** Observations of a trace *)

(** The bytes QEMU's debug console receives. *)
Definition debugcon_of (t : list io) : list Z :=
  omap (fun e => match e with OutU8 p v => if p =? DEBUGCON then Some v else None | _ => None end) t.

(** The values written to the debug-exit device. *)
Definition exits_of (t : list io) : list Z :=
  omap (fun e => match e with OutU32 p v => if p =? QEMU_EXIT then Some v else None | _ => None end) t.

(** The data register writes of COM1. *)
Definition serial_of (t : list io) : list Z :=
  omap (fun e => match e with OutU8 p v => if p =? COM1 then Some v else None | _ => None end) t.

Definition debugcon (m : Machine) : list Z := debugcon_of (m_trace m).
Definition exits (m : Machine) : list Z := exits_of (m_trace m).
Definition serial (m : Machine) : list Z := serial_of (m_trace m).

(** The debug console and the exit device see the same of [m] and [m']. *)
Definition quiet (m m' : Machine) : Prop := debugcon m' = debugcon m /\ exits m' = exits m.

#[local] Instance quiet_preorder : PreOrder quiet.
Proof. unfold quiet. split; [done|]. intros x y z [H1 H2] [H3 H4]. split; congruence. Qed.

Lemma quiet_out_u8 p v m : p <> DEBUGCON -> quiet m (out_u8 p v m).
Proof.
  intros H. unfold quiet, debugcon, exits, debugcon_of, exits_of, out_u8. simpl.
  rewrite !omap_app. simpl. rewrite (proj2 (Z.eqb_neq _ _) H). by rewrite !app_nil_r.
Qed.

Lemma quiet_in_u8 p m : quiet m (in_u8 p m).2.
Proof.
  unfold quiet, debugcon, exits, debugcon_of, exits_of, in_u8. simpl.
  rewrite !omap_app. simpl. by rewrite !app_nil_r.
Qed.

Lemma quiet_poll n byte : forall m, quiet m (poll_serial n byte m).
Proof.
  induction n as [|n IH]; intros m; [done|]. cbn [poll_serial].
  destruct (in_u8 (COM1 + 5) m) as [status m'] eqn:E.
  assert (quiet m m') as Hm by (pose proof (quiet_in_u8 (COM1 + 5) m) as H; by rewrite E in H).
  etransitivity; [exact Hm|]. destruct (negb _); [by apply quiet_out_u8|apply IH].
Qed.

Lemma quiet_initialize c m : quiet m (initialize c m).2.
Proof.
  unfold initialize. cbn [snd].
  do 7 (etransitivity; [|apply quiet_out_u8; done]). done.
Qed.

Lemma out_debugcon v m :
  debugcon (out_u8 DEBUGCON v m) = debugcon m ++ [v] /\ exits (out_u8 DEBUGCON v m) = exits m.
Proof.
  unfold debugcon, exits, debugcon_of, exits_of, out_u8. cbn [m_trace]. rewrite !omap_app. simpl.
  by rewrite app_nil_r.
Qed.

(** What one [write_byte] shows on the debug console. *)
Lemma write_byte_debugcon c byte m :
  debugcon (write_byte c byte m).2 = debugcon m ++ [byte] /\
  exits (write_byte c byte m).2 = exits m /\
  initialized (write_byte c byte m).1 = true.
Proof.
  unfold write_byte.
  destruct (if negb (initialized c) then initialize c m else (c, m)) as [c' m1] eqn:E1.
  assert (quiet m m1 /\ initialized c' = true) as [Hq Hi].
  { destruct c as [[]]; cbn [initialized negb] in E1; [by simplify_eq|].
    pose proof (quiet_initialize {| initialized := false |} m) as H. rewrite E1 in H.
    split; [exact H|]. unfold initialize in E1. by injection E1 as <- _. }
  set (m2 := if byte =? LF then write_serial_byte CR m1 else m1).
  assert (quiet m1 m2) as Hq2 by (subst m2; destruct (byte =? LF); [apply quiet_poll|done]).
  destruct (quiet_poll MAX_TRANSMIT_POLLS byte m2) as [Hd He].
  destruct Hq as [Hd1 He1], Hq2 as [Hd2 He2]. cbn [fst snd].
  change (poll_serial MAX_TRANSMIT_POLLS byte m2) with (write_serial_byte byte m2) in Hd, He.
  destruct (out_debugcon byte (write_serial_byte byte m2)) as [-> ->].
  split_and!; congruence.
Qed.

Lemma write_bytes_debugcon l : forall c m,
  debugcon (write_bytes c l m).2 = debugcon m ++ l /\ exits (write_bytes c l m).2 = exits m.
Proof.
  induction l as [|b l IH]; intros c m; [by rewrite app_nil_r|]. cbn [write_bytes].
  pose proof (write_byte_debugcon c b m) as (Hd & He & _).
  destruct (write_byte c b m) as [c' m']. cbn [fst snd] in *.
  destruct (IH c' m') as [-> ->]. rewrite Hd, He. by rewrite <- app_assoc.
Qed.

(** One record on the debug console, whatever the UART does. *)
Lemma write_record_debugcon c r m :
  debugcon (write_record c r m).2 = debugcon m ++ take MAX_RECORD_BYTES r ++ [LF] /\
  exits (write_record c r m).2 = exits m.
Proof.
  unfold write_record. pose proof (write_bytes_debugcon (take MAX_RECORD_BYTES r) c m) as [Hd He].
  destruct (write_bytes c (take MAX_RECORD_BYTES r) m) as [c' m']. cbn [snd] in *.
  destruct (write_byte_debugcon c' LF m') as (-> & -> & _). rewrite Hd, He. by rewrite <- app_assoc.
Qed.

Lemma new_debugcon m : quiet m (EarlyConsole_new m).2.
Proof. apply quiet_initialize. Qed.

Lemma qemu_exit_observed code m :
  debugcon (qemu_exit code m) = debugcon m /\
  exits (qemu_exit code m) = exits m ++ [QemuExitCode_value code].
Proof.
  unfold qemu_exit, out_u32, debugcon, exits, debugcon_of, exits_of. cbn [m_trace].
  rewrite !omap_app. simpl. by rewrite app_nil_r.
Qed.
End Console.

(** ** The serial copy *)
Section Serial.
Variable lsr : nat -> Z.

(** What a working UART receives for a byte: CR before LF. *)
Definition serial_bytes (l : list Z) : list Z :=
  b ← l; if b =? LF then [CR; LF] else [b].

(** The UART answers the [n]-th status read with "transmitter empty". *)
Definition ready (n : nat) : Prop := Z.land (lsr n) TRANSMIT_READY <> 0.

Lemma serial_out_com1 v m : serial (out_u8 COM1 v m) = serial m ++ [v].
Proof. unfold serial, serial_of, out_u8. cbn [m_trace]. by rewrite omap_app. Qed.

Lemma serial_out_debugcon v m : serial (out_u8 DEBUGCON v m) = serial m.
Proof. unfold serial, serial_of, out_u8. cbn [m_trace]. rewrite omap_app. apply app_nil_r. Qed.

Lemma serial_in p m : serial (in_u8 lsr p m).2 = serial m.
Proof. unfold serial, serial_of, in_u8. simpl. rewrite omap_app. apply app_nil_r. Qed.

Lemma poll_serial_stuck n byte : (forall k, ~ ready k) -> forall m,
  serial (poll_serial lsr n byte m) = serial m.
Proof.
  intros Hr. induction n as [|n IH]; intros m; [done|]. cbn [poll_serial in_u8].
  destruct (Z.eqb_spec (Z.land (lsr (m_reads m)) TRANSMIT_READY) 0) as [_|H];
    [|by destruct (Hr _ H)].
  cbn [negb]. rewrite IH. apply (serial_in (COM1 + 5)).
Qed.

Lemma write_serial_ready byte : (forall k, ready k) -> forall m,
  serial (write_serial_byte lsr byte m) = serial m ++ [byte].
Proof.
  intros Hr m. unfold write_serial_byte.
  destruct MAX_TRANSMIT_POLLS as [|n] eqn:E; [discriminate E|]. clear E.
  cbn [poll_serial in_u8]. rewrite (proj2 (Z.eqb_neq _ _) (Hr _)). cbn [negb].
  rewrite serial_out_com1. f_equal. apply (serial_in (COM1 + 5)).
Qed.

Lemma poll_serial_reads n byte : forall m,
  (m_reads m <= m_reads (poll_serial lsr n byte m) <= m_reads m + n)%nat.
Proof.
  induction n as [|n IH]; intros m; [cbn; lia|]. cbn [poll_serial in_u8].
  destruct (negb _); [cbn; lia|]. specialize (IH (in_u8 lsr (COM1 + 5) m).2). simpl in IH. lia.
Qed.

(** The status reads one byte may cost. *)
Definition byte_polls (b : Z) : nat :=
  if b =? LF then (2 * MAX_TRANSMIT_POLLS)%nat else MAX_TRANSMIT_POLLS.

Lemma write_byte_reads c byte m :
  (m_reads m <= m_reads (write_byte lsr c byte m).2 <= m_reads m + byte_polls byte)%nat.
Proof.
  unfold write_byte, byte_polls, write_serial_byte. generalize MAX_TRANSMIT_POLLS as polls. intros polls.
  assert (m_reads (if negb (initialized c) then initialize c m else (c, m)).2 = m_reads m) as Hi
    by (by destruct (initialized c)).
  destruct (if negb (initialized c) then initialize c m else (c, m)) as [c' m']. cbn [snd] in *.
  cbn [out_u8 m_reads]. pose proof (poll_serial_reads polls CR m').
  destruct (byte =? LF).
  - pose proof (poll_serial_reads polls byte (poll_serial lsr polls CR m')).
    lia.
  - pose proof (poll_serial_reads polls byte m'). lia.
Qed.

Lemma write_bytes_reads l : forall c m,
  (m_reads (write_bytes lsr c l m).2 <= m_reads m + sum_list_with byte_polls l)%nat.
Proof.
  induction l as [|b l IH]; intros c m; [cbn; lia|]. cbn [write_bytes sum_list_with].
  pose proof (write_byte_reads c b m). destruct (write_byte lsr c b m) as [c' m'].
  cbn [snd] in *. specialize (IH c' m'). lia.
Qed.

Lemma write_byte_serial c byte m :
  initialized c = true ->
  (write_byte lsr c byte m).1 = c /\
  ((forall k, ready k) -> serial (write_byte lsr c byte m).2 = serial m ++ serial_bytes [byte]) /\
  ((forall k, ~ ready k) -> serial (write_byte lsr c byte m).2 = serial m).
Proof.
  intros Hi. unfold write_byte. rewrite Hi. cbn [negb fst snd]. rewrite serial_out_debugcon.
  split_and!; [done|intros Hr|intros Hr].
  - rewrite write_serial_ready by done. unfold serial_bytes. cbn.
    destruct (byte =? LF) eqn:E; [|done]. rewrite write_serial_ready by done.
    apply Z.eqb_eq in E as ->. by rewrite <- app_assoc.
  - unfold write_serial_byte. rewrite poll_serial_stuck by done.
    by destruct (byte =? LF); [rewrite poll_serial_stuck|].
Qed.

Lemma serial_bytes_app l1 l2 : serial_bytes (l1 ++ l2) = serial_bytes l1 ++ serial_bytes l2.
Proof. apply bind_app. Qed.

Lemma write_bytes_serial l : forall c m,
  initialized c = true ->
  (write_bytes lsr c l m).1 = c /\
  ((forall k, ready k) -> serial (write_bytes lsr c l m).2 = serial m ++ serial_bytes l) /\
  ((forall k, ~ ready k) -> serial (write_bytes lsr c l m).2 = serial m).
Proof.
  induction l as [|b l IH]; intros c m Hi; [by rewrite app_nil_r|]. cbn [write_bytes].
  destruct (write_byte_serial c b m Hi) as (Hc & Hr & Hs).
  destruct (write_byte lsr c b m) as [c' m']. cbn [fst snd] in *. subst c'.
  destruct (IH c m' Hi) as (Hc' & Hr' & Hs'). split_and!; [done| |].
  - intros H. rewrite Hr', Hr, <- app_assoc by done. f_equal.
    symmetry. apply (serial_bytes_app [b]).
  - intros H. by rewrite Hs', Hs.
Qed.
End Serial.

(** ** Properties *)

(** Diagnostics survive any UART: whatever the line-status register
    answers, [write_record] puts exactly the first 256 bytes of the record and
    one newline on the debug console, and touches no exit device. *)
Theorem record_reaches_debugcon (lsr : nat -> Z) (c : EarlyConsole) (record : list Z) (m : Machine) :
  debugcon (write_record lsr c record m).2 = debugcon m ++ take 256 record ++ [LF] /\
  exits (write_record lsr c record m).2 = exits m.
Proof. apply write_record_debugcon. Qed.

(** C38. A record costs a bounded number of status reads, at most 4096 per
    transmitted byte, so a stuck UART cannot hang the boot; when the UART is
    always ready the serial line carries the truncated record with CR LF line
    ends, and when it is never ready the serial copy is dropped entirely. *)
Theorem serial_copy_is_bounded (lsr : nat -> Z) (c : EarlyConsole) (record : list Z) (m : Machine) :
  initialized c = true ->
  let m' := (write_record lsr c record m).2 in
  (m_reads m' <= m_reads m + sum_list_with byte_polls (take 256 record ++ [LF]))%nat /\
  ((forall k, ready lsr k) -> serial m' = serial m ++ serial_bytes (take 256 record ++ [LF])) /\
  ((forall k, ~ ready lsr k) -> serial m' = serial m).
Proof.
  intros Hi m'. subst m'. unfold write_record. change (take MAX_RECORD_BYTES) with (take (A:=Z) 256).
  pose proof (write_bytes_reads lsr (take 256 record) c m) as Hn.
  destruct (write_bytes_serial lsr (take 256 record) c m Hi) as (Hc & Hr & Hs).
  destruct (write_bytes lsr c (take 256 record) m) as [c' m1]. cbn [fst snd] in *. subst c'.
  pose proof (write_byte_reads lsr c LF m1).
  destruct (write_byte_serial lsr c LF m1 Hi) as (_ & Hr1 & Hs1). split_and!.
  - rewrite sum_list_with_app. cbn [sum_list_with]. lia.
  - intros Hk. by rewrite Hr1, Hr, serial_bytes_app, <- app_assoc by done.
  - intros Hk. by rewrite Hs1, Hs by done.
Qed.

Lemma serial_copy_is_bounded_witness :
  serial (write_record (fun _ => 0x60) {| initialized := true |} (ascii_bytes "A") power_on).2 =
    [65; 13; 10] /\
  serial (write_record (fun _ => 0) {| initialized := true |} (ascii_bytes "A") power_on).2 = [].
Proof.
  split.
  - destruct (serial_copy_is_bounded (fun _ => 0x60) {| initialized := true |} (ascii_bytes "A")
      power_on eq_refl) as (_ & H & _). rewrite H; [reflexivity|]. intros k. discriminate.
  - destruct (serial_copy_is_bounded (fun _ => 0) {| initialized := true |} (ascii_bytes "A")
      power_on eq_refl) as (_ & _ & H). rewrite H; [reflexivity|]. intros k Hk. by apply Hk.
Defined.
