(* ===== verification/Memory.v ===== *)
(** Physical memory as the loader writes it and the kernel reads it: a total
    function from addresses to bytes, with [ptr::write_bytes],
    [ptr::copy_nonoverlapping] and [slice::from_raw_parts]. *)

From S2P Require Import Prelude Bytes.

Definition memory : Type := Z -> Z.

(** [a] lies in the [n] bytes from [base]. *)
Definition in_range (base n a : Z) : bool := (base <=? a) && (a <? base + n).

(** [ptr::write_bytes(base, v, n)] *)
Definition write_bytes_at (base v n : Z) (mem : memory) : memory :=
  fun a => if in_range base n a then v else mem a.

(** [ptr::copy_nonoverlapping(src, base, src.len())] *)
Definition copy_at (base : Z) (src : list Z) (mem : memory) : memory :=
  fun a => if in_range base (len src) a then src !!! Z.to_nat (a - base) else mem a.

(** [slice::from_raw_parts(base, n)] *)
Definition slice_at (mem : memory) (base : Z) (n : nat) : list Z :=
  (fun k => mem (base + Z.of_nat k)) <$> seq 0 n.

Lemma in_range_iff base n a : in_range base n a = true <-> base <= a < base + n.
Proof. unfold in_range. rewrite andb_true_iff, Z.leb_le, Z.ltb_lt. done. Qed.

Lemma in_range_false base n a : in_range base n a = false <-> a < base \/ base + n <= a.
Proof. unfold in_range. rewrite andb_false_iff, Z.leb_gt, Z.ltb_ge. done. Qed.

Lemma length_slice_at mem base n : length (slice_at mem base n) = n.
Proof. unfold slice_at. by rewrite length_fmap, length_seq. Qed.

Lemma slice_at_lookup mem base n k :
  (k < n)%nat -> slice_at mem base n !! k = Some (mem (base + Z.of_nat k)).
Proof. intros. unfold slice_at. by rewrite list_lookup_fmap, lookup_seq_lt. Qed.

Lemma slice_at_ext mem mem' base n :
  (forall a, base <= a < base + Z.of_nat n -> mem a = mem' a) ->
  slice_at mem base n = slice_at mem' base n.
Proof.
  intros H. apply list_eq_same_length with n; [by rewrite length_slice_at..|].
  intros i x y Hi. rewrite !slice_at_lookup by done. intros [= <-] [= <-]. apply H. lia.
Qed.

Lemma slice_at_sub mem base n i k :
  (i + k <= n)%nat -> take k (drop i (slice_at mem base n)) = slice_at mem (base + Z.of_nat i) k.
Proof.
  intros Hik. apply list_eq_same_length with k;
    [by rewrite length_slice_at|rewrite length_take, length_drop, length_slice_at; lia|].
  intros j x y Hj. rewrite lookup_take_lt, lookup_drop, !slice_at_lookup by lia.
  intros [= <-] [= <-]. f_equal. lia.
Qed.

Lemma slice_at_copy mem base src n :
  (n <= length src)%nat -> slice_at (copy_at base src mem) base n = take n src.
Proof.
  intros Hn. apply list_eq_same_length with n; [rewrite length_take; lia|by rewrite length_slice_at|].
  intros i x y Hi. rewrite slice_at_lookup, lookup_take_lt by done. unfold copy_at.
  rewrite (proj2 (in_range_iff _ _ _)) by lia. intros [= <-] Hy.
  replace (Z.to_nat (base + Z.of_nat i - base)) with i by lia.
  by apply list_lookup_total_correct.
Qed.
