(* ===== verification/Scenario.v ===== *)
(** The boot-test scenario policy: crates/uefi-loader/src/lib.rs. *)

From S2P Require Import Prelude Bytes Console.

Definition MAX_SCENARIO_BYTES : Z := 32.

Inductive BootScenario := Normal | IncompatibleVersion | TruncatedContract | DeliberatePanic.
#[global] Instance BootScenario_eq_dec : EqDecision BootScenario.
Proof. solve_decision. Defined.

Inductive ScenarioError := Empty | TooLong | NonAscii | Unknown.

(** [<[u8]>::is_ascii] *)
Definition is_ascii (bytes : list Z) : bool := forallb (fun b => b <? 128) bytes.

Definition parse (bytes : list Z) : exec ScenarioError BootScenario :=
  fail_if (MAX_SCENARIO_BYTES <? len bytes) TooLong ;;
  fail_if (negb (is_ascii bytes)) NonAscii ;;
  if bool_decide (bytes = ascii_bytes "normal" ++ [LF]) then Ok Normal
  else if bool_decide (bytes = ascii_bytes "bad-version" ++ [LF]) then Ok IncompatibleVersion
  else if bool_decide (bytes = ascii_bytes "truncated" ++ [LF]) then Ok TruncatedContract
  else if bool_decide (bytes = ascii_bytes "panic" ++ [LF]) then Ok DeliberatePanic
  else if bool_decide (bytes = []) then Err Empty
  else Err Unknown.

(** The one file content that selects each scenario. *)
Definition scenario_file (s : BootScenario) : list Z :=
  match s with
  | Normal => ascii_bytes "normal" ++ [LF]
  | IncompatibleVersion => ascii_bytes "bad-version" ++ [LF]
  | TruncatedContract => ascii_bytes "truncated" ++ [LF]
  | DeliberatePanic => ascii_bytes "panic" ++ [LF]
  end.

Lemma parse_scenario_file s : parse (scenario_file s) = Ok s.
Proof. by destruct s. Qed.

Lemma parse_scenario_Ok bytes s : parse bytes = Ok s -> bytes = scenario_file s.
Proof.
  unfold parse. intros H. apply bind_Ok in H as (? & _ & H). apply bind_Ok in H as (? & _ & H).
  repeat case_bool_decide; by simplify_eq.
Qed.

Lemma parse_scenario_no_panic bytes : parse bytes <> Panic.
Proof.
  unfold parse. do 2 (apply bind_no_panic; [auto with nopanic|intros _ _]).
  repeat case_bool_decide; done.
Qed.

(** The scenario file is parsed strictly and canonically: each scenario is
    selected by exactly one file content, every other content is rejected, and
    nothing panics. *)
Theorem scenario_parse_is_canonical (bytes : list Z) (s : BootScenario) :
  (parse bytes = Ok s <-> bytes = scenario_file s) /\ parse bytes <> Panic.
Proof.
  split; [|apply parse_scenario_no_panic]. split; [apply parse_scenario_Ok|].
  intros ->. apply parse_scenario_file.
Qed.
