(* ===== verification/Kernel.v ===== *)
(** The kernel: crates/kernel/src/lib.rs (the boot phase machine),
    src/diagnostics.rs (the records) and src/bin/x86_64.rs (the entry point
    and the panic handler). *)

From S2P Require Import Prelude Bytes Console Memory.
From S2P Require Import BootContract ContractSpec ContractCodec ContractProps.

(** ** Boot phases (lib.rs) *)
Inductive BootPhase := Reset_ | EarlyArchitecture | MemoryReady | RuntimeReady.
#[global] Instance BootPhase_eq_dec : EqDecision BootPhase.
Proof. solve_decision. Defined.

Inductive BootError := InvalidTransition (from to : BootPhase).

Record BootState := mkBootState { phase : BootPhase }.

Definition BootState_new : BootState := {| phase := Reset_ |}.

(** [BootState::transition]: the state after the call and its result. *)
Definition transition (self : BootState) (next : BootPhase) : exec BootError unit * BootState :=
  let valid := match phase self, next with
               | Reset_, EarlyArchitecture
               | EarlyArchitecture, MemoryReady
               | MemoryReady, RuntimeReady => true
               | _, _ => false
               end in
  if negb valid then (Err (InvalidTransition (phase self) next), self)
  else (Ok tt, {| phase := next |}).

(** A caller that requests a sequence of phases and ignores the errors. *)
Fixpoint transitions (self : BootState) (l : list BootPhase)
    : list (exec BootError unit) * BootState :=
  match l with
  | [] => ([], self)
  | next :: rest =>
      let '(r, self) := transition self next in
      let '(rs, self) := transitions self rest in (r :: rs, self)
  end.

(** ** Records (diagnostics.rs) *)
Definition DIAGNOSTIC_SCHEMA : Z := 1.
Definition KERNEL_READY : list Z := ascii_bytes
  "POLYTOPE_BOOT schema=1 seq=0004 phase=kernel_entry level=info code=KERNEL_READY".
Definition ABI_VERSION_REJECTED : list Z := ascii_bytes
  "POLYTOPE_BOOT schema=1 seq=0004 phase=kernel_entry level=error code=ABI_VERSION".
Definition CONTRACT_LENGTH_REJECTED : list Z := ascii_bytes
  "POLYTOPE_BOOT schema=1 seq=0004 phase=kernel_entry level=error code=CONTRACT_LENGTH".
Definition CONTRACT_INVALID : list Z := ascii_bytes
  "POLYTOPE_BOOT schema=1 seq=0004 phase=kernel_entry level=error code=CONTRACT_INVALID".
Definition KERNEL_PANIC : list Z := ascii_bytes
  "POLYTOPE_BOOT schema=1 seq=0005 phase=panic level=fatal code=KERNEL_PANIC".

(** ** The entry point (bin/x86_64.rs) *)

(** How the body of [polytope_kernel_main] ends: in [qemu_exit], or in a panic. *)
Inductive ending := Exited (m : Machine) | Panicked (m : Machine).

Section Entry.
Variable lsr : nat -> Z.

(** [console.write_record(record); qemu_exit(code)] *)
Definition report (console : EarlyConsole) (record : list Z) (code : QemuExitCode) (m : Machine)
    : Machine :=
  let '(_, m) := write_record lsr console record m in qemu_exit code m.

(** [#[panic_handler]] *)
Definition panic (m : Machine) : Machine :=
  let '(console, m) := EarlyConsole_new m in
  report console KERNEL_PANIC KernelPanic m.

Definition kernel_body (mem : memory) (contract length : Z) (m : Machine) : ending :=
  let '(console, m) := EarlyConsole_new m in
  if negb (length =? BOOT_INFO_SIZE) then
    Exited (report console CONTRACT_LENGTH_REJECTED ContractRejected m)
  else if (contract =? 0) || negb (contract mod PAGE_SIZE_BYTES =? 0)
          || bool_decide (checked_add 64 contract length = None) then
    Exited (report console CONTRACT_INVALID ContractRejected m)
  else
    let bytes := slice_at mem contract (Z.to_nat length) in
    match parse bytes with
    | Panic => Panicked m
    | Err (UnsupportedVersion _ _) => Exited (report console ABI_VERSION_REJECTED ContractRejected m)
    | Err (Truncated _ _) | Err (LengthMismatch _ _) =>
        Exited (report console CONTRACT_LENGTH_REJECTED ContractRejected m)
    | Err _ => Exited (report console CONTRACT_INVALID ContractRejected m)
    | Ok boot_info =>
        let kind := si_kind (bi_scenario (vb_info boot_info)) in
        if kind =? ScenarioKind_NORMAL then Exited (report console KERNEL_READY Success m)
        else if kind =? ScenarioKind_DELIBERATE_PANIC then Panicked m
        else Exited (report console CONTRACT_INVALID ContractRejected m)
    end.

Definition polytope_kernel_main (mem : memory) (contract length : Z) (m : Machine) : Machine :=
  match kernel_body mem contract length m with
  | Exited m => m
  | Panicked m => panic m
  end.
End Entry.

(** ** Specification *)

(** A record on the debug console and a write to the exit device. *)
Definition reports (m m' : Machine) (record : list Z) (code : QemuExitCode) : Prop :=
  debugcon m' = debugcon m ++ record ++ [LF] /\ exits m' = exits m ++ [QemuExitCode_value code].

(** The record and status the entry point owes to what it was handed. *)
Definition kernel_verdict (mem : memory) (contract length : Z) : list Z * QemuExitCode :=
  if negb (length =? BOOT_INFO_SIZE) then (CONTRACT_LENGTH_REJECTED, ContractRejected)
  else if (contract =? 0) || negb (contract mod PAGE_SIZE_BYTES =? 0)
          || (2 ^ 64 <=? contract + length) then (CONTRACT_INVALID, ContractRejected)
  else match parse (slice_at mem contract (Z.to_nat length)) with
       | Ok v =>
           if si_kind (bi_scenario (vb_info v)) =? ScenarioKind_NORMAL then (KERNEL_READY, Success)
           else if si_kind (bi_scenario (vb_info v)) =? ScenarioKind_DELIBERATE_PANIC
                then (KERNEL_PANIC, KernelPanic)
           else (CONTRACT_INVALID, ContractRejected)
       | Err (UnsupportedVersion _ _) => (ABI_VERSION_REJECTED, ContractRejected)
       | Err (Truncated _ _) | Err (LengthMismatch _ _) =>
           (CONTRACT_LENGTH_REJECTED, ContractRejected)
       | _ => (CONTRACT_INVALID, ContractRejected)
       end.

Section EntryLemmas.
Variable lsr : nat -> Z.

Lemma report_reports c record code m0 m :
  quiet m0 m -> (length record <= 256)%nat -> reports m0 (report lsr c record code m) record code.
Proof.
  intros [Hd He] Hl. unfold report, reports.
  destruct (write_record_debugcon lsr c record m) as [H1 H2].
  destruct (write_record lsr c record m) as [c' m']. cbn [snd] in *.
  destruct (qemu_exit_observed code m') as [-> ->].
  rewrite H1, H2, Hd, He. split; [|done]. by rewrite take_ge by done.
Qed.

Lemma panic_reports m0 m : quiet m0 m -> reports m0 (panic lsr m) KERNEL_PANIC KernelPanic.
Proof.
  intros Hq. unfold panic. pose proof (new_debugcon m) as Hn.
  destruct (EarlyConsole_new m) as [c m1]. apply report_reports; [|apply Nat.leb_le; reflexivity].
  destruct Hq, Hn. split; simpl in *; congruence.
Qed.

(** The entry point delivers the verdict, one record and one exit. *)
Lemma kernel_main_verdict mem contract n m :
  slice_ok (slice_at mem contract (Z.to_nat n)) ->
  reports m (polytope_kernel_main lsr mem contract n m)
    (kernel_verdict mem contract n).1 (kernel_verdict mem contract n).2.
Proof.
  intros Hb. unfold polytope_kernel_main, kernel_body, kernel_verdict.
  pose proof (new_debugcon m) as Hq. destruct (EarlyConsole_new m) as [c m1]. cbn [snd] in Hq.
  assert (forall r code, (length r <=? 256)%nat = true ->
    reports m (report lsr c r code m1) r code) as Hr
    by (intros; apply report_reports; [done|by apply Nat.leb_le]).
  destruct (negb (n =? BOOT_INFO_SIZE)); [by apply Hr|].
  replace (bool_decide (checked_add 64 contract n = None)) with (2 ^ 64 <=? contract + n)
    by (apply eq_true_iff_eq; by rewrite bool_decide_eq_true, checked_add_None, Z.leb_le).
  destruct ((contract =? 0) || _ || _); [by apply Hr|].
  pose proof (contract_parse_no_panic _ Hb) as Hp.
  destruct (parse _) as [v|e|]; [| |done].
  - destruct (_ =? ScenarioKind_NORMAL); [by apply Hr|].
    destruct (_ =? ScenarioKind_DELIBERATE_PANIC); [by apply panic_reports|by apply Hr].
  - destruct e; by apply Hr.
Qed.
End EntryLemmas.

(** A contract whose header fails validation is rejected with that error. *)
Lemma parse_header_Err i e :
  wf_info i -> validate_header (bi_header i) = Err e -> parse (info_bytes i) = Err e.
Proof.
  intros Hwf He. pose proof (info_bytes_len i Hwf) as Hlen.
  pose proof (prevalidate_header (info_bytes i) _ _ (read_header_info i Hwf)) as H.
  rewrite Hlen in H. specialize (H ltac:(done)). rewrite He in H. cbn [mbind exec_bind] in H.
  unfold parse. by destruct (prevalidate (info_bytes i)); simplify_eq/=.
Qed.

(** ** Properties *)

(** The rank of a phase in the boot order. *)
Definition rank (p : BootPhase) : Z :=
  match p with Reset_ => 0 | EarlyArchitecture => 1 | MemoryReady => 2 | RuntimeReady => 3 end.

(** The phases still to be passed. *)
Definition remaining (p : BootPhase) : list BootPhase :=
  match p with
  | Reset_ => [EarlyArchitecture; MemoryReady; RuntimeReady]
  | EarlyArchitecture => [MemoryReady; RuntimeReady]
  | MemoryReady => [RuntimeReady]
  | RuntimeReady => []
  end.

Lemma transition_spec s p :
  (rank p = rank (phase s) + 1 /\ transition s p = (Ok tt, {| phase := p |})) \/
  (rank p <> rank (phase s) + 1 /\
   transition s p = (Err (InvalidTransition (phase s) p), s)).
Proof. destruct s as [[]], p; simpl; auto; right; split; done || lia. Qed.

Lemma remaining_step p q : rank p = rank q + 1 -> remaining q = p :: remaining p.
Proof. by destruct p, q. Qed.

Lemma sublist_cons_same {A} (x : A) k l : sublist (x :: k) (x :: l) <-> sublist k l.
Proof.
  split; [|by constructor]. intros H. inversion H as [|? ? ? H1|? ? ? H1]; subst; [done|].
  etransitivity; [|exact H1]. by constructor.
Qed.

Lemma sublist_cons_other {A} (x y : A) k l : x <> y -> sublist (x :: k) (y :: l) <-> sublist (x :: k) l.
Proof. intros Hne. split; [by inversion 1|by constructor]. Qed.

Lemma transitions_runtime l : forall s,
  phase (transitions s l).2 = RuntimeReady <-> sublist (remaining (phase s)) l.
Proof.
  induction l as [|p l IH]; intros s; cbn [transitions snd].
  - destruct s as [[]]; simpl; split; intros H; done || by inversion H.
  - destruct (transition s p) as [r s'] eqn:E. specialize (IH s').
    destruct (transitions s' l) as [rs s'']. cbn [snd] in *. rewrite IH.
    destruct (transition_spec s p) as [[Hr Hs]|[Hr Hs]]; rewrite Hs in E; simplify_eq; clear IH.
    + by rewrite (remaining_step _ _ Hr), sublist_cons_same.
    + destruct s' as [[]]; simpl in *; try (symmetry; apply sublist_cons_other; by intros <-).
      split; intros _; apply sublist_nil_l.
Qed.

(** The boot phase machine: a transition succeeds exactly when the requested
    phase is the immediate successor, a rejected one reports both phases and
    changes nothing; so a caller reaches [RuntimeReady] exactly when it asked
    for the three phases in order, whatever else it asked for in between. *)
Theorem boot_phases_advance_in_order (s : BootState) (next : BootPhase) (l : list BootPhase) :
  transition s next =
    (if rank next =? rank (phase s) + 1 then (Ok tt, {| phase := next |})
     else (Err (InvalidTransition (phase s) next), s)) /\
  (phase (transitions BootState_new l).2 = RuntimeReady <->
   sublist [EarlyArchitecture; MemoryReady; RuntimeReady] l).
Proof.
  split; [|apply transitions_runtime].
  destruct (transition_spec s next) as [[H ->]|[H ->]].
  - by rewrite (proj2 (Z.eqb_eq _ _) H).
  - by rewrite (proj2 (Z.eqb_neq _ _) H).
Qed.

(** C12. The kernel reports ready exactly for a valid normal contract: the entry
    point exits with the success status if and only if the length is the
    contract's, the address is non-null, page aligned and does not wrap, and
    the bytes there are the encoding of a valid contract whose scenario is
    normal. *)
Theorem kernel_ready_iff_valid_contract (lsr : nat -> Z) (mem : memory) (contract n : Z) :
  slice_ok (slice_at mem contract (Z.to_nat n)) ->
  exits (polytope_kernel_main lsr mem contract n power_on) = [QemuExitCode_value Success] <->
  n = BOOT_INFO_SIZE /\ contract <> 0 /\ contract mod PAGE_SIZE_BYTES = 0 /\
  contract + n < 2 ^ 64 /\
  exists i, wf_info i /\ valid_info i /\ bi_scenario i = ScenarioInfo_normal /\
    slice_at mem contract (Z.to_nat n) = info_bytes i.
Proof.
  intros Hb. destruct (kernel_main_verdict lsr mem contract n power_on Hb) as [_ ->].
  change (exits power_on) with (@nil Z). cbn [app]. unfold kernel_verdict.
  destruct (Z.eqb_spec n BOOT_INFO_SIZE) as [Hn|Hn]; cbn [negb]; [|split; [done|tauto]].
  destruct ((contract =? 0) || _ || _) eqn:Ha; cbn [snd].
  { split; [done|]. intros (_ & H0 & Hp & Ho & _). rewrite !orb_true_iff, negb_true_iff in Ha.
    destruct Ha as [[Ha|Ha]|Ha]; bool_solve; [done..|lia]. }
  rewrite !orb_false_iff, negb_false_iff, Z.eqb_neq, Z.eqb_eq, Z.leb_gt in Ha.
  destruct Ha as [[H0 Hp] Ho]. split.
  - intros H. split_and!; [done..|]. destruct (parse _) as [v|e|] eqn:Ev; [|by destruct e|done].
    apply parse_Ok_iff in Ev as (Hw & Hv & Hs); [|done]. exists (vb_info v).
    split_and!; [done..| |done]. destruct Hv as (_ & _ & Hv & _).
    destruct (Z.eqb_spec (si_kind (bi_scenario (vb_info v))) ScenarioKind_NORMAL) as [Hk|Hk].
    + destruct Hv as [Hv|[Hv _]]; [done|]. rewrite Hk in Hv. unfold ScenarioKind_NORMAL in Hv. lia.
    + by destruct (_ =? ScenarioKind_DELIBERATE_PANIC).
  - intros (_ & _ & _ & _ & i & Hw & Hv & Hs & Hbytes).
    assert (parse (slice_at mem contract (Z.to_nat n)) = Ok (mkValidatedBootInfo i)) as ->
      by (by apply parse_Ok_iff).
    cbn [vb_info]. by rewrite Hs.
Qed.

(** Memory that holds the encoding of [i] at 1 MiB. *)
Definition memory_with (i : BootInfo) : memory := copy_at 0x100000 (info_bytes i) (fun _ => 0).

Lemma memory_with_slice i :
  wf_info i -> slice_at (memory_with i) 0x100000 (Z.to_nat BOOT_INFO_SIZE) = info_bytes i.
Proof.
  intros Hwf. pose proof (info_bytes_len _ Hwf) as Hl. unfold memory_with.
  rewrite slice_at_copy by lia. rewrite <- Hl, Nat2Z.id. apply firstn_all.
Qed.

Lemma kernel_ready_iff_valid_contract_witness :
  exits (polytope_kernel_main (fun _ => 0) (memory_with sample_info) 0x100000 BOOT_INFO_SIZE power_on) = [0x10].
Proof.
  apply (kernel_ready_iff_valid_contract (fun _ => 0) (memory_with sample_info) 0x100000 BOOT_INFO_SIZE).
  - rewrite memory_with_slice by exact sample_wf. apply info_bytes_slice_ok, sample_wf.
  - split_and!; [reflexivity|discriminate|reflexivity|reflexivity|].
    exists sample_info. split_and!; [apply sample_wf|apply sample_valid|reflexivity|].
    apply memory_with_slice, sample_wf.
Defined.

(** C37. The kernel always ends the same way: for any memory, pointer, length and
    UART it writes exactly one record and one exit status, a pair of the
    documented table. *)
Theorem kernel_reports_exactly_once (lsr : nat -> Z) (mem : memory) (contract n : Z) (m : Machine) :
  slice_ok (slice_at mem contract (Z.to_nat n)) ->
  exists record code,
    reports m (polytope_kernel_main lsr mem contract n m) record code /\
    (record, code) ∈ [(KERNEL_READY, Success); (ABI_VERSION_REJECTED, ContractRejected);
                      (CONTRACT_LENGTH_REJECTED, ContractRejected);
                      (CONTRACT_INVALID, ContractRejected); (KERNEL_PANIC, KernelPanic)].
Proof.
  intros Hb. eexists _, _. split; [by apply kernel_main_verdict|].
  rewrite <- surjective_pairing. unfold kernel_verdict.
  repeat case_match; rewrite !elem_of_cons; tauto.
Qed.

Lemma kernel_reports_exactly_once_witness :
  exists record code,
    reports power_on (polytope_kernel_main (fun _ => 0) (fun _ => 0) 4096 4096 power_on) record code /\
    (record, code) ∈ [(KERNEL_READY, Success); (ABI_VERSION_REJECTED, ContractRejected);
                      (CONTRACT_LENGTH_REJECTED, ContractRejected);
                      (CONTRACT_INVALID, ContractRejected); (KERNEL_PANIC, KernelPanic)].
Proof.
  apply (kernel_reports_exactly_once (fun _ => 0) (fun _ => 0) 4096 4096 power_on).
  split; [by_decide|]. rewrite length_slice_at. reflexivity.
Defined.

(** ** Length errors *)

(** The parser's result is not one of the two length errors. *)
Definition no_length_error {A} (m : exec ValidationError A) : Prop :=
  match m with Err (Truncated _ _) | Err (LengthMismatch _ _) => False | _ => True end.

Lemma no_length_bind {A B} (m : exec ValidationError A) (k : A -> exec ValidationError B) :
  no_length_error m -> (forall a, no_length_error (k a)) -> no_length_error (m ≫= k).
Proof. intros Hm Hk. destruct m as [a|e|]; [apply Hk|exact Hm|exact I]. Qed.
Lemma no_length_fail_if c e : no_length_error (A:=unit) (Err e) -> no_length_error (fail_if c e).
Proof. intros H. destruct c; [exact H|exact I]. Qed.
Lemma no_length_ok_or {A} (o : option A) e : no_length_error (A:=unit) (Err e) -> no_length_error (ok_or o e).
Proof. intros H. destruct o; [exact I|exact H]. Qed.
Lemma no_length_or_panic {A} (o : option A) : no_length_error (or_panic o).
Proof. destruct o; exact I. Qed.

Ltac no_length :=
  repeat first [ done | apply no_length_bind; [|intros ?] | by apply no_length_fail_if | by apply no_length_ok_or
               | apply no_length_or_panic
               | match goal with |- no_length_error (match ?x with _ => _ end) => destruct x end ].

Lemma validate_no_length_error i : no_length_error (BootInfo_validate i).
Proof.
  assert (forall regions index previous, no_length_error (check_active index regions previous)) as Ha.
  { induction regions as [|r regions IH]; intros index previous; [done|]. cbn [check_active].
    apply no_length_bind; [unfold check_region; no_length|intros p; apply IH]. }
  assert (forall regions count offset, no_length_error (check_unused count offset regions)) as Hu.
  { induction regions as [|r regions IH]; intros count offset; [done|]. cbn [check_unused].
    apply no_length_bind; [no_length|intros p; apply IH]. }
  unfold BootInfo_validate, validate_ref, validate_header, validate_platform, validate_scenario, validate_regions.
  cbv zeta. no_length; auto.
Qed.

(** A buffer of the contract's size is never called too short or too long. *)
Lemma parse_no_length_error bytes : slice_ok bytes -> len bytes = BOOT_INFO_SIZE -> no_length_error (parse bytes).
Proof.
  intros Hb Hl. unfold parse. apply no_length_bind.
  - destruct (read_header_total (E:=ValidationError) bytes Hb ltac:(by rewrite Hl)) as (h & Hh & _).
    unfold prevalidate. rewrite Hl. change (BOOT_INFO_SIZE <? BOOT_HEADER_SIZE) with false. cbn [fail_if].
    rewrite bind_value, Hh, bind_value. cbv beta iota.
    do 3 (apply no_length_bind; [no_length|intros []]).
    destruct (Z.eqb_spec (bh_total_size h) BOOT_INFO_SIZE_U32) as [E|E]; [|exact I].
    rewrite E. change (BOOT_INFO_SIZE <? BOOT_INFO_SIZE_U32) with false.
    change (BOOT_INFO_SIZE =? BOOT_INFO_SIZE_U32) with true. no_length.
  - intros p. destruct (read_info_total (E:=ValidationError) bytes Hb Hl) as (i & -> & _).
    apply validate_no_length_error.
Qed.

(** A contract with a wrong size field. *)
Definition wrong_size (i : BootInfo) : Prop :=
  bh_header_size (bi_header i) <> BOOT_HEADER_SIZE_U32 \/
  bh_total_size (bi_header i) <> BOOT_INFO_SIZE_U32 \/
  bh_memory_region_size (bi_header i) <> MEMORY_REGION_SIZE_U32.

Lemma wrong_size_Err i :
  wf_info i -> wrong_size i -> bh_magic (bi_header i) = BOOT_MAGIC -> bh_abi_major (bi_header i) = ABI_MAJOR ->
  bh_abi_minor (bi_header i) = ABI_MINOR ->
  exists e, parse (info_bytes i) = Err e /\
    match e with HeaderSize _ _ | TotalSize _ _ | MemoryRegionSize _ _ => True | _ => False end.
Proof.
  intros Hwf Hbad Hm Hj Hn.
  assert (exists e, validate_header (bi_header i) = Err e /\
    match e with HeaderSize _ _ | TotalSize _ _ | MemoryRegionSize _ _ => True | _ => False end) as (e & He & Hc).
  { unfold validate_header. rewrite Hm, Hj, Hn. unfold wrong_size in Hbad.
    destruct (Z.eqb_spec (bh_header_size (bi_header i)) BOOT_HEADER_SIZE_U32) as [E1|E1]; [|by eexists].
    destruct (Z.eqb_spec (bh_total_size (bi_header i)) BOOT_INFO_SIZE_U32) as [E2|E2]; [|by eexists].
    destruct (Z.eqb_spec (bh_memory_region_size (bi_header i)) MEMORY_REGION_SIZE_U32) as [E3|E3]; [|by eexists].
    tauto. }
  exists e. split; [by apply parse_header_Err|done].
Qed.

(** C40. The length record is about the supplied length, and nothing else.  For any
    memory, pointer, length and UART, the kernel writes CONTRACT_LENGTH exactly when
    the length it was given is not the contract's.  So a contract of the right
    length whose magic and version are right, but whose header-size, total-size or
    region-size field is wrong, gets CONTRACT_INVALID and the rejection status,
    where the table of docs/boot/DIAGNOSTICS.md has CONTRACT_LENGTH. *)
Theorem length_record_is_about_the_length (lsr : nat -> Z) (mem : memory) (contract n : Z) :
  slice_ok (slice_at mem contract (Z.to_nat n)) ->
  let m := polytope_kernel_main lsr mem contract n power_on in
  (debugcon m = CONTRACT_LENGTH_REJECTED ++ [LF] <-> n <> BOOT_INFO_SIZE) /\
  (forall i, n = BOOT_INFO_SIZE -> slice_at mem contract (Z.to_nat n) = info_bytes i -> wf_info i ->
     bh_magic (bi_header i) = BOOT_MAGIC -> bh_abi_major (bi_header i) = ABI_MAJOR ->
     bh_abi_minor (bi_header i) = ABI_MINOR -> wrong_size i ->
     debugcon m = CONTRACT_INVALID ++ [LF] /\ exits m = [QemuExitCode_value ContractRejected]).
Proof.
  intros Hb m. subst m. destruct (kernel_main_verdict lsr mem contract n power_on Hb) as [-> ->].
  change (debugcon power_on) with (@nil Z). change (exits power_on) with (@nil Z). rewrite !app_nil_l.
  unfold kernel_verdict. split.
  - destruct (Z.eqb_spec n BOOT_INFO_SIZE) as [->|Hn]; cbn [negb]; [|done].
    split; [|done]. intros E _. revert E. destruct ((contract =? 0) || _ || _); [done|].
    pose proof (parse_no_length_error _ Hb ltac:(rewrite length_slice_at; done)) as Hp.
    destruct (parse _) as [v|e|]; [|destruct e; done|done].
    destruct (_ =? ScenarioKind_NORMAL); [done|]. by destruct (_ =? ScenarioKind_DELIBERATE_PANIC).
  - intros i -> Hs Hwf Hm Hj Hk Hbad. rewrite Z.eqb_refl. cbn [negb].
    destruct ((contract =? 0) || _ || _); [done|]. rewrite Hs.
    destruct (wrong_size_Err i Hwf Hbad Hm Hj Hk) as (e & -> & He). by destruct e.
Qed.

(** The sample contract with a total size one byte short. *)
Definition short_total_info : BootInfo :=
  {| bi_header := mkBootHeader BOOT_MAGIC ABI_MAJOR ABI_MINOR 32 4175 32 2 0;
     bi_platform := bi_platform sample_info; bi_scenario := bi_scenario sample_info;
     bi_memory_regions := bi_memory_regions sample_info |}.

Lemma length_record_is_about_the_length_witness :
  exits (polytope_kernel_main (fun _ => 0) (memory_with short_total_info) 0x100000 BOOT_INFO_SIZE power_on) = [0x20].
Proof.
  assert (wf_info short_total_info) as Hwf by by_decide.
  destruct (length_record_is_about_the_length (fun _ => 0) (memory_with short_total_info) 0x100000 BOOT_INFO_SIZE)
    as [_ H].
  - rewrite memory_with_slice by exact Hwf. apply info_bytes_slice_ok, Hwf.
  - destruct (H short_total_info eq_refl (memory_with_slice _ Hwf) Hwf eq_refl eq_refl eq_refl) as [_ E]; [|exact E].
    right. left. discriminate.
Defined.
