(* ===== verification/Loader.v ===== *)
(** The UEFI loader: crates/uefi-loader/src/main.rs.

    The firmware (the [uefi] crate and the boot services behind it) and the
    global allocator are parameters: a record of operations on an abstract
    firmware state, each of which may fail.  The loader's own effects are
    written out: the records and exit writes on the console, the bytes it puts
    into physical memory, and [NEXT_PANIC_SEQUENCE]. *)

From S2P Require Import Prelude Bytes Console Memory Scenario Kernel.
From S2P Require BootElf.
From S2P Require Import BootContract ContractSpec ContractCodec ContractProps.

(** ** Constants *)
Definition PAGE_BYTES : Z := 4096.
Definition FILE_READ_CHUNK_BYTES : Z := 64 * 1024.
Definition KERNEL_MEMORY_TYPE : Z := 0x80000000.
Definition CONTRACT_MEMORY_TYPE : Z := 0x80000001.
Definition STACK_GUARD_MEMORY_TYPE : Z := 0x80000002.

Definition LOADER_START : list Z := ascii_bytes
  "POLYTOPE_BOOT schema=1 seq=0001 phase=loader level=info code=LOADER_START".
Definition ELF_VALID : list Z := ascii_bytes
  "POLYTOPE_BOOT schema=1 seq=0002 phase=loader level=info code=ELF_VALID".
Definition HANDOFF_READY : list Z := ascii_bytes
  "POLYTOPE_BOOT schema=1 seq=0003 phase=handoff level=info code=HANDOFF_READY".
Definition FILE_READ_FAILURE : list Z := ascii_bytes
  "POLYTOPE_BOOT schema=1 seq=0002 phase=loader level=error code=FILE_READ".
Definition CONFIG_INVALID_FAILURE : list Z := ascii_bytes
  "POLYTOPE_BOOT schema=1 seq=0002 phase=loader level=error code=CONFIG_INVALID".
Definition ELF_INVALID_FAILURE : list Z := ascii_bytes
  "POLYTOPE_BOOT schema=1 seq=0002 phase=loader level=error code=ELF_INVALID".
Definition ALLOCATION_FAILURE : list Z := ascii_bytes
  "POLYTOPE_BOOT schema=1 seq=0002 phase=loader level=error code=ALLOCATION".
Definition KERNEL_ADDRESS_FAILURE : list Z := ascii_bytes
  "POLYTOPE_BOOT schema=1 seq=0002 phase=loader level=error code=KERNEL_ADDRESS".
Definition CONTRACT_STORAGE_FAILURE : list Z := ascii_bytes
  "POLYTOPE_BOOT schema=1 seq=0002 phase=loader level=error code=CONTRACT_STORAGE".
Definition CONTRACT_FAILURE : list Z := ascii_bytes
  "POLYTOPE_BOOT schema=1 seq=0003 phase=handoff level=error code=CONTRACT_BUILD".
Definition LOADER_PANIC_SEQUENCE_2 : list Z := ascii_bytes
  "POLYTOPE_BOOT schema=1 seq=0002 phase=loader level=fatal code=LOADER_PANIC".
Definition LOADER_PANIC_SEQUENCE_3 : list Z := ascii_bytes
  "POLYTOPE_BOOT schema=1 seq=0003 phase=handoff level=fatal code=LOADER_PANIC".
Definition LOADER_PANIC_SEQUENCE_4 : list Z := ascii_bytes
  "POLYTOPE_BOOT schema=1 seq=0004 phase=handoff level=fatal code=LOADER_PANIC".

Inductive LoaderError :=
| FileRead | ConfigInvalid | ElfInvalid | Allocation | KernelAddress | ContractStorage_ | Contract.

Definition marker (e : LoaderError) : list Z :=
  match e with
  | FileRead => FILE_READ_FAILURE
  | ConfigInvalid => CONFIG_INVALID_FAILURE
  | ElfInvalid => ELF_INVALID_FAILURE
  | Allocation => ALLOCATION_FAILURE
  | KernelAddress => KERNEL_ADDRESS_FAILURE
  | ContractStorage_ => CONTRACT_STORAGE_FAILURE
  | Contract => CONTRACT_FAILURE
  end.

(** ** The firmware *)
Inductive AllocateType := Address (a : Z) | AnyPages.

Record MemoryDescriptor := mkMemoryDescriptor {
  md_ty : Z;
  md_phys_start : Z;
  md_page_count : Z;
  md_att : Z
}.

Inductive FilePath := KERNEL_ELF | BOOT_CFG.

(** The calls the loader makes.  [F] is the firmware's state, [H] its file
    handles; [None] and [false] are failure statuses. *)
Record Firmware (F H : Type) := mkFirmware {
  get_image_file_system : F -> bool * F;
  open_volume : F -> bool * F;
  open : FilePath -> F -> option H * F;
  into_regular_file : H -> F -> bool * F;
  (** the count and the new contents of the caller's buffer *)
  read : H -> list Z -> F -> option (Z * list Z) * F;
  try_reserve_exact : Z -> F -> bool * F;
  allocate_pages : AllocateType -> Z -> Z -> F -> option Z * F;
  (** exits boot services and returns the final memory map; [None] is the cold
      reset of a transition that failed for good, from which it does not return *)
  exit_boot_services : F -> option (list MemoryDescriptor);
  (** [MemoryMapMut::sort] *)
  sort : list MemoryDescriptor -> list MemoryDescriptor
}.
Arguments get_image_file_system {F H}.
Arguments open_volume {F H}.
Arguments open {F H}.
Arguments into_regular_file {F H}.
Arguments read {F H}.
Arguments try_reserve_exact {F H}.
Arguments allocate_pages {F H}.
Arguments exit_boot_services {F H}.
Arguments sort {F H}.

(** UEFI memory type values of the [uefi] crate. *)
Definition LOADER_CODE : Z := 1.
Definition LOADER_DATA : Z := 2.
Definition BOOT_SERVICES_CODE : Z := 3.
Definition BOOT_SERVICES_DATA : Z := 4.
Definition RUNTIME_SERVICES_CODE : Z := 5.
Definition RUNTIME_SERVICES_DATA : Z := 6.
Definition CONVENTIONAL : Z := 7.
Definition ACPI_RECLAIM : Z := 9.
Definition ACPI_NON_VOLATILE : Z := 10.
Definition MMIO : Z := 11.
Definition MMIO_PORT_SPACE : Z := 12.

Definition normalize_memory_kind (ty : Z) : Z :=
  if ty =? STACK_GUARD_MEMORY_TYPE then MemoryKind_RESERVED
  else if ty =? KERNEL_MEMORY_TYPE then MemoryKind_KERNEL_IMAGE
  else if ty =? CONTRACT_MEMORY_TYPE then MemoryKind_BOOT_CONTRACT
  else if ty =? CONVENTIONAL then MemoryKind_USABLE
  else if (ty =? LOADER_CODE) || (ty =? LOADER_DATA) || (ty =? BOOT_SERVICES_CODE)
          || (ty =? BOOT_SERVICES_DATA) then MemoryKind_RECLAIMABLE
  else if (ty =? RUNTIME_SERVICES_CODE) || (ty =? RUNTIME_SERVICES_DATA)
       then MemoryKind_FIRMWARE_RUNTIME
  else if ty =? ACPI_RECLAIM then MemoryKind_ACPI_RECLAIMABLE
  else if ty =? ACPI_NON_VOLATILE then MemoryKind_ACPI_NVS
  else if (ty =? MMIO) || (ty =? MMIO_PORT_SPACE) then MemoryKind_MMIO
  else MemoryKind_RESERVED.

Record ContractStorage := mkContractStorage { cs_base : Z; cs_byte_length : Z }.

Section Loader.
Context {F H : Type} (fw : Firmware F H) (lsr : nat -> Z).

(** What the loader changes before the handoff: firmware state and memory. *)
Record World := mkWorld { w_fw : F; w_mem : memory }.

(** ** Firmware calls as loader operations *)
Definition with_fw {A E} (call : F -> A * F) : st World E A :=
  fun w => let '(a, f) := call (w_fw w) in Ok (a, mkWorld f (w_mem w)).
Definition lift {S E A} (m : exec E A) : st S E A := fun s => a ← m; Ok (a, s).
(** [status.map_err(|_| e)?] *)
Definition require {S E} (b : bool) (e : E) : st S E unit := lift (fail_if (negb b) e).
Definition require_some {S E A} (o : option A) (e : E) : st S E A := lift (ok_or o e).

(** ** Files *)

(** One iteration of the read loop: the bytes so far, the chunk buffer and the
    firmware. *)
Definition read_step (h : H) (maximum : Z) (limit_error : LoaderError)
    (s : list Z * list Z * F) : flow (list Z * list Z * F) (exec LoaderError (list Z * F)) :=
  let '(bytes, chunk, f) := s in
  let '(result, f) := read fw h chunk f in
  match result with
  | None => Break (Err FileRead)
  | Some (count, chunk) =>
      if count =? 0 then Break (Ok (bytes, f)) else
      match checked_add 64 (len bytes) count with
      | None => Break (Err limit_error)
      | Some new_length =>
          if maximum <? new_length then Break (Err limit_error) else
          let '(reserved, f) := try_reserve_exact fw count f in
          if negb reserved then Break (Err Allocation) else
          match index_range (E:=LoaderError) chunk 0 count with
          | Ok piece => Continue (bytes ++ piece, chunk, f)
          | _ => Break Panic
          end
      end
  end.

(** Enough iterations for [MAX_ELF_FILE_SIZE] one-byte reads. *)
Definition READ_FUEL : nat := 25.

Definition read_loop (handle : H) (maximum : Z) (limit_error : LoaderError) (chunk_length : Z)
    : st World LoaderError (list Z) := fun w =>
  match loop_pow2 READ_FUEL (read_step handle maximum limit_error)
          ([], replicate (Z.to_nat chunk_length) 0, w_fw w) with
  | Break (Ok (bytes, f)) => Ok (bytes, mkWorld f (w_mem w))
  | Break (Err e) => Err e
  | Break Panic | Continue _ => Panic
  end.

Definition read_bounded_file (path : FilePath) (maximum : Z) (limit_error : LoaderError)
    : st World LoaderError (list Z) :=
  handle ← with_fw (open fw path);
  handle ← require_some handle FileRead;
  regular ← with_fw (into_regular_file fw handle);
  require regular FileRead ;;
  let chunk_length := Z.max 1 (Z.min FILE_READ_CHUNK_BYTES maximum) in
  reserved ← with_fw (try_reserve_exact fw chunk_length);
  require reserved Allocation ;;
  read_loop handle maximum limit_error chunk_length.

(** ** Kernel image *)
Definition reserve_stack_guard : st World LoaderError unit :=
  allocation ← with_fw (allocate_pages fw (Address BootElf.STACK_GUARD_ADDRESS)
                          STACK_GUARD_MEMORY_TYPE 1);
  allocation ← require_some allocation KernelAddress;
  require (allocation =? BootElf.STACK_GUARD_ADDRESS) KernelAddress.

(** The [unsafe] block of [load_segment]: zero the pages, copy the file data. *)
Definition store_segment (allocation allocation_bytes : Z) (file_data : list Z)
    : st World LoaderError unit := fun w =>
  let mem := write_bytes_at allocation 0 allocation_bytes (w_mem w) in
  let mem := copy_at allocation file_data mem in
  Ok (tt, mkWorld (w_fw w) mem).

Definition load_segment (segment : BootElf.LoadSegment) : st World LoaderError unit :=
  destination ← require_some (try_uint 64 (BootElf.ls_physical_address segment)) KernelAddress;
  memory_size ← require_some (try_uint 64 (BootElf.ls_memory_size segment)) Allocation;
  let pages := div_ceil memory_size PAGE_BYTES in
  allocation ← with_fw (allocate_pages fw (Address (BootElf.ls_physical_address segment))
                          KERNEL_MEMORY_TYPE pages);
  allocation ← require_some allocation KernelAddress;
  require (allocation =? destination) KernelAddress ;;
  allocation_bytes ← require_some (checked_mul 64 pages PAGE_BYTES) Allocation;
  store_segment allocation allocation_bytes (BootElf.ls_file_data segment).

(** [for segment in elf.segments() { load_segment(segment)?; }], with fuel for
    one call of [next] per program header and the last one. *)
Fixpoint load_loop (fuel : nat) (it : BootElf.LoadSegments) : st World LoaderError unit :=
  match fuel with
  | O => fun _ => Panic
  | S fuel => fun w =>
      match BootElf.next it with
      | Ok (None, _) => Ok (tt, w)
      | Ok (Some segment, it) => (load_segment segment ;; load_loop fuel it) w
      | _ => Panic
      end
  end.

Definition load_segments (elf : BootElf.ValidatedElf) : st World LoaderError unit :=
  load_loop (S (Z.to_nat (BootElf.ve_program_header_count elf))) (BootElf.segments elf).

(** ** Contract storage *)
Definition ContractStorage_allocate : st World LoaderError ContractStorage :=
  let pages := div_ceil BOOT_INFO_SIZE PAGE_BYTES in
  byte_length ← require_some (checked_mul 64 pages PAGE_BYTES) ContractStorage_;
  base ← with_fw (allocate_pages fw AnyPages CONTRACT_MEMORY_TYPE pages);
  base ← require_some base ContractStorage_;
  mret {| cs_base := base; cs_byte_length := byte_length |}.

Definition prepare_kernel : st World LoaderError (Z * ContractStorage * BootScenario) :=
  protocol ← with_fw (get_image_file_system fw);
  require protocol FileRead ;;
  root ← with_fw (open_volume fw);
  require root FileRead ;;
  kernel ← read_bounded_file KERNEL_ELF BootElf.MAX_ELF_FILE_SIZE ElfInvalid;
  scenario_bytes ← read_bounded_file BOOT_CFG MAX_SCENARIO_BYTES ConfigInvalid;
  scenario ← lift (map_err (fun _ => ConfigInvalid) (Scenario.parse scenario_bytes));
  elf ← lift (map_err (fun _ => ElfInvalid) (BootElf.parse kernel));
  load_segments elf ;;
  reserve_stack_guard ;;
  let entry_point := BootElf.ve_entry_point elf in
  contract_storage ← ContractStorage_allocate;
  mret (entry_point, contract_storage, scenario).

(** ** The contract *)
Definition scenario_info (scenario : BootScenario) : ScenarioInfo :=
  match scenario with
  | Normal => ScenarioInfo_normal
  | IncompatibleVersion => ScenarioInfo_test ScenarioKind_INCOMPATIBLE_VERSION 0
  | TruncatedContract => ScenarioInfo_test ScenarioKind_MALFORMED_METADATA 0
  | DeliberatePanic => ScenarioInfo_test ScenarioKind_DELIBERATE_PANIC 0
  end.

(** [for descriptor in memory_map.entries()] *)
Fixpoint add_descriptors (l : list MemoryDescriptor) (region_index : Z) (info : BootInfo)
    : exec LoaderError BootInfo :=
  match l with
  | [] => Ok info
  | d :: rest =>
      if md_page_count d =? 0 then add_descriptors rest region_index info else
      length ← ok_or (checked_mul 64 (md_page_count d) PAGE_SIZE) Contract;
      let region := MemoryRegion_new (md_phys_start d) length (normalize_memory_kind (md_ty d))
                      (md_ty d) (md_att d) in
      info ← map_err (fun _ => Contract) (set_memory_region info region_index region);
      region_index ← ok_or (checked_add 64 region_index 1) Contract;
      add_descriptors rest region_index info
  end.

(** [output[s..s + src.len()].copy_from_slice(src)] *)
Definition splice (output : list Z) (s : Z) (src : list Z) : exec LoaderError (list Z) :=
  index_range output s (s + len src) ;;
  Ok (take (Z.to_nat s) output ++ src ++ drop (Z.to_nat (s + len src)) output).

(** [encode_contract]: the length to hand over and the storage's new contents. *)
Definition encode_contract (memory_map : list MemoryDescriptor) (storage : ContractStorage)
    (scenario : BootScenario) : exec LoaderError (Z * list Z) :=
  let info := BootInfo_new (PlatformInfo_x86_64_uefi 0) (scenario_info scenario) in
  info ← add_descriptors memory_map 0 info;
  let output := replicate (Z.to_nat (cs_byte_length storage)) 0 in
  '(encoded, output) ← map_err (fun _ => Contract) (encode info output);
  output ← (if bool_decide (scenario = IncompatibleVersion)
            then splice output ABI_MAJOR_OFFSET (to_le_bytes 2 (ABI_MAJOR + 1))
            else Ok output);
  if bool_decide (scenario = TruncatedContract)
  then n ← ok_or (checked_sub encoded 1) Contract; Ok (n, output)
  else Ok (encoded, output).

(** ** [main] *)

(** How the loader ends: in [qemu_exit], in the cold reset of a failed
    [exit_boot_services], or in the jump to the kernel with the contract's address
    and length. *)
Inductive loader_end :=
| LoaderExit (m : Machine)
| ColdReset (m : Machine)
| Transfer (entry contract length : Z) (mem : memory) (m : Machine).

Definition fail (console : EarlyConsole) (error : LoaderError) (m : Machine) : loader_end :=
  LoaderExit (report lsr console (marker error) LoaderFailure m).

(** [#[panic_handler]], with the value of [NEXT_PANIC_SEQUENCE]. *)
Definition loader_panic (next_panic_sequence : Z) (m : Machine) : loader_end :=
  let '(console, m) := EarlyConsole_new m in
  let record := if next_panic_sequence =? 2 then LOADER_PANIC_SEQUENCE_2
                else if next_panic_sequence =? 3 then LOADER_PANIC_SEQUENCE_3
                else LOADER_PANIC_SEQUENCE_4 in
  LoaderExit (report lsr console record LoaderFailure m).

Definition transfer_to_kernel (entry_point contract length : Z) (mem : memory) (m : Machine)
    : loader_end :=
  match try_uint 64 entry_point with
  | None => let '(console, m) := EarlyConsole_new m in fail console ElfInvalid m
  | Some address => Transfer address contract length mem m
  end.

Definition main (w : World) (m : Machine) : loader_end :=
  let '(console, m) := EarlyConsole_new m in
  let '(console, m) := write_record lsr console LOADER_START m in
  match prepare_kernel w with
  | Panic => loader_panic 2 m
  | Err error => fail console error m
  | Ok ((entry_point, contract_storage, scenario), w) =>
      let '(console, m) := write_record lsr console ELF_VALID m in
      match exit_boot_services fw (w_fw w) with
      | None => ColdReset m
      | Some memory_map =>
          let memory_map := sort fw memory_map in
          match encode_contract memory_map contract_storage scenario with
          | Panic => loader_panic 3 m
          | Err error => fail console error m
          | Ok (contract_length, output) =>
              let mem := copy_at (cs_base contract_storage) output (w_mem w) in
              let '(console, m) := write_record lsr console HANDOFF_READY m in
              transfer_to_kernel entry_point (cs_base contract_storage) contract_length mem m
          end
      end
  end.
End Loader.
