(* ===== verification/LoaderContract.v ===== *)
(** The contract the loader builds: which memory maps it accepts, what it
    encodes for each scenario, and what the kernel answers to it. *)

From S2P Require Import Prelude Bytes ByteCodec Console Memory Scenario Kernel Loader.
From S2P Require Import BootContract ContractSpec ContractCodec ContractProps.

(** ** From descriptors to regions *)

(** Field widths of a UEFI memory descriptor. *)
Definition wf_descriptor (d : MemoryDescriptor) : Prop :=
  uint 32 (md_ty d) /\ uint 64 (md_phys_start d) /\ uint 64 (md_page_count d) /\ uint 64 (md_att d).

Definition region_of (d : MemoryDescriptor) : MemoryRegion :=
  MemoryRegion_new (md_phys_start d) (md_page_count d * PAGE_SIZE) (normalize_memory_kind (md_ty d))
    (md_ty d) (md_att d).

(** The regions of a map: its nonempty descriptors, in order. *)
Definition regions_of (l : list MemoryDescriptor) : list MemoryRegion :=
  region_of <$> filter (fun d => md_page_count d <> 0) l.

Definition fits (d : MemoryDescriptor) : bool := md_page_count d * PAGE_SIZE <? 2 ^ 64.

Lemma normalize_known ty : 1 <= normalize_memory_kind ty <= 9.
Proof. unfold normalize_memory_kind. repeat case_match; done. Qed.

Lemma region_of_wf d : wf_descriptor d -> fits d = true -> wf_region (region_of d).
Proof.
  intros (Ht & Hs & Hp & Ha) Hf. apply Z.ltb_lt in Hf. pose proof (normalize_known (md_ty d)).
  unfold wf_region, region_of, MemoryRegion_new, uint, PAGE_SIZE in *. simpl. split_and!; lia.
Qed.

Lemma regions_of_wf l : Forall wf_descriptor l -> forallb fits l = true -> Forall wf_region (regions_of l).
Proof.
  intros Hw Hf. apply Forall_fmap, Forall_forall. intros d [_ Hd]%list_elem_of_filter.
  rewrite Forall_forall in Hw. apply region_of_wf; [by apply Hw|].
  rewrite forallb_forall in Hf. by apply Hf, list_elem_of_In.
Qed.

(** Every failure of the loop is the same error, so the loop is [fill_regions]
    on the nonempty descriptors once all lengths fit. *)
Lemma add_descriptors_fill l : forall index info,
  Forall wf_descriptor l -> 0 <= index <= MAX_MEMORY_REGIONS ->
  length (bi_memory_regions info) = Z.to_nat MAX_MEMORY_REGIONS ->
  add_descriptors l index info =
  if forallb fits l then map_err (fun _ => Contract) (fill_regions info index (regions_of l))
  else Err Contract.
Proof.
  induction l as [|d l IH]; intros index info Hw Hi Hlen; [done|].
  inversion Hw as [|? ? Hd Hl]; subst. cbn [add_descriptors forallb]. unfold regions_of in *.
  destruct (Z.eqb_spec (md_page_count d) 0) as [H0|H0].
  { rewrite filter_cons_False by (intros Hn; by apply Hn). rewrite IH by done. unfold fits at 2.
    rewrite H0. done. }
  rewrite filter_cons_True by done. cbn [fmap list_fmap fill_regions]. unfold checked_mul.
  unfold fits at 1. fold (region_of d).
  destruct (Z.ltb_spec (md_page_count d * PAGE_SIZE) (2 ^ 64)); [|done].
  cbn [ok_or mbind exec_bind andb]. change (MemoryRegion_new _ _ _ _ _) with (region_of d).
  rewrite set_memory_region_exact by (done || lia).
  destruct (Z.ltb_spec index MAX_MEMORY_REGIONS).
  - cbn [map_err mbind exec_bind]. unfold checked_add, MAX_MEMORY_REGIONS in *.
    rewrite (proj2 (Z.ltb_lt (index + 1) (2 ^ 64))) by lia. cbn [ok_or mbind exec_bind].
    apply IH; [done|lia|]. cbn [bi_memory_regions]. by rewrite length_insert.
  - cbn [map_err mbind exec_bind]. by destruct (forallb fits l).
Qed.

(** A memory map the contract can carry. *)
Definition map_ok (l : list MemoryDescriptor) : Prop :=
  forallb fits l = true /\ len (regions_of l) <= MAX_MEMORY_REGIONS /\ regions_ok (regions_of l).

(** The contract built for a scenario. *)
Definition loader_info (s : BootScenario) (l : list MemoryDescriptor) : BootInfo :=
  built_info (PlatformInfo_x86_64_uefi 0) (scenario_info s) (regions_of l).

Lemma add_descriptors_new s l :
  Forall wf_descriptor l ->
  add_descriptors l 0 (BootInfo_new (PlatformInfo_x86_64_uefi 0) (scenario_info s)) =
  if forallb fits l && (len (regions_of l) <=? MAX_MEMORY_REGIONS)
  then Ok (loader_info s l) else Err Contract.
Proof.
  intros Hw. rewrite add_descriptors_fill by (done || unfold MAX_MEMORY_REGIONS; lia).
  destruct (forallb fits l); [|done]. rewrite fill_regions_new. cbn [andb].
  by destruct (len (regions_of l) <=? MAX_MEMORY_REGIONS).
Qed.

Lemma scenario_info_wf s : wf_scenario (scenario_info s).
Proof. destruct s; unfold wf_scenario; by_decide. Qed.

Lemma scenario_info_valid s : valid_scenario (scenario_info s).
Proof. destruct s; [by left|right; simpl; split; [vm_compute; split; discriminate|done]..]. Qed.

Lemma loader_platform_ok :
  wf_platform (PlatformInfo_x86_64_uefi 0) /\ valid_platform (PlatformInfo_x86_64_uefi 0).
Proof. split; [unfold wf_platform; by_decide|]. split; [done|]. split; [done|]. by left. Qed.

Lemma loader_info_wf s l :
  Forall wf_descriptor l -> forallb fits l = true -> len (regions_of l) <= MAX_MEMORY_REGIONS ->
  wf_info (loader_info s l).
Proof.
  intros. apply built_info_wf; [apply loader_platform_ok|apply scenario_info_wf| |done].
  by apply regions_of_wf.
Qed.

Lemma loader_info_valid s l :
  Forall wf_descriptor l -> forallb fits l = true -> len (regions_of l) <= MAX_MEMORY_REGIONS ->
  valid_info (loader_info s l) <-> regions_ok (regions_of l).
Proof.
  intros. apply built_info_valid; [apply loader_platform_ok|apply scenario_info_wf| |done|
    apply loader_platform_ok|apply scenario_info_valid]. by apply regions_of_wf.
Qed.

(** The validator decides whether a map is acceptable. *)
Lemma map_ok_dec l : Forall wf_descriptor l -> map_ok l \/ ~ map_ok l.
Proof.
  intros Hl. unfold map_ok. destruct (forallb fits l) eqn:Hf; [|right; naive_solver].
  destruct (decide (len (regions_of l) <= MAX_MEMORY_REGIONS)) as [Hn|Hn]; [|right; naive_solver].
  rewrite <- (loader_info_valid Normal) by done.
  rewrite <- validate_ref_valid by (by apply loader_info_wf).
  destruct (validate_ref (loader_info Normal l)) as [[]|e|]; [by left|right; naive_solver..].
Qed.

(** ** The encoded storage *)

(** A contract with its major version overwritten. *)
Definition with_major (i : BootInfo) (major : Z) : BootInfo :=
  let h := bi_header i in
  mkBootInfo (mkBootHeader (bh_magic h) major (bh_abi_minor h) (bh_header_size h)
                (bh_total_size h) (bh_memory_region_size h) (bh_memory_region_count h) (bh_flags h))
    (bi_platform i) (bi_scenario i) (bi_memory_regions i).

(** The contract as the kernel finds it, and the length it is told. *)
Definition handed_info (s : BootScenario) (l : list MemoryDescriptor) : BootInfo :=
  match s with
  | IncompatibleVersion => with_major (loader_info s l) 2
  | _ => loader_info s l
  end.

Definition handed_length (s : BootScenario) : Z :=
  match s with TruncatedContract => 4175 | _ => 4176 end.

Lemma with_major_wf i : wf_info i -> wf_info (with_major i 2).
Proof.
  intros ((? & _ & ?) & ? & ? & ?). split; [|done]. split; [done|]. split; [by_decide|done].
Qed.

Lemma splice_major i rest :
  wf_info i ->
  splice (info_bytes i ++ rest) ABI_MAJOR_OFFSET (to_le_bytes 2 (ABI_MAJOR + 1)) =
  Ok (info_bytes (with_major i 2) ++ rest).
Proof.
  intros Hw. pose proof (info_bytes_len i Hw) as Hl. unfold splice.
  change (len (to_le_bytes 2 (ABI_MAJOR + 1))) with 2.
  rewrite index_range_exact by (unfold ABI_MAJOR_OFFSET; rewrite ?length_app; lia || (rewrite Nat2Z.inj_add, Hl; unfold BOOT_INFO_SIZE; lia)).
  cbn [mbind exec_bind]. f_equal. destruct Hw as (([_ Hm] & _) & _).
  unfold info_bytes, header_bytes.
  cbn [with_major bi_header bh_magic bh_abi_major bh_abi_minor bh_header_size bh_total_size
       bh_memory_region_size bh_memory_region_count bh_flags bi_platform bi_scenario bi_memory_regions].
  rewrite <- !app_assoc. unfold ABI_MAJOR_OFFSET.
  assert (length (bh_magic (bi_header i)) = 8%nat) as Hm8 by lia.
  rewrite take_app_length' by (rewrite Hm8; done). f_equal. f_equal.
  rewrite app_assoc, drop_app_length'; [done|].
  rewrite length_app, length_to_le_bytes, Hm8. done.
Qed.

Section Encode.
Variables (l : list MemoryDescriptor) (storage : ContractStorage) (s : BootScenario).
Hypothesis Hl : Forall wf_descriptor l.
Hypothesis Hst : cs_byte_length storage = 8192.

(** The storage after encoding: the contract, then zeros to the end of its
    second page. *)
Definition handed_bytes : list Z := info_bytes (handed_info s l) ++ replicate 4016 0.

Lemma encode_contract_exact :
  map_ok l -> encode_contract l storage s = Ok (handed_length s, handed_bytes).
Proof.
  intros (Hf & Hn & Hr). unfold encode_contract. rewrite add_descriptors_new by done.
  rewrite Hf, (proj2 (Z.leb_le _ _) Hn). cbn [andb mbind exec_bind]. rewrite Hst.
  pose proof (loader_info_wf s l Hl Hf Hn) as Hw.
  rewrite encode_exact; [|done|by apply loader_info_valid|].
  2: { rewrite length_replicate. unfold BOOT_INFO_SIZE. lia. }
  cbn [map_err mbind exec_bind]. rewrite drop_replicate.
  replace (Z.to_nat 8192 - Z.to_nat BOOT_INFO_SIZE)%nat with 4016%nat by (unfold BOOT_INFO_SIZE; lia).
  unfold handed_bytes. destruct s; [done| |done|done].
  change (bool_decide (IncompatibleVersion = IncompatibleVersion)) with true. cbv iota.
  by rewrite splice_major by done.
Qed.

Lemma encode_contract_rejects :
  ~ map_ok l -> encode_contract l storage s = Err Contract.
Proof.
  intros Hno. unfold encode_contract. rewrite add_descriptors_new by done.
  destruct (forallb fits l) eqn:Hf; [|done].
  destruct (Z.leb_spec (len (regions_of l)) MAX_MEMORY_REGIONS) as [Hn|Hn]; [|done].
  cbn [andb mbind exec_bind]. pose proof (loader_info_wf s l Hl Hf Hn) as Hw. unfold encode.
  destruct (validate_ref (loader_info s l)) as [[]|e|] eqn:Hv; [|done|].
  - apply validate_ref_valid in Hv; [|done]. apply loader_info_valid in Hv; [|done..].
    by destruct Hno.
  - by destruct (validate_ref_no_panic _ Hw).
Qed.
End Encode.

(** ** What the kernel answers *)
Definition scenario_verdict (s : BootScenario) : list Z * QemuExitCode :=
  match s with
  | Normal => (KERNEL_READY, Success)
  | IncompatibleVersion => (ABI_VERSION_REJECTED, ContractRejected)
  | TruncatedContract => (CONTRACT_LENGTH_REJECTED, ContractRejected)
  | DeliberatePanic => (KERNEL_PANIC, KernelPanic)
  end.

Lemma handed_info_wf s l : Forall wf_descriptor l -> map_ok l -> wf_info (handed_info s l).
Proof.
  intros Hl (Hf & Hn & _). pose proof (loader_info_wf s l Hl Hf Hn).
  destruct s; first [by apply with_major_wf|done].
Qed.

Lemma loader_info_parses s l :
  Forall wf_descriptor l -> map_ok l ->
  parse (info_bytes (loader_info s l)) = Ok (mkValidatedBootInfo (loader_info s l)).
Proof.
  intros Hl (Hf & Hn & Hr). pose proof (loader_info_wf s l Hl Hf Hn) as Hw.
  apply parse_Ok_iff; [by apply info_bytes_slice_ok|]. cbn [vb_info].
  split_and!; [done|by apply loader_info_valid|done].
Qed.

Lemma handed_bytes_len l s :
  Forall wf_descriptor l -> map_ok l -> len (handed_bytes l s) = 8192.
Proof.
  intros Hl Hm. pose proof (info_bytes_len _ (handed_info_wf s l Hl Hm)) as H.
  unfold handed_bytes, BOOT_INFO_SIZE in *. rewrite length_app, length_replicate, Nat2Z.inj_add. lia.
Qed.

Lemma handed_slice l s base mem n :
  Forall wf_descriptor l -> map_ok l -> (n <= 4176)%nat ->
  slice_at (copy_at base (handed_bytes l s) mem) base n = take n (info_bytes (handed_info s l)).
Proof.
  intros Hl Hm Hn. pose proof (info_bytes_len _ (handed_info_wf s l Hl Hm)) as H.
  rewrite slice_at_copy by (pose proof (handed_bytes_len l s Hl Hm); lia).
  unfold handed_bytes, BOOT_INFO_SIZE in *. rewrite take_app_le by lia. done.
Qed.

Lemma handed_length_nat s : (Z.to_nat (handed_length s) <= 4176)%nat.
Proof. destruct s; cbn [handed_length]; lia. Qed.

Lemma handed_slice_ok l s base mem :
  Forall wf_descriptor l -> map_ok l ->
  slice_ok (slice_at (copy_at base (handed_bytes l s) mem) base (Z.to_nat (handed_length s))).
Proof.
  intros Hl Hm. rewrite handed_slice by (done || apply handed_length_nat).
  destruct (info_bytes_slice_ok _ (handed_info_wf s l Hl Hm)) as [H1 H2].
  split; [by apply Forall_take|]. rewrite length_take. lia.
Qed.

Lemma version_rejected i :
  wf_info i -> bh_magic (bi_header i) = BOOT_MAGIC -> bh_abi_major (bi_header i) = 2 ->
  exists minor, parse (info_bytes i) = Err (UnsupportedVersion 2 minor).
Proof.
  intros Hw Hm Hj. eexists. apply parse_header_Err; [done|]. unfold validate_header.
  by rewrite Hm, Hj.
Qed.

Lemma handed_verdict l s base mem :
  Forall wf_descriptor l -> map_ok l ->
  0 < base -> base mod 4096 = 0 -> base + 8192 <= 2 ^ 64 ->
  kernel_verdict (copy_at base (handed_bytes l s) mem) base (handed_length s) = scenario_verdict s.
Proof.
  intros Hl Hm H0 Hp Ho. unfold kernel_verdict.
  destruct (decide (s = TruncatedContract)) as [->|Hs]; [done|].
  assert (handed_length s = BOOT_INFO_SIZE) as -> by (by destruct s).
  pose proof (info_bytes_len _ (handed_info_wf s l Hl Hm)) as Hlen.
  rewrite handed_slice by (done || unfold BOOT_INFO_SIZE; lia).
  rewrite take_ge by (unfold BOOT_INFO_SIZE in *; lia).
  rewrite Z.eqb_refl. unfold PAGE_SIZE_BYTES. rewrite Hp, (proj2 (Z.eqb_neq base 0)) by lia.
  rewrite (proj2 (Z.leb_gt _ _)) by (unfold BOOT_INFO_SIZE; lia). cbn [negb orb].
  change (0 =? 0) with true. cbn [negb].
  destruct s; cbn [handed_info]; [by rewrite loader_info_parses| |done|by rewrite loader_info_parses].
  destruct (version_rejected (with_major (loader_info IncompatibleVersion l) 2)) as [minor ->];
    [by apply (handed_info_wf IncompatibleVersion)|done..].
Qed.

(** ** Properties *)

(** C33. The loader hands over the firmware's memory map: for every well-typed
    map it builds a contract exactly when the nonempty descriptors fit the 128
    slots, are page aligned, sorted, disjoint and do not wrap; the kernel
    parses the normal contract it hands over and finds exactly those
    descriptors, in order, each with its normalised kind; any other map is
    rejected as CONTRACT_BUILD, and nothing panics. *)
Theorem loader_hands_over_memory_map (l : list MemoryDescriptor) (storage : ContractStorage) :
  Forall wf_descriptor l -> cs_byte_length storage = 8192 ->
  (map_ok l -> exists n out v,
     encode_contract l storage Normal = Ok (n, out) /\
     parse (take (Z.to_nat n) out) = Ok v /\
     active_regions (vb_info v) = regions_of l /\
     bi_scenario (vb_info v) = ScenarioInfo_normal) /\
  (~ map_ok l -> forall s, encode_contract l storage s = Err Contract).
Proof.
  intros Hl Hst. split; [|intros Hno s; by apply encode_contract_rejects].
  intros Hm. eexists _, _, _. split; [by apply encode_contract_exact|]. split; [|split].
  - unfold handed_bytes. cbn [handed_info handed_length].
    rewrite take_app_le by (pose proof (info_bytes_len _ (handed_info_wf Normal l Hl Hm)) as H;
      cbn [handed_info] in H; unfold BOOT_INFO_SIZE in H; lia).
    rewrite take_ge by (pose proof (info_bytes_len _ (handed_info_wf Normal l Hl Hm)) as H;
      cbn [handed_info] in H; unfold BOOT_INFO_SIZE in H; lia).
    by apply loader_info_parses.
  - cbn [vb_info]. unfold active_regions, loader_info, built_info. simpl.
    by rewrite Nat2Z.id, take_app_length.
  - done.
Qed.

(** A two-entry map: conventional memory below an MMIO page, with an empty
    descriptor between them. *)
Definition sample_map : list MemoryDescriptor :=
  [mkMemoryDescriptor CONVENTIONAL 0x100000 512 15; mkMemoryDescriptor LOADER_DATA 0x300000 0 15;
   mkMemoryDescriptor MMIO 0xfec00000 1 1].

#[global] Instance wf_descriptor_dec d : Decision (wf_descriptor d).
Proof. unfold wf_descriptor. apply _. Defined.

Lemma sample_map_wf : Forall wf_descriptor sample_map.
Proof. by_decide. Qed.

Lemma sample_map_ok : map_ok sample_map.
Proof.
  split; [done|]. split; [vm_compute; discriminate|]. split.
  - repeat constructor; vm_compute; try discriminate; auto.
  - repeat constructor. vm_compute. discriminate.
Qed.

Lemma loader_hands_over_memory_map_witness :
  exists n out v,
    encode_contract sample_map (mkContractStorage 0x200000 8192) Normal = Ok (n, out) /\
    parse (take (Z.to_nat n) out) = Ok v /\
    active_regions (vb_info v) = regions_of sample_map /\
    bi_scenario (vb_info v) = ScenarioInfo_normal.
Proof.
  apply (loader_hands_over_memory_map sample_map (mkContractStorage 0x200000 8192)).
  - exact sample_map_wf.
  - reflexivity.
  - exact sample_map_ok.
Defined.
