(* ===== verification/LoaderProps.v ===== *)
(** Theorems about the UEFI loader: bounded file reading, the memory image of
    the kernel, and every way [main] can end. *)

From S2P Require Import Prelude Bytes Console Memory Scenario Kernel.
From S2P Require BootElf ElfSpec ElfProps.
From S2P Require Import BootContract ContractSpec ContractCodec ContractProps.
From S2P Require Import Loader LoaderContract.

(** ** What the loader relies on

    Documented behaviour of the firmware interface: a read stores at most a
    buffer of bytes and keeps the buffer's length; pages come back aligned,
    non-null and below the end of the address space; descriptors have the
    field widths of the specification. *)
Class FirmwareLaws {F H : Type} (fw : Firmware F H) : Prop := {
  read_bounded : forall h chunk f count chunk' f',
    is_bytes chunk -> read fw h chunk f = (Some (count, chunk'), f') ->
    0 <= count <= len chunk /\ length chunk' = length chunk /\ is_bytes chunk';
  any_pages_aligned : forall ty n f p f',
    allocate_pages fw AnyPages ty n f = (Some p, f') ->
    0 < p /\ p mod 4096 = 0 /\ p + n * 4096 <= 2 ^ 64;
  map_typed : forall f l, exit_boot_services fw f = Some l -> Forall wf_descriptor (sort fw l)
}.

(** ** Safety of a loader operation

    [safe m P Q]: [m] never panics, its results satisfy [P] and its errors
    [Q]. *)
Definition safe {S E A} (m : st S E A) (P : A -> Prop) (Q : E -> Prop) : Prop :=
  forall s, match m s with Ok (a, _) => P a | Err e => Q e | Panic => False end.

Section Safe.
Context {S E : Type}.

Lemma safe_bind {A B} (m : st S E A) (f : A -> st S E B) P P' Q :
  safe m P' Q -> (forall a, P' a -> safe (f a) P Q) -> safe (m ≫= f) P Q.
Proof.
  intros Hm Hf s. unfold mbind, st_bind. specialize (Hm s).
  destruct (m s) as [[a s']|e|]; [by apply Hf|done|done].
Qed.

Lemma safe_ret {A} (a : A) (P : A -> Prop) (Q : E -> Prop) : P a -> safe (S:=S) (mret a) P Q.
Proof. intros H s. done. Qed.

Lemma safe_require b (e : E) (Q : E -> Prop) :
  Q e -> safe (S:=S) (require b e) (fun _ => b = true) Q.
Proof. intros H s. unfold require, lift. by destruct b. Qed.

Lemma safe_require_some {A} (o : option A) (e : E) (Q : E -> Prop) :
  Q e -> safe (S:=S) (require_some o e) (fun a => o = Some a) Q.
Proof. intros H s. unfold require_some, lift. by destruct o. Qed.

Lemma safe_lift_map_err {A E'} (m : exec E' A) (e : E) (Q : E -> Prop) :
  Q e -> m <> Panic -> safe (S:=S) (lift (map_err (fun _ => e) m)) (fun a => m = Ok a) Q.
Proof. intros H Hp s. unfold lift. by destruct m. Qed.

Lemma safe_weaken {A} (m : st S E A) (P P' : A -> Prop) (Q Q' : E -> Prop) :
  safe m P Q -> (forall a, P a -> P' a) -> (forall e, Q e -> Q' e) -> safe m P' Q'.
Proof. intros Hm HP HQ s. specialize (Hm s). destruct (m s) as [[a s']|e|]; auto. Qed.
End Safe.

Lemma require_inv {S E} b (e : E) (s : S) u s' :
  require b e s = Ok (u, s') -> b = true /\ s' = s.
Proof. unfold require, lift. destruct b; simpl; intros; by simplify_eq. Qed.

Lemma require_some_inv {S E A} (o : option A) (e : E) (s : S) a s' :
  require_some o e s = Ok (a, s') -> o = Some a /\ s' = s.
Proof. unfold require_some, lift. destruct o; simpl; intros; by simplify_eq. Qed.

Lemma with_fw_inv {F A E} (call : F -> A * F) (w : World) a w' :
  with_fw (E:=E) call w = Ok (a, w') -> w_mem w' = w_mem w.
Proof. unfold with_fw. destruct (call (w_fw w)). intros. by simplify_eq. Qed.

Section Loader.
Context {F H : Type} (fw : Firmware F H) `{!FirmwareLaws fw}.

(** The result of a firmware call comes from some firmware state. *)
Lemma safe_with_fw {A E} (call : F -> A * F) (Q : E -> Prop) :
  safe (with_fw call) (fun a => exists f f', call f = (a, f')) Q.
Proof. intros [f mem]. unfold with_fw. simpl. destruct (call f) as [a f'] eqn:E1. eauto. Qed.

(** ** Files *)
Section Read.
Context (h : H) (maximum : Z) (limit_error : LoaderError) (chunk_length : Z).
Hypothesis Hmax : 0 <= maximum < 2 ^ 25 - 1.

Definition read_inv (s : list Z * list Z * F) : Prop :=
  let '(bytes, chunk, f) := s in
  is_bytes bytes /\ len bytes <= maximum /\ is_bytes chunk.

(** One iteration keeps the invariant, and a continuing one makes progress. *)
Lemma read_step_inv s :
  read_inv s ->
  match read_step fw h maximum limit_error s with
  | Continue s' => read_inv s' /\ 0 <= maximum - len s'.1.1 < maximum - len s.1.1
  | Break (Ok (bytes, _)) => is_bytes bytes /\ len bytes <= maximum
  | Break (Err e) => e = FileRead \/ e = Allocation \/ e = limit_error
  | Break Panic => False
  end.
Proof.
  destruct s as [[bytes chunk] f]. intros (Hb & Hle & Hc). unfold read_step.
  destruct (read fw h chunk f) as [[[count chunk']|] f'] eqn:Er; [|auto].
  destruct (read_bounded _ _ _ _ _ _ Hc Er) as (Hcnt & Hlen & Hc').
  destruct (Z.eqb_spec count 0); [done|].
  destruct (checked_add 64 (len bytes) count) as [nl|] eqn:Ea; [|auto].
  apply checked_add_Some in Ea as [-> _].
  destruct (Z.ltb_spec maximum (len bytes + count)); [auto|].
  destruct (try_reserve_exact fw count f') as [[] f'']; cbn [negb]; [|auto].
  rewrite index_range_prefix by lia. cbn [fst].
  assert (length (take (Z.to_nat count) chunk') = Z.to_nat count) as Ht
    by (rewrite length_take; lia).
  unfold read_inv. rewrite length_app, Ht. split; [split_and!|]; try lia; [|done].
  apply is_bytes_app; [done|by apply Forall_take].
Qed.

Lemma read_loop_safe :
  safe (read_loop fw h maximum limit_error chunk_length)
    (fun bytes => is_bytes bytes /\ len bytes <= maximum)
    (fun e => e = FileRead \/ e = Allocation \/ e = limit_error).
Proof.
  intros w. unfold read_loop.
  set (s0 := ([], replicate (Z.to_nat chunk_length) 0, w_fw w)).
  assert (read_inv s0) as H0.
  { split_and!; [constructor|simpl; lia|]. apply Forall_replicate. by_decide. }
  destruct (loop_pow2_total (read_step fw h maximum limit_error) read_inv
    (fun r => match r with Ok (bytes, _) => is_bytes bytes /\ len bytes <= maximum
      | Err e => e = FileRead \/ e = Allocation \/ e = limit_error | Panic => False end)
    (fun s => maximum - len s.1.1) READ_FUEL s0) as (r & -> & Hr).
  - intros s Hs. pose proof (read_step_inv s Hs) as Hx. by destruct (read_step _ _ _ _ s).
  - done.
  - unfold READ_FUEL. subst s0. cbn [fst length]. lia.
  - by destruct r as [[bytes f]|e|].
Qed.

(** A handle that serves the bytes of a file in pieces of any size: each read
    returns a nonempty prefix of what is left, or nothing at the end. *)
Class ServesFile (file_at : F -> list Z -> Prop) : Prop := {
  read_serves : forall f rest chunk, file_at f rest -> 0 < len chunk ->
    exists count chunk' f', read fw h chunk f = (Some (count, chunk'), f') /\
      file_at f' (drop (Z.to_nat count) rest) /\ 0 <= count <= len rest /\ count <= len chunk /\
      length chunk' = length chunk /\
      take (Z.to_nat count) chunk' = take (Z.to_nat count) rest /\ (count = 0 -> rest = []);
  reserve_serves : forall f rest n, file_at f rest ->
    exists f', try_reserve_exact fw n f = (true, f') /\ file_at f' rest
}.

Section Content.
Context (file_at : F -> list Z -> Prop) `{!ServesFile file_at} (content : list Z).
Hypothesis Hcontent : len content < 2 ^ 63.

Definition serving (s : list Z * list Z * F) : Prop :=
  let '(bytes, chunk, f) := s in
  0 < len chunk /\ exists rest, content = bytes ++ rest /\ file_at f rest.

Lemma read_step_serves s :
  serving s ->
  match read_step fw h maximum limit_error s with
  | Continue s' => serving s'
  | Break (Ok (bytes, _)) => bytes = content
  | Break (Err e) => e = limit_error /\ maximum < len content
  | Break Panic => False
  end.
Proof.
  destruct s as [[bytes chunk] f]. intros (Hc & rest & -> & Hf). unfold read_step.
  destruct (read_serves f rest chunk Hf Hc)
    as (count & chunk' & f' & -> & Hf' & Hcr & Hcc & Hlen & Ht & Hz).
  rewrite length_app in *.
  destruct (Z.eqb_spec count 0) as [->|Hn0]; [by rewrite Hz, app_nil_r|].
  rewrite (proj2 (checked_add_Some 64 _ _ _)) by (split; [done|lia]).
  destruct (Z.ltb_spec maximum (len bytes + count)); [split; [done|lia]|].
  destruct (reserve_serves f' _ count Hf') as (f'' & -> & Hf''). cbn [negb].
  rewrite index_range_prefix by lia. split; [lia|].
  exists (drop (Z.to_nat count) rest). split; [|done].
  by rewrite <- app_assoc, Ht, take_drop.
Qed.
End Content.
End Read.

(** A file that fits is read completely and exactly; a longer one is refused
    with the caller's limit error. *)
Lemma read_loop_content h maximum limit_error chunk_length file_at
    `{!ServesFile h file_at} content w :
  0 <= maximum < 2 ^ 25 - 1 -> 0 < chunk_length -> len content < 2 ^ 63 ->
  file_at (w_fw w) content ->
  match read_loop fw h maximum limit_error chunk_length w with
  | Ok (bytes, w') => bytes = content /\ len content <= maximum /\ w_mem w' = w_mem w
  | Err e => e = limit_error /\ maximum < len content
  | Panic => False
  end.
Proof.
  intros Hmax Hcl Hcon Hf. unfold read_loop.
  set (s0 := ([], replicate (Z.to_nat chunk_length) 0, w_fw w)).
  assert (read_inv maximum s0 /\ serving file_at content s0) as H0.
  { split; [split_and!; [constructor|simpl; lia|apply Forall_replicate; by_decide]|].
    split; [rewrite length_replicate; lia|by exists content]. }
  destruct (loop_pow2_total (read_step fw h maximum limit_error)
    (fun s => read_inv maximum s /\ serving file_at content s)
    (fun r => match r with Ok (bytes, _) => bytes = content /\ len content <= maximum
      | Err e => e = limit_error /\ maximum < len content | Panic => False end)
    (fun s => maximum - len s.1.1) READ_FUEL s0) as (r & -> & Hr).
  - intros s [Hs1 Hs2]. pose proof (read_step_inv h maximum limit_error s Hs1) as Hx.
    apply (read_step_serves h maximum limit_error file_at content Hcon) in Hs2.
    destruct (read_step _ _ _ _ s) as [|[[bytes f]|e|]]; [tauto| |done..].
    subst bytes. tauto.
  - done.
  - unfold READ_FUEL. subst s0. cbn [fst length]. lia.
  - destruct r as [[bytes f]|e|]; [|done..]. cbn [w_mem]. tauto.
Qed.

(** ** The kernel image in memory *)

(** The byte a loaded segment has at an address of its pages: file data, then
    zeros. *)
Definition segment_byte (s : BootElf.LoadSegment) (a : Z) : Z :=
  default 0 (BootElf.ls_file_data s !! Z.to_nat (a - BootElf.ls_physical_address s)).

(** What the loader needs of a segment, as the validator establishes it. *)
Definition loadable (s : BootElf.LoadSegment) : Prop :=
  0 <= BootElf.ls_physical_address s /\ BootElf.ls_physical_address s mod 4096 = 0 /\
  0 <= BootElf.ls_memory_size s /\
  BootElf.ls_physical_address s + BootElf.ls_memory_size s <= 2 ^ 30 /\
  len (BootElf.ls_file_data s) <= BootElf.ls_memory_size s.

Lemma page_up_aligned base size :
  base mod 4096 = 0 -> ElfSpec.page_up (base + size) = base + div_ceil size PAGE_BYTES * PAGE_BYTES.
Proof.
  intros. unfold ElfSpec.page_up, div_ceil, PAGE_BYTES. Z.to_euclidean_division_equations; lia.
Qed.

Lemma load_segment_mem s w w' :
  loadable s -> load_segment fw s w = Ok (tt, w') ->
  forall a, w_mem w' a =
    if bool_decide (ElfProps.segment_pages s a) then segment_byte s a else w_mem w a.
Proof.
  intros (Hp0 & Hal & Hm0 & Hend & Hd) Hl a. unfold load_segment in Hl.
  apply st_bind_inv in Hl as (dst & w1 & [Hdst ->]%require_some_inv & Hl).
  apply st_bind_inv in Hl as (ms & w2 & [Hms ->]%require_some_inv & Hl).
  apply try_uint_Some in Hdst as ->, Hms as ->.
  apply st_bind_inv in Hl as (r & w3 & Hr%with_fw_inv & Hl).
  apply st_bind_inv in Hl as (p & w4 & [-> ->]%require_some_inv & Hl).
  apply st_bind_inv in Hl as (u & w5 & [->%Z.eqb_eq ->]%require_inv & Hl).
  apply st_bind_inv in Hl as (n & w6 & [Hn ->]%require_some_inv & Hl).
  apply checked_mul_Some in Hn as [-> _]. injection Hl as <-. cbn [w_mem].
  unfold ElfProps.segment_pages. rewrite page_up_aligned by done.
  unfold copy_at, write_bytes_at, in_range, segment_byte. rewrite Hr.
  set (base := BootElf.ls_physical_address s) in *. set (data := BootElf.ls_file_data s) in *.
  set (n := div_ceil (BootElf.ls_memory_size s) PAGE_BYTES * PAGE_BYTES).
  assert (len data <= n).
  { pose proof (page_up_aligned base (BootElf.ls_memory_size s) Hal) as Hpu. fold n in Hpu.
    pose proof (ElfSpec.page_up_bounds (base + BootElf.ls_memory_size s)). lia. }
  destruct (Z.leb_spec base a), (Z.ltb_spec a (base + n)), (Z.ltb_spec a (base + len data));
    cbn [andb]; case_bool_decide; try lia; try done.
  - destruct (lookup_lt_is_Some_2 data (Z.to_nat (a - base))) as [x Hx]; [lia|].
    rewrite Hx. by apply list_lookup_total_correct.
  - by rewrite (lookup_ge_None_2 data) by lia.
Qed.

(** No two pages shared. *)
Definition apart (s t : BootElf.LoadSegment) : Prop :=
  forall a, ElfProps.segment_pages s a -> ElfProps.segment_pages t a -> False.

(** Loading a list of separate segments one by one: every page of a segment
    holds that segment, and every other address is untouched. *)
Lemma load_list_mem segs : forall w w',
  Forall loadable segs -> StronglySorted apart segs ->
  for_each (load_segment fw) segs w = Ok (tt, w') ->
  forall a,
    (forall s, s ∈ segs -> ElfProps.segment_pages s a -> w_mem w' a = segment_byte s a) /\
    ((forall s, s ∈ segs -> ~ ElfProps.segment_pages s a) -> w_mem w' a = w_mem w a).
Proof.
  induction segs as [|s segs IH]; intros w w' Hok Hs Hl a; cbn [for_each] in Hl.
  { injection Hl as <-. split; [intros s Hs'; by apply elem_of_nil in Hs'|done]. }
  inversion Hok; subst. inversion Hs as [|? ? Hs' Hap]; subst.
  apply st_bind_inv in Hl as ([] & w1 & Hl1 & Hl).
  pose proof (load_segment_mem s w w1 ltac:(done) Hl1 a) as Hm.
  destruct (IH w1 w' ltac:(done) Hs' Hl a) as [IH1 IH2]. rewrite Forall_forall in Hap. split.
  - intros t [->|Ht]%elem_of_cons Hp; [|by apply IH1].
    rewrite IH2 by (intros t Ht Hp'; by apply (Hap t Ht a)).
    rewrite Hm. by rewrite bool_decide_eq_true_2.
  - intros Hno. rewrite IH2 by (intros t Ht; apply Hno; by right).
    rewrite Hm, bool_decide_eq_false_2; [done|]. apply Hno. by left.
Qed.

Section Image.
Variable bytes : list Z.
Hypothesis Hb : slice_ok bytes.
Hypothesis Hok : ElfSpec.elf_ok bytes.

(** The segments of the file. *)
Definition file_segments : list BootElf.LoadSegment :=
  ElfSpec.segment_of bytes <$> ElfSpec.loads_of bytes.

Lemma load_loop_at n : forall i fuel w,
  0 <= i -> i + Z.of_nat n = ElfSpec.phnum_of bytes -> (n < fuel)%nat ->
  Forall (fun h => ElfSpec.segment_ok (len bytes) h.2)
    (filter ElfSpec.is_load (ElfSpec.headers_from bytes (ElfSpec.phoff_of bytes) i n)) ->
  load_loop fw fuel (ElfProps.it_at bytes i) w =
  for_each (load_segment fw) (ElfSpec.segment_of bytes <$>
    filter ElfSpec.is_load (ElfSpec.headers_from bytes (ElfSpec.phoff_of bytes) i n)) w.
Proof.
  induction n as [|n IH]; intros i fuel w Hi Hn Hf Hs; (destruct fuel as [|fuel]; [lia|]).
  { replace i with (ElfSpec.phnum_of bytes) by lia. cbn [load_loop]. by rewrite ElfProps.next_end. }
  rewrite ElfSpec.headers_from_cons in *. cbn [load_loop].
  rewrite (ElfProps.next_at bytes Hb Hok i n) by
    (done || intros Hl; rewrite filter_cons_True in Hs by done; by inversion Hs).
  destruct (decide (ElfSpec.is_load _)) as [Hl|Hl].
  - rewrite filter_cons_True in * by done. inversion Hs; subst. cbn [fmap list_fmap for_each].
    unfold mbind, st_bind. destruct (load_segment fw _ w) as [[u w1]|e|]; [|done..].
    apply IH; done || lia.
  - rewrite filter_cons_False in * by done. rewrite <- (IH (i + 1) (S fuel) w) by (done || lia).
    done.
Qed.

Lemma load_segments_for_each w :
  load_segments fw (ElfSpec.validated bytes) w = for_each (load_segment fw) file_segments w.
Proof.
  destruct Hok as [[_ _ _ _ _ _ _ _ _ Hc _ _ _] [_ _ Hs _ _ _]].
  unfold load_segments. cbn [ElfSpec.validated BootElf.ve_program_header_count].
  apply (load_loop_at _ 0); [done|lia|lia|done].
Qed.

Lemma header_in_file h :
  h ∈ ElfSpec.loads_of bytes -> ElfSpec.wf_header h.2 /\ ElfSpec.segment_ok (len bytes) h.2.
Proof.
  destruct Hok as [[_ _ _ _ _ _ _ _ _ Hc Ho Ht _] [_ _ Hs _ _ _]]. intros Hin.
  rewrite Forall_forall in Hs. split; [|by apply Hs].
  apply list_elem_of_filter in Hin as [_ (k & -> & Hk)%list_elem_of_fmap].
  apply elem_of_seq in Hk. cbn [snd]. apply ElfSpec.header_at_wf; [done|lia..].
Qed.

Lemma file_segments_loadable : Forall loadable file_segments.
Proof.
  apply Forall_fmap, Forall_forall. intros h [Hw Hs]%header_in_file.
  destruct Hw as (_ & _ & Hof & _ & Hp & Hsz & Hm & _).
  destruct Hs as (_ & Hm0 & Hfm & Hfo & _ & _ & Hal & _ & _ & Hmax).
  unfold uint, ElfSpec.seg_end, BootElf.MAX_LOAD_ADDRESS_EXCLUSIVE in *.
  unfold loadable, compose. cbn [ElfSpec.segment_of BootElf.ls_physical_address
    BootElf.ls_memory_size BootElf.ls_file_data].
  rewrite length_sub_list by lia. change (2 ^ 30) with 0x40000000. split_and!; [lia|done|lia..].
Qed.

Lemma file_segments_apart : StronglySorted apart file_segments.
Proof.
  destruct Hok as [_ [_ _ _ Hs _ _]]. unfold file_segments.
  induction Hs as [|x l Hs IH Hf]; [constructor|]. cbn [fmap list_fmap].
  constructor; [exact IH|]. apply Forall_fmap. eapply Forall_impl; [exact Hf|].
  intros y Hxy a. unfold ElfProps.segment_pages, ElfSpec.below, ElfSpec.seg_end in *.
  cbn [ElfSpec.segment_of BootElf.ls_physical_address BootElf.ls_memory_size]. lia.
Qed.
End Image.

(** ** Every way the loader ends *)
Definition early (e : LoaderError) : Prop := e <> Contract.
(** Memory was refused: the kernel's pages, the guard page or the contract's. *)
Definition refused (e : LoaderError) : Prop :=
  e = Allocation \/ e = KernelAddress \/ e = ContractStorage_.
Lemma refused_early e : refused e -> early e.
Proof. by intros [->|[->| ->]]. Qed.

(** Two pages the firmware granted for the contract. *)
Definition storage_ok (c : ContractStorage) : Prop :=
  0 < cs_base c /\ cs_base c mod 4096 = 0 /\ cs_base c + 8192 <= 2 ^ 64 /\ cs_byte_length c = 8192 /\
  exists f f', allocate_pages fw AnyPages CONTRACT_MEMORY_TYPE 2 f = (Some (cs_base c), f').

Lemma read_bounded_file_safe path maximum limit_error :
  0 <= maximum < 2 ^ 25 - 1 -> early limit_error ->
  safe (read_bounded_file fw path maximum limit_error)
    (fun bytes => is_bytes bytes /\ len bytes <= maximum) early.
Proof.
  intros Hmax He. unfold read_bounded_file.
  eapply safe_bind; [apply safe_with_fw|intros r _].
  eapply safe_bind; [by apply safe_require_some|intros h _].
  eapply safe_bind; [apply safe_with_fw|intros reg _].
  eapply safe_bind; [by apply safe_require|intros _ _].
  eapply safe_bind; [apply safe_with_fw|intros res _].
  eapply safe_bind; [by apply safe_require|intros _ _].
  intros w. pose proof (read_loop_safe h maximum limit_error
    (Z.max 1 (Z.min FILE_READ_CHUNK_BYTES maximum)) Hmax w) as Hs.
  destruct (read_loop _ _ _ _ _ w) as [[b w']|e|]; [done| |done].
  destruct Hs as [->|[->| ->]]; done.
Qed.

Lemma load_segment_safe s : safe (load_segment fw s) (fun _ => True) refused.
Proof.
  unfold load_segment. eapply safe_bind; [apply safe_require_some; unfold refused; auto|intros d _].
  eapply safe_bind; [apply safe_require_some; unfold refused; auto|intros ms _].
  eapply safe_bind; [apply safe_with_fw|intros r _].
  eapply safe_bind; [apply safe_require_some; unfold refused; auto|intros p _].
  eapply safe_bind; [apply safe_require; unfold refused; auto|intros _ _].
  eapply safe_bind; [apply safe_require_some; unfold refused; auto|intros n _]. by intros w.
Qed.

Lemma load_list_safe segs : safe (for_each (load_segment fw) segs) (fun _ => True) refused.
Proof.
  induction segs as [|s segs IH]; [by apply safe_ret|]. cbn [for_each].
  eapply safe_bind; [apply load_segment_safe|by intros _ _].
Qed.

Lemma reserve_stack_guard_safe : safe (reserve_stack_guard fw) (fun _ => True) refused.
Proof.
  unfold reserve_stack_guard. eapply safe_bind; [apply safe_with_fw|intros r _].
  eapply safe_bind; [apply safe_require_some; unfold refused; auto|intros p _].
  intros w. unfold require, lift, refused. destruct (p =? _); cbn; auto.
Qed.

Lemma storage_allocate_safe : safe (ContractStorage_allocate fw) storage_ok refused.
Proof.
  unfold ContractStorage_allocate. eapply safe_bind; [apply safe_require_some; unfold refused; auto|intros n Hn].
  eapply safe_bind; [apply safe_with_fw|intros r Hr].
  eapply safe_bind; [apply safe_require_some; unfold refused; auto|intros p Hp].
  apply safe_ret. cbv beta in *. destruct Hr as (f & f' & Hr). subst r.
  pose proof Hr as (? & ? & Hle)%any_pages_aligned. injection Hn as <-.
  change (div_ceil BOOT_INFO_SIZE PAGE_BYTES) with 2 in Hle, Hr. unfold storage_ok. eauto 10.
Qed.

(** What [prepare_kernel] does with the files it has read. *)
Lemma place_kernel_safe kernel (scenario : BootScenario) :
  slice_ok kernel -> ElfSpec.elf_ok kernel ->
  safe (load_segments fw (ElfSpec.validated kernel) ;;
        reserve_stack_guard fw ;;
        contract_storage ← ContractStorage_allocate fw;
        mret (BootElf.ve_entry_point (ElfSpec.validated kernel), contract_storage, scenario))
    (fun r => uint 64 r.1.1 /\ storage_ok r.1.2 /\
              r.1.1 = BootElf.ve_entry_point (ElfSpec.validated kernel) /\ r.2 = scenario) refused.
Proof.
  intros Hb Hok. eapply safe_bind.
  { intros w. rewrite load_segments_for_each by done. apply load_list_safe. }
  intros _ _. eapply safe_bind; [apply reserve_stack_guard_safe|intros _ _].
  eapply safe_bind; [apply storage_allocate_safe|intros st Hst]. apply safe_ret. split; [|done].
  destruct Hok as [[_ _ _ _ _ _ _ _ _ _ _ _ He] _]. cbn [fst ElfSpec.validated BootElf.ve_entry_point].
  unfold uint, BootElf.MIN_LOAD_ADDRESS, BootElf.MAX_LOAD_ADDRESS_EXCLUSIVE in *. lia.
Qed.

Lemma prepare_kernel_safe :
  safe (prepare_kernel fw) (fun r => uint 64 r.1.1 /\ storage_ok r.1.2) early.
Proof.
  unfold prepare_kernel. eapply safe_bind; [apply safe_with_fw|intros fs _].
  eapply safe_bind; [by apply safe_require|intros _ _].
  eapply safe_bind; [apply safe_with_fw|intros vol _].
  eapply safe_bind; [by apply safe_require|intros _ _].
  eapply safe_bind; [apply read_bounded_file_safe; [unfold BootElf.MAX_ELF_FILE_SIZE; lia|done]|].
  intros kernel [Hk1 Hk2]. unfold BootElf.MAX_ELF_FILE_SIZE in Hk2.
  eapply safe_bind; [apply read_bounded_file_safe; [unfold MAX_SCENARIO_BYTES; lia|done]|].
  intros cfg _. eapply safe_bind;
    [apply safe_lift_map_err; [done|apply parse_scenario_no_panic]|intros sc _].
  assert (slice_ok kernel) as Hb by (split; [done|lia]).
  eapply safe_bind; [apply safe_lift_map_err; [done|by apply ElfProps.elf_parse_no_panic]|].
  intros elf Helf. apply ElfProps.elf_parse_Ok_iff in Helf as [Hok ->]; [|done].
  eapply safe_weaken; [by apply place_kernel_safe| |exact refused_early]. intros r Hr. split; apply Hr.
Qed.

(** The debug console after a list of records. *)
Definition lines (records : list (list Z)) : list Z := r ← records; r ++ [LF].

Lemma lines_snoc rs r : lines (rs ++ [r]) = lines rs ++ r ++ [LF].
Proof. unfold lines. rewrite bind_app. f_equal. cbn. by rewrite app_nil_r. Qed.

Lemma marker_short e : (length (marker e) <= 256)%nat.
Proof. destruct e; apply Nat.leb_le; reflexivity. Qed.

Section Main.
Variable lsr : nat -> Z.

Lemma write_record_line c r m :
  (length r <= 256)%nat ->
  debugcon (write_record lsr c r m).2 = debugcon m ++ r ++ [LF] /\
  exits (write_record lsr c r m).2 = exits m.
Proof.
  intros Hr. destruct (write_record_debugcon lsr c r m) as [-> ->].
  by rewrite (take_ge r) by done.
Qed.

(** A failing run: the records, then the loader-failure status. *)
Definition failed (m0 m : Machine) (records : list (list Z)) : Prop :=
  debugcon m = debugcon m0 ++ lines records /\
  exits m = exits m0 ++ [QemuExitCode_value LoaderFailure].

Lemma fail_failed c e m0 m rs :
  debugcon m = debugcon m0 ++ lines rs -> exits m = exits m0 ->
  exists m', fail lsr c e m = LoaderExit m' /\ failed m0 m' (rs ++ [marker e]).
Proof.
  intros Hd He. eexists. split; [done|].
  destruct (report_reports lsr c (marker e) LoaderFailure m m) as [H1 H2];
    [done|apply marker_short|]. unfold failed. rewrite H1, H2, Hd, He. split; [|done].
  by rewrite lines_snoc, <- app_assoc.
Qed.

(** Every run of the loader ends in a failure with a well-ordered log, in the
    firmware's cold reset, or in a transfer with the contract of the parsed
    scenario in memory. *)
Lemma main_ends w m0 :
  match main fw lsr w m0 with
  | LoaderExit m =>
      (exists e, early e /\ prepare_kernel fw w = Err e /\ failed m0 m [LOADER_START; marker e]) \/
      failed m0 m [LOADER_START; ELF_VALID; CONTRACT_FAILURE] /\
      exists r w1 l, prepare_kernel fw w = Ok (r, w1) /\ exit_boot_services fw (w_fw w1) = Some l /\
        ~ map_ok (sort fw l)
  | ColdReset m =>
      debugcon m = debugcon m0 ++ lines [LOADER_START; ELF_VALID] /\ exits m = exits m0 /\
      exists r w1, prepare_kernel fw w = Ok (r, w1) /\ exit_boot_services fw (w_fw w1) = None
  | Transfer entry contract n mem m =>
      debugcon m = debugcon m0 ++ lines [LOADER_START; ELF_VALID; HANDOFF_READY] /\
      exits m = exits m0 /\
      exists storage s w1 l, prepare_kernel fw w = Ok ((entry, storage, s), w1) /\
        storage_ok storage /\ contract = cs_base storage /\ n = handed_length s /\
        exit_boot_services fw (w_fw w1) = Some l /\
        map_ok (sort fw l) /\ mem = copy_at contract (handed_bytes (sort fw l) s) (w_mem w1)
  end.
Proof.
  unfold main. pose proof (new_debugcon m0) as [Hd0 He0].
  destruct (EarlyConsole_new m0) as [c0 m1]. cbn [snd] in *.
  pose proof (write_record_line c0 LOADER_START m1 ltac:(apply Nat.leb_le; reflexivity)) as [Hd1 He1].
  destruct (write_record lsr c0 LOADER_START m1) as [c1 m2]. cbn [snd] in *.
  assert (debugcon m2 = debugcon m0 ++ lines [LOADER_START] /\ exits m2 = exits m0) as [Hd2 He2].
  { rewrite Hd1, He1, Hd0. by change (lines [LOADER_START]) with (lines ([] ++ [LOADER_START])); rewrite lines_snoc. }
  pose proof (prepare_kernel_safe w) as Hs.
  destruct (prepare_kernel fw w) as [[[[entry storage] s] w1]|e|] eqn:Ep; [| |done].
  2: { destruct (fail_failed c1 e m0 m2 _ Hd2 He2) as (m' & -> & Hf). left. by exists e. }
  destruct Hs as [Hent Hst]. cbn [fst snd] in Hent, Hst.
  pose proof (write_record_line c1 ELF_VALID m2 ltac:(apply Nat.leb_le; reflexivity)) as [Hd3 He3].
  destruct (write_record lsr c1 ELF_VALID m2) as [c2 m3]. cbn [snd] in *.
  assert (debugcon m3 = debugcon m0 ++ lines [LOADER_START; ELF_VALID] /\ exits m3 = exits m0)
    as [Hd4 He4].
  { rewrite Hd3, He3, Hd2. rewrite <- app_assoc.
    by rewrite <- (lines_snoc [LOADER_START]). }
  pose proof Hst as (Hb0 & Hba & Hbe & Hbl & _).
  destruct (exit_boot_services fw (w_fw w1)) as [l|] eqn:El; [|by eauto 10].
  pose proof (map_typed (w_fw w1) l El) as Hwf. destruct (map_ok_dec (sort fw l) Hwf) as [Hm|Hm].
  2: { rewrite encode_contract_rejects by done.
       destruct (fail_failed c2 Contract m0 m3 _ Hd4 He4) as (m' & -> & Hf). right.
       split; [done|]. by exists (entry, storage, s), w1, l. }
  rewrite encode_contract_exact by done.
  pose proof (write_record_line c2 HANDOFF_READY m3 ltac:(apply Nat.leb_le; reflexivity)) as [Hd5 He5].
  destruct (write_record lsr c2 HANDOFF_READY m3) as [c3 m4]. cbn [snd] in *.
  unfold transfer_to_kernel, try_uint. unfold uint in Hent. rewrite (proj2 (Z.ltb_lt _ _)) by lia.
  split_and!.
  - rewrite Hd5, Hd4. rewrite <- app_assoc.
    by rewrite <- (lines_snoc [LOADER_START; ELF_VALID]).
  - congruence.
  - by exists storage, s, w1, l.
Qed.

(** A prepared kernel and an acceptable memory map are enough to reach it. *)
Lemma main_transfers w m0 entry storage s w1 l :
  prepare_kernel fw w = Ok ((entry, storage, s), w1) ->
  exit_boot_services fw (w_fw w1) = Some l -> map_ok (sort fw l) ->
  exists mem m, main fw lsr w m0 = Transfer entry (cs_base storage) (handed_length s) mem m.
Proof.
  intros Hp El Hm. unfold main. destruct (EarlyConsole_new m0) as [c0 m1].
  destruct (write_record lsr c0 LOADER_START m1) as [c1 m2]. rewrite Hp.
  destruct (write_record lsr c1 ELF_VALID m2) as [c2 m3]. rewrite El.
  pose proof (prepare_kernel_safe w) as Hs. rewrite Hp in Hs. destruct Hs as [Hent Hst].
  cbn [fst snd] in Hent, Hst. destruct Hst as (_ & _ & _ & Hl & _).
  rewrite encode_contract_exact by (done || by apply (map_typed (w_fw w1))).
  destruct (write_record lsr c2 HANDOFF_READY m3) as [c3 m4].
  unfold transfer_to_kernel, try_uint. unfold uint in Hent.
  rewrite (proj2 (Z.ltb_lt _ _)) by lia. by eexists _, _.
Qed.
End Main.
End Loader.

(** ** A concrete firmware

    A volume with a kernel and a configuration file, served at most [piece]
    bytes per read, and an allocator that grants every fixed address and up to
    two pages anywhere. *)
Definition demo_fw (kernel cfg : list Z) (piece : nat) : Firmware (list Z) unit :=
  {| get_image_file_system := fun f => (true, f);
     open_volume := fun f => (true, f);
     open := fun path _ => (Some tt, match path with KERNEL_ELF => kernel | BOOT_CFG => cfg end);
     into_regular_file := fun _ f => (true, f);
     read := fun _ chunk f =>
       let n := Nat.min piece (Nat.min (length chunk) (length f)) in
       (Some (Z.of_nat n, ((fun b => b mod 256) <$> take n f) ++ drop n chunk), drop n f);
     try_reserve_exact := fun _ f => (true, f);
     allocate_pages := fun kind _ n f =>
       (match kind with
        | Address a => Some a
        | AnyPages => if n <=? 2 then Some 0x6000000 else None
        end, f);
     exit_boot_services := fun _ => Some sample_map;
     sort := fun l => l |}.

Lemma demo_piece_bytes l : is_bytes ((fun b => b mod 256) <$> l).
Proof.
  apply Forall_fmap, Forall_true. intros b. unfold compose, uint. apply Z.mod_pos_bound. lia.
Qed.

Lemma demo_piece_exact l : is_bytes l -> (fun b => b mod 256) <$> l = l.
Proof.
  induction 1 as [|b l Hb _ IH]; [done|]. cbn. rewrite IH. f_equal. apply Z.mod_small. exact Hb.
Qed.

#[global] Instance demo_laws kernel cfg piece : FirmwareLaws (demo_fw kernel cfg piece).
Proof.
  split.
  - intros h chunk f count chunk' f' Hc [= <- <- <-].
    rewrite length_app, length_fmap, length_take, length_drop.
    split; [lia|]. split; [lia|]. apply is_bytes_app; [apply demo_piece_bytes|by apply Forall_drop].
  - intros ty n f p f' Hp. cbn in Hp. destruct (Z.leb_spec n 2); simplify_eq.
    split_and!; [lia|done|lia].
  - intros f l [= <-]. apply sample_map_wf.
Qed.

#[global] Instance demo_serves kernel cfg piece :
  ServesFile (demo_fw kernel cfg (S piece)) tt (fun f rest => f = rest /\ is_bytes rest).
Proof.
  split; [|by eauto]. intros f rest chunk [-> Hr] Hc. eexists _, _, _. split; [reflexivity|].
  set (n := Nat.min (S piece) _). rewrite Nat2Z.id.
  assert (n <= length rest /\ n <= length chunk /\ (n = 0 -> length rest = 0))%nat as Hn by lia.
  clearbody n.
  rewrite length_app, length_fmap, length_take, length_drop.
  split_and!; [done|by apply Forall_drop|lia..| |].
  - rewrite demo_piece_exact by (by apply Forall_take).
    rewrite take_app_le by (rewrite length_take; lia). by rewrite take_take, Nat.min_id.
  - intros Hz. apply nil_length_inv. lia.
Qed.

(** ** Properties *)

(** C35. Reading a file is bounded, terminates and is exact: whatever piece sizes
    the firmware serves a file in, the read loop returns exactly its contents
    when they fit the caller's maximum and the caller's limit error when they do
    not, without running out of its iteration bound, panicking, or touching
    memory. *)
Theorem bounded_read_is_exact {F H : Type} (fw : Firmware F H) (h : H) (maximum : Z)
    (limit_error : LoaderError) (chunk_length : Z) (file_at : F -> list Z -> Prop)
    (content : list Z) (w : World) :
  FirmwareLaws fw -> ServesFile fw h file_at ->
  0 <= maximum <= BootElf.MAX_ELF_FILE_SIZE -> 0 < chunk_length -> len content < 2 ^ 63 ->
  file_at (w_fw w) content ->
  match read_loop fw h maximum limit_error chunk_length w with
  | Ok (bytes, w') => bytes = content /\ len content <= maximum /\ w_mem w' = w_mem w
  | Err e => e = limit_error /\ maximum < len content
  | Panic => False
  end.
Proof.
  intros Hfw Hsf Hmax. unfold BootElf.MAX_ELF_FILE_SIZE in Hmax.
  apply (read_loop_content fw h maximum limit_error chunk_length file_at content w). lia.
Qed.

Lemma bounded_read_is_exact_witness :
  match read_loop (demo_fw [] [] 7) tt 32 ConfigInvalid 32
          (mkWorld (scenario_file IncompatibleVersion) (fun _ => 0)) with
  | Ok (bytes, w') => bytes = scenario_file IncompatibleVersion /\
      len (scenario_file IncompatibleVersion) <= 32 /\ w_mem w' = (fun _ => 0)
  | Err e => e = ConfigInvalid /\ 32 < len (scenario_file IncompatibleVersion)
  | Panic => False
  end.
Proof.
  apply (bounded_read_is_exact (demo_fw [] [] 7) tt 32 ConfigInvalid 32
    (fun f rest => f = rest /\ is_bytes rest) (scenario_file IncompatibleVersion)
    (mkWorld (scenario_file IncompatibleVersion) (fun _ => 0))).
  - apply demo_laws.
  - apply demo_serves.
  - unfold BootElf.MAX_ELF_FILE_SIZE. lia.
  - lia.
  - vm_compute. reflexivity.
  - split; [reflexivity|by_decide].
Defined.

(** The image of one segment. *)
Lemma image_slice mem s :
  loadable s ->
  (forall a, ElfProps.segment_pages s a -> mem a = segment_byte s a) ->
  slice_at mem (BootElf.ls_physical_address s) (Z.to_nat (BootElf.ls_memory_size s)) =
  BootElf.ls_file_data s ++
  replicate (Z.to_nat (BootElf.ls_memory_size s - len (BootElf.ls_file_data s))) 0.
Proof.
  intros (Hp & Hal & Hm & Hend & Hd) Hmem. set (data := BootElf.ls_file_data s) in *.
  apply list_eq_same_length with (Z.to_nat (BootElf.ls_memory_size s));
    [rewrite length_app, length_replicate; lia|by rewrite length_slice_at|].
  intros i x y Hi. rewrite slice_at_lookup by done. intros [= <-] Hy.
  rewrite Hmem. 2: { unfold ElfProps.segment_pages.
    pose proof (ElfSpec.page_up_bounds (BootElf.ls_physical_address s + BootElf.ls_memory_size s)). lia. }
  unfold segment_byte. fold data.
  replace (Z.to_nat (_ + Z.of_nat i - _)) with i by lia.
  destruct (decide (i < length data)%nat).
  - rewrite lookup_app_l in Hy by done. by rewrite Hy.
  - rewrite lookup_app_r in Hy by lia. apply lookup_replicate_1 in Hy as [-> _].
    by rewrite lookup_ge_None_2 by lia.
Qed.

(** Loading an accepted file: every page of a segment holds the segment, and
    every other address is untouched. *)
Lemma load_segments_mem {F H : Type} (fw : Firmware F H) bytes v segs w w' :
  slice_ok bytes -> BootElf.parse bytes = Ok v -> BootElf.collect_segments v = Ok segs ->
  load_segments fw v w = Ok (tt, w') ->
  Forall loadable segs /\ forall a,
    (forall s, s ∈ segs -> ElfProps.segment_pages s a -> w_mem w' a = segment_byte s a) /\
    ((forall s, s ∈ segs -> ~ ElfProps.segment_pages s a) -> w_mem w' a = w_mem w a).
Proof.
  intros Hb [Hok ->]%ElfProps.elf_parse_Ok_iff; [|done].
  rewrite ElfProps.collect_segments_exact by done. intros [= <-].
  rewrite load_segments_for_each by done. intros Hl.
  pose proof (file_segments_loadable bytes Hb Hok) as Hld. split; [done|].
  exact (load_list_mem fw _ _ _ Hld (file_segments_apart bytes Hok) Hl).
Qed.

(** C6. The loader builds exactly the image the ELF file describes: when
    [load_segments] succeeds on an accepted file, every segment's memory range
    holds its file bytes followed by zeros, and no address outside the
    segments' pages has changed, whatever the firmware does. *)
Theorem kernel_image_is_exact {F H : Type} (fw : Firmware F H) (bytes : list Z)
    (v : BootElf.ValidatedElf) (segs : list BootElf.LoadSegment) (w w' : World) :
  slice_ok bytes -> BootElf.parse bytes = Ok v -> BootElf.collect_segments v = Ok segs ->
  load_segments fw v w = Ok (tt, w') ->
  (forall s, s ∈ segs ->
     slice_at (w_mem w') (BootElf.ls_physical_address s) (Z.to_nat (BootElf.ls_memory_size s)) =
     BootElf.ls_file_data s ++
     replicate (Z.to_nat (BootElf.ls_memory_size s - len (BootElf.ls_file_data s))) 0) /\
  (forall a, (forall s, s ∈ segs -> ~ ElfProps.segment_pages s a) -> w_mem w' a = w_mem w a).
Proof.
  intros Hb Hp Hc Hl. destruct (load_segments_mem fw _ _ _ _ _ Hb Hp Hc Hl) as [Hld Hmem].
  split; [|intros a; apply (Hmem a)].
  intros s Hs. rewrite Forall_forall in Hld. apply image_slice; [by apply Hld|].
  intros a. by apply (Hmem a).
Qed.

(** The world after the demo firmware loaded the sample kernel. *)
Definition sample_world : World :=
  match load_segments (demo_fw [] [] 7) (ElfSpec.validated ElfProps.sample_elf)
          (mkWorld [] (fun _ => 255)) with
  | Ok (_, w) => w
  | _ => mkWorld [] (fun _ => 255)
  end.

Lemma kernel_image_is_exact_witness :
  (forall s, s ∈ ElfSpec.segment_of ElfProps.sample_elf <$> ElfSpec.loads_of ElfProps.sample_elf ->
     slice_at (w_mem sample_world) (BootElf.ls_physical_address s)
       (Z.to_nat (BootElf.ls_memory_size s)) =
     BootElf.ls_file_data s ++
     replicate (Z.to_nat (BootElf.ls_memory_size s - len (BootElf.ls_file_data s))) 0) /\
  (forall a, (forall s,
     s ∈ ElfSpec.segment_of ElfProps.sample_elf <$> ElfSpec.loads_of ElfProps.sample_elf ->
     ~ ElfProps.segment_pages s a) -> w_mem sample_world a = 255).
Proof.
  apply (kernel_image_is_exact (demo_fw [] [] 7) ElfProps.sample_elf
    (ElfSpec.validated ElfProps.sample_elf) _ (mkWorld [] (fun _ => 255)) sample_world).
  - exact ElfProps.sample_elf_slice.
  - exact ElfProps.sample_elf_parses.
  - vm_compute. reflexivity.
  - reflexivity.
Defined.

(** ** The kernel in memory *)

(** Memory holds the image of an ELF file: each segment's bytes, then zeros. *)
Definition holds_image (kernel : list Z) (mem : memory) : Prop :=
  forall s, s ∈ ElfSpec.segment_of kernel <$> ElfSpec.loads_of kernel ->
    slice_at mem (BootElf.ls_physical_address s) (Z.to_nat (BootElf.ls_memory_size s)) =
    BootElf.ls_file_data s ++
    replicate (Z.to_nat (BootElf.ls_memory_size s - len (BootElf.ls_file_data s))) 0.

(** The address range [a, b) meets none of the file's segments. *)
Definition apart_from (kernel : list Z) (a b : Z) : Prop :=
  forall s, s ∈ ElfSpec.segment_of kernel <$> ElfSpec.loads_of kernel ->
    b <= BootElf.ls_physical_address s \/
    BootElf.ls_physical_address s + BootElf.ls_memory_size s <= a.

Lemma load_segments_holds {F H : Type} (fw : Firmware F H) kernel w w' :
  slice_ok kernel -> ElfSpec.elf_ok kernel ->
  load_segments fw (ElfSpec.validated kernel) w = Ok (tt, w') -> holds_image kernel (w_mem w').
Proof.
  intros Hb Hok Hl. destruct (load_segments_mem fw kernel (ElfSpec.validated kernel)
    (ElfSpec.segment_of kernel <$> ElfSpec.loads_of kernel) w w' Hb) as [Hld Hmem].
  - by apply ElfProps.elf_parse_Ok_iff.
  - by apply ElfProps.collect_segments_exact.
  - done.
  - intros s Hs. rewrite Forall_forall in Hld. apply image_slice; [by apply Hld|].
    intros a. by apply (Hmem a).
Qed.

(** Writing elsewhere leaves the image as it is. *)
Lemma holds_image_copy kernel a bytes mem :
  apart_from kernel a (a + len bytes) -> holds_image kernel mem ->
  holds_image kernel (copy_at a bytes mem).
Proof.
  intros Hap Hh s Hs. rewrite <- Hh by done. apply slice_at_ext. intros x Hx.
  specialize (Hap s Hs). unfold copy_at. rewrite (proj2 (in_range_false _ _ _)) by lia. done.
Qed.

(** The kernel file the loader read. *)
Definition reads_kernel {F H : Type} (fw : Firmware F H) (kernel : list Z) : Prop :=
  exists w w', read_bounded_file fw KERNEL_ELF BootElf.MAX_ELF_FILE_SIZE ElfInvalid w = Ok (kernel, w').

(** Neither of the calls after the segments touches memory. *)
Lemma with_fw_Ok {F A E : Type} (call : F -> A * F) (w w' : World) a :
  with_fw (E:=E) call w = Ok (a, w') -> w_mem w' = w_mem w.
Proof. unfold with_fw. destruct (call (w_fw w)). by intros [= _ <-]. Qed.

Lemma lift_Ok {S E A : Type} (m : exec E A) (s s' : S) a : lift m s = Ok (a, s') -> m = Ok a /\ s' = s.
Proof. unfold lift. destruct m; by intros [= -> ->]. Qed.

Lemma reserve_stack_guard_mem {F H : Type} (fw : Firmware F H) w w' :
  reserve_stack_guard fw w = Ok (tt, w') -> w_mem w' = w_mem w.
Proof.
  unfold reserve_stack_guard. intros (r & w1 & H1%with_fw_Ok & H2)%st_bind_inv.
  apply st_bind_inv in H2 as (p & w2 & [_ ->]%lift_Ok & [_ ->]%lift_Ok). done.
Qed.

Lemma storage_allocate_mem {F H : Type} (fw : Firmware F H) w w' c :
  ContractStorage_allocate fw w = Ok (c, w') -> w_mem w' = w_mem w.
Proof.
  unfold ContractStorage_allocate. intros (n & w1 & [_ ->]%lift_Ok & H1)%st_bind_inv.
  apply st_bind_inv in H1 as (r & w2 & H2%with_fw_Ok & H3).
  apply st_bind_inv in H3 as (b & w3 & [_ ->]%lift_Ok & [= _ <-]). done.
Qed.

(** A prepared kernel is in memory, and is the file that was read. *)
Lemma prepare_kernel_image {F H : Type} (fw : Firmware F H) `{!FirmwareLaws fw} w entry storage s w1 :
  prepare_kernel fw w = Ok ((entry, storage, s), w1) ->
  exists kernel, reads_kernel fw kernel /\ slice_ok kernel /\ ElfSpec.elf_ok kernel /\
    entry = BootElf.ve_entry_point (ElfSpec.validated kernel) /\ holds_image kernel (w_mem w1).
Proof.
  unfold prepare_kernel. intros (? & wa & _ & Hp)%st_bind_inv.
  apply st_bind_inv in Hp as ([] & wb & [_ ->]%lift_Ok & Hp).
  apply st_bind_inv in Hp as (? & wc & _ & Hp). apply st_bind_inv in Hp as ([] & wd & [_ ->]%lift_Ok & Hp).
  apply st_bind_inv in Hp as (kernel & we & Hk & Hp). apply st_bind_inv in Hp as (cfg & wf & _ & Hp).
  apply st_bind_inv in Hp as (sc & wg & [_ ->]%lift_Ok & Hp).
  apply st_bind_inv in Hp as (elf & wh & [He ->]%lift_Ok & Hp). apply map_err_Ok in He.
  pose proof (read_bounded_file_safe fw KERNEL_ELF BootElf.MAX_ELF_FILE_SIZE ElfInvalid
    ltac:(unfold BootElf.MAX_ELF_FILE_SIZE; lia) ltac:(done) wc) as Hs. rewrite Hk in Hs.
  destruct Hs as [Hby Hlen]. unfold BootElf.MAX_ELF_FILE_SIZE in Hlen.
  assert (slice_ok kernel) as Hb by (split; [done|lia]).
  apply ElfProps.elf_parse_Ok_iff in He as [Hok ->]; [|done].
  apply st_bind_inv in Hp as ([] & wi & Hl & Hp). apply st_bind_inv in Hp as ([] & wj & Hg & Hp).
  cbv zeta in Hp. apply st_bind_inv in Hp as (c & wk & Hc & [= <- <- <- <-]).
  exists kernel. split; [by exists wc, we|]. split_and!; [done..|].
  rewrite (storage_allocate_mem fw _ _ _ Hc), (reserve_stack_guard_mem fw _ _ Hg).
  by apply (load_segments_holds fw _ wf).
Qed.

(** C8. The loader always ends in a defined way: for every firmware that keeps
    the interface's documented bounds, [main] never panics and ends in one of four
    ways, each with its cause.  The preparation failed: it writes the start record
    and one failure record and exits with the loader-failure status.  The
    transition out of boot services failed for good: the firmware resets the
    machine after exactly the start and ELF records, with no exit value.  The
    final memory map does not fit the contract: it writes the contract failure and
    exits with the loader-failure status.  Otherwise it hands over to the kernel
    after exactly the three progress records, with the contract of the parsed
    scenario and of the sorted final memory map at a page-aligned address, to the
    entry point of the ELF file it read. *)
Theorem loader_always_reports {F H : Type} (fw : Firmware F H) (lsr : nat -> Z) (w : World) :
  FirmwareLaws fw ->
  match main fw lsr w power_on with
  | LoaderExit m =>
      exits m = [QemuExitCode_value LoaderFailure] /\
      ((exists e, e <> Contract /\ prepare_kernel fw w = Err e /\
          debugcon m = lines [LOADER_START; marker e]) \/
       debugcon m = lines [LOADER_START; ELF_VALID; CONTRACT_FAILURE] /\
       exists r w1 l, prepare_kernel fw w = Ok (r, w1) /\ exit_boot_services fw (w_fw w1) = Some l /\
         ~ map_ok (sort fw l))
  | ColdReset m =>
      exits m = [] /\ debugcon m = lines [LOADER_START; ELF_VALID] /\
      exists r w1, prepare_kernel fw w = Ok (r, w1) /\ exit_boot_services fw (w_fw w1) = None
  | Transfer entry contract n mem m =>
      exits m = [] /\ debugcon m = lines [LOADER_START; ELF_VALID; HANDOFF_READY] /\
      contract mod 4096 = 0 /\ 0 < contract /\
      exists kernel storage s w1 l, reads_kernel fw kernel /\
        entry = BootElf.ve_entry_point (ElfSpec.validated kernel) /\ holds_image kernel (w_mem w1) /\
        prepare_kernel fw w = Ok ((entry, storage, s), w1) /\
        exit_boot_services fw (w_fw w1) = Some l /\ map_ok (sort fw l) /\
        n = handed_length s /\ mem = copy_at contract (handed_bytes (sort fw l) s) (w_mem w1)
  end.
Proof.
  intros Hfw. pose proof (main_ends fw lsr w power_on) as Hm.
  destruct (main fw lsr w power_on) as [m|m|entry contract n mem m].
  - destruct Hm as [(e & He & Hp & Hd & Hx)|[[Hd Hx] Hc]]; rewrite Hd, Hx; (split; [done|]);
      [left; by exists e|by right].
  - destruct Hm as (-> & -> & Hc). done.
  - destruct Hm as (Hd & Hx & storage & s & w1 & l & Hp & (H0 & Ha & _) & -> & -> & El & Hok & ->).
    destruct (prepare_kernel_image fw _ _ _ _ _ Hp) as (kernel & Hr & _ & _ & He & Hi).
    split_and!; try done. by exists kernel, storage, s, w1, l.
Qed.

(** A firmware whose transition out of boot services fails. *)
Definition stuck_fw (kernel cfg : list Z) : Firmware (list Z) unit :=
  let fw := demo_fw kernel cfg 7 in
  {| get_image_file_system := get_image_file_system fw; open_volume := open_volume fw; open := open fw;
     into_regular_file := into_regular_file fw; read := read fw; try_reserve_exact := try_reserve_exact fw;
     allocate_pages := allocate_pages fw; exit_boot_services := fun _ => None; sort := sort fw |}.

#[global] Instance stuck_laws kernel cfg : FirmwareLaws (stuck_fw kernel cfg).
Proof.
  split; [apply (read_bounded (fw:=demo_fw kernel cfg 7))|
          apply (any_pages_aligned (fw:=demo_fw kernel cfg 7))|by intros].
Qed.

Lemma stuck_prepares :
  match prepare_kernel (stuck_fw ElfProps.sample_elf (scenario_file Normal)) (mkWorld [] (fun _ => 0)) with
  | Err _ => false
  | _ => true
  end = true.
Proof. vm_compute. reflexivity. Qed.

(** It resets the machine: no exit value, and two records. *)
Lemma loader_always_reports_witness : exists m,
  main (stuck_fw ElfProps.sample_elf (scenario_file Normal)) (fun _ => 0) (mkWorld [] (fun _ => 0)) power_on =
    ColdReset m /\ exits m = [] /\ debugcon m = lines [LOADER_START; ELF_VALID].
Proof.
  pose proof (loader_always_reports (stuck_fw ElfProps.sample_elf (scenario_file Normal)) (fun _ => 0)
    (mkWorld [] (fun _ => 0)) (stuck_laws _ _)) as Hm.
  destruct (main _ _ _ _) as [m|m|entry contract n mem m] eqn:E.
  - exfalso. destruct Hm as [_ [(e & _ & Hp & _)|(_ & r & w1 & l & _ & [=] & _)]]. pose proof stuck_prepares as Hs. rewrite Hp in Hs. discriminate Hs.
  - exists m. split; [reflexivity|]. split; apply Hm.
  - exfalso. destruct Hm as (_ & _ & _ & _ & kernel & storage & s & w1 & l & _ & _ & _ & _ & [=] & _).
Defined.
