(* ===== verification/Protocol.v ===== *)
(** The host side of the diagnostic protocol: crates/xtask/src/qemu.rs, from the
    bytes of the debug console to the classification of a boot. *)

From S2P Require Import Prelude Bytes Console.

(** ** Markers and statuses *)
Definition READY_MARKER : list Z := ascii_bytes
  "POLYTOPE_BOOT schema=1 seq=0004 phase=kernel_entry level=info code=KERNEL_READY".
Definition BAD_VERSION_MARKER : list Z := ascii_bytes
  "POLYTOPE_BOOT schema=1 seq=0004 phase=kernel_entry level=error code=ABI_VERSION".
Definition TRUNCATED_MARKER : list Z := ascii_bytes
  "POLYTOPE_BOOT schema=1 seq=0004 phase=kernel_entry level=error code=CONTRACT_LENGTH".
Definition PANIC_MARKER : list Z := ascii_bytes
  "POLYTOPE_BOOT schema=1 seq=0005 phase=panic level=fatal code=KERNEL_PANIC".
Definition CONTRACT_INVALID_MARKER : list Z := ascii_bytes
  "POLYTOPE_BOOT schema=1 seq=0004 phase=kernel_entry level=error code=CONTRACT_INVALID".
Definition LOADER_START_MARKER : list Z := ascii_bytes
  "POLYTOPE_BOOT schema=1 seq=0001 phase=loader level=info code=LOADER_START".
Definition ELF_VALID_MARKER : list Z := ascii_bytes
  "POLYTOPE_BOOT schema=1 seq=0002 phase=loader level=info code=ELF_VALID".
Definition HANDOFF_READY_MARKER : list Z := ascii_bytes
  "POLYTOPE_BOOT schema=1 seq=0003 phase=handoff level=info code=HANDOFF_READY".
Definition READY_EXIT_STATUS : Z := 33.
Definition REJECT_EXIT_STATUS : Z := 65.
Definition PANIC_EXIT_STATUS : Z := 67.
Definition MAX_DIAGNOSTIC_RECORD_BYTES : Z := 256.

Definition SEQUENCE_2_RECORDS : list (list Z) := ascii_bytes <$>
  ["POLYTOPE_BOOT schema=1 seq=0002 phase=loader level=error code=FILE_READ";
   "POLYTOPE_BOOT schema=1 seq=0002 phase=loader level=error code=CONFIG_INVALID";
   "POLYTOPE_BOOT schema=1 seq=0002 phase=loader level=error code=ELF_INVALID";
   "POLYTOPE_BOOT schema=1 seq=0002 phase=loader level=error code=ALLOCATION";
   "POLYTOPE_BOOT schema=1 seq=0002 phase=loader level=error code=KERNEL_ADDRESS";
   "POLYTOPE_BOOT schema=1 seq=0002 phase=loader level=error code=CONTRACT_STORAGE";
   "POLYTOPE_BOOT schema=1 seq=0002 phase=loader level=fatal code=LOADER_PANIC"]%string.
Definition SEQUENCE_3_RECORDS : list (list Z) := ascii_bytes <$>
  ["POLYTOPE_BOOT schema=1 seq=0003 phase=handoff level=error code=CONTRACT_BUILD";
   "POLYTOPE_BOOT schema=1 seq=0003 phase=handoff level=fatal code=LOADER_PANIC"]%string.
Definition SEQUENCE_4_RECORDS : list (list Z) := ascii_bytes <$>
  ["POLYTOPE_BOOT schema=1 seq=0004 phase=handoff level=fatal code=LOADER_PANIC"]%string.

(** ** Slices of [core] used here *)
Definition starts_with (prefix l : list Z) : bool := bool_decide (take (length prefix) l = prefix).
Definition strip_prefix (prefix l : list Z) : option (list Z) :=
  if starts_with prefix l then Some (drop (length prefix) l) else None.
(** [line.strip_suffix(b"\r").unwrap_or(line)] *)
Definition strip_cr (line : list Z) : list Z :=
  match last line with
  | Some b => if b =? CR then take (length line - 1) line else line
  | None => line
  end.
(** [slice.split(|b| b == sep)]: the fields between separators. *)
Fixpoint split_on (sep : Z) (l : list Z) : list (list Z) :=
  match l with
  | [] => [[]]
  | b :: t => if b =? sep then [] :: split_on sep t
              else match split_on sep t with
                   | field :: fields => (b :: field) :: fields
                   | [] => [[b]]
                   end
  end.
Definition is_ascii_digit (b : Z) : bool := (48 <=? b) && (b <=? 57).
Definition is_ascii_lowercase (b : Z) : bool := (97 <=? b) && (b <=? 122).
Definition is_ascii_uppercase (b : Z) : bool := (65 <=? b) && (b <=? 90).

(** [text.parse::<uN>()]: an optional plus sign and one or more digits, refused
    on overflow.  Non-ASCII text is refused like any other non-digit. *)
Fixpoint parse_digits (w acc : Z) (l : list Z) : option Z :=
  match l with
  | [] => Some acc
  | b :: t => if is_ascii_digit b then
                shifted ← checked_mul w acc 10;
                acc ← checked_add w shifted (b - 48);
                parse_digits w acc t
              else None
  end.
Definition parse_uint (w : Z) (l : list Z) : option Z :=
  match l with
  | [] => None
  | 43 :: t => match t with [] => None | _ => parse_digits w 0 t end
  | _ => parse_digits w 0 l
  end.

(** ** State *)
Record MarkerEvidence := mkMarkerEvidence {
  me_ready : bool;
  me_rejected : bool;
  me_panic : bool;
  me_terminal_code : option string
}.

Record ProtocolTrace := mkProtocolTrace {
  pt_markers : MarkerEvidence;
  pt_violation : option string
}.

Definition ProtocolTrace_new (log_truncated : bool) : ProtocolTrace :=
  {| pt_markers := mkMarkerEvidence false false false None;
     pt_violation := if log_truncated
                     then Some "debugcon exceeded the bounded protocol log size"%string else None |}.

(** The first violation is kept. *)
Definition reject (t : ProtocolTrace) (reason : string) : ProtocolTrace :=
  match pt_violation t with
  | None => {| pt_markers := pt_markers t; pt_violation := Some reason |}
  | Some _ => t
  end.

Inductive TraceState := Start | LoaderStarted | ElfValidated | HandoffReadyState | Terminal.

Inductive RecordKind :=
| LoaderStart | ElfValid | HandoffReady | Ready_ | AbiVersion | ContractLength | ContractInvalid
| Panic_ | LoaderFailureSequence2 | LoaderFailureSequence3 | LoaderFailureSequence4.

#[global] Instance RecordKind_eq_dec : EqDecision RecordKind.
Proof. solve_decision. Defined.

(** The mutable arguments of [process_protocol_line]. *)
Record Session := mkSession {
  ss_state : TraceState;
  ss_last_sequence : option Z;
  ss_trace : ProtocolTrace
}.

Definition session_reject (s : Session) (reason : string) : Session :=
  {| ss_state := ss_state s; ss_last_sequence := ss_last_sequence s;
     ss_trace := reject (ss_trace s) reason |}.

(** ** One record *)
Definition POLYTOPE_BOOT : list Z := ascii_bytes "POLYTOPE_BOOT".

(** [fields[k][n..]] is in range once [fields[k]] has its prefix. *)
Definition valid_record_grammar (line : list Z) : bool :=
  if negb (forallb (fun b => b <? 128) line) then false else
  match split_on 32 line with
  | [f0; f1; f2; f3; f4; f5] =>
      if negb (bool_decide (f0 = POLYTOPE_BOOT)) || negb (bool_decide (f1 = ascii_bytes "schema=1"))
         || negb (starts_with (ascii_bytes "seq=") f2) || negb (starts_with (ascii_bytes "phase=") f3)
         || negb (starts_with (ascii_bytes "level=") f4) || negb (starts_with (ascii_bytes "code=") f5)
      then false
      else
        let sequence := drop 4 f2 in
        let phase := drop 6 f3 in
        let level := drop 6 f4 in
        let code := drop 5 f5 in
        (len sequence =? 4) && forallb is_ascii_digit sequence
        && negb (bool_decide (phase = []))
        && forallb (fun b => is_ascii_lowercase b || is_ascii_digit b || (b =? 95)) phase
        && (bool_decide (level = ascii_bytes "info") || bool_decide (level = ascii_bytes "error")
            || bool_decide (level = ascii_bytes "fatal"))
        && negb (bool_decide (code = []))
        && forallb (fun b => is_ascii_uppercase b || is_ascii_digit b || (b =? 95)) code
  | _ => false
  end.

Definition record_sequence (line : list Z) : option Z :=
  field ← split_on 32 line !! 2%nat;
  digits ← strip_prefix (ascii_bytes "seq=") field;
  parse_uint 16 digits.

Definition loader_failure_kind (line : list Z) : option RecordKind :=
  if bool_decide (line ∈ SEQUENCE_2_RECORDS) then Some LoaderFailureSequence2
  else if bool_decide (line ∈ SEQUENCE_3_RECORDS) then Some LoaderFailureSequence3
  else if bool_decide (line ∈ SEQUENCE_4_RECORDS) then Some LoaderFailureSequence4
  else None.

Definition record_kind (line : list Z) : option RecordKind :=
  if bool_decide (line = LOADER_START_MARKER) then Some LoaderStart
  else if bool_decide (line = ELF_VALID_MARKER) then Some ElfValid
  else if bool_decide (line = HANDOFF_READY_MARKER) then Some HandoffReady
  else if bool_decide (line = READY_MARKER) then Some Ready_
  else if bool_decide (line = BAD_VERSION_MARKER) then Some AbiVersion
  else if bool_decide (line = TRUNCATED_MARKER) then Some ContractLength
  else if bool_decide (line = CONTRACT_INVALID_MARKER) then Some ContractInvalid
  else if bool_decide (line = PANIC_MARKER) then Some Panic_
  else loader_failure_kind line.

(** The marker fields set by a terminal kernel record. *)
Definition set_markers (m : MarkerEvidence) (kind : RecordKind) : MarkerEvidence :=
  match kind with
  | Ready_ => mkMarkerEvidence true (me_rejected m) (me_panic m) (Some "KERNEL_READY"%string)
  | AbiVersion => mkMarkerEvidence (me_ready m) true (me_panic m) (Some "ABI_VERSION"%string)
  | ContractLength => mkMarkerEvidence (me_ready m) true (me_panic m) (Some "CONTRACT_LENGTH"%string)
  | ContractInvalid => mkMarkerEvidence (me_ready m) true (me_panic m) (Some "CONTRACT_INVALID"%string)
  | Panic_ => mkMarkerEvidence (me_ready m) (me_rejected m) true (Some "KERNEL_PANIC"%string)
  | _ => m
  end.

(** The [match] on the state and the kind of record. *)
Definition trace_transition (state : TraceState) (kind : RecordKind) : option TraceState :=
  match state, kind with
  | Start, LoaderStart => Some LoaderStarted
  | LoaderStarted, ElfValid => Some ElfValidated
  | LoaderStarted, LoaderFailureSequence2
  | ElfValidated, LoaderFailureSequence3
  | HandoffReadyState, LoaderFailureSequence4 => Some Terminal
  | ElfValidated, HandoffReady => Some HandoffReadyState
  | HandoffReadyState, (Ready_ | AbiVersion | ContractLength | ContractInvalid | Panic_) =>
      Some Terminal
  | _, _ => None
  end.

Definition process_protocol_line (line : list Z) (s : Session) : Session :=
  if negb (starts_with POLYTOPE_BOOT line) then s
  else if MAX_DIAGNOSTIC_RECORD_BYTES <? len line then
    session_reject s "overlong diagnostic record"
  else if negb (valid_record_grammar line) then session_reject s "malformed diagnostic record"
  else match record_sequence line with
  | None => session_reject s "malformed diagnostic sequence"
  | Some sequence =>
      if match ss_last_sequence s with Some previous => sequence <=? previous | None => false end
      then session_reject s "duplicate or out-of-order diagnostic sequence"
      else
        let s := {| ss_state := ss_state s; ss_last_sequence := Some sequence;
                    ss_trace := ss_trace s |} in
        match record_kind line with
        | None => session_reject s "unknown schema-1 diagnostic record"
        | Some kind =>
            match trace_transition (ss_state s) kind with
            | Some next =>
                {| ss_state := next; ss_last_sequence := ss_last_sequence s;
                   ss_trace := {| pt_markers := set_markers (pt_markers (ss_trace s)) kind;
                                  pt_violation := pt_violation (ss_trace s) |} |}
            | None => session_reject s "duplicate or out-of-order diagnostic record"
            end
        end
  end.

(** ** The stream *)

(** [for (index, &byte) in bytes.iter().enumerate()], with [line_start] and the
    mutable state; slicing outside the log would panic. *)
Fixpoint stream_loop (bytes rest : list Z) (index line_start : Z) (s : Session)
    : exec unit (Z * Session) :=
  match rest with
  | [] => Ok (line_start, s)
  | byte :: rest =>
      if negb (byte =? LF) then stream_loop bytes rest (index + 1) line_start s
      else
        line ← index_range bytes line_start index;
        let s := process_protocol_line (strip_cr line) s in
        stream_loop bytes rest (index + 1) (index + 1) s
  end.

Definition parse_protocol_stream (bytes : list Z) (log_truncated : bool) : exec unit ProtocolTrace :=
  '(line_start, s) ← stream_loop bytes bytes 0 0
     {| ss_state := Start; ss_last_sequence := None; ss_trace := ProtocolTrace_new log_truncated |};
  let trace := ss_trace s in
  if line_start <? len bytes then
    partial ← index_range bytes line_start (len bytes);
    Ok (if starts_with POLYTOPE_BOOT partial then reject trace "truncated diagnostic record"
        else trace)
  else Ok trace.

(** ** Classification *)
Inductive BootClassification :=
| Ready | Rejected | Panicked_ | Timeout_ | UnexpectedExit | MissingMarker | LoaderFailed.
#[global] Instance BootClassification_eq_dec : EqDecision BootClassification.
Proof. solve_decision. Defined.

Definition classify_boot (timed_out : bool) (exit_status : option Z) (trace : ProtocolTrace)
    : BootClassification :=
  if timed_out then Timeout_
  else if bool_decide (is_Some (pt_violation trace)) then UnexpectedExit
  else match me_ready (pt_markers trace), me_rejected (pt_markers trace),
             me_panic (pt_markers trace), exit_status with
  | true, false, false, Some status =>
      if status =? READY_EXIT_STATUS then Ready else UnexpectedExit
  | false, true, false, Some status =>
      if status =? REJECT_EXIT_STATUS then Rejected else UnexpectedExit
  | false, false, true, Some status =>
      if status =? PANIC_EXIT_STATUS then Panicked_ else UnexpectedExit
  | false, false, false, Some status =>
      if status =? 69 then LoaderFailed
      else if (status =? READY_EXIT_STATUS) || (status =? REJECT_EXIT_STATUS)
              || (status =? PANIC_EXIT_STATUS) then MissingMarker
      else UnexpectedExit
  | _, _, _, _ => UnexpectedExit
  end.
