(* ===== verification/ProtocolProps.v ===== *)
(** Theorems about the host's protocol parser: it accepts exactly the logs of
    the boot state machine, and its classification is sound. *)

From S2P Require Import Prelude Bytes Console Protocol.

(** ** Lines of a log *)

(** The complete lines, and the unterminated rest; [current] is the line read
    so far. *)
Fixpoint lines_acc (current l : list Z) : list (list Z) * list Z :=
  match l with
  | [] => ([], current)
  | b :: t => if b =? LF then let '(ls, p) := lines_acc [] t in (current :: ls, p)
              else lines_acc (current ++ [b]) t
  end.

Definition lines_of (bytes : list Z) : list (list Z) * list Z := lines_acc [] bytes.

(** The complete lines that claim to be diagnostic records, without CR. *)
Definition protocol_lines (bytes : list Z) : list (list Z) :=
  filter (fun l => starts_with POLYTOPE_BOOT l = true) (strip_cr <$> (lines_of bytes).1).

(** An unterminated record at the end of the log. *)
Definition cut_record (bytes : list Z) : bool := starts_with POLYTOPE_BOOT (lines_of bytes).2.

Definition run_lines (ls : list (list Z)) (s : Session) : Session :=
  foldl (fun s line => process_protocol_line (strip_cr line) s) s ls.

Lemma stream_loop_exact rest : forall pre current s,
  stream_loop (pre ++ current ++ rest) rest (len (pre ++ current)) (len pre) s =
  let '(ls, p) := lines_acc current rest in
  Ok (len (pre ++ current ++ rest) - len p, run_lines ls s).
Proof.
  induction rest as [|b rest IH]; intros pre current s; cbn [stream_loop lines_acc].
  { rewrite app_nil_r, length_app. do 2 f_equal. lia. }
  destruct (Z.eqb_spec b LF) as [->|Hb]; cbn [negb].
  - rewrite index_range_exact by (rewrite !length_app; lia). cbn [mbind exec_bind].
    replace (len (pre ++ current) - len pre) with (len current) by (rewrite length_app; lia).
    rewrite sub_list_app_mid.
    pose proof (IH (pre ++ current ++ [LF]) [] (process_protocol_line (strip_cr current) s)) as H.
    rewrite app_nil_r in H. cbn [app] in H. rewrite <- !app_assoc in H. cbn [app] in H.
    replace (len (pre ++ current ++ [LF])) with (len (pre ++ current) + 1) in H
      by (rewrite !length_app; cbn [length]; lia).
    rewrite H. by destruct (lines_acc [] rest) as [ls p].
  - pose proof (IH pre (current ++ [b]) s) as H. rewrite <- !app_assoc in H. cbn [app] in H.
    rewrite <- H. f_equal. rewrite !length_app. cbn [length]. lia.
Qed.

(** Slicing never leaves the log; the parser is a fold over the lines. *)
Lemma parse_stream_exact bytes truncated :
  parse_protocol_stream bytes truncated =
  Ok (let s := run_lines (lines_of bytes).1
        {| ss_state := Start; ss_last_sequence := None; ss_trace := ProtocolTrace_new truncated |} in
      if cut_record bytes then reject (ss_trace s) "truncated diagnostic record" else ss_trace s).
Proof.
  unfold parse_protocol_stream, cut_record, lines_of.
  pose proof (stream_loop_exact bytes [] []) as H. cbn [app length] in H.
  change (Z.of_nat 0) with 0 in H. rewrite H. clear H.
  assert (forall current l, exists pre, current ++ l = pre ++ (lines_acc current l).2) as Hsuf.
  { intros current l. revert current. induction l as [|b l IH]; intros current; cbn [lines_acc].
    - exists []. by rewrite app_nil_r.
    - destruct (b =? LF).
      + destruct (IH []) as [pre Hp]. destruct (lines_acc [] l) as [ls p]. cbn [snd app] in *.
        exists (current ++ b :: pre). rewrite <- app_assoc. cbn. by rewrite Hp.
      + destruct (IH (current ++ [b])) as [pre Hp]. exists pre. rewrite <- Hp.
        by rewrite <- app_assoc. }
  destruct (Hsuf [] bytes) as [pre Hp]. cbn [app] in Hp.
  destruct (lines_acc [] bytes) as [ls p]. cbn [mbind exec_bind fst snd] in *.
  destruct p as [|x p].
  - cbn [length]. rewrite Z.sub_0_r, Z.ltb_irrefl. done.
  - rewrite (proj2 (Z.ltb_lt _ _)) by (cbn [length]; lia).
    rewrite Hp at 2 3. rewrite Hp. rewrite index_range_exact by (rewrite !length_app; lia).
    cbn [mbind exec_bind]. do 2 f_equal.
    replace (len (pre ++ x :: p) - len (x :: p)) with (len pre) by (rewrite length_app; lia).
    replace (len (pre ++ x :: p) - len pre) with (len (x :: p)) by (rewrite length_app; lia).
    pose proof (sub_list_app_mid pre (x :: p) []) as Hs. rewrite app_nil_r in Hs. by rewrite Hs.
Qed.

(** ** Known records *)

(** The sequence number of each kind. *)
Definition kind_sequence (kind : RecordKind) : Z :=
  match kind with
  | LoaderStart => 1
  | ElfValid | LoaderFailureSequence2 => 2
  | HandoffReady | LoaderFailureSequence3 => 3
  | Ready_ | AbiVersion | ContractLength | ContractInvalid | LoaderFailureSequence4 => 4
  | Panic_ => 5
  end.

(** The record a kind stands for (the kernel's and the progress records). *)
Definition well_formed (line : list Z) (kind : RecordKind) : bool :=
  starts_with POLYTOPE_BOOT line && (len line <=? MAX_DIAGNOSTIC_RECORD_BYTES)
  && valid_record_grammar line && bool_decide (record_sequence line = Some (kind_sequence kind)).

(** Every record the host knows is a well-formed one with the sequence number
    of its kind. *)
Lemma known_record line kind : record_kind line = Some kind -> well_formed line kind = true.
Proof.
  unfold record_kind, loader_failure_kind. intros H.
  repeat match type of H with (if bool_decide ?P then _ else _) = _ =>
    let E := fresh "E" in destruct (bool_decide P) eqn:E;
    [apply bool_decide_eq_true in E; injection H as <-; revert E|clear E] end.
  1-8: intros ->; vm_compute; reflexivity.
  1-3: revert line; apply Forall_forall; by_decide.
  done.
Qed.

Lemma known_record_facts line kind :
  record_kind line = Some kind ->
  starts_with POLYTOPE_BOOT line = true /\ len line <= MAX_DIAGNOSTIC_RECORD_BYTES /\
  valid_record_grammar line = true /\ record_sequence line = Some (kind_sequence kind).
Proof.
  intros H%known_record. unfold well_formed in H.
  rewrite !andb_true_iff, Z.leb_le, bool_decide_eq_true in H. tauto.
Qed.

(** ** The boot state machine *)

(** A log of records that drives the machine from [st] to [st']. *)
Inductive path : TraceState -> list (list Z) -> TraceState -> Prop :=
| path_nil st : path st [] st
| path_cons st line kind st' rest st'' :
    record_kind line = Some kind -> trace_transition st kind = Some st' ->
    path st' rest st'' -> path st (line :: rest) st''.

(** The sequence number a violation-free session last saw. *)
Definition state_sequence (st : TraceState) (last : option Z) : Prop :=
  match st with
  | Start => last = None
  | LoaderStarted => last = Some 1
  | ElfValidated => last = Some 2
  | HandoffReadyState => last = Some 3
  | Terminal => True
  end.

Definition session_ok (s : Session) : Prop :=
  pt_violation (ss_trace s) = None /\ state_sequence (ss_state s) (ss_last_sequence s).

(** The markers set along a log. *)
Definition path_markers (m : MarkerEvidence) (ls : list (list Z)) : MarkerEvidence :=
  foldl (fun m line => match record_kind line with Some k => set_markers m k | None => m end) m ls.

(** A record the machine accepts raises no objection of the sequence check. *)
Lemma sequence_accepted st kind st' last :
  trace_transition st kind = Some st' -> state_sequence st last ->
  match last with Some previous => kind_sequence kind <=? previous | None => false end = false /\
  state_sequence st' (Some (kind_sequence kind)).
Proof. destruct st, kind; simpl; intros [= <-]; simpl; intros ->; done. Qed.

Lemma process_accepts line kind st' s :
  session_ok s -> record_kind line = Some kind -> trace_transition (ss_state s) kind = Some st' ->
  let s' := process_protocol_line line s in
  session_ok s' /\ ss_state s' = st' /\
  pt_markers (ss_trace s') = set_markers (pt_markers (ss_trace s)) kind.
Proof.
  intros [Hv Hs] Hk Ht. destruct (known_record_facts line kind Hk) as (Hp & Hl & Hg & Hq).
  destruct (sequence_accepted _ _ _ _ Ht Hs) as [Hseq Hst].
  unfold process_protocol_line. rewrite Hp, (proj2 (Z.ltb_ge _ _) Hl), Hg, Hq. cbn [negb].
  rewrite Hseq, Hk. cbn [ss_state]. rewrite Ht. by split_and!; [split| |].
Qed.

(** Anything else that looks like a record is a violation. *)
Lemma process_rejects line s :
  starts_with POLYTOPE_BOOT line = true ->
  (forall kind, record_kind line = Some kind -> trace_transition (ss_state s) kind = None) ->
  is_Some (pt_violation (ss_trace (process_protocol_line line s))).
Proof.
  intros Hp Hno. unfold process_protocol_line. rewrite Hp. cbn [negb].
  assert (forall s r, is_Some (pt_violation (ss_trace (session_reject s r)))) as Hr.
  { intros s' r. unfold session_reject, reject. cbn [ss_trace].
    destruct (pt_violation (ss_trace s')) eqn:E; [rewrite E|]; eauto. }
  destruct (MAX_DIAGNOSTIC_RECORD_BYTES <? len line); [apply Hr|].
  destruct (valid_record_grammar line); cbn [negb]; [|apply Hr].
  destruct (record_sequence line) as [q|]; [|apply Hr].
  destruct (match ss_last_sequence s with Some previous => q <=? previous | None => false end);
    [apply Hr|].
  destruct (record_kind line) as [kind|] eqn:Hk; [|apply Hr]. cbn [ss_state].
  rewrite (Hno kind eq_refl). apply Hr.
Qed.

(** A violation is never forgotten. *)
Lemma process_keeps line s :
  is_Some (pt_violation (ss_trace s)) ->
  is_Some (pt_violation (ss_trace (process_protocol_line line s))).
Proof.
  intros Hv. unfold process_protocol_line.
  assert (forall t r, pt_violation (ss_trace t) = pt_violation (ss_trace s) ->
    is_Some (pt_violation (ss_trace (session_reject t r)))) as Hr.
  { intros t r Ht. unfold session_reject, reject. cbn [ss_trace].
    destruct (pt_violation (ss_trace t)) eqn:E; [by rewrite E, Ht|]. eauto. }
  repeat case_match; try done; by apply Hr.
Qed.

Lemma run_keeps ls : forall s,
  is_Some (pt_violation (ss_trace s)) -> is_Some (pt_violation (ss_trace (run_lines ls s))).
Proof. induction ls as [|l ls IH]; intros s Hs; [done|]. by apply IH, process_keeps. Qed.

(** The session after a log is violation-free exactly when its records drive
    the machine. *)
Lemma run_lines_iff ls : forall s,
  session_ok s ->
  let ps := filter (fun l => starts_with POLYTOPE_BOOT l = true) (strip_cr <$> ls) in
  let s' := run_lines ls s in
  (pt_violation (ss_trace s') = None <-> exists st, path (ss_state s) ps st) /\
  (pt_violation (ss_trace s') = None ->
     pt_markers (ss_trace s') = path_markers (pt_markers (ss_trace s)) ps).
Proof.
  induction ls as [|l ls IH]; intros s Hs ps s'.
  { split; [|done]. split; [intros _; eexists; constructor|]. intros _. apply Hs. }
  subst ps s'. cbn [fmap list_fmap].
  change (run_lines (l :: ls) s) with (run_lines ls (process_protocol_line (strip_cr l) s)).
  set (line := strip_cr l). destruct (starts_with POLYTOPE_BOOT line) eqn:Hp.
  2: { rewrite filter_cons_False by (by rewrite Hp).
       replace (process_protocol_line line s) with s
         by (unfold process_protocol_line; by rewrite Hp). by apply IH. }
  rewrite filter_cons_True by done.
  destruct (record_kind line) as [kind|] eqn:Hk;
    [destruct (trace_transition (ss_state s) kind) as [st'|] eqn:Ht|].
  - destruct (process_accepts line kind st' s Hs Hk Ht) as (Hs' & Hst & Hm).
    destruct (IH _ Hs') as [IH1 IH2]. rewrite Hst in IH1. rewrite Hm in IH2. split.
    + rewrite IH1. split; intros [st H]; exists st; [by econstructor|].
      inversion H; subst. by simplify_eq.
    + intros H. cbn [path_markers foldl]. rewrite Hk. by apply IH2.
  - assert (is_Some (pt_violation (ss_trace (process_protocol_line line s)))) as Hv
      by (apply process_rejects; [done|]; intros k Hk'; by simplify_eq).
    apply (run_keeps ls) in Hv as [r Hr]. rewrite Hr. split; [|done]. split; [done|].
    intros [st H]. inversion H; subst. by simplify_eq.
  - assert (is_Some (pt_violation (ss_trace (process_protocol_line line s)))) as Hv
      by (apply process_rejects; [done|]; intros k Hk'; by simplify_eq).
    apply (run_keeps ls) in Hv as [r Hr]. rewrite Hr. split; [|done]. split; [done|].
    intros [st H]. inversion H; subst. by simplify_eq.
Qed.

(** ** The accepted logs, spelled out *)

(** The lines of a kind. *)
Definition kind_lines (kind : RecordKind) : list (list Z) :=
  match kind with
  | LoaderStart => [LOADER_START_MARKER]
  | ElfValid => [ELF_VALID_MARKER]
  | HandoffReady => [HANDOFF_READY_MARKER]
  | Ready_ => [READY_MARKER]
  | AbiVersion => [BAD_VERSION_MARKER]
  | ContractLength => [TRUNCATED_MARKER]
  | ContractInvalid => [CONTRACT_INVALID_MARKER]
  | Panic_ => [PANIC_MARKER]
  | LoaderFailureSequence2 => SEQUENCE_2_RECORDS
  | LoaderFailureSequence3 => SEQUENCE_3_RECORDS
  | LoaderFailureSequence4 => SEQUENCE_4_RECORDS
  end.

Lemma record_kind_lines line kind : record_kind line = Some kind -> line ∈ kind_lines kind.
Proof.
  unfold record_kind, loader_failure_kind. intros H.
  repeat match type of H with (if bool_decide ?P then _ else _) = _ =>
    let E := fresh "E" in destruct (bool_decide P) eqn:E;
    [apply bool_decide_eq_true in E; injection H as <-; revert E|clear E] end.
  1-8: intros ->; by left.
  1-3: done.
  done.
Qed.

(** A terminal kernel record, with the classification and status it calls for. *)
Definition kernel_kind (kind : RecordKind) : option (BootClassification * Z) :=
  match kind with
  | Ready_ => Some (Ready, READY_EXIT_STATUS)
  | AbiVersion | ContractLength | ContractInvalid => Some (Rejected, REJECT_EXIT_STATUS)
  | Panic_ => Some (Panicked_, PANIC_EXIT_STATUS)
  | _ => None
  end.

Definition no_markers : MarkerEvidence := mkMarkerEvidence false false false None.

(** The records before the kernel speaks. *)
Definition handoff_lines : list (list Z) :=
  [LOADER_START_MARKER; ELF_VALID_MARKER; HANDOFF_READY_MARKER].

Lemma path_Terminal ps st : path Terminal ps st -> ps = [].
Proof. inversion 1 as [|? ? k ? ? ? ? Ht]; subst; [done|]. by destruct k. Qed.

Lemma singleton_line (line x : list Z) : line ∈ [x] -> line = x.
Proof. apply list_elem_of_singleton. Qed.

(** The transitions out of each state. *)
Lemma start_next k st : trace_transition Start k = Some st -> k = LoaderStart /\ st = LoaderStarted.
Proof. destruct k; simpl; intros; by simplify_eq. Qed.
Lemma started_next k st : trace_transition LoaderStarted k = Some st ->
  (k = ElfValid /\ st = ElfValidated) \/ (k = LoaderFailureSequence2 /\ st = Terminal).
Proof. destruct k; simpl; intros; simplify_eq; auto. Qed.
Lemma validated_next k st : trace_transition ElfValidated k = Some st ->
  (k = HandoffReady /\ st = HandoffReadyState) \/ (k = LoaderFailureSequence3 /\ st = Terminal).
Proof. destruct k; simpl; intros; simplify_eq; auto. Qed.
Lemma handoff_next k st : trace_transition HandoffReadyState k = Some st ->
  st = Terminal /\ (k = LoaderFailureSequence4 \/ is_Some (kernel_kind k)).
Proof. destruct k; simpl; intros; simplify_eq; eauto. Qed.

(** Either the kernel never spoke and no marker is set, or the log is the three
    handoff records and one kernel record, whose marker is set. *)
Lemma path_outcome ps st :
  path Start ps st ->
  path_markers no_markers ps = no_markers \/
  exists line kind, ps = handoff_lines ++ [line] /\ record_kind line = Some kind /\
    is_Some (kernel_kind kind) /\ path_markers no_markers ps = set_markers no_markers kind.
Proof.
  inversion 1 as [|? l1 k1 s1 r1 ? Hk1 Ht1 H1]; subst; [by left|].
  apply start_next in Ht1 as [-> ->]. pose proof (record_kind_lines _ _ Hk1) as ->%singleton_line.
  inversion H1 as [|? l2 k2 s2 r2 ? Hk2 Ht2 H2]; subst; [left; vm_compute; reflexivity|].
  apply started_next in Ht2 as [[-> ->]|[-> ->]].
  2: { apply path_Terminal in H2 as ->. left. unfold path_markers. cbn [foldl]. by rewrite Hk1, Hk2. }
  pose proof (record_kind_lines _ _ Hk2) as ->%singleton_line.
  inversion H2 as [|? l3 k3 s3 r3 ? Hk3 Ht3 H3]; subst; [left; vm_compute; reflexivity|].
  apply validated_next in Ht3 as [[-> ->]|[-> ->]].
  2: { apply path_Terminal in H3 as ->. left. unfold path_markers. cbn [foldl].
       by rewrite Hk1, Hk2, Hk3. }
  pose proof (record_kind_lines _ _ Hk3) as ->%singleton_line.
  inversion H3 as [|? l4 k4 s4 r4 ? Hk4 Ht4 H4]; subst; [left; vm_compute; reflexivity|].
  apply handoff_next in Ht4 as [-> Hk]. apply path_Terminal in H4 as ->.
  assert (path_markers no_markers (handoff_lines ++ [l4]) = set_markers no_markers k4) as Hm
    by (unfold path_markers; cbn [foldl handoff_lines app]; by rewrite Hk1, Hk2, Hk3, Hk4).
  destruct Hk as [->|Hk]; [left; exact Hm|right]. by exists l4, k4.
Qed.

(** ** Properties *)

(** C30. The protocol parser accepts exactly the boot state machine: a log is free
    of violations if and only if its record lines, in order, drive the machine
    from its start, and no record is cut off at the end.  Prose lines and CR
    line ends do not matter; slicing never leaves the log. *)
Theorem protocol_accepts_exactly_machine_logs (bytes : list Z) :
  exists trace, parse_protocol_stream bytes false = Ok trace /\
    (pt_violation trace = None <->
     (exists st, path Start (protocol_lines bytes) st) /\ cut_record bytes = false).
Proof.
  eexists. split; [apply parse_stream_exact|].
  destruct (run_lines_iff (lines_of bytes).1
    {| ss_state := Start; ss_last_sequence := None; ss_trace := ProtocolTrace_new false |})
    as [Hiff _]; [done|]. fold (protocol_lines bytes) in Hiff. cbn [ss_state] in Hiff.
  rewrite <- Hiff. cbv zeta. destruct (cut_record bytes); [|tauto]. unfold reject.
  split; [|naive_solver]. by destruct (pt_violation _) eqn:E; cbn [pt_violation]; rewrite ?E.
Qed.

(** The trace of a log, when it is violation-free. *)
Lemma trace_of_log bytes truncated trace :
  parse_protocol_stream bytes truncated = Ok trace -> pt_violation trace = None ->
  truncated = false /\ cut_record bytes = false /\
  exists st, path Start (protocol_lines bytes) st /\
    pt_markers trace = path_markers no_markers (protocol_lines bytes).
Proof.
  rewrite parse_stream_exact. intros [= <-]. cbv zeta.
  set (s := run_lines _ _). destruct (cut_record bytes).
  { unfold reject. by destruct (pt_violation (ss_trace s)) eqn:E; cbn [pt_violation]; rewrite ?E. }
  intros Hv. destruct truncated.
  { destruct (run_keeps (lines_of bytes).1 {| ss_state := Start; ss_last_sequence := None;
      ss_trace := ProtocolTrace_new true |}) as [r Hr]; [by eexists|]. fold s in Hr. congruence. }
  destruct (run_lines_iff (lines_of bytes).1 {| ss_state := Start; ss_last_sequence := None;
      ss_trace := ProtocolTrace_new false |}) as [Hiff Hm]; [done|]. fold s in Hiff, Hm.
  split; [done|]. split; [done|]. destruct (proj1 Hiff Hv) as [st Hst]. exists st.
  split; [exact Hst|]. by apply Hm.
Qed.

(** A boot is classified as ready, rejected or panicked only on the status that
    goes with the markers. *)
Lemma classify_markers status trace c :
  pt_violation trace = None -> c ∈ [Ready; Rejected; Panicked_] ->
  (pt_markers trace = no_markers -> classify_boot false status trace <> c) /\
  (forall kind class st, kernel_kind kind = Some (class, st) ->
     pt_markers trace = set_markers no_markers kind ->
     classify_boot false status trace = c <-> class = c /\ status = Some st).
Proof.
  intros Hv Hc. unfold classify_boot. rewrite Hv.
  rewrite (bool_decide_eq_false_2 (is_Some None)) by (by intros [? ?]).
  rewrite !elem_of_cons, elem_of_nil in Hc. split.
  - intros ->. cbn [no_markers me_ready me_rejected me_panic].
    destruct status as [st|]; repeat case_match; naive_solver.
  - intros kind class st Hk ->. unfold READY_EXIT_STATUS, REJECT_EXIT_STATUS, PANIC_EXIT_STATUS in *.
    destruct kind; cbn in Hk; simplify_eq; cbn;
      (destruct status as [n|]; [|naive_solver]);
      match goal with |- context [n =? ?k] => destruct (Z.eqb_spec n k) end; naive_solver.
Qed.

(** C7. The kernel classifications are exact: a log is classified as ready,
    rejected or panicked if and only if the run did not time out, the log was
    not truncated, its records are the three handoff records followed by one
    kernel record of that class and nothing else, and QEMU's status is the one
    that belongs to it. *)
Theorem kernel_classification_is_exact (bytes : list Z) (truncated timed_out : bool)
    (status : option Z) (trace : ProtocolTrace) (c : BootClassification) :
  parse_protocol_stream bytes truncated = Ok trace -> c ∈ [Ready; Rejected; Panicked_] ->
  classify_boot timed_out status trace = c <->
  timed_out = false /\ truncated = false /\ cut_record bytes = false /\
  exists line kind st, protocol_lines bytes = handoff_lines ++ [line] /\
    record_kind line = Some kind /\ kernel_kind kind = Some (c, st) /\ status = Some st.
Proof.
  intros Hp Hc. destruct timed_out.
  { split; [|naive_solver]. cbn. intros <-. by rewrite !elem_of_cons, elem_of_nil in Hc; naive_solver. }
  destruct (pt_violation trace) as [r|] eqn:Hv.
  - split.
    { unfold classify_boot. rewrite Hv, bool_decide_eq_true_2 by (by eexists). intros <-.
      rewrite !elem_of_cons, elem_of_nil in Hc. naive_solver. }
    intros (_ & -> & Hcut & line & kind & st & Hl & Hk & Hkk & _). exfalso.
    rewrite parse_stream_exact, Hcut in Hp. injection Hp as <-.
    destruct (run_lines_iff (lines_of bytes).1 {| ss_state := Start; ss_last_sequence := None;
      ss_trace := ProtocolTrace_new false |}) as [Hiff _]; [done|].
    rewrite (proj2 Hiff) in Hv; [done|]. fold (protocol_lines bytes). rewrite Hl. cbn [ss_state].
    exists Terminal. eapply path_cons; [reflexivity|reflexivity|].
    eapply path_cons; [reflexivity|reflexivity|]. eapply path_cons; [reflexivity|reflexivity|].
    eapply path_cons; [exact Hk| |constructor]. by destruct kind.
  - destruct (trace_of_log _ _ _ Hp Hv) as (-> & -> & s & Hpath & Hm).
    destruct (classify_markers status trace c Hv Hc) as [Hnone Hsome].
    destruct (path_outcome _ _ Hpath) as [Ho|(line & kind & Hl & Hk & [[class st] Hkk] & Ho)].
    + split; [intros H; by destruct (Hnone ltac:(congruence))|].
      intros (_ & _ & _ & line & kind & st & Hl & Hk & Hkk & _). exfalso. rewrite Hl in Ho.
      unfold path_markers in Ho. rewrite foldl_snoc, Hk in Ho. by destruct kind.
    + rewrite (Hsome kind class st Hkk ltac:(congruence)). split.
      * intros [-> ->]. split_and!; try done. by exists line, kind, st.
      * intros (_ & _ & _ & line' & kind' & st' & Hl' & Hk' & Hkk' & ->).
        rewrite Hl in Hl'. apply app_inv_head in Hl'. by simplify_eq.
Qed.

(** A normal log: prose, the four records, one of them with a CR. *)
Definition sample_log : list Z :=
  ascii_bytes "BdsDxe: starting" ++ [LF] ++ LOADER_START_MARKER ++ [CR; LF] ++
  ELF_VALID_MARKER ++ [LF] ++ HANDOFF_READY_MARKER ++ [LF] ++ READY_MARKER ++ [LF].

Definition sample_trace : ProtocolTrace :=
  {| pt_markers := mkMarkerEvidence true false false (Some "KERNEL_READY"%string);
     pt_violation := None |}.

Lemma kernel_classification_is_exact_witness :
  classify_boot false (Some 33) sample_trace = Ready /\
  exists line kind st, protocol_lines sample_log = handoff_lines ++ [line] /\
    record_kind line = Some kind /\ kernel_kind kind = Some (Ready, st) /\ Some 33 = Some st.
Proof.
  split; [reflexivity|].
  apply (kernel_classification_is_exact sample_log false false (Some 33) sample_trace Ready).
  - vm_compute. reflexivity.
  - apply elem_of_cons. left. reflexivity.
  - reflexivity.
Defined.
