(* ===== verification/Pipeline.v ===== *)
(** The boot as a whole: the loader (uefi-loader), the entry shim
    (arch/x86_64/boot/entry.S), the kernel and the host's classification of
    what the guest wrote (xtask), composed. *)

From S2P Require Import Prelude Bytes Console Memory Scenario Kernel Loader.
From S2P Require Import LoaderContract LoaderProps.
From S2P Require BootElf ElfSpec ElfProps.
From S2P Require Import Protocol ProtocolProps.

(** ** The entry shim *)

(** The addresses the linker script defines. *)
Record Layout := mkLayout {
  bss_start : Z;
  bss_end : Z;
  bss_probe : Z
}.

Definition PROBE_VALUE : Z := 0x50544f5342535354.

(** [polytope_kernel_entry]: poison the probe, clear .bss, check the probe, and
    call the kernel with the pointer and length it was given.  The kernel never
    returns, so the exit with status 0x23 after the call is not reached. *)
Definition polytope_kernel_entry (lsr : nat -> Z) (ld : Layout) (mem : memory) (rdi rsi : Z)
    (m : Machine) : Machine :=
  let mem := copy_at (bss_probe ld) (to_le_bytes 8 PROBE_VALUE) mem in
  let mem := write_bytes_at (bss_start ld) 0 (bss_end ld - bss_start ld) mem in
  if negb (from_le_bytes (slice_at mem (bss_probe ld) 8) =? 0)
  then out_u32 QEMU_EXIT 0x22 m
  else polytope_kernel_main lsr mem rdi rsi m.

Definition layout_ok (ld : Layout) : Prop :=
  bss_start ld <= bss_probe ld /\ bss_probe ld + 8 <= bss_end ld.

(** ** The processor *)

(** What the machine does from a jump on: the address, the memory, [rdi], [rsi]
    and the devices at the jump, and the devices at the end. *)
Definition Processor : Type := Z -> memory -> Z -> Z -> Machine -> Machine.

(** The ELF file [kernel] is a build of this repository's kernel, linked with the
    layout [ld]: its .bss is in one of its segments, and a processor that enters it
    at its entry point, with the file's whole image in memory and the contract
    elsewhere, does what entry.S and the kernel's source say. *)
Class RunsKernel (execute : Processor) (lsr : nat -> Z) (kernel : list Z) (ld : Layout) : Prop := {
  rk_layout : layout_ok ld;
  rk_bss : exists s, s ∈ ElfSpec.segment_of kernel <$> ElfSpec.loads_of kernel /\
    BootElf.ls_physical_address s <= bss_start ld /\
    bss_end ld <= BootElf.ls_physical_address s + BootElf.ls_memory_size s;
  rk_runs mem contract n m : holds_image kernel mem -> apart_from kernel contract (contract + n) ->
    execute (BootElf.ve_entry_point (ElfSpec.validated kernel)) mem contract n m =
    polytope_kernel_entry lsr ld mem contract n m
}.

(** The firmware does not hand out the kernel's memory for the contract. *)
Definition grants_apart {F H} (fw : Firmware F H) (kernel : list Z) : Prop :=
  forall f p f', allocate_pages fw AnyPages CONTRACT_MEMORY_TYPE 2 f = (Some p, f') ->
    apart_from kernel p (p + 8192).

(** A boot from power-on, in the firmware state and memory [w]: the loader, and
    the processor from the loader's jump on. *)
Definition boot {F H} (fw : Firmware F H) (lsr : nat -> Z) (execute : Processor) (w : World) : Machine :=
  match main fw lsr w power_on with
  | LoaderExit m | ColdReset m => m
  | Transfer entry contract length mem m => execute entry mem contract length m
  end.

(** ** The entry shim is transparent *)
Section Entry.
Variables (lsr : nat -> Z) (ld : Layout).
Hypothesis Hld : layout_ok ld.

Lemma probe_cleared mem :
  from_le_bytes (slice_at (write_bytes_at (bss_start ld) 0 (bss_end ld - bss_start ld) mem)
    (bss_probe ld) 8) = 0.
Proof.
  destruct Hld. unfold slice_at, write_bytes_at. cbn [seq fmap list_fmap].
  rewrite !(proj2 (in_range_iff _ _ _)) by lia. reflexivity.
Qed.

(** The kernel sees the contract the loader wrote, if .bss lies elsewhere. *)
Lemma entry_calls_kernel mem contract n m :
  contract + Z.of_nat (Z.to_nat n) <= bss_start ld \/ bss_end ld <= contract ->
  exists mem', polytope_kernel_entry lsr ld mem contract n m =
      polytope_kernel_main lsr mem' contract n m /\
    slice_at mem' contract (Z.to_nat n) = slice_at mem contract (Z.to_nat n).
Proof.
  intros Hd. unfold polytope_kernel_entry. rewrite probe_cleared. cbn [negb Z.eqb].
  eexists. split; [reflexivity|]. apply slice_at_ext. intros a Ha. destruct Hld.
  unfold write_bytes_at, copy_at. change (len (to_le_bytes 8 PROBE_VALUE)) with 8.
  rewrite !(proj2 (in_range_false _ _ _)) by lia. done.
Qed.
End Entry.

(** ** The verdict depends on the contract bytes only *)
Lemma kernel_verdict_ext mem mem' contract n :
  slice_at mem contract (Z.to_nat n) = slice_at mem' contract (Z.to_nat n) ->
  kernel_verdict mem contract n = kernel_verdict mem' contract n.
Proof. intros H. unfold kernel_verdict. by rewrite H. Qed.

(** What the host should see for each scenario. *)
Definition expected_class (s : BootScenario) : BootClassification :=
  match s with
  | Normal => Ready
  | IncompatibleVersion | TruncatedContract => Rejected
  | DeliberatePanic => Panicked_
  end.

Definition expected_code (s : BootScenario) : string :=
  match s with
  | Normal => "KERNEL_READY"
  | IncompatibleVersion => "ABI_VERSION"
  | TruncatedContract => "CONTRACT_LENGTH"
  | DeliberatePanic => "KERNEL_PANIC"
  end.

(** The host's reading of a log, and of a status or a timeout. *)
Definition host_reads (timed_out : bool) (log : list Z) (status : option Z) (c : BootClassification)
    (code : option string) : Prop :=
  exists trace, parse_protocol_stream log false = Ok trace /\ pt_violation trace = None /\
    classify_boot timed_out status trace = c /\ me_terminal_code (pt_markers trace) = code.

Lemma failure_log_read e :
  e <> Contract -> host_reads false (lines [LOADER_START; marker e]) (Some 69) LoaderFailed None.
Proof.
  intros He. unfold host_reads. rewrite parse_stream_exact. eexists. split; [reflexivity|].
  destruct e; try done; vm_compute; auto.
Qed.

Lemma contract_failure_read :
  host_reads false (lines [LOADER_START; ELF_VALID; CONTRACT_FAILURE]) (Some 69) LoaderFailed None.
Proof.
  unfold host_reads. rewrite parse_stream_exact. eexists. split; [reflexivity|]. vm_compute. auto.
Qed.

(** The statuses the debug-exit device makes of the guest's exit codes. *)
Definition guest_statuses : list Z := [READY_EXIT_STATUS; REJECT_EXIT_STATUS; PANIC_EXIT_STATUS; 69].

Lemma reset_log_read timed_out status :
  (forall st, status = Some st -> st ∉ guest_statuses) ->
  host_reads timed_out (lines [LOADER_START; ELF_VALID]) status
    (if timed_out then Timeout_ else UnexpectedExit) None.
Proof.
  intros Hst. unfold host_reads. rewrite parse_stream_exact. eexists. split; [reflexivity|].
  match goal with |- pt_violation ?t = None /\ _ => set (trace := t) end.
  assert (pt_violation trace = None /\ me_ready (pt_markers trace) = false /\
          me_rejected (pt_markers trace) = false /\ me_panic (pt_markers trace) = false /\
          me_terminal_code (pt_markers trace) = None) as (Hv & H1 & H2 & H3 & H4) by (by vm_compute).
  clearbody trace. split_and!; [done| |done]. unfold classify_boot. rewrite Hv, H1, H2, H3.
  destruct timed_out, status as [st|]; try done. specialize (Hst st eq_refl).
  unfold guest_statuses in Hst. rewrite !not_elem_of_cons in Hst.
  cbn. by rewrite !(proj2 (Z.eqb_neq _ _)) by apply Hst.
Qed.

(** What a boot that reaches the kernel writes, and the status the emulator
    makes of its exit. *)
Definition guest_log (s : BootScenario) : list Z :=
  lines [LOADER_START; ELF_VALID; HANDOFF_READY] ++ (scenario_verdict s).1 ++ [LF].
Definition guest_status (s : BootScenario) : Z :=
  Z.lor (Z.shiftl (QemuExitCode_value (scenario_verdict s).2) 1) 1.

Lemma scenario_log_read s :
  host_reads false (guest_log s) (Some (guest_status s))
    (expected_class s) (Some (expected_code s)).
Proof.
  unfold host_reads. rewrite parse_stream_exact. eexists. split; [reflexivity|].
  destruct s; vm_compute; auto.
Qed.

(** A boot that reaches the kernel writes the log of its scenario and exits once. *)
Section Boot.
Context {F H : Type} (fw : Firmware F H) (lsr : nat -> Z) (w : World (F:=F)) `{!FirmwareLaws fw}.
Context (execute : Processor) (kernel : list Z) (ld : Layout) `{!RunsKernel execute lsr kernel ld}.
Hypothesis Hapart : grants_apart fw kernel.

(** The contract's pages are apart from .bss, which is the kernel's. *)
Lemma contract_off_bss p n :
  apart_from kernel p (p + 8192) -> 0 <= n <= 8192 -> p + n <= bss_start ld \/ bss_end ld <= p.
Proof using RunsKernel0.
  intros Hap Hn. destruct rk_bss as (s & Hs & Hlo & Hhi). specialize (Hap s Hs). lia.
Qed.

Lemma kernel_runs (w1 : World (F:=F)) storage s l m :
  holds_image kernel (w_mem w1) -> storage_ok fw storage -> Forall wf_descriptor l -> map_ok l ->
  let m' := execute (BootElf.ve_entry_point (ElfSpec.validated kernel))
    (copy_at (cs_base storage) (handed_bytes l s) (w_mem w1)) (cs_base storage) (handed_length s) m in
  debugcon m' = debugcon m ++ (scenario_verdict s).1 ++ [LF] /\
  exits m' = exits m ++ [QemuExitCode_value (scenario_verdict s).2].
Proof using All.
  intros Hi (H0 & Ha & Hend & _ & f & f' & Hdis%Hapart) Hwf Hmap m'. subst m'.
  pose proof (handed_bytes_len l s Hwf Hmap) as Hlen. pose proof (handed_length_nat s) as Hn.
  assert (0 <= handed_length s <= 8192) as Hn' by (destruct s; cbn; lia).
  rewrite rk_runs.
  2: { apply holds_image_copy; [by rewrite Hlen|done]. }
  2: { intros x Hx. specialize (Hdis x Hx). lia. }
  destruct (entry_calls_kernel lsr ld rk_layout (copy_at (cs_base storage) (handed_bytes l s) (w_mem w1))
    (cs_base storage) (handed_length s) m) as (mem' & -> & Hsl).
  { rewrite Z2Nat.id by lia. by apply contract_off_bss. }
  destruct (kernel_main_verdict lsr mem' (cs_base storage) (handed_length s) m) as [Hkd Hkx].
  { rewrite Hsl. by apply handed_slice_ok. }
  rewrite (kernel_verdict_ext _ _ _ _ Hsl), handed_verdict in Hkd, Hkx by done. by rewrite Hkd, Hkx.
Qed.

Lemma boot_transfers entry contract n mem m :
  main fw lsr w power_on = Transfer entry contract n mem m ->
  exists file storage s w1, reads_kernel fw file /\
    entry = BootElf.ve_entry_point (ElfSpec.validated file) /\
    prepare_kernel fw w = Ok ((entry, storage, s), w1) /\
    (file = kernel ->
     debugcon (boot fw lsr execute w) = guest_log s /\
     exits (boot fw lsr execute w) = [QemuExitCode_value (scenario_verdict s).2]).
Proof using All.
  intros E. unfold boot. pose proof (main_ends fw lsr w power_on) as Hm. rewrite E in *.
  destruct Hm as (Hd & Hx & storage & s & w1 & l & Hp & Hso & -> & -> & El & Hmap & ->).
  destruct (prepare_kernel_image fw _ _ _ _ _ Hp) as (file & Hr & _ & _ & He & Hi).
  exists file, storage, s, w1. split; [done|]. split; [done|]. split; [done|]. intros ->. rewrite He.
  destruct (kernel_runs w1 storage s (sort fw l) m Hi Hso (map_typed _ _ El) Hmap) as [-> ->].
  rewrite Hd, Hx. by split.
Qed.
End Boot.

(** ** Properties *)

(** C3. Every boot is classified as it should be.  For any firmware that keeps
    the interface's bounds and does not hand out the kernel's memory for the
    contract, any UART, any initial memory and any processor on which the built
    kernel does what its source says, the host reads the debug console without a
    protocol violation.  A boot the loader gave up on is a loader failure.  A boot
    that ended in the firmware's cold reset, with no exit code of the guest, is a
    timeout if the host ran out of time and an unexpected exit otherwise, with no
    terminal code.  A boot that reached a kernel entered the ELF file the loader
    read at its entry point; if that file is the built kernel, the boot is
    classified, with the right terminal code, as the scenario of the configuration
    file demands: ready, rejected for its version or for its length, or panicked. *)
Theorem every_boot_is_classified {F H : Type} (fw : Firmware F H) (lsr : nat -> Z) (execute : Processor)
    (kernel : list Z) (ld : Layout) (w : World) (host_status : list Z -> option Z) :
  FirmwareLaws fw -> RunsKernel execute lsr kernel ld -> grants_apart fw kernel ->
  (forall v, host_status [v] = Some (Z.lor (Z.shiftl v 1) 1)) ->
  (forall st, host_status [] = Some st -> st ∉ guest_statuses) ->
  let m := boot fw lsr execute w in
  match main fw lsr w power_on with
  | LoaderExit _ => host_reads false (debugcon m) (host_status (exits m)) LoaderFailed None
  | ColdReset _ => forall timed_out,
      host_reads timed_out (debugcon m) (host_status (exits m))
        (if timed_out then Timeout_ else UnexpectedExit) None
  | Transfer entry _ _ _ _ =>
      exists file storage s w1, reads_kernel fw file /\
        entry = BootElf.ve_entry_point (ElfSpec.validated file) /\
        prepare_kernel fw w = Ok ((entry, storage, s), w1) /\
        (file = kernel -> host_reads false (debugcon m) (host_status (exits m))
           (expected_class s) (Some (expected_code s)))
  end.
Proof.
  intros Hfw Hrk Hap Hst Hno m. subst m. pose proof (main_ends fw lsr w power_on) as Hm.
  destruct (main fw lsr w power_on) as [m|m|entry contract n mem m] eqn:E.
  - unfold boot. rewrite E.
    destruct Hm as [(e & He & _ & Hd & Hx)|[[Hd Hx] _]]; rewrite Hd, Hx;
      change (exits power_on) with (@nil Z); cbn [app]; rewrite Hst;
      [by apply failure_log_read|apply contract_failure_read].
  - unfold boot. rewrite E. destruct Hm as (-> & -> & _). intros timed_out. by apply reset_log_read.
  - destruct (boot_transfers fw lsr w execute kernel ld Hap _ _ _ _ _ E)
      as (file & storage & s & w1 & Hr & He & Hp & Hl).
    exists file, storage, s, w1. split_and!; [done..|]. intros Hk. destruct (Hl Hk) as [-> ->].
    rewrite Hst. apply scenario_log_read.
Qed.

(** ** A concrete machine: the demo firmware, the sample kernel, and a processor
    that knows the sample kernel's code *)
Definition demo (s : BootScenario) : Firmware (list Z) unit :=
  demo_fw ElfProps.sample_elf (scenario_file s) 7.

Definition demo_layout : Layout := mkLayout 0x4001000 0x4001100 0x4001000.

Definition demo_world : World := mkWorld (@nil Z) (fun _ => 0xaa).

Definition demo_status (written : list Z) : option Z :=
  match written with [v] => Some (Z.lor (Z.shiftl v 1) 1) | _ => Some 0 end.

(** It runs the shim and the kernel where it finds the shim's first instructions,
    and stops at anything else. *)
Definition demo_cpu (lsr : nat -> Z) : Processor := fun entry mem rdi rsi m =>
  if bool_decide (slice_at mem entry (length ElfProps.sample_code) = ElfProps.sample_code)
  then polytope_kernel_entry lsr demo_layout mem rdi rsi m
  else m.

Definition sample_segment : BootElf.LoadSegment :=
  BootElf.mkLoadSegment 0 5 0 BootElf.KERNEL_BASE_ADDRESS BootElf.KERNEL_BASE_ADDRESS 128 8192 4096
    ElfProps.sample_elf.
Lemma sample_segments :
  ElfSpec.segment_of ElfProps.sample_elf <$> ElfSpec.loads_of ElfProps.sample_elf = [sample_segment].
Proof. vm_compute. reflexivity. Qed.

(** The code of the sample kernel is where its entry point is. *)
Lemma sample_code_held mem :
  holds_image ElfProps.sample_elf mem ->
  slice_at mem (BootElf.ve_entry_point (ElfSpec.validated ElfProps.sample_elf)) (length ElfProps.sample_code) =
  ElfProps.sample_code.
Proof.
  intros Hh. specialize (Hh sample_segment ltac:(rewrite sample_segments; apply list_elem_of_singleton; done)).
  change (BootElf.ve_entry_point _) with (BootElf.KERNEL_BASE_ADDRESS + Z.of_nat 120).
  apply (f_equal (fun l => take 8 (drop 120 l))) in Hh.
  rewrite slice_at_sub in Hh by (apply Nat.leb_le; vm_compute; reflexivity). exact Hh.
Qed.

#[global] Instance demo_runs lsr : RunsKernel (demo_cpu lsr) lsr ElfProps.sample_elf demo_layout.
Proof.
  split.
  - split; by_decide.
  - exists sample_segment. rewrite sample_segments. split; [by apply list_elem_of_singleton|]. split; by_decide.
  - intros mem contract n m Hh _. unfold demo_cpu. by rewrite bool_decide_eq_true_2 by (by apply sample_code_held).
Qed.

Lemma demo_apart kernel cfg piece : grants_apart (demo_fw kernel cfg piece) ElfProps.sample_elf.
Proof.
  intros f p f' [= <- _] s. rewrite sample_segments. intros ->%list_elem_of_singleton. right. by_decide.
Qed.

Lemma demo_prepares s :
  exists entry storage w1, prepare_kernel (demo s) demo_world = Ok ((entry, storage, s), w1).
Proof.
  assert (match prepare_kernel (demo s) demo_world with
          | Ok ((_, _, s'), _) => bool_decide (s' = s) | _ => false end = true) as Hc
    by (destruct s; vm_compute; reflexivity).
  destruct (prepare_kernel (demo s) demo_world) as [[[[entry storage] s'] w1]|e|]; [|done..].
  apply bool_decide_eq_true in Hc as ->. by exists entry, storage, w1.
Qed.

Lemma demo_transfers s lsr : exists entry contract n mem m,
  main (demo s) lsr demo_world power_on = Transfer entry contract n mem m.
Proof.
  destruct (demo_prepares s) as (entry & storage & w1 & Hp).
  destruct (main_transfers (demo s) lsr demo_world power_on entry storage s w1 sample_map Hp eq_refl
    sample_map_ok) as (mem & m & Hm). eauto 6.
Qed.
