(* ===== verification/Text.v ===== *)
(** Text as the host tools and the compiler use it: [str] is a list of
    characters, each a Unicode scalar value.  The functions of [core::str] and
    [char] the sources call: UTF-8 validation, lines, whitespace, prefixes and
    hexadecimal numbers. *)

From S2P Require Import Prelude Bytes Console.

(** [char::len_utf8] *)
Definition len_utf8 (c : Z) : Z :=
  if c <? 0x80 then 1 else if c <? 0x800 then 2 else if c <? 0x10000 then 3 else 4.

(** The length of a text in bytes. *)
Definition byte_len (l : list Z) : Z := foldr (fun c n => len_utf8 c + n) 0 l.

(** [char::is_whitespace]: the Unicode property White_Space. *)
Definition is_whitespace (c : Z) : bool :=
  ((9 <=? c) && (c <=? 13)) || (c =? 32) || (c =? 0x85) || (c =? 0xa0) || (c =? 0x1680)
  || ((0x2000 <=? c) && (c <=? 0x200a)) || (c =? 0x2028) || (c =? 0x2029) || (c =? 0x202f)
  || (c =? 0x205f) || (c =? 0x3000).

(** ** UTF-8 *)
Definition scalar (c : Z) : Prop := 0 <= c < 0xD800 \/ 0xE000 <= c < 0x110000.

(** [char::encode_utf8] *)
Definition encode_char (c : Z) : list Z :=
  if c <? 0x80 then [c]
  else if c <? 0x800 then [0xC0 + c / 64; 0x80 + c mod 64]
  else if c <? 0x10000 then [0xE0 + c / 4096; 0x80 + c / 64 mod 64; 0x80 + c mod 64]
  else [0xF0 + c / 262144; 0x80 + c / 4096 mod 64; 0x80 + c / 64 mod 64; 0x80 + c mod 64].

Definition encode_utf8 (l : list Z) : list Z := concat (encode_char <$> l).

Definition between (lo b hi : Z) : bool := (lo <=? b) && (b <=? hi).

(** The first character of a byte string, by the table of well-formed byte
    sequences of the Unicode standard. *)
Definition decode_char (bytes : list Z) : option (Z * list Z) :=
  match bytes with
  | [] => None
  | b0 :: rest =>
      if between 0 b0 0x7F then Some (b0, rest)
      else if between 0xC2 b0 0xDF then
        match rest with
        | b1 :: rest =>
            if between 0x80 b1 0xBF then Some ((b0 - 0xC0) * 64 + (b1 - 0x80), rest) else None
        | _ => None
        end
      else if between 0xE0 b0 0xEF then
        match rest with
        | b1 :: b2 :: rest =>
            if between (if b0 =? 0xE0 then 0xA0 else 0x80) b1 (if b0 =? 0xED then 0x9F else 0xBF)
               && between 0x80 b2 0xBF
            then Some ((b0 - 0xE0) * 4096 + (b1 - 0x80) * 64 + (b2 - 0x80), rest) else None
        | _ => None
        end
      else if between 0xF0 b0 0xF4 then
        match rest with
        | b1 :: b2 :: b3 :: rest =>
            if between (if b0 =? 0xF0 then 0x90 else 0x80) b1 (if b0 =? 0xF4 then 0x8F else 0xBF)
               && between 0x80 b2 0xBF && between 0x80 b3 0xBF
            then Some ((b0 - 0xF0) * 262144 + (b1 - 0x80) * 4096 + (b2 - 0x80) * 64 + (b3 - 0x80),
                       rest) else None
        | _ => None
        end
      else None
  end.

Fixpoint decode_utf8 (fuel : nat) (bytes : list Z) : option (list Z) :=
  match bytes, fuel with
  | [], _ => Some []
  | _, O => None
  | _, S fuel => '(c, rest) ← decode_char bytes; cons c <$> decode_utf8 fuel rest
  end.

(** [str::from_utf8]: every character takes at least one byte. *)
Definition from_utf8 (bytes : list Z) : option (list Z) := decode_utf8 (length bytes) bytes.

(** The length of the ill-formed sequence at the start of a byte string with no
    well-formed first character: the longest prefix of a well-formed sequence,
    at least one byte. *)
Definition bad_prefix (bytes : list Z) : nat :=
  match bytes with
  | b0 :: b1 :: rest =>
      if between 0xE0 b0 0xEF then
        if between (if b0 =? 0xE0 then 0xA0 else 0x80) b1 (if b0 =? 0xED then 0x9F else 0xBF)
        then 2%nat else 1%nat
      else if between 0xF0 b0 0xF4 then
        if between (if b0 =? 0xF0 then 0x90 else 0x80) b1 (if b0 =? 0xF4 then 0x8F else 0xBF) then
          match rest with
          | b2 :: _ => if between 0x80 b2 0xBF then 3%nat else 2%nat
          | [] => 2%nat
          end
        else 1%nat
      else 1%nat
  | _ => 1%nat
  end.

(** [String::from_utf8_lossy]: ill-formed sequences become U+FFFD. *)
Fixpoint decode_lossy (fuel : nat) (bytes : list Z) : list Z :=
  match bytes, fuel with
  | [], _ | _, O => []
  | _, S fuel =>
      match decode_char bytes with
      | Some (c, rest) => c :: decode_lossy fuel rest
      | None => 0xFFFD :: decode_lossy fuel (drop (bad_prefix bytes) bytes)
      end
  end.
Definition from_utf8_lossy (bytes : list Z) : list Z := decode_lossy (length bytes) bytes.

(** [str::contains] *)
Fixpoint contains (text needle : list Z) : bool :=
  bool_decide (take (length needle) text = needle)
  || match text with [] => false | _ :: t => contains t needle end.

(** The first [n] elements, for counts too large to be written in unary. *)
Fixpoint take_z {A} (n : Z) (l : list A) : list A :=
  match l with
  | [] => []
  | x :: t => if n <=? 0 then [] else x :: take_z (n - 1) t
  end.

(** ** Lines and fields *)

(** [str::split_inclusive('\n')] *)
Fixpoint split_inclusive (l : list Z) : list (list Z) :=
  match l with
  | [] => []
  | c :: t => if c =? LF then [c] :: split_inclusive t
              else match split_inclusive t with
                   | line :: rest => (c :: line) :: rest
                   | [] => [[c]]
                   end
  end.

(** A line without its terminator, a line feed with an optional carriage
    return before it. *)
Definition line_text (line : list Z) : list Z :=
  match last line with
  | Some c =>
      if c =? LF then
        let line := take (length line - 1) line in
        match last line with
        | Some c => if c =? CR then take (length line - 1) line else line
        | None => line
        end
      else line
  | None => line
  end.

(** [str::lines] *)
Definition lines (text : list Z) : list (list Z) := line_text <$> split_inclusive text.

(** [split(p)] and [split_whitespace] *)
Fixpoint split_where (p : Z -> bool) (l : list Z) : list (list Z) :=
  match l with
  | [] => [[]]
  | c :: t => if p c then [] :: split_where p t
              else match split_where p t with
                   | field :: fields => (c :: field) :: fields
                   | [] => [[c]]
                   end
  end.
Definition split_whitespace (l : list Z) : list (list Z) :=
  filter (fun field => field <> []) (split_where is_whitespace l).

(** ** Hexadecimal numbers *)

(** [char::to_digit(16)] *)
Definition to_digit16 (c : Z) : option Z :=
  if between 48 c 57 then Some (c - 48)
  else if between 97 c 102 then Some (c - 87)
  else if between 65 c 70 then Some (c - 55)
  else None.

Fixpoint hex_digits (acc : Z) (l : list Z) : option Z :=
  match l with
  | [] => Some acc
  | c :: t =>
      digit ← to_digit16 c;
      shifted ← checked_mul 64 acc 16;
      acc ← checked_add 64 shifted digit;
      hex_digits acc t
  end.

(** [u64::from_str_radix(digits, 16)]: one leading plus sign is accepted. *)
Definition u64_from_str_radix16 (l : list Z) : option Z :=
  match l with
  | [] => None
  | 43 :: [] => None
  | 43 :: t => hex_digits 0 t
  | _ => hex_digits 0 l
  end.

(** ** Lemmas *)
Lemma encode_char_length c : (1 <= length (encode_char c))%nat.
Proof. unfold encode_char. repeat case_match; simpl; lia. Qed.

Ltac split_ifs :=
  repeat match goal with
  | |- context [if ?b then _ else _] => destruct b eqn:?
  | H : context [if ?b then _ else _] |- _ => destruct b eqn:?
  end; bool_solve.
Ltac utf8_arith := Z.to_euclidean_division_equations; lia.

Lemma decode_encode_char c rest : scalar c -> decode_char (encode_char c ++ rest) = Some (c, rest).
Proof.
  unfold scalar. intros Hc. unfold encode_char.
  destruct (Z.ltb_spec c 0x80); [|destruct (Z.ltb_spec c 0x800); [|destruct (Z.ltb_spec c 0x10000)]];
    cbn [app]; unfold decode_char, between;
    split_ifs; try (exfalso; utf8_arith); do 2 f_equal; utf8_arith.
Qed.

Lemma decode_char_Some bytes c rest :
  decode_char bytes = Some (c, rest) -> scalar c /\ bytes = encode_char c ++ rest.
Proof.
  unfold decode_char, between. intros H.
  repeat case_match; simplify_eq; bool_solve; unfold scalar, encode_char;
    split_ifs; (split; [try utf8_arith|cbn [app]]); try (exfalso; utf8_arith);
    repeat f_equal; utf8_arith.
Qed.

(** [from_utf8] is the inverse of the encoding: it accepts exactly the
    encodings of sequences of scalar values. *)
Lemma from_utf8_iff bytes l :
  from_utf8 bytes = Some l <-> Forall scalar l /\ bytes = encode_utf8 l.
Proof.
  unfold from_utf8. split.
  - generalize (length bytes) as n. intros n. revert bytes l.
    induction n as [|n IH]; intros [|b bytes] l H; cbn [decode_utf8] in H; simplify_eq; try done.
    apply bind_Some in H as ([c rest] & Hc & H). apply fmap_Some in H as (t & Ht & ->).
    apply decode_char_Some in Hc as [Hs He]. apply IH in Ht as [Hf ->].
    split; [by constructor|exact He].
  - intros [Hf ->].
    assert (forall fuel, (length (encode_utf8 l) <= fuel)%nat ->
      decode_utf8 fuel (encode_utf8 l) = Some l) as Hd; [|by apply Hd].
    induction Hf as [|c t Hc Hf IH]; intros fuel Hlen; [by destruct fuel|].
    change (encode_utf8 (c :: t)) with (encode_char c ++ encode_utf8 t) in *.
    rewrite length_app in Hlen. pose proof (encode_char_length c).
    destruct fuel as [|fuel]; [lia|].
    destruct (encode_char c ++ encode_utf8 t) as [|b bs] eqn:E.
    { apply (f_equal length) in E. rewrite length_app in E. simpl in E. lia. }
    cbn [decode_utf8]. rewrite <- E, decode_encode_char by done. cbn. by rewrite IH by lia.
Qed.

Lemma to_digit16_range c d : to_digit16 c = Some d -> 0 <= d < 16.
Proof. unfold to_digit16, between. intros. repeat case_match; simplify_eq; bool_solve; lia. Qed.

Lemma hex_digits_uint l : forall acc x, uint 64 acc -> hex_digits acc l = Some x -> uint 64 x.
Proof.
  induction l as [|c t IH]; intros acc x Ha H; cbn [hex_digits] in H; [by simplify_eq|].
  apply bind_Some in H as (d & Hd & H). apply bind_Some in H as (s & Hs & H).
  apply bind_Some in H as (a & Hp & H). apply to_digit16_range in Hd.
  apply checked_mul_Some in Hs as [-> _]. apply checked_add_Some in Hp as [-> ?].
  eapply IH; [|done]. unfold uint in *. lia.
Qed.

Lemma from_str_radix16_uint l x : u64_from_str_radix16 l = Some x -> uint 64 x.
Proof.
  assert (uint 64 0) by (unfold uint; lia).
  unfold u64_from_str_radix16. intros. repeat case_match; try done; by eapply hex_digits_uint.
Qed.

Lemma take_z_take {A} (l : list A) : forall n, take_z n l = take (Z.to_nat n) l.
Proof.
  induction l as [|x l IH]; intros n; cbn [take_z]; [by rewrite take_nil|].
  destruct (Z.leb_spec n 0).
  - by replace (Z.to_nat n) with 0%nat by lia.
  - rewrite IH. by replace (Z.to_nat n) with (S (Z.to_nat (n - 1))) by lia.
Qed.

(** Well-formed text is decoded without replacement. *)
Lemma from_utf8_lossy_encode l : Forall scalar l -> from_utf8_lossy (encode_utf8 l) = l.
Proof.
  unfold from_utf8_lossy. intros Hf.
  assert (forall fuel, (length (encode_utf8 l) <= fuel)%nat ->
    decode_lossy fuel (encode_utf8 l) = l) as Hd; [|by apply Hd].
  induction Hf as [|c t Hc Hf IH]; intros fuel Hlen; [by destruct fuel|].
  change (encode_utf8 (c :: t)) with (encode_char c ++ encode_utf8 t) in *.
  rewrite length_app in Hlen. pose proof (encode_char_length c).
  destruct fuel as [|fuel]; [lia|].
  destruct (encode_char c ++ encode_utf8 t) as [|b bs] eqn:E.
  { apply (f_equal length) in E. rewrite length_app in E. simpl in E. lia. }
  cbn [decode_lossy]. rewrite <- E, decode_encode_char by done. f_equal. apply IH. lia.
Qed.
