(* ===== verification/Lexer.v ===== *)
(** The bootstrap lexer of the Polytope language: crates/compiler/src/lib.rs.

    Source text is a list of characters, each a Unicode scalar value; spans and
    offsets count UTF-8 bytes, as in the code.  The lexer's state is the byte
    offset and the text from there on ([self.source[self.offset..]]). *)

From S2P Require Import Prelude Bytes Console Text.

Definition is_ascii_alphabetic (c : Z) : bool :=
  ((65 <=? c) && (c <=? 90)) || ((97 <=? c) && (c <=? 122)).
Definition is_digit (c : Z) : bool := (48 <=? c) && (c <=? 57).
Definition is_ascii_alphanumeric (c : Z) : bool := is_ascii_alphabetic c || is_digit c.
(** [char::to_digit(10)] *)
Definition to_digit (c : Z) : option Z := if is_digit c then Some (c - 48) else None.
Definition UNDERSCORE : Z := 95.

Record Span := mkSpan { sp_start : Z; sp_end : Z }.

Inductive TokenKind :=
| Function_
| Identifier (text : list Z)
| Integer (value : Z)
| LeftParen | RightParen | LeftBrace | RightBrace.

Record Token := mkToken { tk_kind : TokenKind; tk_span : Span }.

Record LexError := mkLexError { le_character : Z; le_offset : Z }.

Record Lexer := mkLexer { lx_rest : list Z; lx_offset : Z }.

Definition Lexer_new (source : list Z) : Lexer := {| lx_rest := source; lx_offset := 0 |}.

(** [self.offset += c.len_utf8()] past the first character. *)
Definition advance (c : Z) (rest : list Z) (lx : Lexer) : Lexer :=
  {| lx_rest := rest; lx_offset := lx_offset lx + len_utf8 c |}.

(** The loop over leading whitespace. *)
Fixpoint skip_whitespace (rest : list Z) (offset : Z) : Lexer :=
  match rest with
  | c :: t => if is_whitespace c then skip_whitespace t (offset + len_utf8 c)
              else {| lx_rest := rest; lx_offset := offset |}
  | [] => {| lx_rest := []; lx_offset := offset |}
  end.

(** The loop over identifier characters: the text read and the state after it. *)
Fixpoint scan_identifier (rest : list Z) (offset : Z) : list Z * Lexer :=
  match rest with
  | c :: t => if is_ascii_alphanumeric c || (c =? UNDERSCORE) then
                let '(text, lx) := scan_identifier t (offset + len_utf8 c) in (c :: text, lx)
              else ([], {| lx_rest := rest; lx_offset := offset |})
  | [] => ([], {| lx_rest := []; lx_offset := offset |})
  end.

(** The loop over digits: the value, or the digit on which it overflowed. *)
Fixpoint scan_integer (value : Z) (rest : list Z) (offset : Z) : (Z + LexError) * Lexer :=
  match rest with
  | c :: t =>
      match to_digit c with
      | None => (inl value, {| lx_rest := rest; lx_offset := offset |})
      | Some digit =>
          match current ← checked_mul 64 value 10; checked_add 64 current digit with
          | None => (inr {| le_character := c; le_offset := offset |},
                     {| lx_rest := rest; lx_offset := offset |})
          | Some updated => scan_integer updated t (offset + len_utf8 c)
          end
      end
  | [] => (inl value, {| lx_rest := []; lx_offset := offset |})
  end.

(** [Iterator::next] *)
Definition next (self : Lexer) : option (Token + LexError) * Lexer :=
  let self := skip_whitespace (lx_rest self) (lx_offset self) in
  let start := lx_offset self in
  match lx_rest self with
  | [] => (None, self)
  | character :: rest =>
      let punctuation :=
        if character =? 40 then Some LeftParen
        else if character =? 41 then Some RightParen
        else if character =? 123 then Some LeftBrace
        else if character =? 125 then Some RightBrace
        else None in
      match punctuation with
      | Some kind =>
          let self := {| lx_rest := rest; lx_offset := start + 1 |} in
          (Some (inl {| tk_kind := kind; tk_span := mkSpan start (lx_offset self) |}), self)
      | None =>
          if is_ascii_alphabetic character || (character =? UNDERSCORE) then
            let '(tail, self) := scan_identifier rest (start + len_utf8 character) in
            let text := character :: tail in
            let kind := if bool_decide (text = ascii_bytes "fn") then Function_
                        else Identifier text in
            (Some (inl {| tk_kind := kind; tk_span := mkSpan start (lx_offset self) |}), self)
          else if is_digit character then
            match scan_integer 0 (character :: rest) start with
            | (inl value, self) =>
                (Some (inl {| tk_kind := Integer value; tk_span := mkSpan start (lx_offset self) |}),
                 self)
            | (inr e, self) => (Some (inr e), self)
            end
          else
            let self := advance character rest self in
            (Some (inr {| le_character := character; le_offset := start |}), self)
      end
  end.

(** The items a caller that iterates to the end sees; [None] is fuel
    exhaustion. *)
Fixpoint lex_all (fuel : nat) (self : Lexer) : option (list (Token + LexError)) :=
  match fuel with
  | O => None
  | S fuel =>
      match next self with
      | (None, _) => Some []
      | (Some item, self) => (cons item) <$> lex_all fuel self
      end
  end.

(** ** Specification *)
Definition is_ident_char (c : Z) : bool := is_ascii_alphanumeric c || (c =? UNDERSCORE).

(** The decimal value of a digit string. *)
Definition decimal (l : list Z) : Z := foldl (fun v c => v * 10 + (c - 48)) 0 l.

(** [text] is a complete token of kind [kind] in front of [rest]: the longest
    one that starts there. *)
Definition lexeme (kind : TokenKind) (text rest : list Z) : Prop :=
  match kind with
  | LeftParen => text = [40]
  | RightParen => text = [41]
  | LeftBrace => text = [123]
  | RightBrace => text = [125]
  | Function_ => text = ascii_bytes "fn" /\ forall c, head rest = Some c -> is_ident_char c = false
  | Identifier name =>
      name = text /\ text <> ascii_bytes "fn" /\
      (exists c t, text = c :: t /\ (is_ascii_alphabetic c || (c =? UNDERSCORE)) = true) /\
      forallb is_ident_char text = true /\
      (forall c, head rest = Some c -> is_ident_char c = false)
  | Integer value =>
      text <> [] /\ forallb is_digit text = true /\ value = decimal text /\ value < 2 ^ 64 /\
      (forall c, head rest = Some c -> is_digit c = false)
  end.

Lemma byte_len_app l1 l2 : byte_len (l1 ++ l2) = byte_len l1 + byte_len l2.
Proof. induction l1 as [|c l1 IH]; cbn; [done|]. unfold byte_len in *. lia. Qed.

Lemma len_utf8_pos c : 1 <= len_utf8 c.
Proof. unfold len_utf8. repeat case_match; lia. Qed.

Lemma byte_len_nonneg l : 0 <= byte_len l.
Proof. induction l as [|c l IH]; cbn; [done|]. pose proof (len_utf8_pos c). unfold byte_len in IH. lia. Qed.

Lemma skip_whitespace_spec rest : forall offset,
  exists ws, rest = ws ++ lx_rest (skip_whitespace rest offset) /\
    lx_offset (skip_whitespace rest offset) = offset + byte_len ws /\
    forallb is_whitespace ws = true /\
    (forall c, head (lx_rest (skip_whitespace rest offset)) = Some c -> is_whitespace c = false).
Proof.
  induction rest as [|c rest IH]; intros offset; cbn [skip_whitespace].
  { exists []. cbn. split_and!; [done|lia|done|done]. }
  destruct (is_whitespace c) eqn:Hc.
  - destruct (IH (offset + len_utf8 c)) as (ws & He & Ho & Hf & Hh). exists (c :: ws).
    cbn. rewrite Hc. split_and!; [by f_equal|unfold byte_len in Ho; lia|done|done].
  - exists []. cbn. split_and!; [done|lia|done|]. intros ? [= <-]. done.
Qed.

Lemma scan_identifier_spec rest : forall offset,
  let '(text, lx) := scan_identifier rest offset in
  rest = text ++ lx_rest lx /\ lx_offset lx = offset + byte_len text /\
  forallb is_ident_char text = true /\
  (forall c, head (lx_rest lx) = Some c -> is_ident_char c = false).
Proof.
  induction rest as [|c rest IH]; intros offset; cbn [scan_identifier].
  { cbn. split_and!; [done|lia|done|done]. }
  fold (is_ident_char c). destruct (is_ident_char c) eqn:Hc.
  - specialize (IH (offset + len_utf8 c)).
    destruct (scan_identifier rest (offset + len_utf8 c)) as [text lx].
    destruct IH as (He & Ho & Hf & Hh). cbn. rewrite Hc.
    split_and!; [by f_equal|unfold byte_len in Ho; lia|done|done].
  - cbn. split_and!; [done|lia|done|]. intros ? [= <-]. done.
Qed.

(** The digits read, the value, and why the scan stopped. *)
Lemma scan_integer_spec rest : forall value offset,
  0 <= value < 2 ^ 64 ->
  let '(result, lx) := scan_integer value rest offset in
  exists text, rest = text ++ lx_rest lx /\ lx_offset lx = offset + byte_len text /\
    forallb is_digit text = true /\
    let total := foldl (fun v c => v * 10 + (c - 48)) value text in
    0 <= total < 2 ^ 64 /\
    match result with
    | inl v => v = total /\ (forall c, head (lx_rest lx) = Some c -> is_digit c = false)
    | inr e => head (lx_rest lx) = Some (le_character e) /\ is_digit (le_character e) = true /\
        le_offset e = lx_offset lx /\ 2 ^ 64 <= total * 10 + (le_character e - 48)
    end.
Proof.
  induction rest as [|c rest IH]; intros value offset Hv; cbn [scan_integer].
  { exists []. cbn. split_and!; try done; lia. }
  unfold to_digit. destruct (is_digit c) eqn:Hc.
  2: { exists []. cbn. split_and!; try done; try lia. intros ? [= <-]. done. }
  assert (48 <= c <= 57) as Hr by (unfold is_digit in Hc; bool_solve; lia).
  destruct (current ← checked_mul 64 value 10; checked_add 64 current (c - 48)) as [u|] eqn:Hu.
  - apply bind_Some in Hu as (x & [-> _]%checked_mul_Some & [-> Hlt]%checked_add_Some).
    specialize (IH (value * 10 + (c - 48)) (offset + len_utf8 c) ltac:(lia)).
    destruct (scan_integer _ rest _) as [result lx].
    destruct IH as (text & He & Ho & Hf & Ht & Hres). exists (c :: text).
    cbn. rewrite Hc. split_and!; [by f_equal|unfold byte_len in Ho; lia|done|lia|lia|done].
  - exists []. cbn. split_and!; try done; try lia. unfold checked_mul in Hu.
    destruct (Z.ltb_spec (value * 10) (2 ^ 64)); [|lia].
    cbn in Hu. apply checked_add_None in Hu. lia.
Qed.

(** A character no token starts with. *)
Definition unexpected (c : Z) : Prop :=
  is_whitespace c = false /\ is_ident_char c = false /\ c <> 40 /\ c <> 41 /\ c <> 123 /\ c <> 125.

(** How a text at a byte offset is cut into items: tokens and errors, each after
    optional whitespace. *)
Inductive lexes : Z -> list Z -> list (Token + LexError) -> Prop :=
| lexes_end offset ws : forallb is_whitespace ws = true -> lexes offset ws []
| lexes_token offset ws text rest kind items :
    forallb is_whitespace ws = true -> text <> [] -> lexeme kind text rest ->
    lexes (offset + byte_len ws + byte_len text) rest items ->
    lexes offset (ws ++ text ++ rest)
      (inl {| tk_kind := kind; tk_span := mkSpan (offset + byte_len ws)
                (offset + byte_len ws + byte_len text) |} :: items)
| lexes_unexpected offset ws c rest items :
    forallb is_whitespace ws = true -> unexpected c ->
    lexes (offset + byte_len ws + len_utf8 c) rest items ->
    lexes offset (ws ++ c :: rest)
      (inr {| le_character := c; le_offset := offset + byte_len ws |} :: items)
| lexes_overflow offset ws text c rest items :
    forallb is_whitespace ws = true -> text <> [] -> forallb is_digit text = true ->
    decimal text < 2 ^ 64 -> is_digit c = true -> 2 ^ 64 <= decimal (text ++ [c]) ->
    lexes (offset + byte_len ws + byte_len text) (c :: rest) items ->
    lexes offset (ws ++ text ++ c :: rest)
      (inr {| le_character := c; le_offset := offset + byte_len ws + byte_len text |} :: items).

(** One call of [next]: what it consumes, and how an item list for the rest
    extends over it. *)
Definition consumes (before : Lexer) (item : Token + LexError) (after : Lexer) : Prop :=
  (length (lx_rest after) < length (lx_rest before))%nat /\
  forall items, lexes (lx_offset after) (lx_rest after) items ->
    lexes (lx_offset before) (lx_rest before) (item :: items).

Lemma decimal_snoc text c : decimal (text ++ [c]) = decimal text * 10 + (c - 48).
Proof. unfold decimal. by rewrite foldl_snoc. Qed.

Section Next.
Context (rest0 ws : list Z) (offset0 : Z) (c : Z) (rest : list Z).
Hypothesis Hrest0 : rest0 = ws ++ c :: rest.
Hypothesis Hws : forallb is_whitespace ws = true.

Lemma consumes_token kind text after :
  c :: rest = text ++ lx_rest after -> text <> [] -> lexeme kind text (lx_rest after) ->
  lx_offset after = offset0 + byte_len ws + byte_len text ->
  consumes {| lx_rest := rest0; lx_offset := offset0 |}
    (inl {| tk_kind := kind; tk_span := mkSpan (offset0 + byte_len ws) (lx_offset after) |}) after.
Proof.
  intros He Ht Hl Ho. split; cbn [lx_rest lx_offset].
  - rewrite Hrest0, He, !length_app. destruct text; [done|]. cbn. lia.
  - intros items Hi. rewrite Hrest0, He, Ho. apply lexes_token; [done..|]. by rewrite <- Ho.
Qed.

Lemma identifier_token :
  (is_ascii_alphabetic c || (c =? UNDERSCORE)) = true ->
  let '(tail, after) := scan_identifier rest (offset0 + byte_len ws + len_utf8 c) in
  consumes {| lx_rest := rest0; lx_offset := offset0 |}
    (inl {| tk_kind := if bool_decide (c :: tail = ascii_bytes "fn") then Function_
                       else Identifier (c :: tail);
            tk_span := mkSpan (offset0 + byte_len ws) (lx_offset after) |}) after.
Proof.
  intros Hc. pose proof (scan_identifier_spec rest (offset0 + byte_len ws + len_utf8 c)) as Hs.
  destruct (scan_identifier rest _) as [tail after]. destruct Hs as (He & Ho & Hf & Hh).
  apply (consumes_token _ (c :: tail)); [by rewrite He|done| |cbn; unfold byte_len in *; lia].
  case_bool_decide as Hfn; cbn [lexeme]; [done|]. split_and!; [done|done|by exists c, tail| |done].
  cbn [forallb]. rewrite Hf, andb_true_r. unfold is_ident_char, is_ascii_alphanumeric.
  destruct (is_ascii_alphabetic c); [done|]. cbn in Hc. rewrite Hc. by rewrite orb_true_r.
Qed.

Lemma integer_token :
  is_digit c = true ->
  let '(result, after) := scan_integer 0 (c :: rest) (offset0 + byte_len ws) in
  consumes {| lx_rest := rest0; lx_offset := offset0 |}
    (match result with
     | inl value => inl {| tk_kind := Integer value;
                           tk_span := mkSpan (offset0 + byte_len ws) (lx_offset after) |}
     | inr e => inr e end) after.
Proof.
  intros Hc. pose proof (scan_integer_spec (c :: rest) 0 (offset0 + byte_len ws) ltac:(lia)) as Hs.
  destruct (scan_integer 0 (c :: rest) _) as [result after].
  destruct Hs as (text & He & Ho & Hf & Ht & Hres). fold (decimal text) in Ht, Hres.
  assert (text <> []) as Hne.
  { intros ->. cbn in He, Ht, Hres. destruct result as [v|e].
    - destruct Hres as [_ Hh]. specialize (Hh c). rewrite <- He in Hh. cbn in Hh.
      by rewrite Hh in Hc.
    - destruct Hres as (Hh & Hd & _ & Hov). unfold is_digit in Hd. bool_solve. unfold decimal in Hov.
      cbn in Hov. lia. }
  destruct result as [v|e].
  - apply (consumes_token _ text); [done|done| |done]. destruct Hres as [-> Hh]. cbn [lexeme].
    split_and!; done || lia.
  - destruct Hres as (Hh & Hd & Hoe & Hov). destruct e as [ch oe]. cbn [le_character le_offset] in *.
    destruct (lx_rest after) as [|x t] eqn:Ea; [done|]. cbn in Hh. injection Hh as ->. split.
    + cbn [lx_rest]. rewrite Ea, Hrest0, He, !length_app. destruct text; [done|]. cbn. lia.
    + intros items Hi. cbn [lx_rest lx_offset]. rewrite Hrest0, He, Hoe, Ho.
      apply lexes_overflow; [done..|lia|done|by rewrite decimal_snoc|].
      by rewrite <- Ho, <- Ea.
Qed.
End Next.

Lemma single_char_token (before : Lexer) ws c rest kind :
  lx_rest before = ws ++ c :: rest -> forallb is_whitespace ws = true ->
  lexeme kind [c] rest -> len_utf8 c = 1 ->
  consumes before
    (inl {| tk_kind := kind; tk_span := mkSpan (lx_offset before + byte_len ws)
              (lx_offset before + byte_len ws + 1) |})
    {| lx_rest := rest; lx_offset := lx_offset before + byte_len ws + 1 |}.
Proof.
  intros He Hws Hl Hu. destruct before as [r o]. cbn [lx_rest lx_offset] in *.
  apply (consumes_token r ws o c rest He Hws kind [c]); [done|done|done|].
  cbn [lx_offset byte_len foldr]. lia.
Qed.

Lemma next_spec before :
  match next before with
  | (None, after) => forallb is_whitespace (lx_rest before) = true
  | (Some item, after) => consumes before item after
  end.
Proof.
  unfold next. destruct (skip_whitespace_spec (lx_rest before) (lx_offset before))
    as (ws & He & Ho & Hws & Hh).
  destruct (skip_whitespace (lx_rest before) (lx_offset before)) as [rest' start].
  cbn [lx_rest lx_offset] in *. subst start. destruct rest' as [|c rest].
  { rewrite He. by rewrite app_nil_r. }
  specialize (Hh c eq_refl).
  destruct (Z.eqb_spec c 40) as [->|H40]; [by eapply single_char_token|].
  destruct (Z.eqb_spec c 41) as [->|H41]; [by eapply single_char_token|].
  destruct (Z.eqb_spec c 123) as [->|H123]; [by eapply single_char_token|].
  destruct (Z.eqb_spec c 125) as [->|H125]; [by eapply single_char_token|].
  destruct before as [r o]. cbn [lx_rest lx_offset] in *.
  destruct (is_ascii_alphabetic c || (c =? UNDERSCORE)) eqn:Hid.
  { pose proof (identifier_token r ws o c rest He Hws Hid) as Hc.
    by destruct (scan_identifier rest (o + byte_len ws + len_utf8 c)). }
  destruct (is_digit c) eqn:Hd.
  { pose proof (integer_token r ws o c rest He Hws Hd) as Hc.
    by destruct (scan_integer 0 (c :: rest) (o + byte_len ws)) as [[v|e] after]. }
  unfold advance. split; cbn [lx_rest lx_offset].
  - rewrite He, length_app. cbn. lia.
  - intros items Hi. rewrite He. apply lexes_unexpected; [done| |done].
    unfold unexpected, is_ident_char, is_ascii_alphanumeric. rewrite Hd.
    apply orb_false_iff in Hid as [-> ->]. done.
Qed.

Lemma lex_all_total fuel : forall lx,
  (length (lx_rest lx) < fuel)%nat ->
  exists items, lex_all fuel lx = Some items /\ lexes (lx_offset lx) (lx_rest lx) items.
Proof.
  induction fuel as [|fuel IH]; intros lx Hf; [lia|]. cbn [lex_all].
  pose proof (next_spec lx) as Hn. destruct (next lx) as [[item|] after].
  - destruct Hn as [Hlt Hl]. destruct (IH after) as (items & -> & Hi); [lia|].
    exists (item :: items). split; [done|]. by apply Hl.
  - exists []. split; [done|]. by constructor.
Qed.

(** C39. The lexer terminates on every text and is exact: iterating it yields
    finitely many items that cut the text, left to right and without gaps,
    into whitespace, tokens that are the longest possible at their place with
    the byte span and the text or value they claim, unexpected characters
    reported where they stand, and integers reported at the digit that
    overflows 64 bits. *)
Theorem lexer_cuts_source_exactly (source : list Z) :
  exists items, lex_all (S (length source)) (Lexer_new source) = Some items /\
    lexes 0 source items.
Proof. apply lex_all_total. cbn. lia. Qed.

(** The spans of the tokens are disjoint, in order and inside the text. *)
Fixpoint spans_from (lo : Z) (items : list (Token + LexError)) (hi : Z) : Prop :=
  match items with
  | [] => lo <= hi
  | inl t :: items => lo <= sp_start (tk_span t) /\ sp_start (tk_span t) < sp_end (tk_span t) /\
      spans_from (sp_end (tk_span t)) items hi
  | inr e :: items => lo <= le_offset e /\ spans_from (le_offset e) items hi
  end.

Lemma spans_from_mono items : forall lo lo' hi, lo <= lo' -> spans_from lo' items hi -> spans_from lo items hi.
Proof. destruct items as [|[t|e] items]; cbn; intros; [lia| |]; intuition lia. Qed.

Lemma byte_len_pos l : l <> [] -> 1 <= byte_len l.
Proof.
  destruct l as [|c l]; [done|]. cbn. pose proof (len_utf8_pos c). pose proof (byte_len_nonneg l).
  unfold byte_len in *. lia.
Qed.

Lemma lexes_spans offset text items :
  lexes offset text items -> spans_from offset items (offset + byte_len text).
Proof.
  induction 1 as [o ws Hws|o ws t r k items Hws Ht Hl _ IH|o ws c r items Hws Hu _ IH
    |o ws t c r items Hws Ht Hd Hlt Hc Ho _ IH]; cbn [spans_from tk_span sp_start sp_end le_offset].
  - pose proof (byte_len_nonneg ws). lia.
  - pose proof (byte_len_nonneg ws). pose proof (byte_len_pos t Ht). split_and!; [lia|lia|].
    rewrite !byte_len_app. by replace (o + (byte_len ws + (byte_len t + byte_len r))) with
      (o + byte_len ws + byte_len t + byte_len r) by lia.
  - pose proof (byte_len_nonneg ws). pose proof (len_utf8_pos c). split; [lia|].
    rewrite byte_len_app. cbn [byte_len foldr]. fold (byte_len r).
    apply (spans_from_mono _ _ (o + byte_len ws + len_utf8 c)); [lia|].
    by replace (o + (byte_len ws + (len_utf8 c + byte_len r))) with
      (o + byte_len ws + len_utf8 c + byte_len r) by lia.
  - pose proof (byte_len_nonneg ws). pose proof (byte_len_nonneg t). split; [lia|].
    rewrite !byte_len_app. by replace (o + (byte_len ws + (byte_len t + byte_len (c :: r)))) with
      (o + byte_len ws + byte_len t + byte_len (c :: r)) by lia.
Qed.

(** Spans never overlap and never leave the source: the tokens of any text
    have nonempty byte spans in increasing order, and every token and error
    lies inside the text. *)
Theorem lexer_spans_are_ordered (source : list Z) (items : list (Token + LexError)) :
  lex_all (S (length source)) (Lexer_new source) = Some items ->
  spans_from 0 items (byte_len source).
Proof.
  intros Hl. destruct (lex_all_total (S (length source)) (Lexer_new source)) as (items' & Hl' & Hx);
    [cbn; lia|]. rewrite Hl in Hl'. injection Hl' as <-. by apply lexes_spans in Hx.
Qed.

Lemma lexer_spans_are_ordered_witness :
  spans_from 0 [inl (mkToken Function_ (mkSpan 0 2)); inl (mkToken (Identifier (ascii_bytes "f1")) (mkSpan 3 5));
                inl (mkToken LeftParen (mkSpan 5 6)); inl (mkToken (Integer 7) (mkSpan 6 7));
                inr (mkLexError 64 7)] 8.
Proof.
  apply (lexer_spans_are_ordered (ascii_bytes "fn f1(7@")). reflexivity.
Defined.
