(* ===== verification/HostScenario.v ===== *)
(** The scenario file as the host tools write and check it:
    crates/xtask/src/image.rs.  The loader reads the same file with its own,
    stricter parser ([Scenario.parse]). *)

From S2P Require Import Prelude Bytes Console Text Scenario.

Module Image.
Inductive BootScenario := Normal | BadVersion | Truncated | PanicBoot.
#[global] Instance BootScenario_eq_dec : EqDecision BootScenario.
Proof. solve_decision. Defined.

Inductive ScenarioFileError := NotUtf8 | NotOneLine | UnknownScenario (value : list Z).

(** [BootScenario::as_str] *)
Definition as_str (s : BootScenario) : list Z :=
  match s with
  | Normal => ascii_bytes "normal"
  | BadVersion => ascii_bytes "bad-version"
  | Truncated => ascii_bytes "truncated"
  | PanicBoot => ascii_bytes "panic"
  end.

(** [BootScenario::from_str] *)
Definition from_str (value : list Z) : exec ScenarioFileError BootScenario :=
  if bool_decide (value = ascii_bytes "normal") then Ok Normal
  else if bool_decide (value = ascii_bytes "bad-version") then Ok BadVersion
  else if bool_decide (value = ascii_bytes "truncated") then Ok Truncated
  else if bool_decide (value = ascii_bytes "panic") then Ok PanicBoot
  else Err (UnknownScenario value).

(** [str::trim_end_matches(c)] *)
Fixpoint trim_end_matches (c : Z) (l : list Z) : list Z :=
  match l with
  | [] => []
  | x :: t => match trim_end_matches c t with
              | [] => if x =? c then [] else [x]
              | t' => x :: t'
              end
  end.

Definition parse_scenario (bytes : list Z) : exec ScenarioFileError BootScenario :=
  text ← ok_or (from_utf8 bytes) NotUtf8;
  fail_if (negb (bool_decide (last text = Some LF) && (len (lines text) =? 1))) NotOneLine ;;
  from_str (trim_end_matches LF text).
End Image.
Import Image.

(** The scenario of the loader a host scenario stands for. *)
Definition loader_scenario (s : BootScenario) : Scenario.BootScenario :=
  match s with
  | Normal => Scenario.Normal
  | BadVersion => Scenario.IncompatibleVersion
  | Truncated => Scenario.TruncatedContract
  | PanicBoot => Scenario.DeliberatePanic
  end.

(** ** Lemmas *)
Lemma from_str_iff v s : from_str v = Ok s <-> v = as_str s.
Proof.
  unfold from_str. split.
  - intros H. repeat case_bool_decide; by simplify_eq.
  - intros ->. by destruct s.
Qed.

(** A text of one line that ends with a line feed is its trimmed text and that
    line feed. *)
Lemma split_inclusive_one text :
  last text = Some LF -> length (split_inclusive text) = 1%nat ->
  exists l, text = l ++ [LF] /\ LF ∉ l.
Proof.
  induction text as [|c t IH]; intros Hl Hn; [done|]. cbn [split_inclusive] in Hn.
  destruct (Z.eqb_spec c LF) as [->|Hc].
  - destruct t as [|c' t]; [by exists []; split; [done|apply not_elem_of_nil]|].
    cbn [split_inclusive length] in Hn. exfalso.
    destruct (c' =? LF); [done|]. by destruct (split_inclusive t).
  - destruct t as [|c' t]; [cbn in Hl; congruence|].
    destruct IH as (l & -> & Hl').
    + by rewrite <- Hl.
    + destruct (split_inclusive (c' :: t)) as [|x xs] eqn:E; [|done].
      cbn [split_inclusive] in E. destruct (c' =? LF); [done|]. by destruct (split_inclusive t).
    + exists (c :: l). split; [done|]. rewrite not_elem_of_cons. done.
Qed.

Lemma trim_end_one l : LF ∉ l -> trim_end_matches LF (l ++ [LF]) = l.
Proof.
  induction l as [|x l IH]; intros Hn; [done|]. apply not_elem_of_cons in Hn as [Hx Hn].
  cbn [app trim_end_matches]. rewrite IH by done. destruct l; [|done].
  by rewrite (proj2 (Z.eqb_neq x LF)) by done.
Qed.

Lemma parse_scenario_iff bytes s : parse_scenario bytes = Ok s <-> bytes = as_str s ++ [LF].
Proof.
  split.
  - unfold parse_scenario. intros H. inv_exec. bool_solve.
    match goal with H : from_utf8 _ = Some ?t |- _ => rename t into text, H into Hu end.
    match goal with H : _ /\ _ |- _ => destruct H as [Hl Hn] end.
    unfold lines in Hn. rewrite length_fmap in Hn.
    destruct (split_inclusive_one text Hl ltac:(lia)) as (l & -> & Hl').
    rewrite trim_end_one in H by done. apply from_str_iff in H as ->.
    apply from_utf8_iff in Hu as [_ ->]. by destruct s.
  - intros ->. destruct s; vm_compute; reflexivity.
Qed.

(** The host's image checker and the loader agree on every scenario file:
    the host reads a file as scenario [s] exactly when the loader reads it as
    the scenario [s] stands for, and the file the host writes for [s]
    ([as_str] and a newline) is the only such file. *)
Theorem host_and_loader_agree_on_scenarios (bytes : list Z) (s : BootScenario) :
  (parse_scenario bytes = Ok s <-> Scenario.parse bytes = Ok (loader_scenario s)) /\
  (parse_scenario bytes = Ok s <-> bytes = as_str s ++ [LF]).
Proof.
  split; [|apply parse_scenario_iff]. rewrite parse_scenario_iff. split.
  - intros ->. by destruct s.
  - intros ->%parse_scenario_Ok. by destruct s.
Qed.
