(* ===== verification/HostRun.v ===== *)
(** One observed boot on the host: crates/xtask/src/qemu.rs, from the log files
    of a finished execution to the verdict on its scenario, and the observer
    that watches the debug log while the guest runs. *)

From S2P Require Import Prelude Bytes Console Text Protocol HostScenario.
Import Image.

(** ** Data *)
Inductive BootMode := ScenarioRun | TimeoutProbe.
#[global] Instance BootMode_eq_dec : EqDecision BootMode.
Proof. solve_decision. Defined.

Record BootRun := mkBootRun {
  br_schema_version : Z;
  br_mode : BootMode;
  br_scenario : BootScenario;
  br_classification : BootClassification;
  br_exit_status : option Z;
  br_duration_ms : Z;
  br_timeout_ms : Z;
  br_time_to_ready_marker_ms : option Z;
  br_peak_rss_kib : option Z;
  br_image_sha256 : list Z;
  br_image_bytes : Z;
  br_ovmf_code_sha256 : list Z;
  br_ovmf_vars_sha256 : list Z;
  br_qemu_version : list Z;
  br_ovmf_release : list Z;
  br_qemu_argv : list (list Z);
  br_saw_ready_marker : bool;
  br_saw_reject_marker : bool;
  br_saw_panic_marker : bool;
  br_terminal_code : option string;
  br_diagnostic_protocol_error : option string;
  br_log : list Z
}.

Record QemuExecution := mkQemuExecution {
  qe_exit_status : option Z;
  qe_duration_ms : Z;
  qe_time_to_ready_marker_ms : option Z;
  qe_peak_rss_kib : option Z;
  qe_timed_out : bool
}.

Inductive HostError :=
| LogUnreadable
| NotAScenarioRun
| NormalBootFailed | BadVersionNotRejected | TruncatedNotRejected | PanicNotReached
| TimeoutProbeFailed.

(** A log file when it is opened. *)
Inductive LogFile := NotFound | Unreadable | Contents (bytes : list Z).

(** ** Logs *)
Definition MAX_CAPTURED_LOG_BYTES : Z := 4 * 1024 * 1024.

Definition read_log_bounded (path : LogFile) : exec HostError (list Z * bool) :=
  match path with
  | NotFound => Ok ([], false)
  | Unreadable => Err LogUnreadable
  | Contents file =>
      let bytes := take_z (MAX_CAPTURED_LOG_BYTES + 1) file in
      let truncated := MAX_CAPTURED_LOG_BYTES <? len bytes in
      Ok (if truncated then take_z MAX_CAPTURED_LOG_BYTES bytes else bytes, truncated)
  end.

(** The loop of [collect_logs] with the text collected so far. *)
Fixpoint collect_logs_from (combined : list Z) (paths : list LogFile) : exec HostError (list Z) :=
  match paths with
  | [] => Ok combined
  | path :: paths =>
      captured ← read_log_bounded path;
      let '(bytes, truncated) := captured : list Z * bool in
      let combined := combined ++ from_utf8_lossy bytes in
      let combined := if negb (bool_decide (combined = [])) && negb (bool_decide (last combined = Some LF))
                      then combined ++ [LF] else combined in
      let combined := if truncated
                      then combined ++ ascii_bytes "[host: log truncated at 4194304 bytes]" ++ [LF]
                      else combined in
      collect_logs_from combined paths
  end.
Definition collect_logs (paths : list LogFile) : exec HostError (list Z) := collect_logs_from [] paths.

(** ** The report of a run *)

(** What identifies the inputs of a run: digests, sizes, versions, arguments. *)
Record RunIdentity := mkRunIdentity {
  id_timeout_ms : Z;
  id_image_sha256 : list Z;
  id_image_bytes : Z;
  id_ovmf_code_sha256 : list Z;
  id_ovmf_vars_sha256 : list Z;
  id_qemu_version : list Z;
  id_ovmf_release : list Z;
  id_qemu_argv : list (list Z)
}.

(** [observe_boot] after the execution ended: the logs are read, parsed and
    classified, and the report is built. *)
Definition observe_execution (mode : BootMode) (scenario : BootScenario) (identity : RunIdentity)
    (execution : QemuExecution) (serial debug stderr stdout : LogFile) : exec HostError BootRun :=
  captured ← read_log_bounded debug;
  let '(debug_bytes, debug_truncated) := captured : list Z * bool in
  trace ← match parse_protocol_stream debug_bytes debug_truncated with
          | Ok trace => Ok trace
          | _ => Panic
          end;
  log ← collect_logs [serial; debug; stderr; stdout];
  let classification := classify_boot (qe_timed_out execution) (qe_exit_status execution) trace in
  Ok {| br_schema_version := 2; br_mode := mode; br_scenario := scenario;
        br_classification := classification; br_exit_status := qe_exit_status execution;
        br_duration_ms := qe_duration_ms execution; br_timeout_ms := id_timeout_ms identity;
        br_time_to_ready_marker_ms := qe_time_to_ready_marker_ms execution;
        br_peak_rss_kib := qe_peak_rss_kib execution;
        br_image_sha256 := id_image_sha256 identity; br_image_bytes := id_image_bytes identity;
        br_ovmf_code_sha256 := id_ovmf_code_sha256 identity;
        br_ovmf_vars_sha256 := id_ovmf_vars_sha256 identity;
        br_qemu_version := id_qemu_version identity; br_ovmf_release := id_ovmf_release identity;
        br_qemu_argv := id_qemu_argv identity;
        br_saw_ready_marker := me_ready (pt_markers trace);
        br_saw_reject_marker := me_rejected (pt_markers trace);
        br_saw_panic_marker := me_panic (pt_markers trace);
        br_terminal_code := me_terminal_code (pt_markers trace);
        br_diagnostic_protocol_error := pt_violation trace;
        br_log := log |}.

Definition is_none {A} (o : option A) : bool := match o with None => true | Some _ => false end.

Definition validate_scenario_outcome (run : BootRun) : exec HostError unit :=
  match br_scenario run with
  | Normal =>
      fail_if (negb (bool_decide (br_classification run = Ready)
        && bool_decide (br_exit_status run = Some READY_EXIT_STATUS)
        && br_saw_ready_marker run && negb (br_saw_reject_marker run)
        && negb (br_saw_panic_marker run) && negb (is_none (br_time_to_ready_marker_ms run))
        && bool_decide (br_terminal_code run = Some "KERNEL_READY"%string)
        && is_none (br_diagnostic_protocol_error run))) NormalBootFailed
  | BadVersion =>
      fail_if (negb (bool_decide (br_classification run = Rejected)
        && bool_decide (br_exit_status run = Some REJECT_EXIT_STATUS)
        && contains (br_log run) BAD_VERSION_MARKER && negb (contains (br_log run) TRUNCATED_MARKER)
        && negb (br_saw_ready_marker run) && negb (br_saw_panic_marker run)
        && is_none (br_time_to_ready_marker_ms run)
        && bool_decide (br_terminal_code run = Some "ABI_VERSION"%string)
        && is_none (br_diagnostic_protocol_error run))) BadVersionNotRejected
  | Truncated =>
      fail_if (negb (bool_decide (br_classification run = Rejected)
        && bool_decide (br_exit_status run = Some REJECT_EXIT_STATUS)
        && contains (br_log run) TRUNCATED_MARKER && negb (contains (br_log run) BAD_VERSION_MARKER)
        && negb (br_saw_ready_marker run) && negb (br_saw_panic_marker run)
        && is_none (br_time_to_ready_marker_ms run)
        && bool_decide (br_terminal_code run = Some "CONTRACT_LENGTH"%string)
        && is_none (br_diagnostic_protocol_error run))) TruncatedNotRejected
  | PanicBoot =>
      fail_if (negb (bool_decide (br_classification run = Panicked_)
        && bool_decide (br_exit_status run = Some PANIC_EXIT_STATUS)
        && negb (br_saw_ready_marker run) && negb (br_saw_reject_marker run)
        && is_none (br_time_to_ready_marker_ms run)
        && bool_decide (br_terminal_code run = Some "KERNEL_PANIC"%string)
        && is_none (br_diagnostic_protocol_error run))) PanicNotReached
  end.

Definition validate_boot_outcome (run : BootRun) : exec HostError unit :=
  fail_if (negb (bool_decide (br_mode run = ScenarioRun))) NotAScenarioRun ;;
  validate_scenario_outcome run.

Definition validate_timeout_probe (run : BootRun) : exec HostError unit :=
  fail_if (negb (bool_decide (br_mode run = TimeoutProbe)
    && bool_decide (br_classification run = Timeout_)
    && (br_timeout_ms run <=? br_duration_ms run))) TimeoutProbeFailed.

Definition max_option (left_ right_ : option Z) : option Z :=
  match left_, right_ with
  | Some l, Some r => Some (Z.max l r)
  | Some v, None | None, Some v => Some v
  | None, None => None
  end.

(** ** Watching the log *)
Definition MAX_OBSERVED_LOG_BYTES : Z := 4 * 1024 * 1024.

Record LogCursor := mkLogCursor {
  lc_offset : Z;
  lc_scanned : Z;
  lc_pending_line : list Z;
  lc_discarding_overlong_line : bool
}.

Definition LogCursor_new : LogCursor := mkLogCursor 0 0 [] false.

Definition saturating_add (a b : Z) : Z := Z.min u64_MAX (a + b).

(** One byte of the buffer: whether it ends a line equal to [needle]. *)
Definition scan_byte (needle : list Z) (byte : Z) (c : LogCursor) : bool * LogCursor :=
  if byte =? LF then
    let line := strip_cr (lc_pending_line c) in
    let found := negb (lc_discarding_overlong_line c) && bool_decide (line = needle) in
    (found, mkLogCursor (lc_offset c) (lc_scanned c) [] false)
  else if negb (lc_discarding_overlong_line c) then
    if len (lc_pending_line c) <? MAX_DIAGNOSTIC_RECORD_BYTES + 1
    then (false, mkLogCursor (lc_offset c) (lc_scanned c) (lc_pending_line c ++ [byte]) false)
    else (false, mkLogCursor (lc_offset c) (lc_scanned c) [] true)
  else (false, c).

(** [for &byte in &buffer[..read]], left on the first match. *)
Fixpoint scan_bytes (needle bytes : list Z) (c : LogCursor) : bool * LogCursor :=
  match bytes with
  | [] => (false, c)
  | byte :: bytes =>
      let '(found, c) := scan_byte needle byte c in
      if found then (true, c) else scan_bytes needle bytes c
  end.

Section Polling.
(** How many bytes [read] returns at an offset: a short read is allowed, an
    empty one only at the end of the file. *)
Variable chunk : Z -> Z.

Definition read_length (data : list Z) (offset maximum : Z) : Z :=
  if bool_decide (data = []) then 0
  else Z.max 1 (Z.min (chunk offset) (Z.min maximum (len data))).

(** The [while] loop; [data] is the file from the cursor on.  Every iteration
    consumes a byte, so the length of the file is enough fuel. *)
Fixpoint cursor_loop (fuel : nat) (needle data : list Z) (c : LogCursor)
    : exec HostError (bool * LogCursor) :=
  match fuel with
  | O => Panic
  | S fuel =>
      if lc_scanned c <? MAX_OBSERVED_LOG_BYTES then
        let remaining := MAX_OBSERVED_LOG_BYTES - lc_scanned c in
        let maximum := Z.min remaining 4096 in
        let read := read_length data (lc_offset c) maximum in
        if read =? 0 then Ok (false, c)
        else
          let c := mkLogCursor (saturating_add (lc_offset c) read)
                     (saturating_add (lc_scanned c) read) (lc_pending_line c)
                     (lc_discarding_overlong_line c) in
          let '(found, c) := scan_bytes needle (take (Z.to_nat read) data) c in
          if found then Ok (true, c)
          else cursor_loop fuel needle (drop (Z.to_nat read) data) c
      else Ok (false, c)
  end.

(** [LogCursor::contains_new] *)
Definition contains_new (needle : list Z) (path : LogFile) (c : LogCursor)
    : exec HostError (bool * LogCursor) :=
  match path with
  | NotFound => Ok (false, c)
  | Unreadable => Err LogUnreadable
  | Contents file =>
      let c := if len file <? lc_offset c then LogCursor_new else c in
      if MAX_OBSERVED_LOG_BYTES <=? lc_scanned c then Ok (false, c)
      else cursor_loop (S (length file)) needle (drop (Z.to_nat (lc_offset c)) file) c
  end.

(** The observer of the debug log: when the ready marker was first seen, in
    the unit of the caller's clock. *)
Record ReadyMarkerObserver := mkReadyMarkerObserver {
  ro_cursors : list LogCursor;
  ro_observed_at : option Z
}.

Definition ReadyMarkerObserver_new (paths : nat) : ReadyMarkerObserver :=
  mkReadyMarkerObserver (replicate paths LogCursor_new) None.

(** The loop over the cursors, left at the first that finds the marker. *)
Fixpoint observe_cursors (elapsed : Z) (files : list LogFile) (cursors : list LogCursor)
    : exec HostError (list LogCursor * option Z) :=
  match files, cursors with
  | file :: files, cursor :: cursors =>
      '(found, cursor) ← contains_new READY_MARKER file cursor;
      if (found : bool) then Ok (cursor :: cursors, Some elapsed)
      else '(rest, at_) ← observe_cursors elapsed files cursors; Ok (cursor :: rest, at_)
  | _, _ => Ok (cursors, None)
  end.

(** [ReadyMarkerObserver::observe] *)
Definition observe (elapsed : Z) (files : list LogFile) (o : ReadyMarkerObserver)
    : exec HostError ReadyMarkerObserver :=
  if bool_decide (is_Some (ro_observed_at o)) then Ok o
  else '(cursors, at_) ← observe_cursors elapsed files (ro_cursors o);
       Ok (mkReadyMarkerObserver cursors at_).

(** The calls of [observe] along a run: the clock and the debug log at each. *)
Fixpoint observe_all (polls : list (Z * list Z)) (o : ReadyMarkerObserver)
    : exec HostError ReadyMarkerObserver :=
  match polls with
  | [] => Ok o
  | (elapsed, log) :: polls => o ← observe elapsed [Contents log] o; observe_all polls o
  end.
End Polling.
