(* ===== verification/HostRunProps.v ===== *)
(** Theorems about the host's observation of a boot: what an accepted run
    proves, and that the log observer sees the ready marker exactly when the
    log has it, however the file is read. *)

From S2P Require Import Prelude Bytes Console Text Protocol ProtocolProps HostScenario HostRun.
Import Image.

(** ** The log cursor *)

(** Some complete line of the log is [needle], a carriage return aside. *)
Definition matches (needle raw : list Z) : bool := bool_decide (strip_cr raw = needle).
Definition has_line (needle log : list Z) : bool := existsb (matches needle) (lines_of log).1.

Lemma lines_acc_app l1 : forall current l2,
  lines_acc current (l1 ++ l2) =
  let '(ls1, p1) := lines_acc current l1 in
  let '(ls2, p2) := lines_acc p1 l2 in (ls1 ++ ls2, p2).
Proof.
  induction l1 as [|b l1 IH]; intros current l2; cbn [app lines_acc].
  { by destruct (lines_acc current l2). }
  destruct (b =? LF); [|apply IH]. rewrite IH.
  destruct (lines_acc [] l1) as [ls1 p1]. by destruct (lines_acc p1 l2).
Qed.

(** The cursor after reading up to an unfinished line [p]. *)
Definition at_line (offset scanned : Z) (p : list Z) : LogCursor :=
  if len p <=? MAX_DIAGNOSTIC_RECORD_BYTES + 1 then mkLogCursor offset scanned p false
  else mkLogCursor offset scanned [] true.

Lemma strip_cr_length l : len l - 1 <= len (strip_cr l).
Proof. unfold strip_cr. repeat case_match; rewrite ?length_take; lia. Qed.

Lemma scan_byte_line needle o s p :
  len needle <= MAX_DIAGNOSTIC_RECORD_BYTES ->
  scan_byte needle LF (at_line o s p) = (matches needle p, at_line o s []).
Proof.
  intros Hn. unfold scan_byte, at_line. rewrite Z.eqb_refl.
  destruct (Z.leb_spec (len p) (MAX_DIAGNOSTIC_RECORD_BYTES + 1)); [done|].
  cbn [lc_discarding_overlong_line negb andb lc_offset lc_scanned]. f_equal.
  unfold matches. symmetry. apply bool_decide_eq_false. intros <-.
  pose proof (strip_cr_length p). lia.
Qed.

Lemma scan_byte_other needle o s p b :
  b <> LF -> scan_byte needle b (at_line o s p) = (false, at_line o s (p ++ [b])).
Proof.
  intros Hb. unfold scan_byte, at_line. rewrite (proj2 (Z.eqb_neq b LF)) by done.
  rewrite length_app. cbn [length]. unfold MAX_DIAGNOSTIC_RECORD_BYTES.
  destruct (Z.leb_spec (len p) (256 + 1)); cbn [lc_discarding_overlong_line negb lc_pending_line].
  - destruct (Z.ltb_spec (len p) (256 + 1)), (Z.leb_spec (Z.of_nat (length p + 1)) (256 + 1)); try lia; done.
  - destruct (Z.leb_spec (Z.of_nat (length p + 1)) (256 + 1)); [lia|done].
Qed.

Lemma scan_bytes_exact needle bytes : forall o s p,
  len needle <= MAX_DIAGNOSTIC_RECORD_BYTES ->
  let '(ls, q) := lines_acc p bytes in
  exists c, scan_bytes needle bytes (at_line o s p) = (existsb (matches needle) ls, c) /\
    (existsb (matches needle) ls = false -> c = at_line o s q).
Proof.
  induction bytes as [|b bytes IH]; intros o s p Hn; cbn [lines_acc scan_bytes]; [by eexists|].
  destruct (Z.eqb_spec b LF) as [->|Hb].
  - rewrite scan_byte_line by done. specialize (IH o s [] Hn).
    destruct (lines_acc [] bytes) as [ls q]. cbn [existsb].
    destruct (matches needle p); cbn [orb]; [by eexists|done].
  - rewrite scan_byte_other by done. apply IH, Hn.
Qed.

(** A cursor that has read the log [log] and found nothing. *)
Definition consistent (needle log : list Z) (c : LogCursor) : Prop :=
  c = at_line (len log) (len log) (lines_of log).2 /\ has_line needle log = false.

Lemma consistent_fields needle log c :
  consistent needle log c -> lc_offset c = len log /\ lc_scanned c = len log.
Proof. intros [-> _]. unfold at_line. by case_match. Qed.

Lemma consistent_new needle : consistent needle [] LogCursor_new.
Proof. by split. Qed.

Lemma has_line_app needle l1 l2 :
  has_line needle (l1 ++ l2) =
  has_line needle l1 || existsb (matches needle) (lines_acc (lines_of l1).2 l2).1.
Proof.
  unfold has_line, lines_of. rewrite lines_acc_app. destruct (lines_acc [] l1) as [ls1 p1].
  cbn [fst snd]. destruct (lines_acc p1 l2) as [ls2 p2]. cbn [fst]. apply existsb_app.
Qed.

(** Reading one more piece of the log. *)
Lemma consistent_scan needle log more c :
  len needle <= MAX_DIAGNOSTIC_RECORD_BYTES -> consistent needle log c -> len (log ++ more) < 2 ^ 63 ->
  exists c', scan_bytes needle more (mkLogCursor (saturating_add (lc_offset c) (len more))
      (saturating_add (lc_scanned c) (len more)) (lc_pending_line c) (lc_discarding_overlong_line c)) =
    (has_line needle (log ++ more), c') /\
    (has_line needle (log ++ more) = false -> consistent needle (log ++ more) c').
Proof.
  intros Hn Hc Hlen. destruct (consistent_fields _ _ _ Hc) as [Ho Hs]. destruct Hc as [-> Hl].
  rewrite Ho, Hs. rewrite length_app, Nat2Z.inj_add in Hlen. rewrite has_line_app, Hl.
  unfold saturating_add, u64_MAX. rewrite Z.min_r by lia. cbn [orb].
  set (p := (lines_of log).2). set (o := len log + len more).
  replace (mkLogCursor o o _ _) with (at_line o o p) by (unfold at_line; by case_match).
  pose proof (scan_bytes_exact needle more o o p Hn) as H.
  assert (lines_of (log ++ more) = let '(ls2, p2) := lines_acc p more in ((lines_of log).1 ++ ls2, p2)) as Happ.
  { unfold lines_of. rewrite lines_acc_app. unfold p, lines_of. by destruct (lines_acc [] log). }
  destruct (lines_acc p more) as [ls q]. destruct H as (c' & E & Hc). cbn [fst] in *.
  exists c'. split; [done|]. intros He. rewrite (Hc He). unfold consistent. rewrite Happ.
  rewrite has_line_app, Hl. cbn [orb snd]. unfold p in Happ.
  rewrite length_app, Nat2Z.inj_add. split; [done|].
  unfold lines_of in Happ. rewrite lines_acc_app in Happ. fold p in Happ.
  unfold p, lines_of in *. destruct (lines_acc [] log) as [ls1 p1] eqn:E1. cbn [fst snd] in *.
  destruct (lines_acc p1 more) as [ls2 p2]. injection Happ as Happ _. apply app_inv_head in Happ.
  cbn [fst]. by rewrite Happ.
Qed.

Section Observer.
Context (chunk : Z -> Z) (needle : list Z).
Hypothesis Hneedle : len needle <= MAX_DIAGNOSTIC_RECORD_BYTES.

Lemma read_length_bounds data o maximum :
  1 <= maximum -> data <> [] -> 1 <= read_length chunk data o maximum <= Z.min maximum (len data).
Proof.
  intros Hm Hd. unfold read_length. rewrite bool_decide_eq_false_2 by done.
  destruct data; [done|]. cbn [length]. lia.
Qed.

(** The loop reads the rest of the file, in whatever pieces. *)
Lemma cursor_loop_exact fuel : forall log data c,
  (length data < fuel)%nat -> consistent needle log c -> len (log ++ data) <= MAX_OBSERVED_LOG_BYTES ->
  exists c', cursor_loop chunk fuel needle data c = Ok (has_line needle (log ++ data), c') /\
    (has_line needle (log ++ data) = false -> consistent needle (log ++ data) c').
Proof.
  induction fuel as [|fuel IH]; intros log data c Hf Hc Hlen; [lia|]. cbn [cursor_loop].
  destruct (consistent_fields _ _ _ Hc) as [_ Hs].
  destruct (decide (data = [])) as [->|Hd].
  { rewrite app_nil_r in *. destruct Hc as [Hc Hl]. rewrite Hl. exists c.
    split; [|by split]. unfold read_length. rewrite bool_decide_eq_true_2 by done. by case_match. }
  assert (0 < len data) by (destruct data; [done|cbn [length]; lia]).
  rewrite length_app, Nat2Z.inj_add in Hlen.
  rewrite (proj2 (Z.ltb_lt _ _)) by lia.
  pose proof (read_length_bounds data (lc_offset c) (Z.min (MAX_OBSERVED_LOG_BYTES - lc_scanned c) 4096)
    ltac:(lia) Hd) as Hr.
  set (n := read_length chunk data _ _) in *. rewrite (proj2 (Z.eqb_neq n 0)) by lia.
  set (more := take (Z.to_nat n) data).
  assert (len more = n) as Hmore by (unfold more; rewrite length_take; lia).
  destruct (consistent_scan needle log more c Hneedle Hc) as (c1 & E & Hc1).
  { rewrite length_app, Nat2Z.inj_add. unfold MAX_OBSERVED_LOG_BYTES in *. lia. }
  rewrite Hmore in E. rewrite E.
  assert (log ++ data = (log ++ more) ++ drop (Z.to_nat n) data) as Hdata.
  { unfold more. by rewrite <- app_assoc, take_drop. }
  rewrite Hdata. destruct (has_line needle (log ++ more)) eqn:Hl.
  - exists c1. rewrite has_line_app, Hl. by split.
  - apply IH; [rewrite length_drop; lia|by apply Hc1|].
    rewrite <- Hdata, length_app, Nat2Z.inj_add. lia.
Qed.

(** One poll of a log that has grown from [log] to [log ++ more]. *)
Lemma contains_new_exact log more c :
  consistent needle log c -> len (log ++ more) <= MAX_OBSERVED_LOG_BYTES ->
  exists c', contains_new chunk needle (Contents (log ++ more)) c =
      Ok (has_line needle (log ++ more), c') /\
    (has_line needle (log ++ more) = false -> consistent needle (log ++ more) c').
Proof.
  intros Hc Hlen. destruct (consistent_fields _ _ _ Hc) as [Ho Hs]. unfold contains_new.
  rewrite Ho. rewrite (proj2 (Z.ltb_ge _ _)) by (rewrite length_app; lia). rewrite Hs.
  destruct (Z.leb_spec MAX_OBSERVED_LOG_BYTES (len log)).
  - rewrite length_app, Nat2Z.inj_add in Hlen.
    assert (more = []) as -> by (destruct more; [done|cbn [length] in Hlen; lia]).
    rewrite app_nil_r. destruct Hc as [Hc Hl]. rewrite Hl. exists c. by repeat split.
  - rewrite Ho, Nat2Z.id, drop_app_length. apply cursor_loop_exact; [|done..].
    rewrite length_app. lia.
Qed.
End Observer.

(** ** Sequences of polls *)

(** Each log extends the one before. *)
Fixpoint growing (log : list Z) (polls : list (Z * list Z)) : Prop :=
  match polls with
  | [] => True
  | (_, log') :: polls => (exists more, log' = log ++ more) /\ growing log' polls
  end.

(** The time of the first poll whose log has the marker. *)
Fixpoint first_ready (polls : list (Z * list Z)) : option Z :=
  match polls with
  | [] => None
  | (elapsed, log) :: polls => if has_line READY_MARKER log then Some elapsed else first_ready polls
  end.

Lemma observe_done chunk polls t cursors :
  observe_all chunk polls (mkReadyMarkerObserver cursors (Some t)) =
  Ok (mkReadyMarkerObserver cursors (Some t)).
Proof. induction polls as [|[e l] polls IH]; [done|]. cbn [observe_all]. done. Qed.

Lemma observe_all_exact chunk polls : forall log c,
  consistent READY_MARKER log c -> growing log polls ->
  Forall (fun p => len p.2 <= MAX_OBSERVED_LOG_BYTES) polls ->
  exists o, observe_all chunk polls (mkReadyMarkerObserver [c] None) = Ok o /\
    ro_observed_at o = first_ready polls.
Proof.
  induction polls as [|[e l] polls IH]; intros log c Hc Hg Hl; cbn [observe_all first_ready];
    [by eexists|].
  destruct Hg as [[more ->] Hg]. inversion Hl as [|? ? Hl1 Hl2]; subst. cbn [snd] in Hl1.
  destruct (contains_new_exact chunk READY_MARKER ltac:(vm_compute; congruence) log more c Hc Hl1)
    as (c' & E & Hc'). unfold observe. cbn [ro_observed_at ro_cursors].
  rewrite bool_decide_eq_false_2 by (by intros [? ?]). cbn [observe_cursors]. rewrite E.
  destruct (has_line READY_MARKER (log ++ more)) eqn:Hh; cbn [mbind exec_bind].
  - rewrite observe_done. by eexists.
  - apply (IH (log ++ more)); [by apply Hc'|done..].
Qed.

(** C34. The log observer is exact.  While the debug log grows up to 4 MiB, and
    however the reads of each poll are cut into pieces, the observer reports
    the time of the first poll at which some complete line of the log is the
    ready marker (with or without a carriage return), and nothing if there is
    none; overlong lines never confuse it. *)
Theorem ready_observer_is_exact (chunk : Z -> Z) (polls : list (Z * list Z)) :
  growing [] polls -> Forall (fun p => len p.2 <= MAX_OBSERVED_LOG_BYTES) polls ->
  exists o, observe_all chunk polls (ReadyMarkerObserver_new 1) = Ok o /\
    ro_observed_at o = first_ready polls.
Proof. intros. apply (observe_all_exact chunk polls []); [apply consistent_new|done..]. Qed.

Definition sample_polls : list (Z * list Z) :=
  let noise := replicate 300 120 ++ [LF] in
  [(5, replicate 300 120); (10, noise ++ take 40 READY_MARKER);
   (15, noise ++ READY_MARKER ++ [CR]); (20, noise ++ READY_MARKER ++ [CR; LF]);
   (25, noise ++ READY_MARKER ++ [CR; LF])].

Lemma ready_observer_is_exact_witness :
  exists o, observe_all (fun _ => 7) sample_polls (ReadyMarkerObserver_new 1) = Ok o /\
    ro_observed_at o = Some 20.
Proof.
  apply (ready_observer_is_exact (fun _ => 7) sample_polls).
  - cbn [growing sample_polls].
    split; [exists (replicate 300 120); reflexivity|].
    split; [exists (LF :: take 40 READY_MARKER); vm_compute; reflexivity|].
    split; [exists (drop 40 READY_MARKER ++ [CR]); vm_compute; reflexivity|].
    split; [exists [LF]; vm_compute; reflexivity|].
    split; [exists []; vm_compute; reflexivity|exact I].
  - by_decide.
Defined.

(** ** Accepted runs *)

(** The kernel record, the terminal code and the exit status of a scenario. *)
Definition scenario_kind (s : BootScenario) : RecordKind :=
  match s with
  | Normal => Ready_
  | BadVersion => AbiVersion
  | Truncated => ContractLength
  | PanicBoot => Panic_
  end.
Definition scenario_record (s : BootScenario) : list Z :=
  match s with
  | Normal => READY_MARKER
  | BadVersion => BAD_VERSION_MARKER
  | Truncated => TRUNCATED_MARKER
  | PanicBoot => PANIC_MARKER
  end.
Definition scenario_status (s : BootScenario) : Z :=
  match s with
  | Normal => READY_EXIT_STATUS
  | BadVersion | Truncated => REJECT_EXIT_STATUS
  | PanicBoot => PANIC_EXIT_STATUS
  end.

Lemma read_log_bounded_whole bytes captured :
  read_log_bounded (Contents bytes) = Ok (captured, false) ->
  captured = bytes /\ len bytes <= MAX_CAPTURED_LOG_BYTES.
Proof.
  unfold read_log_bounded. rewrite take_z_take. intros H. injection H as H Ht. rewrite Ht in H.
  apply Z.ltb_ge in Ht. rewrite length_take in Ht.
  assert (len bytes <= MAX_CAPTURED_LOG_BYTES) by (unfold MAX_CAPTURED_LOG_BYTES in *; lia).
  split; [|done]. rewrite <- H. apply take_ge. unfold MAX_CAPTURED_LOG_BYTES in *. lia.
Qed.

(** What the validator checks, for every scenario alike. *)
Lemma validate_scenario_common run u :
  validate_scenario_outcome run = Ok u ->
  br_classification run <> Timeout_ /\
  br_exit_status run = Some (scenario_status (br_scenario run)) /\
  br_terminal_code run = me_terminal_code (set_markers no_markers (scenario_kind (br_scenario run))) /\
  br_diagnostic_protocol_error run = None.
Proof.
  unfold validate_scenario_outcome. intros H.
  destruct (br_scenario run); apply fail_if_Ok in H; bool_solve; destruct_and?; split_and!; try done;
    try congruence; by destruct (br_diagnostic_protocol_error run).
Qed.

(** The terminal code identifies the kernel record. *)
Lemma terminal_code_kind kind s :
  is_Some (kernel_kind kind) ->
  me_terminal_code (set_markers no_markers kind) =
    me_terminal_code (set_markers no_markers (scenario_kind s)) ->
  kind = scenario_kind s.
Proof. intros [x Hx]. by destruct kind, s. Qed.

Lemma trace_terminal bytes truncated trace s :
  parse_protocol_stream bytes truncated = Ok trace -> pt_violation trace = None ->
  me_terminal_code (pt_markers trace) =
    me_terminal_code (set_markers no_markers (scenario_kind s)) ->
  truncated = false /\ cut_record bytes = false /\
  protocol_lines bytes = handoff_lines ++ [scenario_record s].
Proof.
  intros Hp Hv Hc. destruct (trace_of_log _ _ _ Hp Hv) as (Ht & Hcut & st & Hpath & Hm).
  split; [done|]. split; [done|]. rewrite Hm in Hc.
  destruct (path_outcome _ _ Hpath) as [Ho|(line & kind & Hl & Hk & Hkk & Ho)]; rewrite Ho in Hc.
  - by destruct s.
  - apply terminal_code_kind in Hc as ->; [|done]. rewrite Hl. do 2 f_equal.
    apply record_kind_lines in Hk. destruct s; by apply singleton_line in Hk.
Qed.

(** What an accepted run leaves, whatever became of its debug log. *)
Lemma accepted_run_evidence mode s identity execution serial debug stderr stdout run :
  observe_execution mode s identity execution serial debug stderr stdout = Ok run ->
  validate_boot_outcome run = Ok tt ->
  exists bytes, debug = Contents bytes /\ mode = ScenarioRun /\ qe_timed_out execution = false /\
    qe_exit_status execution = Some (scenario_status s) /\ len bytes <= MAX_CAPTURED_LOG_BYTES /\
    cut_record bytes = false /\ protocol_lines bytes = handoff_lines ++ [scenario_record s].
Proof.
  intros Ho Hval. unfold observe_execution in Ho. apply bind_Ok in Ho as ([bytes truncated] & Hr & Ho).
  apply bind_Ok in Ho as (trace & Hp & Ho). apply bind_Ok in Ho as (log & _ & [= <-]).
  destruct (parse_protocol_stream bytes truncated) as [t| |] eqn:Ep; [injection Hp as ->|done..].
  unfold validate_boot_outcome in Hval. apply bind_fail_if in Hval as [Hmode Hval]. bool_solve.
  apply validate_scenario_common in Hval. cbn [br_classification br_exit_status br_scenario
    br_terminal_code br_diagnostic_protocol_error br_mode] in *. destruct Hval as (Hc & Hs & Ht & Hv).
  destruct (trace_terminal _ _ _ s Ep Hv Ht) as (-> & Hcut & Hlines).
  destruct debug as [| |debug]; [|discriminate Hr|].
  - exfalso. injection Hr as <-. by apply (f_equal length) in Hlines.
  - apply read_log_bounded_whole in Hr as [-> Hlen]. exists debug. split_and!; try done.
    by destruct (qe_timed_out execution).
Qed.

(** C9. An accepted run proves the scenario happened.  When the report built
    from a finished execution passes [validate_boot_outcome], the guest exited
    by itself with the status of the scenario, the debug log was captured whole,
    it ends in no unfinished record, and its records are exactly the three
    handoff records and the kernel's record for that scenario. *)
Theorem accepted_run_followed_scenario (mode : BootMode) (s : BootScenario) (identity : RunIdentity)
    (execution : QemuExecution) (serial stderr stdout : LogFile) (debug : list Z) (run : BootRun) :
  observe_execution mode s identity execution serial (Contents debug) stderr stdout = Ok run ->
  validate_boot_outcome run = Ok tt ->
  mode = ScenarioRun /\ qe_timed_out execution = false /\
  qe_exit_status execution = Some (scenario_status s) /\
  len debug <= MAX_CAPTURED_LOG_BYTES /\ cut_record debug = false /\
  protocol_lines debug = handoff_lines ++ [scenario_record s].
Proof.
  intros Ho Hval. destruct (accepted_run_evidence _ _ _ _ _ _ _ _ _ Ho Hval) as (bytes & [= <-] & H). exact H.
Qed.

Definition sample_execution : QemuExecution := mkQemuExecution (Some 33) 900 (Some 850) None false.
Definition sample_identity : RunIdentity := mkRunIdentity 10000 [] 0 [] [] [] [] [].
Definition sample_run : BootRun :=
  {| br_schema_version := 2; br_mode := ScenarioRun; br_scenario := Normal;
     br_classification := Ready; br_exit_status := Some 33; br_duration_ms := 900;
     br_timeout_ms := 10000; br_time_to_ready_marker_ms := Some 850; br_peak_rss_kib := None;
     br_image_sha256 := []; br_image_bytes := 0; br_ovmf_code_sha256 := [];
     br_ovmf_vars_sha256 := []; br_qemu_version := []; br_ovmf_release := []; br_qemu_argv := [];
     br_saw_ready_marker := true; br_saw_reject_marker := false; br_saw_panic_marker := false;
     br_terminal_code := Some "KERNEL_READY"%string; br_diagnostic_protocol_error := None;
     br_log := sample_log |}.

Lemma accepted_run_followed_scenario_witness :
  protocol_lines sample_log = handoff_lines ++ [READY_MARKER].
Proof.
  apply (accepted_run_followed_scenario ScenarioRun Normal sample_identity sample_execution NotFound
    NotFound (Contents []) sample_log sample_run).
  - vm_compute. reflexivity.
  - vm_compute. reflexivity.
Defined.
