(* ===== verification/Artifact.v ===== *)
(** Artifact comparison and digests: crates/xtask/src/lib.rs.

    The SHA-256 function of the [sha2] crate is a parameter; its hexadecimal
    rendering is the code's own. *)

From S2P Require Import Prelude Bytes Console.

(** ** Hexadecimal digests *)
Definition HEX : list Z := ascii_bytes "0123456789abcdef".

(** [encoded.push(HEX[byte >> 4]); encoded.push(HEX[byte & 0x0f])] for every
    byte of the digest. *)
Fixpoint hex_encode {E} (digest : list Z) : exec E (list Z) :=
  match digest with
  | [] => Ok []
  | byte :: rest =>
      high ← index_at HEX (Z.shiftr byte 4);
      low ← index_at HEX (Z.land byte 0x0f);
      encoded ← hex_encode rest;
      Ok (high :: low :: encoded)
  end.

Definition sha256_hex {E} (digest_fn : list Z -> list Z) (bytes : list Z) : exec E (list Z) :=
  hex_encode (digest_fn bytes).

(** ** First difference *)
Record ByteDifference := mkByteDifference {
  bd_offset : Z;
  bd_left : option Z;
  bd_right : option Z
}.

(** [left.iter().zip(right).enumerate().find(...)] *)
Fixpoint find_difference (offset : Z) (left_ right_ : list Z) : option (Z * (Z * Z)) :=
  match left_, right_ with
  | l :: lt, r :: rt => if negb (l =? r) then Some (offset, (l, r))
                        else find_difference (offset + 1) lt rt
  | _, _ => None
  end.

Definition first_difference (left_ right_ : list Z) : option ByteDifference :=
  match find_difference 0 left_ right_ with
  | Some (offset, (l, r)) => Some (mkByteDifference offset (Some l) (Some r))
  | None =>
      if negb (len left_ =? len right_) then
        let offset := Z.min (len left_) (len right_) in
        Some (mkByteDifference offset (get_at left_ offset) (get_at right_ offset))
      else None
  end.

(** ** Lemmas *)
Lemma find_difference_Some l : forall r o k x y,
  find_difference o l r = Some (k, (x, y)) <->
  exists n, k = o + Z.of_nat n /\ take n l = take n r /\ l !! n = Some x /\ r !! n = Some y /\ x <> y.
Proof.
  induction l as [|a l IH]; intros [|b r] o k x y; cbn [find_difference];
    try (split; [done|]; intros (n & _ & _ & H1 & H2 & _); by destruct n).
  destruct (Z.eqb_spec a b) as [->|Hab]; cbn [negb].
  - rewrite IH. split.
    + intros (n & -> & Ht & Hl & Hr & Hxy). exists (S n). cbn.
      split_and!; [lia|by f_equal|done..].
    + intros ([|n] & -> & Ht & Hl & Hr & Hxy); cbn in *; [congruence|].
      exists n. split_and!; [lia|by injection Ht|done..].
  - split.
    + intros [= <- <- <-]. exists 0%nat. cbn. split_and!; [lia|done..].
    + intros ([|n] & -> & Ht & Hl & Hr & Hxy); cbn in *; [|congruence].
      simplify_eq. by rewrite Z.add_0_r.
Qed.

Lemma find_difference_None l : forall r o,
  find_difference o l r = None <-> take (min (length l) (length r)) l = take (min (length l) (length r)) r.
Proof.
  induction l as [|a l IH]; intros [|b r] o; cbn [find_difference length Nat.min take]; try done.
  destruct (Z.eqb_spec a b) as [->|Hab]; cbn [negb].
  - rewrite IH. split; [intros H; by f_equal|intros H; by injection H].
  - split; [done|congruence].
Qed.

(** The reported difference is the first one: two artifacts have none exactly
    when they are equal; otherwise the report names the length of their common
    prefix and the byte each has there, absent for the one that ended. *)
Theorem first_difference_is_first (left_ right_ : list Z) :
  (first_difference left_ right_ = None <-> left_ = right_) /\
  (forall d, first_difference left_ right_ = Some d ->
     exists n, bd_offset d = Z.of_nat n /\ take n left_ = take n right_ /\
       bd_left d = left_ !! n /\ bd_right d = right_ !! n /\ bd_left d <> bd_right d).
Proof.
  unfold first_difference. destruct (find_difference 0 left_ right_) as [[k [x y]]|] eqn:Hd.
  - apply find_difference_Some in Hd as (n & -> & Ht & Hl & Hr & Hxy). split.
    + split; [done|]. intros ->. congruence.
    + intros d [= <-]. cbn. exists n. split_and!; [lia|done..|congruence].
  - apply find_difference_None in Hd. destruct (Z.eqb_spec (len left_) (len right_)) as [He|He]; cbn [negb].
    + split; [|done]. split; [|done]. intros _. rewrite !take_ge in Hd by lia. done.
    + split; [split; [done|congruence]|]. intros d [= <-]. cbn.
      set (n := min (length left_) (length right_)) in *. exists n.
      replace (Z.min (len left_) (len right_)) with (Z.of_nat n) by lia.
      assert (forall l : list Z, get_at l (Z.of_nat n) = l !! n) as Hg.
      { intros l. unfold get_at. rewrite Nat2Z.id.
        destruct (Z.leb_spec 0 (Z.of_nat n)), (Z.ltb_spec (Z.of_nat n) (len l)); try lia; [done|].
        cbn. symmetry. apply lookup_ge_None_2. lia. }
      rewrite !Hg. split_and!; [done..|]. intros Heq.
      destruct (decide (length left_ <= length right_)%nat).
      * rewrite (lookup_ge_None_2 left_) in Heq by lia. symmetry in Heq.
        apply lookup_ge_None in Heq. lia.
      * rewrite (lookup_ge_None_2 right_) in Heq by lia. apply lookup_ge_None in Heq. lia.
Qed.

Lemma hex_digit_ok {E} n : 0 <= n < 16 -> exists h, index_at (E:=E) HEX n = Ok h /\
  forall m, 0 <= m < 16 -> index_at (E:=E) HEX m = Ok h -> m = n.
Proof.
  intros Hn. destruct (get_at_lt HEX n) as [h Hh]; [exact Hn|]. exists h. unfold index_at.
  rewrite Hh. split; [done|]. intros m Hm H%or_panic_Ok.
  apply get_at_Some in Hh as [_ Hh], H as [_ H].
  assert (NoDup HEX) as Hnd by (apply (bool_decide_unpack _); vm_compute; exact I).
  pose proof (NoDup_lookup _ _ _ _ Hnd Hh H). lia.
Qed.

Lemma byte_nibbles b : uint 8 b ->
  0 <= Z.shiftr b 4 < 16 /\ 0 <= Z.land b 0x0f < 16 /\ b = Z.shiftr b 4 * 16 + Z.land b 0x0f.
Proof.
  unfold uint. intros Hb. change 0x0f with (Z.ones 4). rewrite Z.land_ones, Z.shiftr_div_pow2 by lia.
  change (2 ^ 4) with 16. Z.to_euclidean_division_equations. lia.
Qed.

Lemma hex_encode_total {E} l : is_bytes l -> exists e, hex_encode (E:=E) l = Ok e /\ length e = (2 * length l)%nat.
Proof.
  induction 1 as [|b l Hb _ (e & IH & Hl)]; [by exists []|].
  destruct (byte_nibbles b Hb) as (H1 & H2 & _). cbn [hex_encode].
  destruct (hex_digit_ok (E:=E) _ H1) as (h1 & -> & _), (hex_digit_ok (E:=E) _ H2) as (h2 & -> & _).
  cbn [mbind exec_bind]. rewrite IH. cbn. eexists. split; [done|]. cbn. lia.
Qed.

Lemma hex_encode_inj {E} l : forall l' e, is_bytes l -> is_bytes l' ->
  hex_encode (E:=E) l = Ok e -> hex_encode (E:=E) l' = Ok e -> l = l'.
Proof.
  induction l as [|b l IH]; intros l' e Hl Hl' He He'.
  { injection He as <-. destruct l' as [|b' l']; [done|]. cbn in He'. inv_exec. }
  inversion Hl as [|? ? Hb Hl0]; subst. destruct (byte_nibbles b Hb) as (H1 & H2 & Hbe).
  destruct (hex_digit_ok (E:=E) _ H1) as (h1 & E1 & U1), (hex_digit_ok (E:=E) _ H2) as (h2 & E2 & U2).
  cbn [hex_encode] in He. rewrite E1, E2 in He. cbn [mbind exec_bind] in He.
  apply bind_Ok in He as (e1 & He & [= <-]). destruct l' as [|b' l']; [done|].
  inversion Hl' as [|? ? Hb' Hl0']; subst. destruct (byte_nibbles b' Hb') as (H1' & H2' & Hbe').
  cbn [hex_encode] in He'. apply bind_Ok in He' as (x1 & X1 & He').
  apply bind_Ok in He' as (x2 & X2 & He'). apply bind_Ok in He' as (e2 & He' & [= -> -> ->]).
  apply U1 in X1; [|done]. apply U2 in X2; [|done]. f_equal; [congruence|by apply (IH l' e1)].
Qed.

(** A digest is rendered without loss: for any digest function that returns
    32 bytes, [sha256_hex] returns 64 characters, and two inputs get the same
    text exactly when they have the same digest. *)
Theorem sha256_hex_is_faithful (digest_fn : list Z -> list Z) (a b : list Z) :
  (forall x, is_bytes (digest_fn x) /\ length (digest_fn x) = 32%nat) ->
  (exists text, sha256_hex (E:=unit) digest_fn a = Ok text /\ length text = 64%nat) /\
  (sha256_hex (E:=unit) digest_fn a = sha256_hex (E:=unit) digest_fn b <-> digest_fn a = digest_fn b).
Proof.
  intros Hd. unfold sha256_hex. destruct (Hd a) as [Ha La], (Hd b) as [Hb Lb].
  destruct (hex_encode_total (E:=unit) _ Ha) as (e & He & Hl). split.
  - exists e. split; [done|]. lia.
  - split; [|by intros ->]. rewrite He. intros H. by apply (hex_encode_inj (E:=unit) _ _ e).
Qed.

Lemma sha256_hex_is_faithful_witness :
  exists text, sha256_hex (E:=unit) (fun _ => replicate 32 0xab) [1; 2] = Ok text /\ length text = 64%nat.
Proof.
  apply (sha256_hex_is_faithful (fun _ => replicate 32 0xab) [1; 2] [1; 2]).
  intros x. split; [by_decide|reflexivity].
Defined.
