(* ===== verification/HostFs.v ===== *)
(** Files the host tools write: the write-to-a-temporary, sync and rename
    sequence that crates/xtask/src/image.rs, repro.rs and qemu.rs each have,
    and the temporary directories of crates/xtask/src/temporary.rs, over a small
    model of the file system that keeps every intermediate state. *)

From stdpp Require Import gmap pretty.
From S2P Require Import Prelude Bytes Console Text.

(** ** Effects that survive an error

    Unlike [st], the state is returned with every outcome: what a failed
    operation did to the outside world stays done. *)
Definition io (S E A : Type) : Type := S -> exec E A * S.

#[global] Instance io_ret S E : MRet (io S E) := fun A a s => (Ok a, s).
#[global] Instance io_bind S E : MBind (io S E) := fun A B f m s =>
  match m s with
  | (Ok a, s) => f a s
  | (Err e, s) => (Err e, s)
  | (Panic, s) => (Panic, s)
  end.

(** [let _ = m;] *)
Definition ignore {S E A} (m : io S E A) : io S E unit := fun s => (Ok tt, (m s).2).
Definition io_fail {S E A} (e : E) : io S E A := fun s => (Err e, s).
Definition io_some {S E A} (o : option A) (e : E) : io S E A := fun s => (ok_or o e, s).
(** [if result.is_err() { cleanup }; result] *)
Definition on_error {S E A} (m : io S E A) (cleanup : io S E unit) : io S E A := fun s =>
  match m s with
  | (Err e, s) => (Err e, (cleanup s).2)
  | r => r
  end.

(** ** The file system *)

(** A file is named by its directory and its name in it. *)
Abbreviation location := (list Z * list Z)%type.
Abbreviation files := (gmap (list Z * list Z) (list Z)).

(** The files and directories now, the files at every earlier moment (newest
    first), and the number of calls made. *)
Record FsState := mkFsState {
  fs_files : files;
  fs_directories : gset (list Z * list Z);
  fs_history : list files;
  fs_calls : nat
}.

Inductive FsError := NoFileName | Failed (call : string) | AlreadyExists | NoUniqueDirectory.

(** How the operating system answers: whether the [n]-th call fails, and how
    many bytes the [n]-th write takes. *)
Record Os := mkOs {
  os_fails : nat -> bool;
  os_takes : nat -> Z
}.

(** A path that will be written: [Path::parent] and [Path::file_name]. *)
Record OutputPath := mkOutputPath {
  op_parent : option (list Z);
  op_file_name : option (list Z)
}.

Section Calls.
Variable os : Os.

(** A call counts and is remembered whether it succeeds or not; a failed call
    leaves the files alone. *)
Definition call (name : string) (change : files -> exec FsError files) : io FsState FsError unit :=
  fun s =>
  let r := if os_fails os (fs_calls s) then Err (Failed name) else change (fs_files s) in
  match r with
  | Ok f => (Ok tt, mkFsState f (fs_directories s) (fs_files s :: fs_history s) (S (fs_calls s)))
  | Err e => (Err e, mkFsState (fs_files s) (fs_directories s) (fs_files s :: fs_history s)
                       (S (fs_calls s)))
  | Panic => (Panic, s)
  end.

(** [fs::create_dir_all] of an output directory, [File::open] of a directory and
    [sync_all] change no file. *)
Definition create_dir_all : io FsState FsError unit := call "create_dir_all" Ok.
Definition open_directory : io FsState FsError unit := call "open" Ok.
Definition sync_all : io FsState FsError unit := call "sync_all" Ok.

(** [OpenOptions::new().create_new(true).write(true).open(path)] *)
Definition create_new (l : location) : io FsState FsError unit :=
  call "create_new" (fun f => match f !! l with
                              | None => Ok (<[l := []]> f)
                              | Some _ => Err AlreadyExists
                              end).

(** One [write] call that takes all of [data]. *)
Definition write (l : location) (data : list Z) : io FsState FsError unit :=
  call "write" (fun f => match f !! l with
                         | Some old => Ok (<[l := old ++ data]> f)
                         | None => Err (Failed "write")
                         end).

(** [write_all]: [write] until the data is consumed, at least a byte each time. *)
Fixpoint write_all (fuel : nat) (l : location) (data : list Z) : io FsState FsError unit := fun s =>
  match data, fuel with
  | [], _ => (Ok tt, s)
  | _, O => (Panic, s)
  | _, S fuel =>
      let n := Z.to_nat (Z.max 1 (Z.min (os_takes os (fs_calls s)) (len data))) in
      (write l (take n data) ;; write_all fuel l (drop n data)) s
  end.

(** [fs::rename]: replaces the target. *)
Definition rename (from to : location) : io FsState FsError unit :=
  call "rename" (fun f => match f !! from with
                          | Some data => Ok (<[to := data]> (delete from f))
                          | None => Err (Failed "rename")
                          end).

Definition remove_file (l : location) : io FsState FsError unit :=
  call "remove_file" (fun f => match f !! l with
                               | Some _ => Ok (delete l f)
                               | None => Err (Failed "remove_file")
                               end).

(** ** The three writers *)

(** [output.parent().filter(|path| !path.as_os_str().is_empty()).unwrap_or(".")] *)
Definition output_directory (output : OutputPath) : list Z :=
  match op_parent output with
  | Some p => if bool_decide (p = []) then ascii_bytes "." else p
  | None => ascii_bytes "."
  end.

(** [format!(".{}{}{}", file_name.to_string_lossy(), infix, process::id())] *)
Definition temporary_name (file_name infix pid : list Z) : list Z :=
  ascii_bytes "." ++ encode_utf8 (from_utf8_lossy file_name) ++ infix ++ pid.

Definition sync_directory : io FsState FsError unit := open_directory ;; sync_all.

(** The closure of the writers: create, write, sync, rename, sync the directory. *)
Definition replace_file (temporary output : location) (bytes : list Z) : io FsState FsError unit :=
  create_new temporary ;;
  write_all (length bytes) temporary bytes ;;
  sync_all ;;
  rename temporary output ;;
  sync_directory.

(** image.rs *)
Definition write_atomic (pid : list Z) (output : OutputPath) (bytes : list Z)
    : io FsState FsError unit :=
  let parent := output_directory output in
  create_dir_all ;;
  file_name ← io_some (op_file_name output) NoFileName;
  let temporary := (parent, temporary_name file_name (ascii_bytes ".tmp-") pid) in
  on_error (replace_file temporary (parent, file_name) bytes) (ignore (remove_file temporary)).

(** repro.rs *)
Definition write_verified_file (pid : list Z) (output : OutputPath) (bytes : list Z)
    : io FsState FsError unit :=
  let parent := output_directory output in
  create_dir_all ;;
  file_name ← io_some (op_file_name output) NoFileName;
  let temporary := (parent, temporary_name file_name (ascii_bytes ".repro-") pid) in
  on_error (replace_file temporary (parent, file_name) bytes) (ignore (remove_file temporary)).

(** qemu.rs; [serialized] is what the JSON serializer returned. *)
Definition write_json_atomic (pid : list Z) (output : OutputPath) (serialized : option (list Z))
    : io FsState FsError unit :=
  let parent := output_directory output in
  create_dir_all ;;
  file_name ← io_some (op_file_name output) NoFileName;
  let temporary := (parent, temporary_name file_name (ascii_bytes ".tmp-") pid) in
  bytes ← io_some serialized (Failed "serialize");
  on_error (replace_file temporary (parent, file_name) bytes) (ignore (remove_file temporary)).

(** ** Temporary directories: temporary.rs *)

(** [format!("{}", id)] *)
Definition decimal (id : Z) : list Z := ascii_bytes (pretty (Z.to_N id)).

(** [fs::create_dir] *)
Definition create_dir (l : location) : io FsState FsError unit := fun s =>
  let next d := mkFsState (fs_files s) d (fs_files s :: fs_history s) (S (fs_calls s)) in
  if os_fails os (fs_calls s) then (Err (Failed "create_dir"), next (fs_directories s))
  else if bool_decide (l ∈ fs_directories s) then (Err AlreadyExists, next (fs_directories s))
  else (Ok tt, next ({[l]} ∪ fs_directories s)).

(** The loop of [TemporaryDirectory::create]; [next_id] is the value of
    [NEXT_DIRECTORY_ID], returned with the directory. *)
Fixpoint create_temporary (attempts : nat) (parent purpose pid : list Z) (next_id : Z)
    : io FsState FsError (location * Z) := fun s =>
  match attempts with
  | O => (Err NoUniqueDirectory, s)
  | S attempts =>
      let name := ascii_bytes ".polytope-" ++ purpose ++ ascii_bytes "-" ++ pid ++ ascii_bytes "-"
                  ++ decimal next_id in
      let next_id := (next_id + 1) mod 2 ^ 64 in
      match create_dir (parent, name) s with
      | (Ok _, s) => (Ok ((parent, name), next_id), s)
      | (Err AlreadyExists, s) => create_temporary attempts parent purpose pid next_id s
      | (Err e, s) => (Err e, s)
      | (Panic, s) => (Panic, s)
      end
  end.

Definition TemporaryDirectory_create (parent purpose pid : list Z) (next_id : Z)
    : io FsState FsError (location * Z) :=
  create_dir_all ;; create_temporary 128 parent purpose pid next_id.

(** [fs::remove_dir_all] of a temporary directory: what a build left in it is
    not among [fs_files]. *)
Definition remove_dir_all (l : location) : io FsState FsError unit := fun s =>
  let next d := mkFsState (fs_files s) d (fs_files s :: fs_history s) (S (fs_calls s)) in
  if os_fails os (fs_calls s) then (Err (Failed "remove_dir_all"), next (fs_directories s))
  else (Ok tt, next (fs_directories s ∖ {[l]})).

(** [Drop for TemporaryDirectory] *)
Definition TemporaryDirectory_drop (l : location) : io FsState FsError unit := ignore (remove_dir_all l).
End Calls.
