(* ===== verification/HostFsProps.v ===== *)
(** The writers of the host tools replace a file atomically: at every moment,
    whatever call fails, the output is the old file or the complete new one. *)

From stdpp Require Import gmap.
From S2P Require Import Prelude Bytes Console Text HostFs.

(** ** Names *)
Lemma bad_prefix_bound l : (bad_prefix l <= 3)%nat.
Proof. unfold bad_prefix. repeat case_match; lia. Qed.

(** Replacing ill-formed bytes never shortens a name. *)
Lemma lossy_length l : (length l <= length (encode_utf8 (from_utf8_lossy l)))%nat.
Proof.
  unfold from_utf8_lossy.
  assert (forall fuel l, (length l <= fuel)%nat ->
    (length l <= length (encode_utf8 (decode_lossy fuel l)))%nat) as H; [|by apply H].
  clear l. induction fuel as [|fuel IH]; intros l Hl; [lia|].
  destruct l as [|b l]; [simpl; lia|]. cbn [decode_lossy].
  destruct (decode_char (b :: l)) as [[c rest]|] eqn:E.
  - apply decode_char_Some in E as [_ E]. pose proof (encode_char_length c).
    rewrite E, length_app in *. change (encode_utf8 (c :: decode_lossy fuel rest)) with
      (encode_char c ++ encode_utf8 (decode_lossy fuel rest)). rewrite length_app.
    specialize (IH rest). lia.
  - pose proof (bad_prefix_bound (b :: l)).
    assert (1 <= bad_prefix (b :: l))%nat by (unfold bad_prefix; repeat case_match; lia).
    set (rest := drop (bad_prefix (b :: l)) (b :: l)).
    change (encode_utf8 (0xFFFD :: decode_lossy fuel rest)) with
      (encode_char 0xFFFD ++ encode_utf8 (decode_lossy fuel rest)). rewrite length_app.
    change (length (encode_char 0xFFFD)) with 3%nat.
    assert (length rest = length (b :: l) - bad_prefix (b :: l))%nat by (unfold rest; apply length_drop).
    specialize (IH rest). lia.
Qed.

Lemma temporary_name_fresh name infix pid : temporary_name name infix pid <> name.
Proof.
  intros H. apply (f_equal length) in H. unfold temporary_name in H. rewrite !length_app in H.
  pose proof (lossy_length name). change (length (ascii_bytes ".")) with 1%nat in H. lia.
Qed.

(** ** Triples

    [triple I P m Q R]: started where [P] holds, [m] ends without a panic, with
    [Q] if it succeeds and [R] if it fails, and [I] holds of the files at every
    moment. *)
Section Triples.
Variable I : files -> Prop.

Definition triple {A : Type} (P : files -> Prop) (m : io FsState FsError A) (Q R : files -> Prop) : Prop :=
  forall s, P (fs_files s) -> I (fs_files s) ->
  (exists h, fs_history (m s).2 = h ++ fs_history s /\ Forall I h) /\ I (fs_files (m s).2) /\
  match (m s).1 with
  | Ok _ => Q (fs_files (m s).2)
  | Err _ => R (fs_files (m s).2)
  | Panic => False
  end.

Lemma triple_bind {A B : Type} (P : files -> Prop) (m : io FsState FsError A) (k : A -> io FsState FsError B) (M Q R : files -> Prop) :
  triple P m M R -> (forall a, triple M (k a) Q R) -> triple P (m ≫= k) Q R.
Proof.
  intros Hm Hk s HP HI. specialize (Hm s HP HI). unfold mbind, io_bind.
  destruct (m s) as [[a|e|] s1]; cbn [fst snd] in *; [|done..].
  destruct Hm as ((h1 & E1 & F1) & HI1 & HM). specialize (Hk a s1 HM HI1).
  destruct Hk as ((h2 & E2 & F2) & Hrest). split; [|done].
  exists (h2 ++ h1). rewrite E2, E1, app_assoc. split; [done|]. by apply Forall_app.
Qed.

Lemma triple_weaken {A : Type} (P P' Q Q' R R' : files -> Prop) (m : io FsState FsError A) :
  triple P m Q R -> (forall f, P' f -> P f) -> (forall f, Q f -> Q' f) -> (forall f, R f -> R' f) ->
  triple P' m Q' R'.
Proof.
  intros Hm HP HQ HR s Hs HI. destruct (Hm s (HP _ Hs) HI) as (? & ? & H).
  split_and!; [done..|]. destruct (m s) as [[| |] s']; cbn in *; auto.
Qed.

(** A call that fails changes nothing. *)
Lemma triple_call (os : Os) (name : string) (change : files -> exec FsError files) (P Q : files -> Prop) :
  (forall f, P f -> I f -> match change f with
     | Ok f' => Q f' /\ I f' | Err _ => True | Panic => False end) ->
  triple P (call os name change) Q P.
Proof.
  intros Hc s HP HI. unfold call. specialize (Hc _ HP HI).
  destruct (os_fails os (fs_calls s)); [|destruct (change (fs_files s)) as [f|e|]; [|..|done]];
    cbn [fst snd fs_history fs_files]; (split; [exists [fs_files s]; by repeat constructor|]);
    cbn [fs_files]; naive_solver.
Qed.

Lemma triple_ignore {A : Type} (P : files -> Prop) (m : io FsState FsError A) (Q : files -> Prop) :
  triple P m Q Q -> triple P (ignore m) Q Q.
Proof.
  intros Hm s HP HI. destruct (Hm s HP HI) as (? & ? & H). unfold ignore. cbn [fst snd].
  split_and!; [done..|]. by destruct (m s).1.
Qed.

Lemma triple_on_error {A : Type} (P : files -> Prop) (m : io FsState FsError A) (c : io FsState FsError unit) (Q R R' : files -> Prop) :
  triple P m Q R -> triple R c R' R' -> triple P (on_error m c) Q R'.
Proof.
  intros Hm Hc s HP HI. specialize (Hm s HP HI). unfold on_error.
  destruct (m s) as [[a|e|] s1]; cbn [fst snd] in *; [done| |by destruct Hm as (_ & _ & [])].
  destruct Hm as ((h1 & E1 & F1) & HI1 & HR). destruct (Hc s1 HR HI1) as ((h2 & E2 & F2) & HI2 & HR2).
  split; [|split; [done|by destruct (c s1).1]].
  exists (h2 ++ h1). rewrite E2, E1, app_assoc. split; [done|]. by apply Forall_app.
Qed.

Lemma triple_some {A : Type} (P : files -> Prop) (o : option A) (e : FsError) (Q : files -> Prop) :
  (forall a, o = Some a -> forall f, P f -> Q f) -> triple P (io_some o e) Q P.
Proof.
  intros H s HP HI. unfold io_some. cbn [fst snd].
  split; [by exists []|]. split; [done|]. destruct o; cbn; [by eapply H|done].
Qed.
End Triples.

(** ** The writers *)
Section Replace.
Variables (os : Os) (temporary output : location) (bytes : list Z) (start : files).
Hypothesis Hne : temporary <> output.

(** The files at any moment: the output is old or new, everything but the two
    files is as it was. *)
Definition atomic (f : files) : Prop :=
  (f !! output = start !! output \/ f !! output = Some bytes) /\
  forall l, l <> output -> l <> temporary -> f !! l = start !! l.

(** While the temporary file holds [w] the output is still the old one. *)
Definition writing (w : list Z) (f : files) : Prop :=
  f !! temporary = Some w /\ f !! output = start !! output.

Lemma write_all_triple fuel : forall w data,
  (length data <= fuel)%nat ->
  triple atomic (writing w) (write_all os fuel temporary data) (writing (w ++ data)) (fun _ => True).
Proof.
  induction fuel as [|fuel IH]; intros w data Hf; destruct data as [|b data]; cbn [length] in Hf; try lia.
  1, 2: rewrite app_nil_r; intros s HP HI; cbn [write_all fst snd]; split; [by exists []|done].
  intros s HP HI. cbn [write_all].
  set (n := Z.to_nat (Z.max 1 (Z.min (os_takes os (fs_calls s)) (len (b :: data))))).
  assert (1 <= n)%nat by (unfold n; lia).
  enough (triple atomic (writing w)
    (write os temporary (take n (b :: data)) ;; write_all os fuel temporary (drop n (b :: data)))
    (writing (w ++ b :: data)) (fun _ => True)) as Hstep by by apply Hstep.
  apply (triple_bind atomic (writing w) _ _ (writing (w ++ take n (b :: data)))).
  - eapply (triple_weaken _ (writing w)); [apply triple_call|done|done|done].
    intros f [Ht Ho] [_ Hfr]. rewrite Ht. unfold writing, atomic.
    rewrite lookup_insert_eq, !lookup_insert_ne by done. split; [done|]. split; [by left|].
    intros l ? ?. rewrite lookup_insert_ne by done. by apply Hfr.
  - intros _. replace (w ++ b :: data) with ((w ++ take n (b :: data)) ++ drop n (b :: data))
      by (by rewrite <- app_assoc, take_drop).
    apply IH. rewrite length_drop. cbn [length]. lia.
Qed.

(** The output is new and the temporary file is gone. *)
Definition replaced (f : files) : Prop := f !! output = Some bytes /\ f !! temporary = None.

Lemma unchanged_call (name : string) (P : files -> Prop) : triple atomic P (call os name Ok) P P.
Proof. by apply triple_call. Qed.

Lemma create_triple :
  triple atomic (fun f => f !! output = start !! output) (create_new os temporary) (writing []) (fun _ => True).
Proof.
  eapply triple_weaken; [apply triple_call| |done|done]; [|by intros f HP; exact HP].
  intros f Ho [_ Hfr]. destruct (f !! temporary) eqn:E; [done|]. unfold writing, atomic.
  rewrite lookup_insert_eq, !lookup_insert_ne by done. split; [done|]. split; [by left|].
  intros l ? ?. rewrite lookup_insert_ne by done. by apply Hfr.
Qed.

Lemma rename_triple :
  triple atomic (writing bytes) (rename os temporary output) replaced (fun _ => True).
Proof.
  eapply triple_weaken; [apply triple_call| |done|done]; [|by intros f HP; exact HP].
  intros f [Ht _] [_ Hfr]. rewrite Ht. unfold replaced, atomic.
  rewrite lookup_insert_eq, lookup_insert_ne, lookup_delete_eq by done.
  split; [done|]. split; [by right|]. intros l ? ?.
  rewrite lookup_insert_ne, lookup_delete_ne by done. by apply Hfr.
Qed.

Lemma remove_triple : triple atomic (fun _ => True) (remove_file os temporary) (fun _ => True) (fun _ => True).
Proof.
  apply triple_call. intros f _ [Ho Hfr]. destruct (f !! temporary) as [old|]; [|done]. split; [done|].
  unfold atomic. rewrite lookup_delete_ne by done. split; [done|].
  intros l ? ?. rewrite lookup_delete_ne by done. by apply Hfr.
Qed.

Lemma replace_file_triple :
  triple atomic (fun f => f !! output = start !! output)
    (on_error (replace_file os temporary output bytes) (ignore (remove_file os temporary)))
    replaced (fun _ => True).
Proof.
  apply triple_on_error with (R := fun _ => True); [|apply triple_ignore, remove_triple].
  unfold replace_file, sync_directory.
  eapply triple_bind; [apply create_triple|intros _].
  eapply triple_bind; [|intros _].
  { eapply triple_weaken; [apply (write_all_triple (length bytes) [] bytes); lia|done|done|done]. }
  eapply triple_bind; [|intros _].
  { eapply triple_weaken; [apply (unchanged_call _ (writing bytes))|done|done|done]. }
  eapply triple_bind; [apply rename_triple|intros _].
  eapply triple_bind; [|intros _].
  { eapply triple_weaken; [apply (unchanged_call _ replaced)|done|done|done]. }
  eapply triple_weaken; [apply (unchanged_call _ replaced)|done|done|done].
Qed.
End Replace.

(** ** Calls that do not fail *)
Section Succeeds.
Variable os : Os.
Hypothesis Hos : forall n, os_fails os n = false.

Lemma call_succeeds (name : string) (change : files -> exec FsError files) s f :
  change (fs_files s) = Ok f -> exists s', call os name change s = (Ok tt, s') /\ fs_files s' = f.
Proof using Hos. intros Hc. unfold call. rewrite Hos, Hc. by eexists. Qed.

Lemma io_step {A : Type} (m : io FsState FsError unit) (k : unit -> io FsState FsError A) s s1 :
  m s = (Ok tt, s1) -> (m ≫= k) s = k tt s1.
Proof. unfold mbind, io_bind. by intros ->. Qed.

Lemma write_all_succeeds fuel : forall l w data s,
  (length data <= fuel)%nat -> fs_files s !! l = Some w ->
  exists s', write_all os fuel l data s = (Ok tt, s') /\ fs_files s' !! l = Some (w ++ data).
Proof using Hos.
  induction fuel as [|fuel IH]; intros l w data s Hf Hl; destruct data as [|b data]; cbn [length] in Hf; try lia.
  1, 2: rewrite app_nil_r; by exists s.
  cbn [write_all]. set (n := Z.to_nat (Z.max 1 (Z.min (os_takes os (fs_calls s)) (len (b :: data))))).
  assert (1 <= n)%nat by (unfold n; lia).
  destruct (call_succeeds "write" (fun f => match f !! l with
    | Some old => Ok (<[l := old ++ take n (b :: data)]> f) | None => Err (Failed "write") end) s
    (<[l := w ++ take n (b :: data)]> (fs_files s))) as (s1 & H1 & E1); [by rewrite Hl|].
  rewrite (io_step _ _ _ _ H1).
  destruct (IH l (w ++ take n (b :: data)) (drop n (b :: data)) s1) as (s' & H2 & E2).
  - rewrite length_drop. cbn [length]. lia.
  - by rewrite E1, lookup_insert_eq.
  - exists s'. split; [done|]. by rewrite E2, <- app_assoc, take_drop.
Qed.

Lemma replace_file_succeeds temporary output bytes s :
  fs_files s !! temporary = None -> (replace_file os temporary output bytes s).1 = Ok tt.
Proof using Hos.
  intros Ht. unfold replace_file, sync_directory.
  destruct (call_succeeds "create_new" (fun f => match f !! temporary with
    | None => Ok (<[temporary := []]> f) | Some _ => Err AlreadyExists end) s
    (<[temporary := []]> (fs_files s))) as (s1 & H1 & E1); [by rewrite Ht|].
  rewrite (io_step _ _ _ _ H1).
  destruct (write_all_succeeds (length bytes) temporary [] bytes s1) as (s2 & H2 & E2);
    [lia|by rewrite E1, lookup_insert_eq|]. rewrite (io_step _ _ _ _ H2).
  destruct (call_succeeds "sync_all" Ok s2 _ eq_refl) as (s3 & H3 & E3). rewrite (io_step _ _ _ _ H3).
  destruct (call_succeeds "rename" (fun f => match f !! temporary with
    | Some data => Ok (<[output := data]> (delete temporary f)) | None => Err (Failed "rename") end) s3
    (<[output := bytes]> (delete temporary (fs_files s3)))) as (s4 & H4 & E4); [by rewrite E3, E2|].
  rewrite (io_step _ _ _ _ H4).
  destruct (call_succeeds "open" Ok s4 _ eq_refl) as (s5 & H5 & E5). rewrite (io_step _ _ _ _ H5).
  destruct (call_succeeds "sync_all" Ok s5 _ eq_refl) as (s6 & H6 & E6). unfold sync_all. by rewrite H6.
Qed.
End Succeeds.

(** The writers of the three tools, each with the infix of its temporary name. *)
Definition writers (os : Os) (pid : list Z) (output : OutputPath) (bytes : list Z)
    : list (string * io FsState FsError unit) :=
  [(".tmp-"%string, write_atomic os pid output bytes);
   (".repro-"%string, write_verified_file os pid output bytes);
   (".tmp-"%string, write_json_atomic os pid output (Some bytes))].

Lemma writer_unfold (os : Os) (pid : list Z) (output : OutputPath) (bytes name : list Z)
    (infix : string) (m : io FsState FsError unit) :
  op_file_name output = Some name -> (infix, m) ∈ writers os pid output bytes ->
  exists k, m = (create_dir_all os ;; k) /\ forall s, k s =
    on_error (replace_file os (output_directory output, temporary_name name (ascii_bytes infix) pid)
                (output_directory output, name) bytes)
      (ignore (remove_file os (output_directory output, temporary_name name (ascii_bytes infix) pid))) s.
Proof.
  intros Hn Hm. unfold writers in Hm. rewrite !elem_of_cons, elem_of_nil in Hm.
  destruct Hm as [Hm|[Hm|[Hm|[]]]]; injection Hm as -> ->;
    eexists; (split; [reflexivity|]); intros s; rewrite Hn; reflexivity.
Qed.

(** Every writer is [atomic] at every moment and [replaced] when it succeeds. *)
Lemma writer_atomic (os : Os) (pid : list Z) (output : OutputPath) (name bytes : list Z)
    (infix : string) (m : io FsState FsError unit) (s : FsState) :
  op_file_name output = Some name ->
  (infix, m) ∈ writers os pid output bytes ->
  let target := (output_directory output, name) in
  let temporary := (output_directory output, temporary_name name (ascii_bytes infix) pid) in
  let intact (f : files) :=
    (f !! target = fs_files s !! target \/ f !! target = Some bytes) /\
    forall l, l <> target -> l <> temporary -> f !! l = fs_files s !! l in
  exists moments,
    fs_history (m s).2 = moments ++ fs_history s /\
    Forall intact (fs_files (m s).2 :: moments) /\
    (m s).1 <> Panic /\
    ((m s).1 = Ok tt -> fs_files (m s).2 !! target = Some bytes /\
                        fs_files (m s).2 !! temporary = None) /\
    ((forall n, os_fails os n = false) -> fs_files s !! temporary = None -> (m s).1 = Ok tt).
Proof.
  intros Hn Hm target temporary intact.
  assert (temporary <> target) as Hne.
  { intros [= E]. by eapply temporary_name_fresh. }
  destruct (writer_unfold _ _ _ _ _ _ _ Hn Hm) as (k & -> & Hk).
  assert (triple intact (fun f => f !! target = fs_files s !! target)
            (create_dir_all os ;; k) (replaced temporary target bytes) (fun _ => True)) as H.
  { eapply triple_bind; [|intros _].
    { eapply triple_weaken; [apply (unchanged_call os _ _ bytes (fs_files s))| | |]; try done.
      by intros f Hf; exact Hf. }
    intros s' HP HI. rewrite Hk. by apply replace_file_triple. }
  destruct (H s) as ((h & Eh & Fh) & HI & Hr); [done|by split; [left|]|].
  exists h. split_and!; [done|by constructor|by intros E; rewrite E in Hr| |].
  - intros E. by rewrite E in Hr.
  - intros Hos Ht. destruct (call_succeeds os Hos "create_dir_all" Ok s _ eq_refl) as (s1 & H1 & E1).
    rewrite (io_step _ _ _ _ H1), Hk. unfold on_error. rewrite <- E1 in Ht.
    apply (replace_file_succeeds os Hos temporary target bytes) in Ht. fold target temporary.
    destruct (replace_file os temporary target bytes s1) as [[[]| |] s2]; done.
Qed.

(** C21. Host files are replaced atomically: whichever of the three writers runs
    (disk images, verified artifacts, JSON reports), whatever call fails and
    however writes are split, at every moment the output is the old file or
    the complete new one and no third file changed; success means the output
    holds the new bytes and the temporary file is gone, and if no call fails and
    the temporary name is free it succeeds. *)
Theorem replacement_is_atomic (os : Os) (pid : list Z) (output : OutputPath) (name bytes : list Z)
    (infix : string) (m : io FsState FsError unit) (s : FsState) :
  op_file_name output = Some name ->
  (infix, m) ∈ writers os pid output bytes ->
  let target := (output_directory output, name) in
  let temporary := (output_directory output, temporary_name name (ascii_bytes infix) pid) in
  let intact (f : files) :=
    (f !! target = fs_files s !! target \/ f !! target = Some bytes) /\
    forall l, l <> target -> l <> temporary -> f !! l = fs_files s !! l in
  exists moments,
    fs_history (m s).2 = moments ++ fs_history s /\
    Forall intact (fs_files (m s).2 :: moments) /\
    (m s).1 <> Panic /\
    ((m s).1 = Ok tt -> fs_files (m s).2 !! target = Some bytes /\
                        fs_files (m s).2 !! temporary = None) /\
    ((forall n, os_fails os n = false) -> fs_files s !! temporary = None -> (m s).1 = Ok tt).
Proof. apply writer_atomic. Qed.

(** Two bytes written one at a time over an older file. *)
Definition sample_output : OutputPath :=
  mkOutputPath (Some (ascii_bytes "target")) (Some (ascii_bytes "disk.img")).
Definition sample_files : FsState :=
  mkFsState {[ (ascii_bytes "target", ascii_bytes "disk.img") := [7] ]} ∅ [] 0.

Lemma replacement_is_atomic_witness :
  let s := (write_atomic (mkOs (fun _ => false) (fun _ => 1)) [49] sample_output [1; 2] sample_files).2 in
  fs_files s !! (ascii_bytes "target", ascii_bytes "disk.img") = Some [1; 2].
Proof.
  intros s.
  destruct (replacement_is_atomic (mkOs (fun _ => false) (fun _ => 1)) [49] sample_output
              (ascii_bytes "disk.img") [1; 2] ".tmp-"
              (write_atomic (mkOs (fun _ => false) (fun _ => 1)) [49] sample_output [1; 2])
              sample_files) as (h & _ & _ & _ & H & Hok).
  - reflexivity.
  - unfold writers. rewrite !elem_of_cons. by left.
  - apply H, Hok; [reflexivity|vm_compute; reflexivity].
Defined.

(** A writer that succeeds left the bytes, and only a path with a file name can be
    written. *)
Lemma writer_Ok (os : Os) (pid : list Z) (output : OutputPath) (bytes : list Z) (infix : string)
    (m : io FsState FsError unit) (s s' : FsState) :
  (infix, m) ∈ writers os pid output bytes -> m s = (Ok tt, s') ->
  exists name, op_file_name output = Some name /\
    fs_files s' !! (output_directory output, name) = Some bytes.
Proof.
  intros Hm H. destruct (op_file_name output) as [name|] eqn:Hn.
  - exists name. split; [done|].
    destruct (writer_atomic os pid output name bytes infix m s Hn Hm) as (_ & _ & _ & _ & Hok & _).
    rewrite H in Hok. by apply Hok.
  - exfalso. unfold writers in Hm. rewrite !elem_of_cons, elem_of_nil in Hm.
    unfold write_atomic, write_verified_file, write_json_atomic, mbind, io_bind in Hm.
    destruct Hm as [Hm|[Hm|[Hm|[]]]]; injection Hm as _ ->; rewrite Hn in H;
      by destruct (create_dir_all os s) as [[[]| |] s1].
Qed.

Lemma write_atomic_Ok (os : Os) (pid : list Z) (output : OutputPath) (bytes : list Z) (s s' : FsState) :
  write_atomic os pid output bytes s = (Ok tt, s') ->
  exists name, op_file_name output = Some name /\
    fs_files s' !! (output_directory output, name) = Some bytes.
Proof. apply (writer_Ok os pid output bytes ".tmp-"). unfold writers. rewrite !elem_of_cons. auto. Qed.
Lemma write_verified_file_Ok (os : Os) (pid : list Z) (output : OutputPath) (bytes : list Z) (s s' : FsState) :
  write_verified_file os pid output bytes s = (Ok tt, s') ->
  exists name, op_file_name output = Some name /\
    fs_files s' !! (output_directory output, name) = Some bytes.
Proof. apply (writer_Ok os pid output bytes ".repro-"). unfold writers. rewrite !elem_of_cons. auto. Qed.
Lemma write_json_atomic_Ok (os : Os) (pid : list Z) (output : OutputPath) (serialized : option (list Z))
    (s s' : FsState) :
  write_json_atomic os pid output serialized s = (Ok tt, s') ->
  exists name bytes, op_file_name output = Some name /\ serialized = Some bytes /\
    fs_files s' !! (output_directory output, name) = Some bytes.
Proof.
  destruct serialized as [bytes|]; intros H.
  - destruct (writer_Ok os pid output bytes ".tmp-" _ s s' ltac:(unfold writers; rewrite !elem_of_cons; auto) H)
      as (name & Hn & Hf). by exists name, bytes.
  - unfold write_json_atomic in H. unfold mbind, io_bind in H.
    destruct (create_dir_all os s) as [[[]| |] s1]; [|done..]. by destruct (op_file_name output).
Qed.

(** ** What single calls do *)
Lemma io_bind_Ok {S E A B : Type} (m : io S E A) (k : A -> io S E B) s b s' :
  (m ≫= k) s = (Ok b, s') <-> exists a s1, m s = (Ok a, s1) /\ k a s1 = (Ok b, s').
Proof. unfold mbind, io_bind. destruct (m s) as [[a|e|] s1]; naive_solver. Qed.

Lemma call_Ok (os : Os) (name : string) (change : files -> exec FsError files) s s' :
  call os name change s = (Ok tt, s') ->
  change (fs_files s) = Ok (fs_files s') /\ fs_directories s' = fs_directories s.
Proof.
  unfold call. destruct (os_fails os (fs_calls s)); [done|].
  destruct (change (fs_files s)) as [f|e|] eqn:E; try done. by intros [= <-].
Qed.

Lemma call_no_panic (os : Os) (name : string) (change : files -> exec FsError files) s :
  change (fs_files s) <> Panic -> (call os name change s).1 <> Panic.
Proof. unfold call. by destruct (os_fails os (fs_calls s)), (change (fs_files s)). Qed.

Lemma write_all_no_panic (os : Os) fuel : forall l data s,
  (length data <= fuel)%nat -> (write_all os fuel l data s).1 <> Panic.
Proof.
  induction fuel as [|fuel IH]; intros l data s Hf; destruct data as [|b data]; cbn [length] in Hf; [done|lia|done|].
  cbn [write_all]. set (n := Z.to_nat _). assert (1 <= n)%nat by (unfold n; lia).
  unfold mbind, io_bind, write.
  match goal with |- context [call os "write" ?f s] =>
    pose proof (call_no_panic os "write" f s ltac:(cbv beta; by destruct (fs_files s !! l))) as Hc;
    destruct (call os "write" f s) as [[[]|e|] s1] end; [|done..].
  apply IH. rewrite length_drop. cbn [length]. lia.
Qed.

Lemma write_all_Ok (os : Os) fuel : forall l w data s s',
  write_all os fuel l data s = (Ok tt, s') -> fs_files s !! l = Some w ->
  fs_files s' = <[l := w ++ data]> (fs_files s) /\ fs_directories s' = fs_directories s.
Proof.
  induction fuel as [|fuel IH]; intros l w data s s' H Hl; destruct data as [|b data]; cbn [write_all] in H;
    [injection H as <-; by rewrite app_nil_r, insert_id | done | injection H as <-; by rewrite app_nil_r, insert_id |].
  set (n := Z.to_nat _) in H. apply io_bind_Ok in H as ([] & s1 & H1 & H).
  apply call_Ok in H1 as [H1 D1]. rewrite Hl in H1. injection H1 as H1.
  apply (IH _ (w ++ take n (b :: data))) in H as [H D]; [|by rewrite <-H1, lookup_insert_eq].
  split; [|by rewrite D]. by rewrite H, <-H1, insert_insert_eq, <-app_assoc, take_drop.
Qed.

(** ** Totality *)

(** Sequencing does not panic when no step does. *)
Lemma io_bind_safe {S E A B : Type} (m : io S E A) (k : A -> io S E B) s :
  (m s).1 <> Panic -> (forall a s1, m s = (Ok a, s1) -> (k a s1).1 <> Panic) -> ((m ≫= k) s).1 <> Panic.
Proof. unfold mbind, io_bind. destruct (m s) as [[a|e|] s1]; naive_solver. Qed.

(** [m] never panics, and makes or removes no directory. *)
Definition files_only {A} (m : io FsState FsError A) : Prop :=
  forall s, (m s).1 <> Panic /\ fs_directories (m s).2 = fs_directories s.

Lemma files_only_bind {A B} (m : io FsState FsError A) (k : A -> io FsState FsError B) :
  files_only m -> (forall a, files_only (k a)) -> files_only (m ≫= k).
Proof.
  intros Hm Hk s. destruct (Hm s) as [H1 H2]. unfold mbind, io_bind.
  destruct (m s) as [[a|e|] s1]; [|done..]. destruct (Hk a s1) as [H3 H4]. split; [done|by rewrite H4].
Qed.
Lemma files_only_call os name change : (forall f, change f <> Panic) -> files_only (call os name change).
Proof.
  intros Hc s. specialize (Hc (fs_files s)). unfold call.
  by destruct (os_fails os (fs_calls s)), (change (fs_files s)).
Qed.
Lemma files_only_some {A} (o : option A) e : files_only (io_some o e).
Proof. intros s. by destruct o. Qed.
Lemma files_only_ignore {A} (m : io FsState FsError A) : files_only m -> files_only (ignore m).
Proof. intros Hm s. by destruct (Hm s). Qed.
Lemma files_only_on_error {A} (m : io FsState FsError A) cleanup :
  files_only m -> files_only cleanup -> files_only (on_error m cleanup).
Proof.
  intros Hm Hc s. destruct (Hm s) as [H1 H2]. unfold on_error. destruct (m s) as [[a|e|] s1]; [done| |done].
  destruct (Hc s1) as [_ H3]. split; [done|]. cbn in *. by rewrite H3.
Qed.
Lemma files_only_write_all os l data : files_only (write_all os (length data) l data).
Proof.
  intros s. split; [by apply write_all_no_panic|]. generalize (length data) as fuel. intros fuel. revert data s.
  induction fuel as [|fuel IH]; intros [|b data] s; [done..|]. cbn [write_all]. set (n := Z.to_nat _).
  unfold mbind, io_bind, write.
  match goal with |- context [call os "write" ?f s] =>
    pose proof (files_only_call os "write" f ltac:(intros g; cbv beta; by destruct (g !! l)) s) as [_ Hd];
    destruct (call os "write" f s) as [[[]|e|] s1] end; [by rewrite IH|done..].
Qed.

(** Walks through a computation of file calls. *)
Ltac files_steps :=
  unfold create_dir_all, open_directory, sync_all, create_new, rename, remove_file, sync_directory;
  repeat first
    [ apply files_only_bind; [|intros ?] | apply files_only_on_error | apply files_only_ignore
    | apply files_only_some | apply files_only_write_all
    | apply files_only_call; intros f; cbv beta; first [done | by destruct (f !! _)] ].

Lemma write_atomic_files_only os pid output bytes : files_only (write_atomic os pid output bytes).
Proof. unfold write_atomic, replace_file. files_steps. Qed.
Lemma write_verified_files_only os pid output bytes : files_only (write_verified_file os pid output bytes).
Proof. unfold write_verified_file, replace_file. files_steps. Qed.
Lemma write_json_files_only os pid output serialized : files_only (write_json_atomic os pid output serialized).
Proof. unfold write_json_atomic, replace_file. files_steps. Qed.

(** ** Temporary directories *)

(** Creating a temporary directory adds at most that directory. *)
Lemma create_temporary_adds os attempts parent purpose pid : forall next_id s,
  let '(r, s') := create_temporary os attempts parent purpose pid next_id s in
  r <> Panic /\ fs_files s' = fs_files s /\
  match r with
  | Ok (l, _) => (l ∉ fs_directories s) /\ fs_directories s' = {[l]} ∪ fs_directories s
  | _ => fs_directories s' = fs_directories s
  end.
Proof.
  induction attempts as [|n IH]; intros next_id s; [done|]. cbn [create_temporary].
  unfold create_dir. destruct (os_fails os (fs_calls s)); [done|].
  case_bool_decide as Hin; [|done]. cbv beta iota zeta.
  match goal with |- context [create_temporary os n parent purpose pid ?id ?s1] =>
    exact (IH id s1) end.
Qed.

(** The directory handed out did not exist before, so two live temporary
    directories never share a path. *)
Lemma temporary_directory_adds os parent purpose pid next_id s :
  let '(r, s') := TemporaryDirectory_create os parent purpose pid next_id s in
  r <> Panic /\ fs_files s' = fs_files s /\
  match r with
  | Ok (l, _) => (l ∉ fs_directories s) /\ fs_directories s' = {[l]} ∪ fs_directories s
  | _ => fs_directories s' = fs_directories s
  end.
Proof.
  unfold TemporaryDirectory_create, mbind, io_bind, create_dir_all, call.
  destruct (os_fails os (fs_calls s)); [done|]. cbv beta iota zeta.
  match goal with |- context [create_temporary os 128 parent purpose pid next_id ?s1] =>
    exact (create_temporary_adds os 128 parent purpose pid next_id s1) end.
Qed.
