(* ===== verification/RawImage.v ===== *)
(** The raw structure checks of the disk image: crates/xtask/src/image.rs.

    The protective MBR, both GPT headers and entry arrays, the alignment gaps,
    the FAT32 boot sector, FSInfo and FAT, and the two payload formats.  An
    [ensure!] that fails is [Invalid] with the message of the source. *)

From S2P Require Import Prelude Bytes BootElf Console.

Definition DISK_BYTES : Z := 64 * 1024 * 1024.
Definition LOGICAL_BLOCK_BYTES : Z := 512.
Definition ESP_FIRST_LBA : Z := 2048.
Definition ESP_LAST_LBA : Z := 129023.
Definition GPT_ENTRY_COUNT : Z := 128.
Definition GPT_ENTRY_BYTES : Z := 128.
Definition GPT_ENTRY_ARRAY_SECTORS : Z := 32.
Definition BACKUP_GPT_ENTRIES_LBA : Z := 131039.
Definition BACKUP_GPT_HEADER_LBA : Z := 131071.

Inductive ImageError :=
| Invalid (message : string)
| KernelElfRejected (error : ParseError).

(** [ensure!(condition, message)] *)
Definition ensure (condition : bool) (message : string) : exec ImageError unit :=
  fail_if (negb condition) (Invalid message).
(** [option.context(message)?] *)
Definition context {A} (o : option A) (message : string) : exec ImageError A :=
  ok_or o (Invalid message).

(** The readers of image.rs: the bytes at an offset, if they are in the slice. *)
Definition read_u16 (bytes : list Z) (offset : Z) : option Z :=
  from_le_bytes <$> (e ← checked_add 64 offset 2; get_range bytes offset e).
Definition read_u32 (bytes : list Z) (offset : Z) : option Z :=
  from_le_bytes <$> (e ← checked_add 64 offset 4; get_range bytes offset e).
Definition read_u64 (bytes : list Z) (offset : Z) : option Z :=
  from_le_bytes <$> (e ← checked_add 64 offset 8; get_range bytes offset e).

(** [read(...) == Some(value)] *)
Definition is_value (o : option Z) (value : Z) : bool := bool_decide (o = Some value).
Definition same (a b : list Z) : bool := bool_decide (a = b).

(** ** Sectors *)
Definition lba_to_offset (lba : Z) : exec ImageError Z :=
  bytes ← context (checked_mul 64 lba LOGICAL_BLOCK_BYTES) "LBA byte offset overflowed u64";
  context (try_uint 64 bytes) "LBA byte offset does not fit usize".

Definition lba_range (bytes : list Z) (start_lba end_lba : Z) : exec ImageError (list Z) :=
  ensure (start_lba <=? end_lba) "invalid descending LBA range" ;;
  start ← lba_to_offset start_lba;
  e ← lba_to_offset end_lba;
  context (get_range bytes start e) "LBA range is outside the artifact".

Definition sector (bytes : list Z) (lba : Z) : exec ImageError (list Z) :=
  next ← context (checked_add 64 lba 1) "sector LBA overflowed";
  lba_range bytes lba next.

Definition ensure_zero (bytes : list Z) (description : string) : exec ImageError unit :=
  ensure (forallb (fun byte => byte =? 0) bytes) (description +:+ " contains nonzero data").

(** ** GPT *)
Definition PROTECTIVE_ENTRY : list Z :=
  [0x00; 0x00; 0x02; 0x00; 0xee; 0xff; 0xff; 0xff; 0x01; 0x00; 0x00; 0x00; 0xff; 0xff; 0x01; 0x00].
Definition BOOT_SIGNATURE : list Z := [0x55; 0xaa].
Definition EFI_PART : list Z := ascii_bytes "EFI PART".

Definition validate_raw_gpt_header (header : list Z) (current_lba backup_lba entries_lba : Z)
    : exec ImageError unit :=
  signature ← index_range header 0 8;
  ensure (same signature EFI_PART) "GPT header signature is invalid" ;;
  ensure (is_value (read_u32 header 8) 0x00010000) "unsupported GPT revision" ;;
  ensure (is_value (read_u32 header 12) 92) "GPT header size is not 92 bytes" ;;
  ensure (is_value (read_u32 header 20) 0) "GPT reserved header field is nonzero" ;;
  ensure (is_value (read_u64 header 24) current_lba) "GPT current-LBA mismatch" ;;
  ensure (is_value (read_u64 header 32) backup_lba) "GPT backup-LBA mismatch" ;;
  ensure (is_value (read_u64 header 40) 34) "GPT first-usable LBA mismatch" ;;
  ensure (is_value (read_u64 header 48) (BACKUP_GPT_ENTRIES_LBA - 1)) "GPT last-usable LBA mismatch" ;;
  ensure (is_value (read_u64 header 72) entries_lba) "GPT entry-array LBA mismatch" ;;
  ensure (is_value (read_u32 header 80) GPT_ENTRY_COUNT && is_value (read_u32 header 84) GPT_ENTRY_BYTES)
    "GPT entry count or size is not canonical" ;;
  padding ← index_range header 92 (len header);
  ensure_zero padding "GPT header sector padding".

Definition validate_raw_gpt_layout (image : list Z) : exec ImageError unit :=
  bootstrap ← index_range image 0 446;
  ensure_zero bootstrap "protective MBR bootstrap area" ;;
  ensure (bool_decide (get_range image 446 462 = Some PROTECTIVE_ENTRY))
    "protective MBR entry is not canonical" ;;
  unused ← index_range image 462 510;
  ensure_zero unused "unused protective MBR entries" ;;
  mbr_signature ← index_range image 510 512;
  ensure (same mbr_signature BOOT_SIGNATURE) "protective MBR signature is invalid" ;;
  primary_header ← sector image 1;
  backup_header ← sector image BACKUP_GPT_HEADER_LBA;
  validate_raw_gpt_header primary_header 1 BACKUP_GPT_HEADER_LBA 2 ;;
  validate_raw_gpt_header backup_header BACKUP_GPT_HEADER_LBA 1 BACKUP_GPT_ENTRIES_LBA ;;
  primary_guid ← index_range primary_header 56 72;
  backup_guid ← index_range backup_header 56 72;
  primary_crc ← index_range primary_header 88 92;
  backup_crc ← index_range backup_header 88 92;
  ensure (same primary_guid backup_guid && same primary_crc backup_crc)
    "primary and backup GPT identity or entry-array CRC differs" ;;
  primary_entries ← lba_range image 2 (2 + GPT_ENTRY_ARRAY_SECTORS);
  backup_entries ← lba_range image BACKUP_GPT_ENTRIES_LBA
                     (BACKUP_GPT_ENTRIES_LBA + GPT_ENTRY_ARRAY_SECTORS);
  ensure (same primary_entries backup_entries) "primary and backup GPT entry arrays differ" ;;
  first_entry ← index_range primary_entries 0 GPT_ENTRY_BYTES;
  ensure (existsb (fun byte => negb (byte =? 0)) first_entry) "GPT partition entry 1 is empty" ;;
  other_entries ← index_range primary_entries GPT_ENTRY_BYTES (GPT_ENTRY_COUNT * GPT_ENTRY_BYTES);
  ensure_zero other_entries "unused GPT partition entries" ;;
  before ← lba_range image 34 ESP_FIRST_LBA;
  ensure_zero before "pre-ESP alignment sectors" ;;
  after ← lba_range image (ESP_LAST_LBA + 1) BACKUP_GPT_ENTRIES_LBA;
  ensure_zero after "post-ESP alignment sectors".

(** ** FAT32 *)
Definition END_OF_CHAIN : Z := 0x0ffffff8.
Definition CLUSTER_MASK : Z := 0x0fffffff.
Definition SENTINEL : list Z := [0xff; 0xff; 0xff; 0x0f].

(** [for cluster in 2..entry_count], the [count] clusters from [cluster] on,
    with the first free cluster seen. *)
Fixpoint scan_clusters (count : nat) (cluster : Z) (fat : list Z) (entry_count : Z)
    (first_free : option Z) : exec ImageError (option Z) :=
  match count with
  | O => Ok first_free
  | S count =>
      entry ← context (read_u32 fat (cluster * 4)) "FAT cluster entry is truncated";
      let value := Z.land entry CLUSTER_MASK in
      if value =? 0 then
        scan_clusters count (cluster + 1) fat entry_count
          (match first_free with None => Some cluster | Some _ => first_free end)
      else
        ensure (bool_decide (first_free = None))
          "FAT allocated clusters are not one canonical prefix" ;;
        ensure (((2 <=? value) && (value <? entry_count)) || (END_OF_CHAIN <=? value))
          "FAT cluster has an invalid successor" ;;
        scan_clusters count (cluster + 1) fat entry_count first_free
  end.

(** [chunks_exact(4).all(|entry| entry == sentinel)]: a last shorter piece is
    not looked at. *)
Fixpoint all_sentinels (l : list Z) : bool :=
  match l with
  | a :: b :: c :: d :: rest => same [a; b; c; d] SENTINEL && all_sentinels rest
  | _ => true
  end.

Definition validate_canonical_fat_entries (fat : list Z) (total_sectors data_lba : Z)
    (fs_info : list Z) : exec ImageError unit :=
  total_clusters ← context (checked_sub total_sectors data_lba) "FAT32 data-cluster count underflowed";
  entries ← add_panic 64 total_clusters 2;
  entry_count ← context (try_uint 64 entries) "FAT entry count is too large";
  ensure (match checked_mul 64 entry_count 4 with Some bytes => bytes <=? len fat | None => false end)
    "FAT is too short for the declared data clusters" ;;
  ensure (match read_u32 fat 0 with Some value => Z.land value 0xff =? 0xf8 | None => false end
          && match read_u32 fat 4 with
             | Some value => END_OF_CHAIN <=? Z.land value CLUSTER_MASK | None => false end)
    "FAT reserved entries are invalid" ;;
  first_free ← scan_clusters (Z.to_nat (entry_count - 2)) 2 fat entry_count None;
  rest ← index_range fat (entry_count * 4) (len fat);
  ensure (all_sentinels rest)
    "out-of-range FAT entries are not canonical end-of-chain sentinels" ;;
  first_free ← context first_free "FAT contains no free cluster";
  expected_next ← context (try_uint 32 first_free) "first free cluster does not fit u32";
  ensure (is_value (read_u32 fs_info 492) expected_next)
    "FSInfo next-free hint does not identify the canonical first free cluster".

(** The checks of the boot sector: the sector count of the partition and the
    sectors of one FAT. *)
Definition validate_boot_sector (boot : list Z) (partition_len : Z) : exec ImageError (Z * Z) :=
  oem ← index_range boot 3 11;
  ensure (same oem (ascii_bytes "MSWIN4.1")) "unexpected FAT OEM identity" ;;
  ensure (is_value (read_u16 boot 11) 512) "FAT sector size is not 512 bytes" ;;
  cluster_sectors ← index_at boot 13;
  ensure (cluster_sectors =? 1) "FAT cluster size is not one sector" ;;
  ensure (is_value (read_u16 boot 14) 8) "FAT reserved-sector count is not 8" ;;
  mirrors ← index_at boot 16;
  ensure (mirrors =? 2) "FAT does not contain two mirrors" ;;
  ensure (is_value (read_u16 boot 17) 0) "FAT32 root-entry field is nonzero" ;;
  ensure (is_value (read_u16 boot 19) 0) "FAT32 16-bit sector count is nonzero" ;;
  media ← index_at boot 21;
  ensure (media =? 0xf8) "FAT media descriptor is not fixed-disk" ;;
  ensure (is_value (read_u16 boot 22) 0) "FAT32 16-bit FAT size is nonzero" ;;
  expected_sectors ← context (try_uint 32 (partition_len / LOGICAL_BLOCK_BYTES))
                       "ESP sector count does not fit u32";
  ensure (is_value (read_u32 boot 32) expected_sectors) "FAT32 total-sector count is inconsistent" ;;
  fat_sectors ← context (read_u32 boot 36) "FAT32 FAT-sector count is truncated";
  ensure (0 <? fat_sectors) "FAT32 FAT-sector count is zero" ;;
  ensure (is_value (read_u16 boot 40) 0) "FAT mirroring flags are not canonical" ;;
  ensure (is_value (read_u16 boot 42) 0) "FAT32 version is unsupported" ;;
  ensure (is_value (read_u32 boot 44) 2) "FAT32 root cluster is not 2" ;;
  ensure (is_value (read_u16 boot 48) 1) "FAT32 FSInfo sector is not 1" ;;
  ensure (is_value (read_u16 boot 50) 6) "FAT32 backup boot sector is not 6" ;;
  signature ← index_range boot 510 (len boot);
  ensure (same signature BOOT_SIGNATURE) "FAT boot signature is invalid" ;;
  Ok (expected_sectors, fat_sectors).

(** The signatures of the FSInfo sector. *)
Definition validate_fs_info (fs_info : list Z) : exec ImageError unit :=
  ensure (is_value (read_u32 fs_info 0) 0x41615252) "FSInfo lead signature is invalid" ;;
  ensure (is_value (read_u32 fs_info 484) 0x61417272) "FSInfo structure signature is invalid" ;;
  ensure (is_value (read_u32 fs_info 488) (2 ^ 32 - 1)) "FSInfo free count is not canonical" ;;
  trail ← index_range fs_info 508 512;
  ensure (same trail [0x00; 0x00; 0x55; 0xaa]) "FSInfo trail signature is invalid".

Definition validate_raw_fat32_layout (partition : list Z) : exec ImageError unit :=
  boot ← sector partition 0;
  '(expected_sectors, fat_sectors) ← validate_boot_sector boot (len partition);
  backup ← sector partition 6;
  ensure (same boot backup) "FAT backup boot sector differs" ;;
  reserved ← lba_range partition 2 6;
  ensure_zero reserved "unused FAT reserved sectors" ;;
  adjacent ← sector partition 7;
  ensure_zero adjacent "unused FAT backup-adjacent sector" ;;
  fs_info ← sector partition 1;
  validate_fs_info fs_info ;;
  let first_fat_lba := 8 in
  second_fat_lba ← add_panic 64 first_fat_lba fat_sectors;
  data_lba ← add_panic 64 second_fat_lba fat_sectors;
  ensure (data_lba <? expected_sectors) "FAT32 data region lies outside the ESP" ;;
  first_fat ← lba_range partition first_fat_lba second_fat_lba;
  second_fat ← lba_range partition second_fat_lba data_lba;
  ensure (same first_fat second_fat) "FAT mirror copies differ" ;;
  validate_canonical_fat_entries first_fat expected_sectors data_lba fs_info.

(** ** Payload formats *)
Definition MZ : list Z := ascii_bytes "MZ".
Definition PE_SIGNATURE : list Z := [0x50; 0x45; 0; 0].

Definition validate_uefi_loader (bytes : list Z) : exec ImageError unit :=
  ensure (0x40 <=? len bytes) "UEFI loader is too small for a DOS header" ;;
  magic ← index_range bytes 0 2;
  ensure (same magic MZ) "UEFI loader lacks the MZ signature" ;;
  pe_offset ← context (read_u32 bytes 0x3c) "UEFI loader lacks a PE header offset";
  pe_offset ← context (try_uint 64 pe_offset) "PE header offset does not fit usize";
  signature_end ← context (checked_add 64 pe_offset 4) "PE signature offset overflowed";
  ensure (bool_decide (get_range bytes pe_offset signature_end = Some PE_SIGNATURE))
    "UEFI loader lacks the PE signature" ;;
  machine ← add_panic 64 pe_offset 4;
  ensure (is_value (read_u16 bytes machine) 0x8664) "UEFI loader is not x86_64" ;;
  optional ← context (checked_add 64 pe_offset 24) "PE optional-header offset overflowed";
  ensure (is_value (read_u16 bytes optional) 0x20b) "UEFI loader is not PE32+" ;;
  subsystem ← add_panic 64 optional 68;
  ensure (is_value (read_u16 bytes subsystem) 10) "PE subsystem is not EFI_APPLICATION".

Definition validate_kernel_elf (bytes : list Z) : exec ImageError unit :=
  map_err KernelElfRejected (parse bytes) ;; Ok tt.
