(* ===== verification/RawImageProps.v ===== *)
(** Theorems about the raw structure checks: the GPT check accepts exactly the
    output of a canonical serializer, the FAT check exactly the FATs of a
    declarative policy, and none of them panics. *)

From S2P Require Import Prelude Bytes BootElf ElfSpec ElfProps Console RawImage.

(** ** Checks *)
Lemma ensure_Ok c m u : ensure c m = Ok u <-> c = true.
Proof. unfold ensure. rewrite fail_if_Ok. by destruct c. Qed.
Lemma bind_ensure {A} c m (k : exec ImageError A) a :
  (ensure c m ;; k) = Ok a <-> c = true /\ k = Ok a.
Proof. destruct c; simpl; naive_solver. Qed.
Lemma ensure_no_panic c m : ensure c m <> Panic.
Proof. unfold ensure. auto with nopanic. Qed.
Lemma context_Ok {A} (o : option A) m a : context o m = Ok a <-> o = Some a.
Proof. apply ok_or_Ok. Qed.
Lemma context_no_panic {A} (o : option A) m : context o m <> Panic.
Proof. unfold context. auto with nopanic. Qed.
Lemma same_iff a b : same a b = true <-> a = b.
Proof. apply bool_decide_eq_true. Qed.
#[export] Hint Resolve ensure_no_panic context_no_panic : nopanic.

Lemma try_uint_exact w a : a < 2 ^ w -> try_uint w a = Some a.
Proof. intros. unfold try_uint. by rewrite (proj2 (Z.ltb_lt _ _)). Qed.
Lemma checked_mul_exact w a b : a * b < 2 ^ w -> checked_mul w a b = Some (a * b).
Proof. intros. by apply checked_mul_Some. Qed.
Lemma context_value {A B} (a : A) m (f : A -> exec ImageError B) : context (Some a) m ≫= f = f a.
Proof. done. Qed.

(** ** Lists in pieces *)

(** [n] zero bytes. *)
Definition zeros (n : Z) : list Z := replicate (Z.to_nat n) 0.
#[global] Arguments zeros : simpl never.

Lemma len_zeros n : 0 <= n -> len (zeros n) = n.
Proof. intros. unfold zeros. rewrite length_replicate. lia. Qed.

Lemma zeros_iff l n :
  len l = n -> forallb (fun byte => byte =? 0) l = true <-> l = zeros n.
Proof.
  intros <-. unfold zeros. rewrite Nat2Z.id. induction l as [|b l IH]; [done|].
  cbn [forallb length replicate]. rewrite andb_true_iff, Z.eqb_eq, IH.
  split; [by intros [-> <-]|]. intros H. by injection H as -> H.
Qed.

(** The pieces lie one after the other from offset [o] on. *)
Fixpoint at_offset (l : list Z) (o : Z) (pieces : list (list Z)) : Prop :=
  match pieces with
  | [] => True
  | p :: pieces => sub_list l o (len p) = p /\ at_offset l (o + len p) pieces
  end.

Lemma at_offset_iff l pieces : forall o,
  0 <= o ->
  at_offset l o pieces <-> sub_list l o (len (concat pieces)) = concat pieces.
Proof.
  induction pieces as [|p ps IH]; intros o Ho; cbn [at_offset concat].
  { split; [|done]. intros _. unfold sub_list. by rewrite take_0. }
  rewrite IH by lia. rewrite length_app, Nat2Z.inj_add, sub_list_split by lia. split.
  - intros [H1 H2]. by rewrite H1, H2.
  - intros H. set (q := concat ps) in *.
    assert (length (sub_list l o (len p)) = length p) as Hl.
    { assert (length (sub_list l o (len p)) <= length p)%nat by
        (unfold sub_list; rewrite length_take; lia).
      assert (length (sub_list l (o + len p) (len q)) <= length q)%nat by
        (unfold sub_list; rewrite length_take; lia).
      apply (f_equal length) in H. rewrite !length_app in H. lia. }
    by apply app_inj_1 in H.
Qed.

(** A list is the concatenation of pieces that fill it. *)
Lemma concat_iff l pieces :
  len l = len (concat pieces) -> l = concat pieces <-> at_offset l 0 pieces.
Proof.
  intros Hl. rewrite at_offset_iff by lia. rewrite <- Hl, sub_list_all. done.
Qed.

(** ** Readers *)
Section Readers.
Variable bytes : list Z.
Hypothesis Hbytes : slice_ok bytes.

Lemma read_u16_at offset :
  0 <= offset -> offset + 2 <= len bytes ->
  RawImage.read_u16 bytes offset = Some (from_le_bytes (sub_list bytes offset 2)).
Proof.
  intros. change (from_le_bytes <$> read_array 2 bytes offset = Some (from_le_bytes (sub_list bytes offset 2))).
  by rewrite (read_array_exact bytes Hbytes) by lia.
Qed.
Lemma read_u32_at offset :
  0 <= offset -> offset + 4 <= len bytes ->
  RawImage.read_u32 bytes offset = Some (from_le_bytes (sub_list bytes offset 4)).
Proof.
  intros. change (from_le_bytes <$> read_array 4 bytes offset = Some (from_le_bytes (sub_list bytes offset 4))).
  by rewrite (read_array_exact bytes Hbytes) by lia.
Qed.
Lemma read_u64_at offset :
  0 <= offset -> offset + 8 <= len bytes ->
  RawImage.read_u64 bytes offset = Some (from_le_bytes (sub_list bytes offset 8)).
Proof.
  intros. change (from_le_bytes <$> read_array 8 bytes offset = Some (from_le_bytes (sub_list bytes offset 8))).
  by rewrite (read_array_exact bytes Hbytes) by lia.
Qed.

(** A field has a value exactly when its bytes are the encoding of it. *)
Lemma value_iff (n : nat) offset v :
  0 <= offset -> offset + Z.of_nat n <= len bytes -> uint (8 * Z.of_nat n) v ->
  is_value (Some (from_le_bytes (sub_list bytes offset (Z.of_nat n)))) v = true <->
  sub_list bytes offset (Z.of_nat n) = to_le_bytes n v.
Proof.
  intros Ho Hl Hv. unfold is_value. rewrite bool_decide_eq_true.
  set (x := sub_list bytes offset (Z.of_nat n)).
  assert (length x = n) as Hx by (pose proof (length_sub_list bytes offset (Z.of_nat n)); unfold x; lia).
  assert (is_bytes x) by (apply sub_list_Forall, Hbytes). split.
  - intros [= <-]. symmetry. rewrite <- Hx at 1. by apply to_from_le_bytes.
  - intros ->. by rewrite from_to_le_bytes.
Qed.

Lemma lba_range_exact a b :
  0 <= a -> a <= b -> b * 512 <= len bytes ->
  lba_range bytes a b = Ok (sub_list bytes (a * 512) ((b - a) * 512)).
Proof.
  intros Ha Hb Hl. destruct Hbytes as [_ Hlen]. unfold lba_range, lba_to_offset, LOGICAL_BLOCK_BYTES.
  rewrite (proj2 (Z.leb_le a b)) by done. cbn [ensure fail_if negb mbind exec_bind].
  unfold context, checked_mul, try_uint.
  rewrite !(proj2 (Z.ltb_lt _ _)) by lia. cbn [ok_or mbind exec_bind].
  rewrite !(proj2 (Z.ltb_lt _ _)) by lia. cbn [ok_or mbind exec_bind].
  rewrite get_range_exact by lia. cbn [ok_or]. do 2 f_equal. lia.
Qed.

Lemma sector_exact a :
  0 <= a -> (a + 1) * 512 <= len bytes -> sector bytes a = Ok (sub_list bytes (a * 512) 512).
Proof.
  intros Ha Hl. destruct Hbytes as [_ Hlen]. unfold sector, context, checked_add.
  rewrite (proj2 (Z.ltb_lt _ _)) by lia. cbn [ok_or mbind exec_bind].
  rewrite lba_range_exact by lia. do 2 f_equal. lia.
Qed.
End Readers.

(** Evaluates the closed sums among the offsets of the goal. *)
Ltac eval_offsets :=
  change (Z.of_nat 2) with 2; change (Z.of_nat 4) with 4; change (Z.of_nat 8) with 8;
  repeat match goal with
  | |- context [?a + ?b] =>
      let c := eval vm_compute in (a + b) in
      lazymatch c with Z0 => idtac | Zpos _ => idtac end; change (a + b) with c
  end.

(** ** The canonical disk *)

(** A GPT header sector: the free fields are the header's CRC, the disk's GUID
    and the CRC of the entry array. *)
Definition gpt_header (crc guid entries_crc : list Z) (current backup entries : Z) : list Z :=
  concat [EFI_PART; to_le_bytes 4 0x00010000; to_le_bytes 4 92; crc; to_le_bytes 4 0;
          to_le_bytes 8 current; to_le_bytes 8 backup; to_le_bytes 8 34; to_le_bytes 8 131038;
          guid; to_le_bytes 8 entries; to_le_bytes 4 128; to_le_bytes 4 128; entries_crc; zeros 420].

(** A whole disk: the free parts are those fields, the first partition entry
    and the contents of the partition. *)
Definition canonical_disk (crc backup_crc guid entries_crc entry esp : list Z) : list Z :=
  concat [zeros 446; PROTECTIVE_ENTRY; zeros 48; BOOT_SIGNATURE;
          gpt_header crc guid entries_crc 1 131071 2; entry; zeros 16256; zeros 1031168; esp;
          zeros 1031680; entry; zeros 16256; gpt_header backup_crc guid entries_crc 131071 1 131039].

Lemma len_gpt_header crc guid ecrc c b e :
  len crc = 4 -> len guid = 16 -> len ecrc = 4 -> len (gpt_header crc guid ecrc c b e) = 512.
Proof.
  intros. unfold gpt_header. cbn [concat]. rewrite !length_app, !length_to_le_bytes.
  pose proof (len_zeros 420). change (length EFI_PART) with 8%nat. change (@length Z []) with 0%nat. lia.
Qed.

Lemma gpt_header_iff header c b e :
  slice_ok header -> len header = 512 -> uint 64 c -> uint 64 b -> uint 64 e ->
  validate_raw_gpt_header header c b e = Ok tt <->
  header = gpt_header (sub_list header 16 4) (sub_list header 56 16) (sub_list header 88 4) c b e.
Proof.
  intros Hs Hl Hc Hb He.
  assert (len (sub_list header 16 4) = 4 /\ len (sub_list header 56 16) = 16 /\
          len (sub_list header 88 4) = 4) as (L1 & L2 & L3) by (rewrite !length_sub_list by lia; done).
  unfold gpt_header. rewrite concat_iff by (symmetry; rewrite Hl; by apply len_gpt_header).
  cbn [at_offset]. rewrite !length_to_le_bytes, L1, L2, L3, len_zeros by lia.
  change (len EFI_PART) with 8. eval_offsets.
  unfold validate_raw_gpt_header.
  rewrite !index_range_exact by lia. cbn [mbind exec_bind].
  rewrite !bind_ensure, !(read_u32_at header Hs), !(read_u64_at header Hs) by lia.
  rewrite andb_true_iff. unfold ensure_zero. rewrite ensure_Ok, same_iff.
  change (8 - 0) with 8. replace (len header - 92) with 420 by lia.
  rewrite (zeros_iff _ 420) by (rewrite length_sub_list; lia).
  pose proof (fun o v => value_iff header Hs 4 o v) as V4.
  pose proof (fun o v => value_iff header Hs 8 o v) as V8.
  change (Z.of_nat 4) with 4 in V4. change (Z.of_nat 8) with 8 in V8.
  change (BACKUP_GPT_ENTRIES_LBA - 1) with 131038. unfold GPT_ENTRY_COUNT, GPT_ENTRY_BYTES.
  rewrite !V4, !V8 by (first [done|lia|unfold uint; lia]). tauto.
Qed.

Lemma gpt_header_no_panic header c b e :
  len header = 512 -> validate_raw_gpt_header header c b e <> Panic.
Proof.
  intros Hl. unfold validate_raw_gpt_header, ensure_zero. rewrite !index_range_exact by lia.
  rewrite !bind_value. auto 20 with nopanic.
Qed.
#[local] Hint Resolve gpt_header_no_panic : nopanic.

(** The free fields of a header sector. *)
Lemma gpt_header_fields crc guid ecrc c b e :
  len crc = 4 -> len guid = 16 -> len ecrc = 4 ->
  let h := gpt_header crc guid ecrc c b e in
  sub_list h 16 4 = crc /\ sub_list h 56 16 = guid /\ sub_list h 88 4 = ecrc.
Proof.
  intros L1 L2 L3 h.
  assert (at_offset h 0 [EFI_PART; to_le_bytes 4 0x00010000; to_le_bytes 4 92; crc; to_le_bytes 4 0;
    to_le_bytes 8 c; to_le_bytes 8 b; to_le_bytes 8 34; to_le_bytes 8 131038;
    guid; to_le_bytes 8 e; to_le_bytes 4 128; to_le_bytes 4 128; ecrc; zeros 420]) as H
    by (by apply concat_iff).
  cbn [at_offset] in H. rewrite !length_to_le_bytes, L1, L2, L3 in H.
  change (len EFI_PART) with 8 in H. change (Z.of_nat 4) with 4 in H. change (Z.of_nat 8) with 8 in H.
  destruct H as (_ & _ & _ & H1 & _ & _ & _ & _ & _ & H2 & _ & _ & _ & H3 & _). done.
Qed.

#[local] Opaque sub_list zeros Z.to_nat.

Section Disk.
Variable image : list Z.
Hypothesis Himage : slice_ok image.
Hypothesis Hlen : len image = DISK_BYTES.

Lemma slice_sub o n : 0 <= o -> 0 <= n -> o + n <= len image -> slice_ok (sub_list image o n).
Proof.
  intros. split; [apply sub_list_Forall, Himage|]. rewrite length_sub_list by lia.
  destruct Himage. lia.
Qed.

Abbreviation primary := (sub_list image 512 512).
Abbreviation backup := (sub_list image 67108352 512).

(** The checks of the raw layout, range by range. *)
Lemma raw_gpt_ranges :
  validate_raw_gpt_layout image = Ok tt <->
  sub_list image 0 446 = zeros 446 /\ sub_list image 446 16 = PROTECTIVE_ENTRY /\
  sub_list image 462 48 = zeros 48 /\ sub_list image 510 2 = BOOT_SIGNATURE /\
  validate_raw_gpt_header primary 1 131071 2 = Ok tt /\
  validate_raw_gpt_header backup 131071 1 131039 = Ok tt /\
  (sub_list primary 56 16 = sub_list backup 56 16 /\ sub_list primary 88 4 = sub_list backup 88 4) /\
  sub_list image 1024 16384 = sub_list image 67091968 16384 /\
  existsb (fun byte => negb (byte =? 0)) (sub_list image 1024 128) = true /\
  sub_list image 1152 16256 = zeros 16256 /\
  sub_list image 17408 1031168 = zeros 1031168 /\ sub_list image 66060288 1031680 = zeros 1031680.
Proof.
  unfold validate_raw_gpt_layout, ensure_zero. unfold DISK_BYTES in Hlen.
  rewrite !index_range_exact by lia. rewrite !bind_value.
  rewrite !bind_ensure, same_iff, bool_decide_eq_true, get_range_exact by lia.
  unfold BACKUP_GPT_HEADER_LBA, BACKUP_GPT_ENTRIES_LBA, GPT_ENTRY_ARRAY_SECTORS, ESP_FIRST_LBA,
    ESP_LAST_LBA, GPT_ENTRY_COUNT, GPT_ENTRY_BYTES.
  rewrite !(sector_exact image Himage), !(lba_range_exact image Himage) by lia. rewrite !bind_value.
  eval_offsets. change (1 * 512) with 512. change (131071 * 512) with 67108352.
  change (2 * 512) with 1024. change ((34 - 2) * 512) with 16384.
  change (131039 * 512) with 67091968. change ((131071 - 131039) * 512) with 16384.
  change (34 * 512) with 17408. change ((2048 - 34) * 512) with 1031168.
  change (129024 * 512) with 66060288. change ((131039 - 129024) * 512) with 1031680.
  rewrite !bind_unit, !index_range_exact by (first [lia|rewrite length_sub_list; lia]). rewrite !bind_value.
  rewrite !bind_ensure, ensure_Ok, andb_true_iff, !same_iff.
  change (72 - 56) with 16. change (92 - 88) with 4. change (128 - 0) with 128.
  change (128 * 128 - 128) with 16256. change (446 - 0) with 446. change (462 - 446) with 16.
  change (510 - 462) with 48. change (512 - 510) with 2.
  rewrite !sub_list_sub_list by lia. change (1024 + 0) with 1024. change (1024 + 128) with 1152.
  assert (forall o n, 0 <= o -> 0 <= n -> o + n <= len image ->
    forallb (fun byte => byte =? 0) (sub_list image o n) = true <-> sub_list image o n = zeros n) as Hz.
  { intros. apply zeros_iff. by apply length_sub_list. }
  rewrite !Hz by lia.
  rewrite (inj_iff Some). apply iff_refl.
Qed.

Lemma raw_gpt_no_panic : validate_raw_gpt_layout image <> Panic.
Proof.
  unfold validate_raw_gpt_layout, ensure_zero. unfold DISK_BYTES in Hlen.
  rewrite !index_range_exact by lia. rewrite !bind_value.
  unfold BACKUP_GPT_HEADER_LBA, BACKUP_GPT_ENTRIES_LBA, GPT_ENTRY_ARRAY_SECTORS, ESP_FIRST_LBA,
    ESP_LAST_LBA, GPT_ENTRY_COUNT, GPT_ENTRY_BYTES.
  rewrite !(sector_exact image Himage), !(lba_range_exact image Himage) by lia. rewrite !bind_value.
  assert (len (sub_list image (1 * 512) 512) = 512 /\ len (sub_list image (131071 * 512) 512) = 512)
    as [Lp Lb] by (rewrite !length_sub_list by lia; done).
  rewrite !index_range_exact by (first [lia|rewrite length_sub_list; lia]). rewrite !bind_value.
  repeat (apply bind_no_panic; [first [apply ensure_no_panic|by apply gpt_header_no_panic]|intros _ _]).
  apply ensure_no_panic.
Qed.

(** The free parts of a canonical disk. *)
Record disk_parts (crc backup_crc guid entries_crc entry esp : list Z) : Prop := {
  dp_crc : len crc = 4; dp_backup_crc : len backup_crc = 4; dp_guid : len guid = 16;
  dp_entries_crc : len entries_crc = 4; dp_entry : len entry = 128; dp_esp : len esp = 65011712;
  dp_used : existsb (fun byte => negb (byte =? 0)) entry = true
}.

Lemma canonical_ranges crc bcrc guid ecrc entry esp :
  disk_parts crc bcrc guid ecrc entry esp ->
  image = canonical_disk crc bcrc guid ecrc entry esp <->
  sub_list image 0 446 = zeros 446 /\ sub_list image 446 16 = PROTECTIVE_ENTRY /\
  sub_list image 462 48 = zeros 48 /\ sub_list image 510 2 = BOOT_SIGNATURE /\
  primary = gpt_header crc guid ecrc 1 131071 2 /\ sub_list image 1024 128 = entry /\
  sub_list image 1152 16256 = zeros 16256 /\ sub_list image 17408 1031168 = zeros 1031168 /\
  sub_list image 1048576 65011712 = esp /\ sub_list image 66060288 1031680 = zeros 1031680 /\
  sub_list image 67091968 128 = entry /\ sub_list image 67092096 16256 = zeros 16256 /\
  backup = gpt_header bcrc guid ecrc 131071 1 131039.
Proof.
  intros [L1 L2 L3 L4 L5 L6 _]. unfold DISK_BYTES in Hlen.
  pose proof (len_gpt_header crc guid ecrc 1 131071 2 L1 L3 L4) as H1.
  pose proof (len_gpt_header bcrc guid ecrc 131071 1 131039 L2 L3 L4) as H2.
  assert (len PROTECTIVE_ENTRY = 16 /\ len BOOT_SIGNATURE = 2) as [H3 H4] by done.
  unfold canonical_disk. rewrite concat_iff.
  - cbn [at_offset]. rewrite !len_zeros, H1, H2, H3, H4, L5, L6 by lia. eval_offsets. tauto.
  - cbn [concat]. rewrite !length_app, !Nat2Z.inj_add, !len_zeros, H1, H2, H3, H4, L5, L6, Hlen by lia.
    done.
Qed.

(** The entry arrays agree as wholes exactly when they do entry by entry. *)
Lemma entries_split :
  sub_list image 1024 16384 = sub_list image 67091968 16384 <->
  sub_list image 1024 128 = sub_list image 67091968 128 /\
  sub_list image 1152 16256 = sub_list image 67092096 16256.
Proof.
  unfold DISK_BYTES in Hlen. change 16384 with (128 + 16256). rewrite !sub_list_split by lia.
  change (1024 + 128) with 1152. change (67091968 + 128) with 67092096. split.
  - intros H. by apply app_inj_1 in H; [|pose proof (length_sub_list image 1024 128);
      pose proof (length_sub_list image 67091968 128); lia].
  - intros [H1 H2]. by rewrite H1, H2.
Qed.

Lemma raw_gpt_iff :
  validate_raw_gpt_layout image = Ok tt <->
  exists crc bcrc guid ecrc entry esp, disk_parts crc bcrc guid ecrc entry esp /\
    image = canonical_disk crc bcrc guid ecrc entry esp.
Proof.
  rewrite raw_gpt_ranges, entries_split. unfold DISK_BYTES in Hlen.
  assert (len primary = 512 /\ len backup = 512) as [Lp Lb] by (rewrite !length_sub_list by lia; done).
  rewrite !gpt_header_iff by (first [apply slice_sub; lia|done|unfold uint; lia]). split.
  - intros (H1 & H2 & H3 & H4 & H5 & H6 & [H7 H7'] & [H8 H8'] & H9 & H10 & H11 & H12).
    exists (sub_list primary 16 4), (sub_list backup 16 4), (sub_list primary 56 16),
      (sub_list primary 88 4), (sub_list image 1024 128), (sub_list image 1048576 65011712).
    assert (disk_parts (sub_list primary 16 4) (sub_list backup 16 4) (sub_list primary 56 16)
      (sub_list primary 88 4) (sub_list image 1024 128) (sub_list image 1048576 65011712)) as Hp.
    { split; try (rewrite length_sub_list by lia); done. }
    split; [done|]. apply (canonical_ranges _ _ _ _ _ _ Hp).
    rewrite <- H7, <- H7' in H6. rewrite <- H8, <- H8'. tauto.
  - intros (crc & bcrc & guid & ecrc & entry & esp & Hp & Hc).
    apply (canonical_ranges _ _ _ _ _ _ Hp) in Hc.
    destruct Hc as (H1 & H2 & H3 & H4 & H5 & H6 & H7 & H8 & H9 & H10 & H11 & H12 & H13).
    assert (sub_list primary 16 4 = crc /\ sub_list primary 56 16 = guid /\ sub_list primary 88 4 = ecrc)
      as (-> & -> & ->) by (rewrite H5; apply gpt_header_fields; apply Hp).
    assert (sub_list backup 16 4 = bcrc /\ sub_list backup 56 16 = guid /\ sub_list backup 88 4 = ecrc)
      as (-> & -> & ->) by (rewrite H13; apply gpt_header_fields; apply Hp).
    rewrite H6, H7, H11, H12. pose proof (dp_used _ _ _ _ _ _ Hp). tauto.
Qed.
End Disk.

(** ** The UEFI loader *)

(** The subset of PE32+ an x86_64 EFI application must show: the DOS magic, the
    PE header where the DOS header says, its machine, optional-header magic and
    subsystem. *)
Definition pe_ok (bytes : list Z) : Prop :=
  64 <= len bytes /\ sub_list bytes 0 2 = MZ /\
  let pe := from_le_bytes (sub_list bytes 60 4) in
  pe + 94 <= len bytes /\ sub_list bytes pe 4 = PE_SIGNATURE /\
  sub_list bytes (pe + 4) 2 = to_le_bytes 2 0x8664 /\
  sub_list bytes (pe + 24) 2 = to_le_bytes 2 0x20b /\
  sub_list bytes (pe + 92) 2 = to_le_bytes 2 10.

Lemma read_u16_is bytes o v :
  slice_ok bytes -> 0 <= o -> uint 16 v ->
  is_value (RawImage.read_u16 bytes o) v = true <->
  o + 2 <= len bytes /\ sub_list bytes o 2 = to_le_bytes 2 v.
Proof.
  intros Hb Ho Hv. destruct (decide (o + 2 <= len bytes)) as [Hl|Hl].
  - rewrite (read_u16_at bytes Hb) by done. rewrite (value_iff bytes Hb 2 o v) by done. naive_solver.
  - split; [|naive_solver]. unfold is_value. rewrite bool_decide_eq_true. intros H.
    change (from_le_bytes <$> read_array 2 bytes o = Some v) in H.
    apply fmap_Some in H as (l & H & _). by apply read_array_Some in H as [? _]; [|lia..].
Qed.

Lemma uefi_loader_iff bytes :
  slice_ok bytes -> validate_uefi_loader bytes = Ok tt <-> pe_ok bytes.
Proof.
  intros Hb. unfold validate_uefi_loader, pe_ok. rewrite bind_ensure, Z.leb_le.
  destruct (decide (64 <= len bytes)) as [Hl|]; [|naive_solver].
  rewrite index_range_exact, bind_value, bind_ensure, same_iff, (read_u32_at bytes Hb), context_value by lia.
  change (2 - 0) with 2. set (pe := from_le_bytes (sub_list bytes 60 4)).
  assert (uint 32 pe) as Hpe by (apply (sub_list_uint bytes Hb 60 4); lia). unfold uint in Hpe.
  rewrite try_uint_exact, context_value by lia.
  assert (forall n, n < 2 ^ 32 -> checked_add 64 pe n = Some (pe + n)) as Hadd.
  { intros. apply checked_add_Some. lia. }
  rewrite (Hadd 4), context_value, bind_ensure, bool_decide_eq_true by lia.
  rewrite (get_range_Some bytes pe (pe + 4)) by lia. replace (pe + 4 - pe) with 4 by lia.
  rewrite add_panic_exact, bind_value, bind_ensure, (Hadd 24), context_value, bind_ensure by lia.
  rewrite add_panic_exact, bind_value, ensure_Ok by lia. replace (pe + 24 + 68) with (pe + 92) by lia.
  rewrite !(read_u16_is bytes) by (first [done|lia|unfold uint; lia]).
  split; intros H; destruct_and! H; split_and!; try done; lia.
Qed.

Lemma uefi_loader_no_panic bytes : slice_ok bytes -> validate_uefi_loader bytes <> Panic.
Proof.
  intros Hb. unfold validate_uefi_loader. apply bind_no_panic; [apply ensure_no_panic|].
  intros _ Hl%ensure_Ok%Z.leb_le. rewrite index_range_exact, bind_value by lia.
  apply bind_no_panic; [apply ensure_no_panic|intros _ _].
  rewrite (read_u32_at bytes Hb), context_value by lia.
  set (pe := from_le_bytes (sub_list bytes 60 4)).
  assert (uint 32 pe) as Hpe by (apply (sub_list_uint bytes Hb 60 4); lia). unfold uint in Hpe.
  rewrite try_uint_exact, context_value by lia.
  do 2 (apply bind_no_panic; [auto with nopanic|intros ? _]).
  rewrite add_panic_exact, bind_value by lia.
  apply bind_no_panic; [apply ensure_no_panic|intros _ _].
  apply bind_no_panic; [apply context_no_panic|]. intros o [-> _]%context_Ok%checked_add_Some.
  apply bind_no_panic; [apply ensure_no_panic|intros _ _].
  rewrite add_panic_exact, bind_value by lia. apply ensure_no_panic.
Qed.
