(* ===== verification/FatProps.v ===== *)
(** The FAT32 check accepts exactly the partitions of a declarative policy:
    fixed geometry, mirrored boot sectors and FATs, clusters allocated from the
    front with valid successors, and an FSInfo hint at the first free one. *)

From S2P Require Import Prelude Bytes BootElf ElfSpec ElfProps Console RawImage RawImageProps.

(** ** Clusters *)
Definition fat_entry (fat : list Z) (c : Z) : Z :=
  Z.land (from_le_bytes (sub_list fat (c * 4) 4)) CLUSTER_MASK.

(** A cluster that is in use: it links to another cluster or ends a chain. *)
Definition allocated (fat : list Z) (n c : Z) : Prop :=
  2 <= fat_entry fat c < n \/ END_OF_CHAIN <= fat_entry fat c.

(** The policy of the FAT: clusters [2..f) are in use, [f..n) are free, the
    rest of the sectors is filled with end marks. *)
Record fat_ok (fat : list Z) (n f : Z) : Prop := {
  fo_media : Z.land (from_le_bytes (sub_list fat 0 4)) 0xff = 0xf8;
  fo_mark : END_OF_CHAIN <= fat_entry fat 1;
  fo_first : 2 <= f < n;
  fo_fits : n * 4 <= len fat;
  fo_used : forall c, 2 <= c < f -> allocated fat n c;
  fo_free : forall c, f <= c < n -> fat_entry fat c = 0;
  fo_rest : forall c, n <= c -> c * 4 + 4 <= len fat -> sub_list fat (c * 4) 4 = SENTINEL
}.

Section Clusters.
Variables (fat : list Z) (n : Z).
Hypothesis Hfat : slice_ok fat.

Lemma read_cluster c :
  0 <= c -> c * 4 + 4 <= len fat ->
  context (RawImage.read_u32 fat (c * 4)) "FAT cluster entry is truncated" =
  Ok (from_le_bytes (sub_list fat (c * 4) 4)).
Proof. intros. by rewrite (read_u32_at fat Hfat) by lia. Qed.

(** After the first free cluster every cluster must be free. *)
Lemma scan_after count : forall cluster f r,
  0 <= cluster -> (cluster + Z.of_nat count) * 4 <= len fat ->
  scan_clusters count cluster fat n (Some f) = Ok r <->
  r = Some f /\ forall c, cluster <= c < cluster + Z.of_nat count -> fat_entry fat c = 0.
Proof.
  induction count as [|count IH]; intros cluster f r Hc Hl; cbn [scan_clusters].
  { split; [intros [= <-]; split; [done|lia]|by intros [-> _]]. }
  rewrite read_cluster, bind_value by lia. fold (fat_entry fat cluster).
  destruct (Z.eqb_spec (fat_entry fat cluster) 0) as [E|E].
  - rewrite IH by lia. split; intros [-> H]; (split; [done|]); intros c Hr.
    + destruct (decide (c = cluster)) as [->|]; [done|apply H; lia].
    + apply H. lia.
  - split; [rewrite bind_ensure; by intros [? _]|]. intros [_ H]. destruct E. apply H. lia.
Qed.

(** Up to it, clusters are in use; [k] of them. *)
Lemma scan_before count : forall cluster r,
  0 <= cluster -> (cluster + Z.of_nat count) * 4 <= len fat ->
  scan_clusters count cluster fat n None = Ok r <->
  exists k, 0 <= k <= Z.of_nat count /\
    (forall c, cluster <= c < cluster + k -> allocated fat n c) /\
    (forall c, cluster + k <= c < cluster + Z.of_nat count -> fat_entry fat c = 0) /\
    r = (if k <? Z.of_nat count then Some (cluster + k) else None).
Proof.
  induction count as [|count IH]; intros cluster r Hc Hl; cbn [scan_clusters].
  { split.
    - intros [= <-]. exists 0. split_and!; [lia..|done].
    - intros (k & Hk & _ & _ & ->). by rewrite (proj2 (Z.ltb_ge _ _)) by lia. }
  rewrite read_cluster, bind_value by lia. fold (fat_entry fat cluster).
  destruct (Z.eqb_spec (fat_entry fat cluster) 0) as [E|E].
  - rewrite scan_after by lia. split.
    + intros [-> H]. exists 0. split_and!; [lia|lia|lia| |by rewrite (proj2 (Z.ltb_lt _ _)), Z.add_0_r by lia].
      intros c Hr. destruct (decide (c = cluster)) as [->|]; [done|apply H; lia].
    + intros (k & Hk & Ha & Hz & ->). destruct (decide (k = 0)) as [->|].
      * rewrite (proj2 (Z.ltb_lt _ _)), Z.add_0_r by lia. split; [done|]. intros c Hr. apply Hz. lia.
      * exfalso. specialize (Ha cluster ltac:(lia)). unfold allocated, END_OF_CHAIN in Ha. lia.
  - rewrite !bind_ensure, IH by lia. rewrite orb_true_iff, andb_true_iff, !Z.leb_le, Z.ltb_lt.
    change ((2 <= fat_entry fat cluster < n) \/ END_OF_CHAIN <= fat_entry fat cluster)
      with (allocated fat n cluster). split.
    + intros (_ & Hal & k & Hk & Ha & Hz & ->). exists (k + 1). split_and!; [lia|lia| | |].
      * intros c Hr. destruct (decide (c = cluster)) as [->|]; [done|apply Ha; lia].
      * intros c Hr. apply Hz. lia.
      * replace (cluster + 1 + k) with (cluster + (k + 1)) by lia.
        destruct (Z.ltb_spec k (Z.of_nat count)), (Z.ltb_spec (k + 1) (Z.of_nat (S count))); done || lia.
    + intros (k & Hk & Ha & Hz & ->). destruct (decide (k = 0)) as [->|].
      { destruct E. apply Hz. lia. }
      split; [done|]. split; [apply Ha; lia|]. exists (k - 1). split_and!; [lia|lia| | |].
      * intros c Hr. apply Ha. lia.
      * intros c Hr. apply Hz. lia.
      * replace (cluster + 1 + (k - 1)) with (cluster + k) by lia.
        destruct (Z.ltb_spec (k - 1) (Z.of_nat count)), (Z.ltb_spec k (Z.of_nat (S count))); done || lia.
Qed.

Lemma scan_no_panic count : forall cluster free, scan_clusters count cluster fat n free <> Panic.
Proof.
  induction count as [|count IH]; intros cluster free; cbn [scan_clusters]; [done|].
  apply bind_no_panic; [apply context_no_panic|intros v _]. case_match; auto with nopanic.
Qed.
End Clusters.

Lemma all_sentinels_iff (m : nat) : forall l, length l = (4 * m)%nat ->
  all_sentinels l = true <->
  forall c, 0 <= c < Z.of_nat m -> sub_list l (c * 4) 4 = SENTINEL.
Proof.
  induction m as [|m IH]; intros l Hl.
  { destruct l; [|done]. split; [lia|done]. }
  destruct l as [|a [|b [|c [|d l]]]]; cbn [length] in Hl; try lia.
  cbn [all_sentinels]. rewrite andb_true_iff, same_iff, IH by lia.
  assert (forall k, 0 <= k -> sub_list (a :: b :: c :: d :: l) ((k + 1) * 4) 4 = sub_list l (k * 4) 4) as Hs.
  { intros k Hk. unfold sub_list. replace (Z.to_nat ((k + 1) * 4)) with (4 + Z.to_nat (k * 4))%nat by lia.
    done. }
  split.
  - intros [H1 H2] k Hk. destruct (decide (k = 0)) as [->|]; [exact H1|].
    replace k with (k - 1 + 1) by lia. rewrite Hs by lia. apply H2. lia.
  - intros H. split; [apply (H 0); lia|]. intros k Hk. rewrite <- Hs by lia. apply H. lia.
Qed.

(** The entries after the data clusters. *)
Lemma rest_sentinels fat n : 0 <= n -> n * 4 <= len fat -> len fat mod 4 = 0 ->
  all_sentinels (sub_list fat (n * 4) (len fat - n * 4)) = true <->
  forall c, n <= c -> c * 4 + 4 <= len fat -> sub_list fat (c * 4) 4 = SENTINEL.
Proof.
  intros H0 Hn Hm.
  replace (len fat - n * 4) with (4 * (len fat / 4 - n)) by (Z.to_euclidean_division_equations; lia).
  assert (0 <= len fat / 4 - n /\ len fat = 4 * (len fat / 4)) as [Hm0 Hm4] by (Z.to_euclidean_division_equations; lia).
  rewrite (all_sentinels_iff (Z.to_nat (len fat / 4 - n))).
  2: { pose proof (length_sub_list fat (n * 4) (4 * (len fat / 4 - n))). lia. }
  split; intros H1 c.
  - intros Hc1 Hc2. specialize (H1 (c - n) ltac:(lia)). rewrite sub_list_sub_list in H1 by lia.
    rewrite <- H1. f_equal. lia.
  - intros Hc. rewrite sub_list_sub_list by lia. rewrite <- (H1 (c + n)) by lia. f_equal. lia.
Qed.

(** The FAT check is the FAT policy. *)
Lemma fat_entries_iff fat total data fs_info :
  slice_ok fat -> len fat mod 4 = 0 -> slice_ok fs_info -> len fs_info = 512 ->
  uint 32 total -> 2 <= data ->
  validate_canonical_fat_entries fat total data fs_info = Ok tt <->
  data <= total /\ exists f, fat_ok fat (total - data + 2) f /\
    sub_list fs_info 492 4 = to_le_bytes 4 f.
Proof.
  intros Hf Hm Hi Li Ht Hd. unfold validate_canonical_fat_entries. unfold uint in Ht.
  unfold checked_sub. destruct (Z.leb_spec data total) as [Hdt|Hdt].
  2: { split; [done|lia]. }
  rewrite context_value, add_panic_exact, bind_value, try_uint_exact, context_value by lia.
  set (n := total - data + 2). assert (2 <= n < 2 ^ 32) by lia.
  rewrite checked_mul_exact, bind_ensure, Z.leb_le by lia.
  destruct (Z.leb_spec (n * 4) (len fat)) as [Hn|Hn].
  2: { split; [intros [? _]; lia|]. intros (_ & f & Ho & _). pose proof (fo_fits _ _ _ Ho). lia. }
  assert (8 <= len fat) by lia.
  rewrite !(read_u32_at fat Hf), bind_ensure, andb_true_iff, Z.eqb_eq, Z.leb_le by lia.
  rewrite index_range_exact by lia.
  pose proof (rest_sentinels fat n ltac:(lia) Hn Hm) as Hsen.
  pose proof (value_iff fs_info Hi 4 492) as Hv. change (Z.of_nat 4) with 4 in Hv.
  pose proof (fun r => scan_before fat n Hf (Z.to_nat (n - 2)) 2 r ltac:(lia) ltac:(lia)) as Hscan.
  replace (Z.of_nat (Z.to_nat (n - 2))) with (n - 2) in Hscan by lia.
  change (4 * 1) with 4. fold (fat_entry fat 1).
  split.
  - intros (_ & [H1 H2] & H3). split; [done|].
    apply bind_Ok in H3 as (r & Hr & H3). apply Hscan in Hr as (k & Hk & Ha & Hz & ->).
    rewrite bind_value, bind_ensure in H3. destruct H3 as [H3 H4]. rewrite Hsen in H3.
    destruct (Z.ltb_spec k (n - 2)); [|done].
    rewrite context_value, try_uint_exact, context_value, ensure_Ok, (read_u32_at fs_info Hi) in H4 by lia.
    exists (2 + k). split; [|apply Hv; try done; unfold uint; lia].
    split; [done|exact H2|lia|done|intros c Hc; apply Ha; lia| |done].
    intros c Hc. apply Hz. lia.
  - intros (_ & f & [H1 H2 H3 H4 H5 H6 H7] & Hnext). split; [done|]. split; [done|].
    rewrite (proj2 (Hscan (Some f))).
    2: { exists (f - 2). split; [lia|]. split; [intros c Hc; apply H5; lia|].
         split; [intros c Hc; apply H6; lia|]. rewrite (proj2 (Z.ltb_lt _ _)) by lia. f_equal. lia. }
    rewrite !bind_value, bind_ensure. split; [by apply Hsen|]. 
    rewrite context_value, try_uint_exact, context_value, ensure_Ok, (read_u32_at fs_info Hi) by lia.
    apply Hv; try done; unfold uint; lia.
Qed.

Lemma fat_entries_no_panic fat total data fs_info :
  uint 32 total -> 0 <= data -> validate_canonical_fat_entries fat total data fs_info <> Panic.
Proof.
  intros Ht Hd. unfold validate_canonical_fat_entries. unfold uint in Ht.
  unfold checked_sub. destruct (Z.leb_spec data total); [|done].
  rewrite context_value, add_panic_exact, bind_value, try_uint_exact, context_value by lia.
  apply bind_no_panic; [apply ensure_no_panic|]. intros _ H1%ensure_Ok.
  rewrite checked_mul_exact in H1 by lia. apply Z.leb_le in H1.
  apply bind_no_panic; [apply ensure_no_panic|intros _ _].
  apply bind_no_panic; [apply scan_no_panic|intros r _].
  rewrite index_range_exact, bind_value by lia. auto 10 with nopanic.
Qed.

(** ** The boot sector *)

(** The fixed fields of the boot sector of a partition of [sectors] sectors,
    with [s] sectors in each FAT. *)
Record boot_ok (boot : list Z) (sectors s : Z) : Prop := {
  bo_head : at_offset boot 3 [ascii_bytes "MSWIN4.1"; to_le_bytes 2 512; [1]; to_le_bytes 2 8; [2];
              to_le_bytes 2 0; to_le_bytes 2 0; [0xf8]; to_le_bytes 2 0];
  bo_geometry : at_offset boot 32 [to_le_bytes 4 sectors; to_le_bytes 4 s; to_le_bytes 2 0;
              to_le_bytes 2 0; to_le_bytes 4 2; to_le_bytes 2 1; to_le_bytes 2 6];
  bo_signature : sub_list boot 510 2 = BOOT_SIGNATURE;
  bo_sectors : uint 32 sectors;
  bo_fat : 0 < s < 2 ^ 32
}.

(** The fixed fields of FSInfo, with the hint [f]. *)
Definition fs_info_ok (fs_info : list Z) (f : Z) : Prop :=
  sub_list fs_info 0 4 = to_le_bytes 4 0x41615252 /\
  at_offset fs_info 484 [to_le_bytes 4 0x61417272; to_le_bytes 4 (2 ^ 32 - 1); to_le_bytes 4 f] /\
  sub_list fs_info 508 4 = [0x00; 0x00; 0x55; 0xaa].

Section Sector.
Variable sec : list Z.
Hypothesis Hsec : slice_ok sec.
Hypothesis Hlen : len sec = 512.

Lemma index_at_byte {A} i (f : Z -> exec ImageError A) :
  0 <= i < 512 -> index_at sec i ≫= f = f (from_le_bytes (sub_list sec i 1)).
Proof.
  intros Hi. destruct (get_at_lt sec i) as [x Hx]; [lia|]. unfold index_at. rewrite Hx.
  cbn [or_panic]. rewrite bind_value. f_equal. rewrite (sub_list_1 sec i x Hx).
  unfold from_le_bytes. lia.
Qed.

Lemma byte_iff i v : 0 <= i < 512 -> uint 8 v ->
  (from_le_bytes (sub_list sec i 1) =? v) = true <-> sub_list sec i 1 = [v].
Proof.
  intros Hi Hv. pose proof (value_iff sec Hsec 1 i v ltac:(lia) ltac:(lia) Hv) as H.
  change (Z.of_nat 1) with 1 in H. unfold is_value in H. rewrite bool_decide_eq_true in H.
  rewrite Z.eqb_eq. unfold to_le_bytes in H. unfold uint in Hv. change (2 ^ 8) with 256 in Hv.
  rewrite Z.mod_small in H by lia. rewrite <- H. naive_solver.
Qed.

Lemma boot_sector_iff plen sectors s :
  0 <= plen ->
  validate_boot_sector sec plen = Ok (sectors, s) <->
  boot_ok sec sectors s /\ sectors = plen / 512.
Proof.
  intros Hp. unfold validate_boot_sector. rewrite !index_range_exact by lia. rewrite !bind_value.
  rewrite !index_at_byte by lia.
  rewrite !(read_u16_at sec Hsec), !(read_u32_at sec Hsec) by lia. rewrite !bind_ensure.
  pose proof (fun o v => value_iff sec Hsec 2 o v) as V2.
  pose proof (fun o v => value_iff sec Hsec 4 o v) as V4.
  change (Z.of_nat 2) with 2 in V2. change (Z.of_nat 4) with 4 in V4.
  rewrite !same_iff, !V2, !byte_iff by (first [lia|unfold uint; lia]).
  change (11 - 3) with 8. unfold LOGICAL_BLOCK_BYTES.
  assert (0 <= plen / 512) by (apply Z.div_pos; lia).
  destruct (decide (plen / 512 < 2 ^ 32)) as [Hf|Hf].
  2: { unfold try_uint. rewrite (proj2 (Z.ltb_ge _ _)) by lia. split; [naive_solver|].
       intros [[_ _ _ Hu _] ->]. unfold uint in Hu. lia. }
  rewrite try_uint_exact, !context_value, !bind_value, !bind_ensure by done.
  rewrite !V2, !V4 by (first [lia|unfold uint; lia]). rewrite Z.ltb_lt, same_iff.
  replace (len sec - 510) with 2 by lia.
  set (x := from_le_bytes (sub_list sec 36 4)).
  assert (uint 32 x) as Hx by (apply (sub_list_uint sec Hsec 36 4); lia).
  assert (forall s, uint 32 s -> sub_list sec 36 4 = to_le_bytes 4 s <-> x = s) as Hs.
  { intros s' Hs'. rewrite <- V4 by (first [lia|done]). unfold is_value. rewrite bool_decide_eq_true.
    fold x. naive_solver. }
  split.
  - intros H'. destruct_and! H'. simplify_eq. unfold uint in Hx.
    split; [|done]. split; [| |done|unfold uint; lia|lia].
    + cbn [at_offset]. rewrite !length_to_le_bytes. cbn [length]. eval_offsets.
      change (len (ascii_bytes "MSWIN4.1")) with 8. eval_offsets. tauto.
    + cbn [at_offset]. rewrite !length_to_le_bytes. eval_offsets. rewrite Hs by (unfold uint; lia). tauto.
  - intros [[H1 H2 H3 H4 H5] ->]. cbn [at_offset] in H1, H2. rewrite !length_to_le_bytes in H1, H2.
    change (len (ascii_bytes "MSWIN4.1")) with 8 in H1. cbn [length] in H1.
    rewrite Hs in H2 by (unfold uint; lia). destruct_and! H1; destruct_and! H2. subst s.
    split_and!; try done; lia.
Qed.

Lemma boot_sector_no_panic plen : validate_boot_sector sec plen <> Panic.
Proof.
  unfold validate_boot_sector. rewrite !index_range_exact by lia. rewrite !bind_value.
  rewrite !index_at_byte by lia.
  repeat (apply bind_no_panic; [first [apply ensure_no_panic|apply context_no_panic]|intros ? _]).
  rewrite bind_value. auto with nopanic.
Qed.

Lemma fs_info_iff f :
  validate_fs_info sec = Ok tt /\ sub_list sec 492 4 = to_le_bytes 4 f <-> fs_info_ok sec f.
Proof.
  unfold validate_fs_info, fs_info_ok. rewrite !index_range_exact by lia.
  rewrite !(read_u32_at sec Hsec) by lia. rewrite !bind_ensure, !bind_value, ensure_Ok, same_iff.
  pose proof (fun o v => value_iff sec Hsec 4 o v) as V4. change (Z.of_nat 4) with 4 in V4.
  rewrite !V4 by (first [lia|unfold uint; lia]). change (512 - 508) with 4.
  cbn [at_offset]. rewrite !length_to_le_bytes. eval_offsets. tauto.
Qed.

Lemma fs_info_no_panic : validate_fs_info sec <> Panic.
Proof.
  unfold validate_fs_info. rewrite index_range_exact by lia. rewrite bind_value. auto 10 with nopanic.
Qed.
End Sector.

(** ** The partition *)

(** The FAT32 policy: [s] sectors per FAT, [f] the first free cluster. *)
Record fat32_ok (p : list Z) (s f : Z) : Prop := {
  f32_boot : boot_ok (sub_list p 0 512) (len p / 512) s;
  f32_backup : sub_list p 3072 512 = sub_list p 0 512;
  f32_reserved : sub_list p 1024 2048 = zeros 2048 /\ sub_list p 3584 512 = zeros 512;
  f32_info : fs_info_ok (sub_list p 512 512) f;
  f32_room : 8 + 2 * s < len p / 512;
  f32_mirror : sub_list p (4096 + s * 512) (s * 512) = sub_list p 4096 (s * 512);
  f32_fat : fat_ok (sub_list p 4096 (s * 512)) (len p / 512 - (8 + 2 * s) + 2) f
}.

Section Partition.
Variable p : list Z.
Hypothesis Hp : slice_ok p.
Hypothesis Hsectors : len p mod 512 = 0.
Hypothesis Hroom : 4096 <= len p.

Lemma sub_slice_ok o n : 0 <= o -> 0 <= n -> o + n <= len p -> slice_ok (sub_list p o n).
Proof.
  intros. split; [apply sub_list_Forall, Hp|]. rewrite length_sub_list by lia. destruct Hp. lia.
Qed.

Lemma room_bytes s : 8 + 2 * s < len p / 512 -> 4096 + s * 1024 < len p.
Proof. intros. Z.to_euclidean_division_equations. lia. Qed.

(** The checks up to the FATs, and the rest of the function after them. *)
Definition fat_checks (sectors s : Z) : exec ImageError unit :=
  second_fat_lba ← add_panic 64 8 s;
  data_lba ← add_panic 64 second_fat_lba s;
  ensure (data_lba <? sectors) "FAT32 data region lies outside the ESP" ;;
  first_fat ← lba_range p 8 second_fat_lba;
  second_fat ← lba_range p second_fat_lba data_lba;
  ensure (same first_fat second_fat) "FAT mirror copies differ" ;;
  validate_canonical_fat_entries first_fat sectors data_lba (sub_list p 512 512).

Lemma fat32_unfold :
  validate_raw_fat32_layout p =
  validate_boot_sector (sub_list p 0 512) (len p) ≫= fun '(sectors, s) =>
    ensure (same (sub_list p 0 512) (sub_list p 3072 512)) "FAT backup boot sector differs" ;;
    ensure_zero (sub_list p 1024 2048) "unused FAT reserved sectors" ;;
    ensure_zero (sub_list p 3584 512) "unused FAT backup-adjacent sector" ;;
    validate_fs_info (sub_list p 512 512) ;;
    fat_checks sectors s.
Proof.
  unfold validate_raw_fat32_layout. rewrite !(sector_exact p Hp), !(lba_range_exact p Hp) by lia.
  by rewrite !bind_value.
Qed.

Lemma fat_checks_iff s f :
  0 < s < 2 ^ 32 -> uint 32 (len p / 512) ->
  fat_checks (len p / 512) s = Ok tt /\ sub_list (sub_list p 512 512) 492 4 = to_le_bytes 4 f /\ uint 32 f <->
  8 + 2 * s < len p / 512 /\
  sub_list p (4096 + s * 512) (s * 512) = sub_list p 4096 (s * 512) /\
  fat_ok (sub_list p 4096 (s * 512)) (len p / 512 - (8 + 2 * s) + 2) f /\
  sub_list (sub_list p 512 512) 492 4 = to_le_bytes 4 f.
Proof.
  intros Hs Hu. unfold fat_checks. rewrite add_panic_exact, bind_value, add_panic_exact, bind_value by lia.
  rewrite bind_ensure, Z.ltb_lt. replace (8 + s + s) with (8 + 2 * s) by lia.
  destruct (decide (8 + 2 * s < len p / 512)) as [Hr|]; [|naive_solver].
  pose proof (room_bytes s Hr) as Hb.
  rewrite !(lba_range_exact p Hp), !bind_value, bind_ensure, same_iff by lia.
  change (8 * 512) with 4096. replace ((8 + s - 8) * 512) with (s * 512) by lia.
  replace ((8 + s) * 512) with (4096 + s * 512) by lia.
  replace ((8 + 2 * s - (8 + s)) * 512) with (s * 512) by lia.
  rewrite fat_entries_iff.
  2: { apply sub_slice_ok; lia. }
  2: { rewrite length_sub_list by lia. replace (s * 512) with (s * 128 * 4) by lia. apply Z_mod_mult. }
  2: { apply sub_slice_ok; lia. }
  2: { rewrite length_sub_list; lia. }
  2: { done. }
  2: { lia. }
  split.
  - intros ((_ & Hm & _ & f' & Hf & Hn) & Hn' & Hu'). split_and!; try done.
    assert (f' = f) as ->; [|done]. destruct Hf as [_ _ Hf _ _ _ _]. unfold uint in Hu.
    rewrite Hn in Hn'. apply (f_equal from_le_bytes) in Hn'.
    rewrite !from_to_le_bytes in Hn' by (first [done|unfold uint; lia]). done.
  - intros (_ & Hm & Hf & Hn). split; [|split; [done|]].
    + split_and!; try done; [lia|]. by exists f.
    + destruct Hf as [_ _ Hf _ _ _ _]. unfold uint in *. lia.
Qed.

Lemma fat32_iff :
  validate_raw_fat32_layout p = Ok tt <-> exists s f, fat32_ok p s f.
Proof.
  rewrite fat32_unfold. pose proof (sub_slice_ok 0 512 ltac:(lia) ltac:(lia) ltac:(lia)) as S0.
  pose proof (sub_slice_ok 512 512 ltac:(lia) ltac:(lia) ltac:(lia)) as S1.
  assert (len (sub_list p 0 512) = 512 /\ len (sub_list p 512 512) = 512) as [L0 L1]
    by (rewrite !length_sub_list by lia; done).
  pose proof (boot_sector_iff _ S0 L0 (len p)) as Hboot.
  pose proof (fun f => fs_info_iff _ S1 L1 f) as Hinfo.
  assert (forall o n, 0 <= o -> 0 <= n -> o + n <= len p ->
    forallb (fun byte => byte =? 0) (sub_list p o n) = true <-> sub_list p o n = zeros n) as Hz.
  { intros. apply zeros_iff. by apply length_sub_list. }
  unfold ensure_zero. split.
  - intros H. apply bind_Ok in H as ([sectors s] & Hb & H).
    apply Hboot in Hb as [Hb ->]; [|lia]. rewrite !bind_ensure, bind_unit, same_iff, !Hz in H by lia.
    destruct H as (Hbk & Hz1 & Hz2 & Hi & Hf).
    pose proof (bo_sectors _ _ _ Hb) as Hu. pose proof (bo_fat _ _ _ Hb) as Hs.
    set (f := from_le_bytes (sub_list (sub_list p 512 512) 492 4)).
    assert (uint 32 f) as Huf by (apply (sub_list_uint _ S1 492 4); lia).
    assert (sub_list (sub_list p 512 512) 492 4 = to_le_bytes 4 f) as Hn.
    { apply (value_iff _ S1 4 492 f); [lia|rewrite L1; done|done|]. by apply bool_decide_eq_true. }
    destruct (proj1 (fat_checks_iff s f Hs Hu)) as (H1 & H2 & H3 & _); [done|].
    exists s, f. split; try done. by apply Hinfo.
  - intros (s & f & [Hb Hbk [Hz1 Hz2] Hi Hr Hm Hf]).
    rewrite (proj2 (Hboot _ s ltac:(lia))) by done. rewrite bind_value.
    apply Hinfo in Hi as [Hi Hn]. rewrite !bind_ensure, bind_unit, same_iff, !Hz by lia.
    split_and!; try done. apply (fat_checks_iff s f); [apply Hb|apply Hb|]. done.
Qed.

Lemma fat32_no_panic : validate_raw_fat32_layout p <> Panic.
Proof.
  rewrite fat32_unfold. pose proof (sub_slice_ok 0 512 ltac:(lia) ltac:(lia) ltac:(lia)) as S0.
  assert (len (sub_list p 0 512) = 512 /\ len (sub_list p 512 512) = 512) as [L0 L1]
    by (rewrite !length_sub_list by lia; done).
  apply bind_no_panic; [by apply boot_sector_no_panic|]. intros [sectors s] [Hb ->]%boot_sector_iff; [|done..|lia].
  pose proof (bo_sectors _ _ _ Hb) as Hu. pose proof (bo_fat _ _ _ Hb) as Hs.
  unfold ensure_zero. do 3 (apply bind_no_panic; [apply ensure_no_panic|intros _ _]).
  apply bind_no_panic; [by apply fs_info_no_panic|intros _ _]. unfold fat_checks.
  rewrite add_panic_exact, bind_value, add_panic_exact, bind_value by lia.
  apply bind_no_panic; [apply ensure_no_panic|]. intros _ Hr%ensure_Ok%Z.ltb_lt.
  pose proof (room_bytes s ltac:(lia)). rewrite !(lba_range_exact p Hp), !bind_value by lia.
  apply bind_no_panic; [apply ensure_no_panic|intros _ _]. apply fat_entries_no_panic; [done|lia].
Qed.
End Partition.
