(* ===== verification/DiskImage.v ===== *)
(** Building and validating the boot disk: the rest of crates/xtask/src/image.rs.

    The [gpt], [fatfs] and [uuid] crates are the record [DiskCrates]: an opened
    GPT disk, a mounted volume, a directory and an open file are handles of
    opaque types, a result that can fail is an [option].  The raw checks, the
    payload checks and the scenario file are in [RawImage] and [HostScenario].
    The parts of a message that are formatted from values are left out. *)

From stdpp Require Import gmap.
From S2P Require Import Prelude Bytes BootElf Console HostScenario Artifact RawImage HostFs.
Import Image.

Definition FAT_VOLUME_ID : Z := 0x50544f53.
Definition FAT_VOLUME_LABEL : list Z := ascii_bytes "POLYTOPEOS ".
Definition FAT_VOLUME_LABEL_VISIBLE : list Z := ascii_bytes "POLYTOPEOS".
Definition FAT32_VOLUME_LABEL_OFFSET : Z := 71.
Definition LOADER_IMAGE_PATH : string := "EFI/BOOT/BOOTX64.EFI".
Definition KERNEL_IMAGE_PATH : string := "POLYTOPE/KERNEL.ELF".
Definition SCENARIO_IMAGE_PATH : string := "POLYTOPE/BOOT.CFG".
Definition MAX_PAYLOAD_BYTES : Z := 24 * 1024 * 1024.
Definition MAX_SCENARIO_FILE_BYTES : Z := 32.
Definition DISK_GUID : string := "4ed83d8f-20d8-4c3d-9a4c-25bccd13a6a1".
Definition ESP_GUID : string := "f607134d-0901-4d7b-a512-5a49d6ba66bf".
Definition FAT_TIMESTAMP_YEAR : Z := 2000.

(** ** The fixed time *)
Record Date := mkDate { d_year : Z; d_month : Z; d_day : Z }.
Record Time := mkTime { t_hour : Z; t_min : Z; t_sec : Z; t_millis : Z }.
Record DateTime := mkDateTime { dt_date : Date; dt_time : Time }.
#[global] Instance Date_eq_dec : EqDecision Date.
Proof. solve_decision. Defined.
#[global] Instance Time_eq_dec : EqDecision Time.
Proof. solve_decision. Defined.
#[global] Instance DateTime_eq_dec : EqDecision DateTime.
Proof. solve_decision. Defined.

Definition get_current_date : Date := mkDate FAT_TIMESTAMP_YEAR 1 1.
Definition get_current_date_time : DateTime := mkDateTime get_current_date (mkTime 0 0 0 0).

(** ** The crates *)
Inductive FatType := Fat12 | Fat16 | Fat32.
#[global] Instance FatType_eq_dec : EqDecision FatType.
Proof. solve_decision. Defined.

Record FormatVolumeOptions := mkFormatVolumeOptions {
  fo_bytes_per_sector : Z;
  fo_bytes_per_cluster : Z;
  fo_fat_type : FatType;
  fo_fats : Z;
  fo_volume_id : Z;
  fo_volume_label : list Z
}.

Record DirEntry := mkDirEntry {
  de_file_name : list Z;
  de_is_dir : bool;
  de_created : DateTime;
  de_modified : DateTime;
  de_accessed : Date
}.

Record Partition (U : Type) := mkPartition {
  part_type_guid : U;
  part_guid : U;
  first_lba : Z;
  last_lba : Z;
  part_flags : Z;
  part_name : list Z
}.
Arguments mkPartition {U}.
Arguments part_type_guid {U}.
Arguments part_guid {U}.
Arguments first_lba {U}.
Arguments last_lba {U}.

(** [U] is [Uuid], [G] an opened GPT disk, [V] a mounted volume, [D] a directory
    and [F] an open file of it.  [dir_next v d n] is the [n]-th answer of the
    directory iterator: its end, an error or an entry; nothing says that it
    ends. *)
Record DiskCrates (U G V D F : Type) := mkDiskCrates {
  uuid_parse_str : list Z -> option U;
  uuid_to_string : U -> list Z;
  partition_types_EFI : U;
  mbr_overwrite_lba0 : Z -> list Z -> option (list Z);
  gpt_create_from_device : list Z -> U -> option G;
  gpt_open_from_device : list Z -> option G;
  gpt_guid : G -> U;
  gpt_partitions : G -> gmap Z (Partition U);
  gpt_update_partitions : gmap Z (Partition U) -> G -> option G;
  gpt_write : G -> option (list Z);
  fat_format_volume : FormatVolumeOptions -> list Z -> option (list Z);
  fat_mount : Date -> DateTime -> list Z -> option V;
  fat_type : V -> FatType;
  fat_volume_id : V -> Z;
  fat_volume_label_as_bytes : V -> list Z;
  root_dir : V -> D;
  dir_next : V -> D -> nat -> option (option DirEntry);
  open_dir : V -> D -> list Z -> option D;
  open_file : V -> D -> list Z -> option F;
  file_read : V -> F -> list Z -> option (Z * list Z * F);
  create_dir : V -> D -> list Z -> option V;
  create_file : V -> D -> list Z -> option (F * V);
  file_write : V -> F -> list Z -> option (Z * (F * V));
  file_flush : V -> F -> option V;
  unmount : V -> option (list Z)
}.
Arguments uuid_parse_str {U G V D F}.
Arguments uuid_to_string {U G V D F}.
Arguments partition_types_EFI {U G V D F}.
Arguments mbr_overwrite_lba0 {U G V D F}.
Arguments gpt_create_from_device {U G V D F}.
Arguments gpt_open_from_device {U G V D F}.
Arguments gpt_guid {U G V D F}.
Arguments gpt_partitions {U G V D F}.
Arguments gpt_update_partitions {U G V D F}.
Arguments gpt_write {U G V D F}.
Arguments fat_format_volume {U G V D F}.
Arguments fat_mount {U G V D F}.
Arguments fat_type {U G V D F}.
Arguments fat_volume_id {U G V D F}.
Arguments fat_volume_label_as_bytes {U G V D F}.
Arguments root_dir {U G V D F}.
Arguments dir_next {U G V D F}.
Arguments open_dir {U G V D F}.
Arguments open_file {U G V D F}.
Arguments file_read {U G V D F}.
Arguments create_dir {U G V D F}.
Arguments create_file {U G V D F}.
Arguments file_write {U G V D F}.
Arguments file_flush {U G V D F}.
Arguments unmount {U G V D F}.

Record ImageManifest := mkImageManifest {
  im_schema_version : Z;
  im_image_bytes : Z;
  im_image_sha256 : list Z;
  im_loader_sha256 : list Z;
  im_kernel_sha256 : list Z;
  im_scenario : BootScenario;
  im_esp_first_lba : Z;
  im_esp_last_lba : Z;
  im_disk_guid : list Z;
  im_esp_guid : list Z
}.

Section Image.
Context {U G V D F : Type} `{EqDecision U}.
Variable crates : DiskCrates U G V D F.
(** SHA-256, and whether [try_reserve_exact] of so many bytes succeeds. *)
Variables (digest : list Z -> list Z) (reserves : Z -> bool).

Definition parse_uuid (value : string) : exec ImageError U :=
  context (uuid_parse_str crates (ascii_bytes value)) "invalid built-in UUID".

(** ** Reading an image back *)

Definition CHUNK_BYTES : Z := 8 * 1024.
Definition READ_FUEL : nat := 25.

(** One iteration of the loop of [read_fat_file]. *)
Definition read_fat_step (v : V) (maximum : Z) (s : F * (list Z * list Z))
    : flow (F * (list Z * list Z)) (exec ImageError (list Z)) :=
  let '(file, (chunk, bytes)) := s in
  match file_read crates v file chunk with
  | None => Break (Err (Invalid "failed to read ESP file"))
  | Some (read, chunk, file) =>
      if read =? 0 then Break (Ok bytes) else
      let step :=
        new_length ← context (checked_add 64 (len bytes) read) "ESP file length overflowed";
        ensure (new_length <=? maximum) "ESP file exceeds its limit" ;;
        ensure (reserves read) "failed to reserve bounded storage for ESP file" ;;
        piece ← index_range chunk 0 read;
        Ok (bytes ++ piece) in
      match step with
      | Ok bytes => Continue (file, (chunk, bytes))
      | Err e => Break (Err e)
      | Panic => Break Panic
      end
  end.

Definition read_fat_file (v : V) (root : D) (path : string) (maximum : Z) : exec ImageError (list Z) :=
  file ← context (open_file crates v root (ascii_bytes path)) "required ESP file is missing";
  match loop_pow2 READ_FUEL (read_fat_step v maximum)
          (file, (replicate (Z.to_nat CHUNK_BYTES) 0, [])) with
  | Break r => r
  | Continue _ => Panic
  end.

Definition ensure_fixed_timestamp (entry : DirEntry) : exec ImageError unit :=
  ensure (bool_decide (de_created entry = get_current_date_time)
          && bool_decide (de_modified entry = get_current_date_time)
          && bool_decide (de_accessed entry = get_current_date))
    "ESP directory entry has a noncanonical timestamp".

(** [matches!(name, "." | "..")] *)
Definition is_dot_name (name : list Z) : bool :=
  bool_decide (name = ascii_bytes ".") || bool_decide (name = ascii_bytes "..").

(** The loop of [validate_directory]; [n] counts the calls of [next]. *)
Fixpoint directory_loop (fuel : nat) (v : V) (directory : D) (expected : list (string * bool))
    (n : nat) (raw_entries observed : Z) : exec ImageError Z :=
  match fuel with
  | O => Panic
  | S fuel =>
      match dir_next crates v directory n with
      | None => Ok observed
      | Some None => Err (Invalid "failed to enumerate deterministic ESP directory")
      | Some (Some entry) =>
          raw_entries ← context (checked_add 64 raw_entries 1) "ESP directory entry count overflowed";
          limit ← add_panic 64 (len expected) 2;
          ensure (raw_entries <=? limit)
            "ESP directory enumeration exceeded its deterministic bound" ;;
          let name := de_file_name entry in
          if is_dot_name name then directory_loop fuel v directory expected (S n) raw_entries observed
          else
          slot ← context (if observed <? len expected then expected !! Z.to_nat observed else None)
                   "ESP directory contains an unexpected extra entry";
          ensure (bool_decide (name = ascii_bytes slot.1) && Bool.eqb (de_is_dir entry) slot.2)
            "unexpected ESP directory entry" ;;
          ensure_fixed_timestamp entry ;;
          observed ← context (checked_add 64 observed 1) "ESP observed-entry count overflowed";
          directory_loop fuel v directory expected (S n) raw_entries observed
      end
  end.

(** The loop is left at the latest when the third surplus entry is met. *)
Definition validate_directory (v : V) (directory : D) (expected : list (string * bool))
    : exec ImageError unit :=
  observed ← directory_loop (length expected + 3) v directory expected 0 0 0;
  ensure (observed =? len expected) "ESP directory entry count differs".

(** The GPT part of [validate_image_bytes], through the [gpt] crate. *)
Definition validate_gpt (image : list Z) (disk_guid esp_guid : U) : exec ImageError unit :=
  gpt_disk ← context (gpt_open_from_device crates image)
    "image has invalid primary or backup GPT metadata";
  ensure (bool_decide (gpt_guid crates gpt_disk = disk_guid)) "unexpected GPT disk GUID" ;;
  ensure (Z.of_nat (size (gpt_partitions crates gpt_disk)) =? 1) "expected one GPT partition" ;;
  partition ← context (gpt_partitions crates gpt_disk !! 1) "GPT partition 1 is missing";
  ensure (bool_decide (part_type_guid partition = partition_types_EFI crates))
    "partition 1 is not an ESP" ;;
  ensure (bool_decide (part_guid partition = esp_guid)) "unexpected ESP GUID" ;;
  ensure (first_lba partition =? ESP_FIRST_LBA) "unexpected ESP first LBA" ;;
  ensure (last_lba partition =? ESP_LAST_LBA) "unexpected ESP last LBA".

(** The volume part: mount it and check its identity. *)
Definition mount_esp (partition_bytes : list Z) : exec ImageError V :=
  validate_raw_fat32_layout partition_bytes ;;
  ensure (bool_decide (get_range partition_bytes FAT32_VOLUME_LABEL_OFFSET (FAT32_VOLUME_LABEL_OFFSET + 11)
                       = Some FAT_VOLUME_LABEL)) "unexpected raw FAT volume label" ;;
  filesystem ← context (fat_mount crates get_current_date get_current_date_time partition_bytes)
    "ESP is not a valid FAT filesystem";
  ensure (bool_decide (fat_type crates filesystem = Fat32)) "ESP is not FAT32" ;;
  ensure (fat_volume_id crates filesystem =? FAT_VOLUME_ID) "unexpected FAT volume ID" ;;
  ensure (same (fat_volume_label_as_bytes crates filesystem) FAT_VOLUME_LABEL_VISIBLE)
    "unexpected FAT volume label" ;;
  Ok filesystem.

(** The directory tree: every directory has exactly its expected entries. *)
Definition validate_tree (v : V) : exec ImageError unit :=
  let root := root_dir crates v in
  validate_directory v root [("EFI"%string, true); ("POLYTOPE"%string, true)] ;;
  efi ← context (open_dir crates v root (ascii_bytes "EFI")) "required ESP directory EFI is missing";
  validate_directory v efi [("BOOT"%string, true)] ;;
  boot ← context (open_dir crates v efi (ascii_bytes "BOOT"))
    "required ESP directory EFI/BOOT is missing";
  validate_directory v boot [("BOOTX64.EFI"%string, false)] ;;
  polytope ← context (open_dir crates v root (ascii_bytes "POLYTOPE"))
    "required ESP directory POLYTOPE is missing";
  validate_directory v polytope [("KERNEL.ELF"%string, false); ("BOOT.CFG"%string, false)].

Definition scenario_error (e : ScenarioFileError) : ImageError :=
  match e with
  | NotUtf8 => Invalid "scenario file is not valid UTF-8"
  | NotOneLine => Invalid "scenario file must contain exactly one token followed by a newline"
  | UnknownScenario _ => Invalid "unknown boot scenario"
  end.

Definition validate_image_bytes (image : list Z) : exec ImageError ImageManifest :=
  ensure (len image =? DISK_BYTES) "image size differs" ;;
  validate_raw_gpt_layout image ;;
  disk_guid ← parse_uuid DISK_GUID;
  esp_guid ← parse_uuid ESP_GUID;
  validate_gpt image disk_guid esp_guid ;;
  start ← lba_to_offset ESP_FIRST_LBA;
  e ← lba_to_offset (ESP_LAST_LBA + 1);
  partition_bytes ← index_range image start e;
  filesystem ← mount_esp partition_bytes;
  validate_tree filesystem ;;
  let root := root_dir crates filesystem in
  loader ← read_fat_file filesystem root LOADER_IMAGE_PATH MAX_PAYLOAD_BYTES;
  kernel ← read_fat_file filesystem root KERNEL_IMAGE_PATH MAX_ELF_FILE_SIZE;
  scenario_bytes ← read_fat_file filesystem root SCENARIO_IMAGE_PATH MAX_SCENARIO_FILE_BYTES;
  validate_uefi_loader loader ;;
  validate_kernel_elf kernel ;;
  scenario ← map_err scenario_error (parse_scenario scenario_bytes);
  loader_sha256 ← sha256_hex digest loader;
  kernel_sha256 ← sha256_hex digest kernel;
  image_bytes ← context (try_uint 64 (len image)) "image length does not fit u64";
  image_sha256 ← sha256_hex digest image;
  Ok (mkImageManifest 1 image_bytes image_sha256 loader_sha256 kernel_sha256 scenario
        ESP_FIRST_LBA ESP_LAST_LBA (uuid_to_string crates disk_guid) (uuid_to_string crates esp_guid)).

(** ** Building an image *)

Definition ESP_PARTITION (esp_guid : U) : Partition U :=
  mkPartition (partition_types_EFI crates) esp_guid ESP_FIRST_LBA ESP_LAST_LBA 0
    (ascii_bytes "PolytopeOS ESP").

Definition create_gpt_disk : exec ImageError (list Z) :=
  let total_lbas := DISK_BYTES / LOGICAL_BLOCK_BYTES in
  last ← sub_panic total_lbas 1;
  protective_lbas ← context (try_uint 32 last) "disk has too many LBAs";
  cursor ← context (mbr_overwrite_lba0 crates protective_lbas (replicate (Z.to_nat DISK_BYTES) 0))
    "failed to write protective MBR";
  disk_guid ← parse_uuid DISK_GUID;
  esp_guid ← parse_uuid ESP_GUID;
  gpt_disk ← context (gpt_create_from_device crates cursor disk_guid) "failed to initialize GPT";
  gpt_disk ← context (gpt_update_partitions crates {[ 1 := ESP_PARTITION esp_guid ]} gpt_disk)
    "failed to install deterministic GPT partition table";
  context (gpt_write crates gpt_disk) "failed to write GPT headers".

(** [file.write_all(bytes)]: a write that takes nothing is an error. *)
Fixpoint write_all_fat (fuel : nat) (v : V) (file : F) (bytes : list Z) : exec ImageError (F * V) :=
  match bytes, fuel with
  | [], _ => Ok (file, v)
  | _, O => Panic
  | _, S fuel =>
      match file_write crates v file bytes with
      | None => Err (Invalid "failed to write file in ESP")
      | Some (n, (file, v)) =>
          if n =? 0 then Err (Invalid "failed to write file in ESP") else
          rest ← index_range bytes n (len bytes);
          write_all_fat fuel v file rest
      end
  end.

Definition write_fat_file (v : V) (root : D) (path : string) (bytes : list Z) : exec ImageError V :=
  created ← context (create_file crates v root (ascii_bytes path)) "failed to create file in ESP";
  written ← write_all_fat (length bytes) created.2 created.1 bytes;
  context (file_flush crates written.2 written.1) "failed to flush file in ESP".

Definition ESP_FORMAT : FormatVolumeOptions :=
  mkFormatVolumeOptions LOGICAL_BLOCK_BYTES 512 Fat32 2 FAT_VOLUME_ID FAT_VOLUME_LABEL.

(** Returns the disk with the ESP's bytes replaced. *)
Definition format_esp (disk loader kernel scenario : list Z) : exec ImageError (list Z) :=
  start ← lba_to_offset ESP_FIRST_LBA;
  e ← lba_to_offset (ESP_LAST_LBA + 1);
  esp ← context (get_range disk start e) "ESP byte range is outside the raw image";
  esp ← context (fat_format_volume crates ESP_FORMAT esp) "failed to format deterministic FAT32 ESP";
  v ← context (fat_mount crates get_current_date get_current_date_time esp)
    "failed to mount newly formatted ESP";
  let root := root_dir crates v in
  v ← context (create_dir crates v root (ascii_bytes "EFI")) "failed to create EFI";
  v ← context (create_dir crates v root (ascii_bytes "EFI/BOOT")) "failed to create EFI/BOOT";
  v ← context (create_dir crates v root (ascii_bytes "POLYTOPE")) "failed to create POLYTOPE";
  v ← write_fat_file v root LOADER_IMAGE_PATH loader;
  v ← write_fat_file v root KERNEL_IMAGE_PATH kernel;
  v ← write_fat_file v root SCENARIO_IMAGE_PATH scenario;
  esp ← context (unmount crates v) "failed to flush ESP";
  Ok (sub_list disk 0 start ++ esp ++ sub_list disk e (len disk - e)).

Definition build_image_bytes (loader kernel : list Z) (scenario : BootScenario)
    : exec ImageError (list Z * ImageManifest) :=
  validate_uefi_loader loader ;;
  validate_kernel_elf kernel ;;
  ensure (len loader <=? MAX_PAYLOAD_BYTES) "UEFI loader is too large" ;;
  ensure (len kernel <=? MAX_PAYLOAD_BYTES) "kernel is too large" ;;
  loader_sha256 ← sha256_hex digest loader;
  kernel_sha256 ← sha256_hex digest kernel;
  let scenario_bytes := as_str scenario ++ [10] in
  disk ← create_gpt_disk;
  disk ← format_esp disk loader kernel scenario_bytes;
  validated ← validate_image_bytes disk;
  ensure (same (im_loader_sha256 validated) loader_sha256)
    "read-back loader digest differs from input" ;;
  ensure (same (im_kernel_sha256 validated) kernel_sha256)
    "read-back kernel digest differs from input" ;;
  ensure (bool_decide (im_scenario validated = scenario))
    "read-back scenario differs from requested scenario" ;;
  Ok (disk, validated).

(** ** On the host's file system *)

(** What [fs::metadata] and [fs::read] answer for a path. *)
Record HostArtifact := mkHostArtifact {
  ha_metadata : option (bool * Z);
  ha_read : option (list Z)
}.

Definition read_host_artifact (a : HostArtifact) : exec ImageError (list Z) :=
  metadata ← context (ha_metadata a) "failed to inspect artifact";
  ensure metadata.1 "artifact is not a regular file" ;;
  ensure (metadata.2 <=? MAX_PAYLOAD_BYTES) "artifact is too large" ;;
  context (ha_read a) "failed to read artifact".

Inductive BuildError := BuildInvalid (e : ImageError) | BuildIo (e : FsError).

Definition build_image (os : Os) (pid : list Z) (loader kernel : HostArtifact) (output : OutputPath)
    (scenario : BootScenario) : io FsState BuildError ImageManifest := fun s =>
  match (loader ← read_host_artifact loader;
         kernel ← read_host_artifact kernel;
         build_image_bytes loader kernel scenario) with
  | Err e => (Err (BuildInvalid e), s)
  | Panic => (Panic, s)
  | Ok (image, manifest) =>
      match write_atomic os pid output image s with
      | (Ok _, s) => (Ok manifest, s)
      | (Err e, s) => (Err (BuildIo e), s)
      | (Panic, s) => (Panic, s)
      end
  end.
End Image.
