(* ===== verification/DiskImageProps.v ===== *)
(** Image validation and construction: what an accepted image holds, and that
    validation ends whatever the volume does. *)

From stdpp Require Import gmap.
From S2P Require Import Prelude Bytes BootElf ElfSpec ElfProps Console Scenario.
From S2P Require Import HostScenario Artifact RawImage RawImageProps FatProps HostFs HostFsProps DiskImage.
Import Image.

(** ** What the crates promise

    [Read::read] returns at most as much as the buffer holds and leaves a buffer
    of the same size; a written disk and an unmounted volume are bytes. *)
Class FatLaws {U G V D F : Type} (crates : DiskCrates U G V D F) : Prop := {
  file_read_bounded : forall v f chunk n chunk' f',
    is_bytes chunk -> file_read crates v f chunk = Some (n, chunk', f') ->
    0 <= n <= len chunk /\ length chunk' = length chunk /\ is_bytes chunk';
  gpt_write_bytes : forall g disk, gpt_write crates g = Some disk -> is_bytes disk;
  file_write_bounded : forall v f bytes n f' v',
    file_write crates v f bytes = Some (n, (f', v')) -> 0 <= n <= len bytes;
  unmount_bytes : forall v esp, unmount crates v = Some esp -> is_bytes esp
}.

(** An open file of volume [v] that serves the bytes of a file in pieces of any
    size: each read returns a nonempty prefix of what is left, or nothing at the
    end. *)
Class ServesFat {U G V D F : Type} (crates : DiskCrates U G V D F) (v : V)
    (file_at : F -> list Z -> Prop) : Prop := {
  fat_read_serves : forall f rest chunk, file_at f rest -> 0 < len chunk ->
    exists n chunk' f', file_read crates v f chunk = Some (n, chunk', f') /\
      file_at f' (drop (Z.to_nat n) rest) /\ 0 <= n <= len rest /\ n <= len chunk /\
      length chunk' = length chunk /\
      take (Z.to_nat n) chunk' = take (Z.to_nat n) rest /\ (n = 0 -> rest = [])
}.

Section Reading.
Context {U G V D F : Type} (crates : DiskCrates U G V D F).
Variables (reserves : Z -> bool) (v : V) (maximum : Z).
Hypothesis Hmax : 0 <= maximum <= MAX_PAYLOAD_BYTES.

Definition reading (s : F * (list Z * list Z)) : Prop :=
  let '(_, (chunk, bytes)) := s in is_bytes chunk /\ is_bytes bytes /\ len bytes <= maximum.

Lemma read_fat_step_inv `{!FatLaws crates} s :
  reading s ->
  match read_fat_step crates reserves v maximum s with
  | Continue s' => reading s' /\ 0 <= maximum - len s'.2.2 < maximum - len s.2.2
  | Break (Ok bytes) => is_bytes bytes /\ len bytes <= maximum
  | Break (Err _) => True
  | Break Panic => False
  end.
Proof.
  destruct s as [f [chunk bytes]]. intros (Hc & Hb & Hl). unfold read_fat_step.
  destruct (file_read crates v f chunk) as [[[n chunk'] f']|] eqn:Er; [|done].
  destruct (file_read_bounded v f chunk n chunk' f' Hc Er) as (Hn & Hlen & Hc').
  destruct (Z.eqb_spec n 0); [done|].
  destruct (checked_add 64 (len bytes) n) as [k|] eqn:Ea; [|done].
  apply checked_add_Some in Ea as [-> _]. cbn [context ok_or mbind exec_bind].
  unfold ensure. destruct (Z.leb_spec (len bytes + n) maximum); cbn [negb fail_if]; [|done].
  destruct (reserves n); cbn [negb fail_if]; [|done].
  rewrite index_range_prefix by lia. cbn [mbind exec_bind snd].
  assert (length (take (Z.to_nat n) chunk') = Z.to_nat n) as Ht by (rewrite length_take; lia).
  unfold reading. rewrite length_app, Ht. split; [split_and!|]; try lia; [done|].
  apply is_bytes_app; [done|by apply Forall_take].
Qed.

(** A read loop over any volume ends within its bound. *)
Lemma read_fat_file_safe `{!FatLaws crates} root path :
  match read_fat_file crates reserves v root path maximum with
  | Ok bytes => is_bytes bytes /\ len bytes <= maximum
  | Err _ => True
  | Panic => False
  end.
Proof.
  unfold read_fat_file. destruct (open_file crates v root (ascii_bytes path)) as [f|]; [|done].
  cbn [context ok_or mbind exec_bind].
  destruct (loop_pow2_total (read_fat_step crates reserves v maximum) reading
    (fun r => match r with Ok bytes => is_bytes bytes /\ len bytes <= maximum
      | Err _ => True | Panic => False end)
    (fun s => maximum - len s.2.2) READ_FUEL (f, (replicate (Z.to_nat CHUNK_BYTES) 0, [])))
    as (r & -> & Hr).
  - intros s Hs. pose proof (read_fat_step_inv s Hs) as Hx.
    by destruct (read_fat_step crates reserves v maximum s).
  - split_and!; [apply Forall_replicate; by_decide|constructor|simpl; lia].
  - unfold MAX_PAYLOAD_BYTES, READ_FUEL in *. cbn [snd length]. lia.
  - done.
Qed.

Section Content.
Context (file_at : F -> list Z -> Prop) `{!FatLaws crates} `{!ServesFat crates v file_at}.
Variable content : list Z.
Hypotheses (Hcontent : len content < 2 ^ 63) (Hreserves : forall n, reserves n = true).

Definition fat_serving (s : F * (list Z * list Z)) : Prop :=
  let '(f, (chunk, bytes)) := s in
  0 < len chunk /\ exists rest, content = bytes ++ rest /\ file_at f rest.

Lemma read_fat_step_serves s :
  fat_serving s ->
  match read_fat_step crates reserves v maximum s with
  | Continue s' => fat_serving s'
  | Break (Ok bytes) => bytes = content
  | Break (Err e) => e = Invalid "ESP file exceeds its limit" /\ maximum < len content
  | Break Panic => False
  end.
Proof using Hcontent Hreserves ServesFat0.
  destruct s as [f [chunk bytes]]. intros (Hc & rest & -> & Hf). unfold read_fat_step.
  destruct (fat_read_serves f rest chunk Hf Hc)
    as (n & chunk' & f' & -> & Hf' & Hcr & Hcc & Hlen & Ht & Hz).
  rewrite length_app in *.
  destruct (Z.eqb_spec n 0) as [->|Hn0]; [by rewrite Hz, app_nil_r|].
  rewrite (proj2 (checked_add_Some 64 _ _ _)) by (split; [done|lia]).
  cbn [context ok_or mbind exec_bind]. unfold ensure. rewrite Hreserves.
  destruct (Z.leb_spec (len bytes + n) maximum); cbn [negb fail_if mbind exec_bind]; [|split; [done|lia]].
  rewrite index_range_prefix by lia. cbn [mbind exec_bind]. split; [lia|].
  exists (drop (Z.to_nat n) rest). split; [|done]. by rewrite <- app_assoc, Ht, take_drop.
Qed.

Lemma read_fat_file_exact root path f :
  open_file crates v root (ascii_bytes path) = Some f -> file_at f content ->
  read_fat_file crates reserves v root path maximum =
    if len content <=? maximum then Ok content else Err (Invalid "ESP file exceeds its limit").
Proof using All.
  intros Ho Hf. unfold read_fat_file. rewrite Ho. cbn [context ok_or mbind exec_bind].
  destruct (loop_pow2_total (read_fat_step crates reserves v maximum)
    (fun s => reading s /\ fat_serving s)
    (fun r => match r with Ok bytes => bytes = content /\ len content <= maximum
      | Err e => e = Invalid "ESP file exceeds its limit" /\ maximum < len content | Panic => False end)
    (fun s => maximum - len s.2.2) READ_FUEL (f, (replicate (Z.to_nat CHUNK_BYTES) 0, [])))
    as (r & -> & Hr).
  - intros s [Hs1 Hs2]. pose proof (read_fat_step_inv s Hs1) as Hx. apply read_fat_step_serves in Hs2.
    destruct (read_fat_step crates reserves v maximum s) as [|[bytes|e|]]; [tauto| |done..].
    subst bytes. tauto.
  - split; [split_and!; [apply Forall_replicate; by_decide|constructor|simpl; lia]|].
    split; [rewrite length_replicate; unfold CHUNK_BYTES; lia|by exists content].
  - unfold MAX_PAYLOAD_BYTES, READ_FUEL in *. cbn [snd length]. lia.
  - destruct r as [bytes|e|]; [| |done]; destruct (Z.leb_spec (len content) maximum); try lia;
      [by destruct Hr as [-> _]|by destruct Hr as [-> _]].
Qed.
End Content.
End Reading.

(** ** Directories *)

(** The iterator yields exactly the entries [l] from its [n]-th answer on, and
    then ends. *)
Fixpoint listing (next : nat -> option (option DirEntry)) (n : nat) (l : list DirEntry) : Prop :=
  match l with
  | [] => next n = None
  | e :: l => next n = Some (Some e) /\ listing next (S n) l
  end.

Definition is_named (e : DirEntry) : Prop := is_dot_name (de_file_name e) = false.
#[global] Instance is_named_dec e : Decision (is_named e).
Proof. unfold is_named. apply _. Defined.

(** The entry has the expected name and kind and the fixed timestamps. *)
Definition entry_ok (e : DirEntry) (slot : string * bool) : Prop :=
  de_file_name e = ascii_bytes slot.1 /\ de_is_dir e = slot.2 /\
  de_created e = get_current_date_time /\ de_modified e = get_current_date_time /\
  de_accessed e = get_current_date.

(** The directory holds exactly the expected entries, in this order, beside
    at most two of the dot entries. *)
Definition holds_exactly (next : nat -> option (option DirEntry)) (expected : list (string * bool)) : Prop :=
  exists l, listing next 0 l /\ (length l <= length expected + 2)%nat /\
    Forall2 entry_ok (filter is_named l) expected.

Section Directory.
Context {U G V D F : Type} (crates : DiskCrates U G V D F) (v : V) (d : D).
Variable expected : list (string * bool).
Hypothesis Hexp : len expected < 2 ^ 62.

Lemma entry_checks e slot {A} (k : exec ImageError A) a :
  (ensure (bool_decide (de_file_name e = ascii_bytes slot.1) && Bool.eqb (de_is_dir e) slot.2)
     "unexpected ESP directory entry" ;; ensure_fixed_timestamp e ;; k) = Ok a <->
  entry_ok e slot /\ k = Ok a.
Proof.
  unfold ensure_fixed_timestamp, entry_ok.
  rewrite !bind_ensure, !andb_true_iff, !bool_decide_eq_true, Bool.eqb_true_iff. tauto.
Qed.

(** What is still expected of the directory when [o] entries were matched and
    the [n]-th answer is next. *)
Definition rest_ok (n o : nat) (k : Z) : Prop :=
  exists l m, listing (dir_next crates v d) n l /\ (n + length l <= length expected + 2)%nat /\
    k = Z.of_nat (o + m) /\ (o + m <= length expected)%nat /\
    Forall2 entry_ok (filter is_named l) (take m (drop o expected)).

Lemma rest_ok_entry n o k e :
  dir_next crates v d n = Some (Some e) ->
  rest_ok n o k <->
  (n + 1 <= length expected + 2)%nat /\
  (if is_dot_name (de_file_name e) then rest_ok (S n) o k
   else exists slot, expected !! o = Some slot /\ entry_ok e slot /\ rest_ok (S n) (S o) k).
Proof.
  intros Hn. unfold rest_ok. split.
  - intros ([|e' l] & m & Hl & Hb & Hk & Ho & Hf); cbn [listing length] in *; [congruence|].
    destruct Hl as [He Hl]. rewrite Hn in He. injection He as <-. split; [lia|].
    destruct (is_dot_name (de_file_name e)) eqn:Ed.
    + exists l, m. rewrite filter_cons_False in Hf by (unfold is_named; congruence).
      split_and!; [done|lia|done..].
    + rewrite filter_cons_True in Hf by done. inversion Hf as [|? slot ? rest Hok Hrest Heq He2].
      destruct m as [|m]; [done|]. destruct (drop o expected) as [|slot' t] eqn:Edr; [done|].
      cbn [take] in He2. injection He2 as -> ->. exists slot'.
      assert (expected !! o = Some slot') as Hs by (rewrite <- (Nat.add_0_r o), <- lookup_drop; by rewrite Edr).
      split_and!; [done..|]. exists l, m. split_and!; [done|lia|lia|lia|].
      replace (drop (S o) expected) with t; [done|].
      replace (S o) with (o + 1)%nat by lia. rewrite <- drop_drop, Edr. done.
  - intros [Hb H]. destruct (is_dot_name (de_file_name e)) eqn:Ed.
    + destruct H as (l & m & Hl & Hb' & Hk & Ho & Hf). exists (e :: l), m. cbn [listing length].
      rewrite filter_cons_False by (unfold is_named; congruence). split_and!; [done|done|lia|done..].
    + destruct H as (slot & Hs & Hok & l & m & Hl & Hb' & Hk & Ho & Hf).
      exists (e :: l), (S m). cbn [listing length]. rewrite filter_cons_True by done.
      rewrite (drop_S _ _ _ Hs). cbn [take]. split_and!; [done|done|lia|lia|lia|by constructor].
Qed.

Lemma directory_loop_spec fuel : forall n o,
  (fuel + n = length expected + 3)%nat -> (n <= length expected + 2)%nat -> (o <= length expected)%nat ->
  (forall k, directory_loop crates fuel v d expected n (Z.of_nat n) (Z.of_nat o) = Ok k <-> rest_ok n o k) /\
  directory_loop crates fuel v d expected n (Z.of_nat n) (Z.of_nat o) <> Panic.
Proof using Hexp.
  induction fuel as [|fuel IH]; intros n o Hf Hn Ho; [lia|]. cbn [directory_loop].
  destruct (dir_next crates v d n) as [[e|]|] eqn:En.
  - rewrite (proj2 (checked_add_Some 64 (Z.of_nat n) 1 (Z.of_nat (S n)))) by lia.
    rewrite context_value, add_panic_exact, bind_value by lia.
    setoid_rewrite (rest_ok_entry n o _ e En).
    destruct (decide (n + 1 <= length expected + 2)%nat) as [Hb|Hb].
    2: { rewrite (proj2 (Z.leb_gt _ _)) by lia. split; [|done]. intros k. split; [done|lia]. }
    rewrite (proj2 (Z.leb_le _ _)) by lia. change (ensure true _) with (@Ok ImageError unit tt).
    rewrite bind_value.
    destruct (is_dot_name (de_file_name e)).
    { destruct (IH (S n) o) as [IH1 IH2]; [lia..|]. split; [|done]. intros k. rewrite IH1. naive_solver. }
    rewrite Nat2Z.id. destruct (expected !! o) as [slot|] eqn:Es.
    2: { split; [|by destruct (_ <? _)]. intros k. split; [by destruct (_ <? _)|].
         intros (_ & slot & Hs & _). congruence. }
    pose proof (lookup_lt_Some _ _ _ Es). rewrite (proj2 (Z.ltb_lt _ _)), context_value by lia.
    rewrite (proj2 (checked_add_Some 64 (Z.of_nat o) 1 (Z.of_nat (S o)))), context_value by lia.
    destruct (IH (S n) (S o)) as [IH1 IH2]; [lia..|]. split.
    + intros k. rewrite entry_checks, IH1. naive_solver.
    + unfold ensure_fixed_timestamp. apply bind_no_panic; [apply ensure_no_panic|intros _ _].
      apply bind_no_panic; [apply ensure_no_panic|by intros _ _].
  - split; [|done]. intros k. split; [done|].
    intros ([|e l] & m & Hl & _); cbn [listing] in Hl; [congruence|by destruct Hl; congruence].
  - split; [|done]. intros k. unfold rest_ok. split.
    + intros [= <-]. exists [], 0%nat. rewrite (Nat.add_0_r o). split_and!; [done|cbn; lia|done|lia|constructor].
    + intros ([|e l] & m & Hl & _ & -> & Hm & Hfo); cbn [listing] in Hl; [|by destruct Hl; congruence].
      apply Forall2_length in Hfo. rewrite length_take, length_drop in Hfo. cbn in Hfo.
      f_equal. lia.
Qed.

Lemma validate_directory_iff :
  validate_directory crates v d expected = Ok tt <-> holds_exactly (dir_next crates v d) expected.
Proof using Hexp.
  destruct (directory_loop_spec (length expected + 3) 0 0) as [H _]; [lia..|].
  unfold validate_directory, holds_exactly. rewrite bind_Ok. change (Z.of_nat 0) with 0 in H.
  setoid_rewrite ensure_Ok. setoid_rewrite Z.eqb_eq. setoid_rewrite H. unfold rest_ok.
  rewrite drop_0. split.
  - intros (k & (l & m & Hl & Hb & -> & Hm & Hf) & Hk). exists l. split_and!; [done|lia|].
    by rewrite take_ge in Hf by lia.
  - intros (l & Hl & Hb & Hf). exists (len expected). split; [|done].
    exists l, (length expected). rewrite take_ge by lia. split_and!; [done|lia..|done].
Qed.

Lemma validate_directory_no_panic : validate_directory crates v d expected <> Panic.
Proof using Hexp.
  destruct (directory_loop_spec (length expected + 3) 0 0) as [_ H]; [lia..|].
  apply bind_no_panic; [exact H|intros; apply ensure_no_panic].
Qed.
End Directory.

(** ** Whole images *)

#[local] Opaque sub_list zeros Z.to_nat.

(** The volume is the one the builder makes: identity, directory tree and the
    three files, which read back as [loader], [kernel] and the file of scenario
    [s]. *)
Record volume_ok {U G V D F : Type} (crates : DiskCrates U G V D F) (reserves : Z -> bool) (v : V)
    (loader kernel : list Z) (s : BootScenario) : Prop := {
  vo_type : fat_type crates v = Fat32;
  vo_id : fat_volume_id crates v = FAT_VOLUME_ID;
  vo_label : fat_volume_label_as_bytes crates v = FAT_VOLUME_LABEL_VISIBLE;
  vo_root : holds_exactly (dir_next crates v (root_dir crates v))
              [("EFI"%string, true); ("POLYTOPE"%string, true)];
  vo_efi : exists efi boot,
    open_dir crates v (root_dir crates v) (ascii_bytes "EFI") = Some efi /\
    holds_exactly (dir_next crates v efi) [("BOOT"%string, true)] /\
    open_dir crates v efi (ascii_bytes "BOOT") = Some boot /\
    holds_exactly (dir_next crates v boot) [("BOOTX64.EFI"%string, false)];
  vo_polytope : exists polytope,
    open_dir crates v (root_dir crates v) (ascii_bytes "POLYTOPE") = Some polytope /\
    holds_exactly (dir_next crates v polytope) [("KERNEL.ELF"%string, false); ("BOOT.CFG"%string, false)];
  vo_loader : read_fat_file crates reserves v (root_dir crates v) LOADER_IMAGE_PATH MAX_PAYLOAD_BYTES = Ok loader;
  vo_pe : pe_ok loader;
  vo_kernel : read_fat_file crates reserves v (root_dir crates v) KERNEL_IMAGE_PATH MAX_ELF_FILE_SIZE = Ok kernel;
  vo_elf : exists elf, BootElf.parse kernel = Ok elf;
  vo_scenario : read_fat_file crates reserves v (root_dir crates v) SCENARIO_IMAGE_PATH
                  MAX_SCENARIO_FILE_BYTES = Ok (as_str s ++ [LF])
}.

(** The GPT crate finds one partition, the ESP, at its place. *)
Definition gpt_ok {U G V D F : Type} (crates : DiskCrates U G V D F) (image : list Z) (disk_guid esp_guid : U)
    : Prop :=
  exists g p, gpt_open_from_device crates image = Some g /\ gpt_guid crates g = disk_guid /\
    gpt_partitions crates g = {[ 1 := p ]} /\ part_type_guid p = partition_types_EFI crates /\
    part_guid p = esp_guid /\ first_lba p = 2048 /\ last_lba p = 129023.

(** The bytes of the ESP. *)
Definition esp_bytes (image : list Z) : list Z := sub_list image 1048576 65011712.

Lemma len_canonical_disk crc bcrc guid ecrc entry esp :
  disk_parts crc bcrc guid ecrc entry esp ->
  len (canonical_disk crc bcrc guid ecrc entry esp) = DISK_BYTES.
Proof.
  intros [L1 L2 L3 L4 L5 L6 _].
  pose proof (len_gpt_header crc guid ecrc 1 131071 2 L1 L3 L4) as H1.
  pose proof (len_gpt_header bcrc guid ecrc 131071 1 131039 L2 L3 L4) as H2.
  assert (len PROTECTIVE_ENTRY = 16 /\ len BOOT_SIGNATURE = 2) as [H3 H4] by done.
  unfold canonical_disk. cbn [concat].
  rewrite !length_app, !Nat2Z.inj_add, !len_zeros, H1, H2, H3, H4, L5, L6 by lia. done.
Qed.

Lemma canonical_esp image crc bcrc guid ecrc entry esp :
  len image = DISK_BYTES -> disk_parts crc bcrc guid ecrc entry esp ->
  image = canonical_disk crc bcrc guid ecrc entry esp -> esp_bytes image = esp.
Proof. intros Hl Hp Hi. apply (canonical_ranges image Hl) in Hi; [|done]. tauto. Qed.

Lemma esp_range image :
  len image = DISK_BYTES ->
  (start ← lba_to_offset ESP_FIRST_LBA;
   e ← lba_to_offset (ESP_LAST_LBA + 1);
   index_range image start e) = Ok (esp_bytes image) (E:=ImageError).
Proof.
  intros Hl. unfold DISK_BYTES in Hl.
  change (lba_to_offset ESP_FIRST_LBA) with (@Ok ImageError Z 1048576).
  change (lba_to_offset (ESP_LAST_LBA + 1)) with (@Ok ImageError Z 66060288).
  rewrite !bind_value. by rewrite index_range_exact by lia.
Qed.

Lemma esp_slice image :
  slice_ok image -> len image = DISK_BYTES ->
  slice_ok (esp_bytes image) /\ len (esp_bytes image) mod 512 = 0 /\ 4096 <= len (esp_bytes image).
Proof.
  intros Hs Hl. unfold DISK_BYTES, esp_bytes in *. rewrite length_sub_list by lia.
  split; [|done]. apply slice_sub; lia || done.
Qed.

Section Images.
Context {U G V D F : Type} `{EqDecision U} (crates : DiskCrates U G V D F) `{!FatLaws crates}.
Variables (digest : list Z -> list Z) (reserves : Z -> bool).

Lemma context_iff {A B} (o : option A) msg (k : A -> exec ImageError B) b :
  (context o msg ≫= k) = Ok b <-> exists a, o = Some a /\ k a = Ok b.
Proof. rewrite bind_Ok. destruct o; cbn; naive_solver. Qed.

Lemma size_one_at {A : Type} (m : gmap Z A) p : m !! 1 = Some p -> size m = 1%nat <-> m = {[ 1 := p ]}.
Proof.
  intros Hp. split; [|intros ->; apply map_size_singleton].
  intros Hs. rewrite <- (insert_delete_id m 1 p Hp) in Hs |- *.
  rewrite map_size_insert_None in Hs by apply lookup_delete_eq.
  rewrite (map_size_empty_inv (delete 1 m)) by lia. apply insert_empty.
Qed.

Lemma validate_gpt_iff image dg eg :
  validate_gpt crates image dg eg = Ok tt <-> gpt_ok crates image dg eg.
Proof.
  unfold validate_gpt, gpt_ok. rewrite context_iff. setoid_rewrite bind_ensure.
  setoid_rewrite bind_ensure. setoid_rewrite context_iff.
  repeat setoid_rewrite bind_ensure. setoid_rewrite ensure_Ok.
  repeat setoid_rewrite bool_decide_eq_true. setoid_rewrite Z.eqb_eq.
  split.
  - intros (g & Hg & Hid & Hs & p & Hp & H). exists g, p.
    split_and!; try tauto. apply size_one_at; [done|lia].
  - intros (g & p & Hg & Hid & Hm & H). exists g. split_and!; [done..| |].
    + rewrite Hm, map_size_singleton. done.
    + exists p. rewrite Hm, lookup_singleton_eq. tauto.
Qed.

Lemma mount_esp_iff p v :
  mount_esp crates p = Ok v <->
  validate_raw_fat32_layout p = Ok tt /\
  get_range p 71 82 = Some FAT_VOLUME_LABEL /\
  fat_mount crates get_current_date get_current_date_time p = Some v /\
  fat_type crates v = Fat32 /\ fat_volume_id crates v = FAT_VOLUME_ID /\
  fat_volume_label_as_bytes crates v = FAT_VOLUME_LABEL_VISIBLE.
Proof.
  unfold mount_esp. rewrite bind_unit, bind_ensure, bool_decide_eq_true, context_iff.
  repeat setoid_rewrite bind_ensure. setoid_rewrite bool_decide_eq_true.
  setoid_rewrite Z.eqb_eq.
  change (FAT32_VOLUME_LABEL_OFFSET + 11) with 82. change FAT32_VOLUME_LABEL_OFFSET with 71.
  split.
  - intros (H1 & H2 & v' & H3 & H4 & H5 & H6 & [= <-]). done.
  - intros (H1 & H2 & H3 & H4 & H5 & H6). split_and!; [done..|]. by exists v.
Qed.

Definition tree_ok (v : V) : Prop :=
  holds_exactly (dir_next crates v (root_dir crates v)) [("EFI"%string, true); ("POLYTOPE"%string, true)] /\
  (exists efi boot,
    open_dir crates v (root_dir crates v) (ascii_bytes "EFI") = Some efi /\
    holds_exactly (dir_next crates v efi) [("BOOT"%string, true)] /\
    open_dir crates v efi (ascii_bytes "BOOT") = Some boot /\
    holds_exactly (dir_next crates v boot) [("BOOTX64.EFI"%string, false)]) /\
  exists polytope,
    open_dir crates v (root_dir crates v) (ascii_bytes "POLYTOPE") = Some polytope /\
    holds_exactly (dir_next crates v polytope) [("KERNEL.ELF"%string, false); ("BOOT.CFG"%string, false)].

Lemma validate_tree_iff v : validate_tree crates v = Ok tt <-> tree_ok v.
Proof.
  unfold validate_tree, tree_ok. rewrite bind_unit, validate_directory_iff, context_iff by done. split.
  - intros (H1 & efi & H2 & H3). apply bind_unit in H3 as [H3 H4].
    apply context_iff in H4 as (boot & H4 & H5). apply bind_unit in H5 as [H5 H6].
    apply context_iff in H6 as (pol & H6 & H7). apply validate_directory_iff in H3, H5, H7; [|done..].
    split_and!; [done|by exists efi, boot|by exists pol].
  - intros (H1 & (efi & boot & H2 & H3 & H4 & H5) & pol & H6 & H7). split; [done|].
    exists efi. split; [done|]. apply validate_directory_iff in H3, H5, H7; [|done..].
    rewrite H3, bind_value, H4, context_value, H5, bind_value, H6, context_value. done.
Qed.

Lemma validate_tree_no_panic v : validate_tree crates v <> Panic.
Proof.
  unfold validate_tree.
  repeat (apply bind_no_panic; [first [by apply validate_directory_no_panic|apply context_no_panic]|intros ? _]).
  by apply validate_directory_no_panic.
Qed.

(** The rest of [validate_image_bytes], from the mounted volume on. *)
Lemma kernel_elf_iff kernel : validate_kernel_elf kernel = Ok tt <-> exists elf, BootElf.parse kernel = Ok elf.
Proof.
  unfold validate_kernel_elf. destruct (BootElf.parse kernel) as [elf|e|]; cbn; split; try done;
    first [intros _; by exists elf|by intros [? ?]].
Qed.

Lemma read_slice_ok v root path maximum bytes :
  0 <= maximum <= MAX_PAYLOAD_BYTES ->
  read_fat_file crates reserves v root path maximum = Ok bytes -> slice_ok bytes.
Proof using FatLaws0.
  intros Hm Hr. pose proof (read_fat_file_safe crates reserves v maximum Hm root path) as H.
  rewrite Hr in H. destruct H as [Hb Hl]. split; [done|]. unfold MAX_PAYLOAD_BYTES in Hm. lia.
Qed.

(** What [validate_image_bytes] promises of an image and its manifest. *)
Record image_spec (image : list Z) (m : ImageManifest) : Prop := {
  is_raw : exists crc bcrc guid ecrc entry,
    disk_parts crc bcrc guid ecrc entry (esp_bytes image) /\
    image = canonical_disk crc bcrc guid ecrc entry (esp_bytes image);
  is_fat : exists sectors free, fat32_ok (esp_bytes image) sectors free;
  is_label : sub_list (esp_bytes image) 71 11 = FAT_VOLUME_LABEL;
  is_content : exists dg eg v loader kernel h hl hk,
    uuid_parse_str crates (ascii_bytes DISK_GUID) = Some dg /\
    uuid_parse_str crates (ascii_bytes ESP_GUID) = Some eg /\
    gpt_ok crates image dg eg /\
    fat_mount crates get_current_date get_current_date_time (esp_bytes image) = Some v /\
    volume_ok crates reserves v loader kernel (im_scenario m) /\
    hex_encode (E:=ImageError) (digest image) = Ok h /\
    hex_encode (E:=ImageError) (digest loader) = Ok hl /\
    hex_encode (E:=ImageError) (digest kernel) = Ok hk /\
    m = mkImageManifest 1 DISK_BYTES h hl hk (im_scenario m) 2048 129023
          (uuid_to_string crates dg) (uuid_to_string crates eg)
}.

Definition manifest_of (image : list Z) (dg eg : U) (loader kernel : list Z) (s : BootScenario)
    : exec ImageError ImageManifest :=
  loader_sha256 ← sha256_hex digest loader;
  kernel_sha256 ← sha256_hex digest kernel;
  image_bytes ← context (try_uint 64 (len image)) "image length does not fit u64";
  image_sha256 ← sha256_hex digest image;
  Ok (mkImageManifest 1 image_bytes image_sha256 loader_sha256 kernel_sha256 s
        ESP_FIRST_LBA ESP_LAST_LBA (uuid_to_string crates dg) (uuid_to_string crates eg)).

(** The contents of a mounted volume, as the validator reads them. *)
Definition payload_checks (v : V) : exec ImageError (list Z * list Z * BootScenario) :=
  validate_tree crates v ;;
  loader ← read_fat_file crates reserves v (root_dir crates v) LOADER_IMAGE_PATH MAX_PAYLOAD_BYTES;
  kernel ← read_fat_file crates reserves v (root_dir crates v) KERNEL_IMAGE_PATH MAX_ELF_FILE_SIZE;
  scenario_bytes ← read_fat_file crates reserves v (root_dir crates v) SCENARIO_IMAGE_PATH
                     MAX_SCENARIO_FILE_BYTES;
  validate_uefi_loader loader ;;
  validate_kernel_elf kernel ;;
  scenario ← map_err scenario_error (parse_scenario scenario_bytes);
  Ok (loader, kernel, scenario).

Lemma validate_unfold image :
  len image = DISK_BYTES ->
  validate_image_bytes crates digest reserves image =
    (validate_raw_gpt_layout image ;;
     dg ← parse_uuid crates DISK_GUID;
     eg ← parse_uuid crates ESP_GUID;
     validate_gpt crates image dg eg ;;
     v ← mount_esp crates (esp_bytes image);
     p ← payload_checks v;
     manifest_of image dg eg p.1.1 p.1.2 p.2).
Proof.
  intros Hl. unfold validate_image_bytes. rewrite (proj2 (Z.eqb_eq (len image) DISK_BYTES) Hl).
  change (ensure true _) with (@Ok ImageError unit tt). rewrite bind_value.
  destruct (validate_raw_gpt_layout image) as [[]| |]; [|done..]. rewrite ?bind_value.
  destruct (parse_uuid crates DISK_GUID) as [dg| |]; [|done..]. rewrite ?bind_value.
  destruct (parse_uuid crates ESP_GUID) as [eg| |]; [|done..]. rewrite ?bind_value.
  destruct (validate_gpt crates image dg eg) as [[]| |]; [|done..]. rewrite ?bind_value.
  pose proof (esp_range image Hl) as He. apply bind_Ok in He as (st & Hst & He).
  apply bind_Ok in He as (e & Hend & He). rewrite Hst, bind_value, Hend, bind_value, He, bind_value.
  destruct (mount_esp crates (esp_bytes image)) as [v| |]; [|done..]. rewrite ?bind_value.
  unfold payload_checks. destruct (validate_tree crates v) as [[]| |]; [|done..]. rewrite ?bind_value.
  rewrite ?bind_assoc.
  destruct (read_fat_file crates reserves v _ LOADER_IMAGE_PATH _) as [loader| |]; [|done..].
  rewrite ?bind_value, ?bind_assoc.
  destruct (read_fat_file crates reserves v _ KERNEL_IMAGE_PATH _) as [kernel| |]; [|done..].
  rewrite ?bind_value, ?bind_assoc.
  destruct (read_fat_file crates reserves v _ SCENARIO_IMAGE_PATH _) as [cfg| |]; [|done..].
  rewrite ?bind_value, ?bind_assoc.
  destruct (validate_uefi_loader loader) as [[]| |]; [|done..]. rewrite ?bind_value, ?bind_assoc.
  destruct (validate_kernel_elf kernel) as [[]| |]; [|done..]. rewrite ?bind_value, ?bind_assoc.
  by destruct (parse_scenario cfg).
Qed.

Lemma payload_checks_iff v loader kernel s :
  fat_type crates v = Fat32 -> fat_volume_id crates v = FAT_VOLUME_ID ->
  fat_volume_label_as_bytes crates v = FAT_VOLUME_LABEL_VISIBLE ->
  payload_checks v = Ok (loader, kernel, s) <-> volume_ok crates reserves v loader kernel s.
Proof using FatLaws0.
  intros Ht Hi Hl. unfold payload_checks. rewrite bind_unit, validate_tree_iff. split.
  - intros [(H1 & H2 & H3) H]. apply bind_Ok in H as (ld & Hld & H). apply bind_Ok in H as (k & Hk & H).
    apply bind_Ok in H as (cfg & Hcfg & H). apply bind_unit in H as [Hpe H].
    apply bind_unit in H as [Helf H]. apply bind_Ok in H as (s' & Hs%map_err_Ok & H).
    injection H as -> -> ->. apply parse_scenario_iff in Hs as ->.
    split; try done; [|by apply kernel_elf_iff].
    apply uefi_loader_iff; [|done]. by eapply read_slice_ok in Hld.
  - intros [_ _ _ H1 H2 H3 Hld Hpe Hk Helf Hcfg]. split; [done|].
    rewrite Hld, bind_value, Hk, bind_value, Hcfg, bind_value.
    apply uefi_loader_iff in Hpe; [|by eapply read_slice_ok in Hld]. apply kernel_elf_iff in Helf.
    rewrite Hpe, bind_value, Helf, bind_value.
    by rewrite (proj2 (parse_scenario_iff _ s) eq_refl).
Qed.

Lemma manifest_of_iff image dg eg loader kernel s m :
  len image = DISK_BYTES ->
  manifest_of image dg eg loader kernel s = Ok m <->
  exists h hl hk, hex_encode (E:=ImageError) (digest image) = Ok h /\
    hex_encode (E:=ImageError) (digest loader) = Ok hl /\
    hex_encode (E:=ImageError) (digest kernel) = Ok hk /\
    m = mkImageManifest 1 DISK_BYTES h hl hk s 2048 129023
          (uuid_to_string crates dg) (uuid_to_string crates eg).
Proof.
  intros Hl. unfold manifest_of, sha256_hex. rewrite Hl.
  change (try_uint 64 DISK_BYTES) with (Some DISK_BYTES).
  destruct (hex_encode (digest loader)) as [hl| |]; destruct (hex_encode (digest kernel)) as [hk| |];
    destruct (hex_encode (digest image)) as [h| |]; cbn; split; try naive_solver.
Qed.

(** Validation is exact. *)
Lemma validate_image_iff image m :
  slice_ok image ->
  validate_image_bytes crates digest reserves image = Ok m <-> image_spec image m.
Proof using FatLaws0.
  intros Hs. destruct (decide (len image = DISK_BYTES)) as [Hl|Hl].
  - rewrite (validate_unfold image Hl). destruct (esp_slice image Hs Hl) as (Es & Em & Ee).
    rewrite bind_unit, (raw_gpt_iff image Hs Hl). split.
    + intros [(crc & bcrc & guid & ecrc & entry & esp & Hp & Hi) H].
      apply bind_Ok in H as (dg & Hdg & H). apply bind_Ok in H as (eg & Heg & H).
      apply bind_unit in H as [Hg%validate_gpt_iff H]. apply bind_Ok in H as (v & Hv & H).
      apply bind_Ok in H as ([[ld k] s] & Hpl & H). apply mount_esp_iff in Hv as (Hf & Hlab & Hv & Ht & Hid & Hvl).
      apply (payload_checks_iff v ld k s Ht Hid Hvl) in Hpl.
      apply (manifest_of_iff _ _ _ _ _ _ _ Hl) in H as (h & hl & hk & H1 & H2 & H3 & ->).
      pose proof (canonical_esp _ _ _ _ _ _ _ Hl Hp Hi) as He. subst esp. split.
      * exists crc, bcrc, guid, ecrc, entry. split; assumption.
      * by apply (fat32_iff _ Es Em Ee).
      * apply get_range_Some in Hlab as [_ Hlab]; [|lia]. exact (eq_sym Hlab).
      * apply context_Ok in Hdg, Heg. exists dg, eg, v, ld, k, h, hl, hk. split_and!; first [assumption|reflexivity].
    + intros [(crc & bcrc & guid & ecrc & entry & Hp & Hi) Hf Hlab
        (dg & eg & v & ld & k & h & hl & hk & Hdg & Heg & Hg & Hv & Hvo & H1 & H2 & H3 & Hm)].
      split; [exists crc, bcrc, guid, ecrc, entry, (esp_bytes image); split; assumption|].
      unfold parse_uuid. rewrite Hdg, context_value, Heg, context_value.
      rewrite (proj2 (validate_gpt_iff image dg eg) Hg), bind_value.
      pose proof Hvo as [Ht Hid Hvl _ _ _ _ _ _ _ _].
      rewrite (proj2 (mount_esp_iff _ v)), bind_value.
      2: { split_and!; try assumption; [by apply (fat32_iff _ Es Em Ee)|].
           rewrite get_range_exact by lia. by rewrite <- Hlab. }
      rewrite (proj2 (payload_checks_iff v ld k _ Ht Hid Hvl) Hvo), bind_value.
      apply (manifest_of_iff _ _ _ _ _ _ _ Hl). exists h, hl, hk.
      split_and!; assumption.
  - unfold validate_image_bytes. rewrite (proj2 (Z.eqb_neq _ _) Hl). split; [done|].
    intros [(crc & bcrc & guid & ecrc & entry & Hp & Hi) _ _ _]. exfalso. apply Hl.
    rewrite Hi. by apply len_canonical_disk.
Qed.

Section Total.
Hypothesis Hdigest : forall l, is_bytes (digest l).

Lemma sha256_hex_no_panic {E} l : sha256_hex (E:=E) digest l <> Panic.
Proof using Hdigest.
  unfold sha256_hex. destruct (hex_encode_total (E:=E) _ (Hdigest l)) as (e & -> & _). done.
Qed.

Lemma scenario_no_panic cfg : map_err scenario_error (parse_scenario cfg) <> Panic.
Proof.
  apply map_err_no_panic. unfold parse_scenario.
  apply bind_no_panic; [apply ok_or_no_panic|intros text _].
  apply bind_no_panic; [apply fail_if_no_panic|intros _ _].
  unfold from_str. by repeat case_bool_decide.
Qed.

Lemma payload_checks_no_panic v : payload_checks v <> Panic.
Proof using FatLaws0.
  assert (forall path maximum, 0 <= maximum <= MAX_PAYLOAD_BYTES ->
    read_fat_file crates reserves v (root_dir crates v) path maximum <> Panic) as Hread.
  { intros path maximum Hm Hr. pose proof (read_fat_file_safe crates reserves v maximum Hm
      (root_dir crates v) path) as H. by rewrite Hr in H. }
  apply bind_no_panic; [apply validate_tree_no_panic|intros _ _].
  apply bind_no_panic; [by apply Hread|intros ld Hld].
  apply bind_no_panic; [by apply Hread|intros k Hk].
  apply bind_no_panic; [by apply Hread|intros cfg _].
  apply bind_no_panic; [apply uefi_loader_no_panic; by eapply read_slice_ok in Hld|intros _ _].
  apply bind_no_panic.
  { apply bind_no_panic; [|done]. apply map_err_no_panic, elf_parse_no_panic. by eapply read_slice_ok in Hk. }
  intros _ _. apply bind_no_panic; [apply scenario_no_panic|done].
Qed.

Lemma validate_image_no_panic image :
  slice_ok image -> validate_image_bytes crates digest reserves image <> Panic.
Proof using FatLaws0 Hdigest.
  intros Hs. destruct (decide (len image = DISK_BYTES)) as [Hl|Hl].
  2: { unfold validate_image_bytes. by rewrite (proj2 (Z.eqb_neq _ _) Hl). }
  rewrite (validate_unfold image Hl). destruct (esp_slice image Hs Hl) as (Es & Em & Ee).
  apply bind_no_panic; [by apply raw_gpt_no_panic|intros _ _].
  do 2 (apply bind_no_panic; [apply context_no_panic|intros ? _]).
  apply bind_no_panic.
  { unfold validate_gpt. repeat (apply bind_no_panic; [first [apply context_no_panic|apply ensure_no_panic]|intros ? _]).
    apply ensure_no_panic. }
  intros _ _. apply bind_no_panic.
  { unfold mount_esp. apply bind_no_panic; [by apply fat32_no_panic|intros _ _].
    repeat (apply bind_no_panic; [first [apply context_no_panic|apply ensure_no_panic]|intros ? _]). done. }
  intros v _. apply bind_no_panic; [apply payload_checks_no_panic|intros p _]. unfold manifest_of.
  repeat (apply bind_no_panic; [first [apply sha256_hex_no_panic|apply context_no_panic]|intros ? _]). done.
Qed.

Lemma format_esp_bytes disk loader kernel cfg disk' :
  is_bytes disk -> format_esp crates disk loader kernel cfg = Ok disk' -> is_bytes disk'.
Proof using FatLaws0.
  intros Hb H. unfold format_esp in H.
  repeat (apply bind_Ok in H as (? & ? & H)). injection H as <-.
  apply is_bytes_app; [by apply sub_list_Forall|].
  apply is_bytes_app; [|by apply sub_list_Forall].
  match goal with Hu : RawImage.context (unmount _ _) _ = Ok _ |- _ =>
    apply context_Ok in Hu; by eapply unmount_bytes end.
Qed.

Lemma create_gpt_disk_bytes disk : create_gpt_disk crates = Ok disk -> is_bytes disk.
Proof using FatLaws0.
  intros H. unfold create_gpt_disk in H. repeat (apply bind_Ok in H as (? & ? & H)).
  apply context_Ok in H. by eapply gpt_write_bytes.
Qed.

(** Every write takes at least a byte, so the loop ends within its bound. *)
Lemma write_all_fat_no_panic fuel : forall v f bytes,
  (length bytes <= fuel)%nat -> write_all_fat crates fuel v f bytes <> Panic.
Proof using FatLaws0.
  induction fuel as [|fuel IH]; intros v f [|b bytes] Hf; cbn [length] in Hf; [done|lia|done|].
  cbn [write_all_fat]. destruct (file_write crates v f (b :: bytes)) as [[n [f' v']]|] eqn:E; [|done].
  apply file_write_bounded in E as [H1 H2]. destruct (Z.eqb_spec n 0) as [|Hn]; [done|].
  rewrite index_range_drop by done. rewrite bind_value. apply IH. rewrite length_drop. cbn [length]. lia.
Qed.

Lemma write_fat_file_no_panic v root path bytes : write_fat_file crates v root path bytes <> Panic.
Proof using FatLaws0.
  unfold write_fat_file. apply bind_no_panic; [apply context_no_panic|intros [f v'] _].
  apply bind_no_panic; [by apply write_all_fat_no_panic|intros w _]. apply context_no_panic.
Qed.

Lemma format_esp_no_panic disk loader kernel cfg : format_esp crates disk loader kernel cfg <> Panic.
Proof using FatLaws0.
  unfold format_esp.
  do 2 (apply bind_no_panic; [done|intros ? _]).
  repeat (apply bind_no_panic; [first [apply context_no_panic|apply write_fat_file_no_panic]|intros ? _]). done.
Qed.

Lemma create_gpt_disk_no_panic : create_gpt_disk crates <> Panic.
Proof.
  unfold create_gpt_disk, parse_uuid. apply bind_no_panic; [done|intros ? _].
  repeat (apply bind_no_panic; [apply context_no_panic|intros ? _]). apply context_no_panic.
Qed.

Lemma build_image_bytes_no_panic loader kernel s :
  slice_ok loader -> slice_ok kernel -> build_image_bytes crates digest reserves loader kernel s <> Panic.
Proof using FatLaws0 Hdigest.
  intros Hl Hk. unfold build_image_bytes.
  apply bind_no_panic; [by apply uefi_loader_no_panic|intros _ _].
  apply bind_no_panic; [apply bind_no_panic; [by apply map_err_no_panic, elf_parse_no_panic|done]|intros _ _].
  do 2 (apply bind_no_panic; [apply ensure_no_panic|intros _ _]).
  do 2 (apply bind_no_panic; [apply sha256_hex_no_panic|intros ? _]).
  apply bind_no_panic; [apply create_gpt_disk_no_panic|intros disk Hd].
  apply bind_no_panic; [apply format_esp_no_panic|intros disk' Hd'].
  apply bind_no_panic.
  { pose proof (format_esp_bytes _ _ _ _ _ (create_gpt_disk_bytes _ Hd) Hd') as Hb.
    destruct (decide (len disk' = DISK_BYTES)) as [E|E].
    - apply validate_image_no_panic. split; [done|by rewrite E].
    - unfold validate_image_bytes. by rewrite (proj2 (Z.eqb_neq _ _) E). }
  intros m _. do 3 (apply bind_no_panic; [apply ensure_no_panic|intros _ _]). done.
Qed.

Lemma read_host_artifact_no_panic a : read_host_artifact a <> Panic.
Proof.
  unfold read_host_artifact. apply bind_no_panic; [apply context_no_panic|intros md _].
  do 2 (apply bind_no_panic; [apply ensure_no_panic|intros _ _]). apply context_no_panic.
Qed.
Lemma read_host_artifact_Ok a bytes : read_host_artifact a = Ok bytes -> ha_read a = Some bytes.
Proof.
  unfold read_host_artifact. intros H. apply bind_Ok in H as (md & _ & H). rewrite !bind_ensure in H.
  by destruct H as (_ & _ & H%context_Ok).
Qed.

(** The whole command: it ends, and makes or removes no directory. *)
Lemma build_image_total os pid loader kernel output scenario s :
  (forall bytes, ha_read loader = Some bytes -> slice_ok bytes) ->
  (forall bytes, ha_read kernel = Some bytes -> slice_ok bytes) ->
  let '(r, s') := build_image crates digest reserves os pid loader kernel output scenario s in
  r <> Panic /\ fs_directories s' = fs_directories s.
Proof using FatLaws0 Hdigest.
  intros Hl Hk. unfold build_image.
  destruct (_ ≫= _) as [[image m]|e|] eqn:E.
  - destruct (write_atomic_files_only os pid output image s) as [H1 H2].
    by destruct (write_atomic os pid output image s) as [[[]|e|] s1].
  - done.
  - exfalso. revert E. apply bind_no_panic; [apply read_host_artifact_no_panic|].
    intros ld Hld%read_host_artifact_Ok. apply bind_no_panic; [apply read_host_artifact_no_panic|].
    intros k Hk'%read_host_artifact_Ok. apply build_image_bytes_no_panic; auto.
Qed.

Lemma validated_length image m :
  validate_image_bytes crates digest reserves image = Ok m -> len image = DISK_BYTES.
Proof.
  unfold validate_image_bytes. rewrite bind_ensure. by intros [?%Z.eqb_eq _].
Qed.

Lemma built_image loader kernel s disk m :
  build_image_bytes crates digest reserves loader kernel s = Ok (disk, m) ->
  slice_ok disk /\ validate_image_bytes crates digest reserves disk = Ok m /\
  sha256_hex digest loader = Ok (im_loader_sha256 m) (E:=ImageError) /\
  sha256_hex digest kernel = Ok (im_kernel_sha256 m) (E:=ImageError) /\ im_scenario m = s.
Proof using FatLaws0.
  intros H. unfold build_image_bytes in H.
  apply bind_unit in H as [_ H]. apply bind_unit in H as [_ H]. rewrite !bind_ensure in H.
  destruct H as (_ & _ & H). apply bind_Ok in H as (hl & Hl & H). apply bind_Ok in H as (hk & Hk & H).
  apply bind_Ok in H as (d0 & Hd0 & H). apply bind_Ok in H as (d & Hd & H).
  apply bind_Ok in H as (m' & Hm & H).
  rewrite !bind_ensure, bool_decide_eq_true, !same_iff in H. destruct H as (<- & <- & Hs & [= <- <-]).
  split_and!; try done. split; [|by rewrite (validated_length _ _ Hm)].
  by eapply format_esp_bytes, Hd; eapply create_gpt_disk_bytes.
Qed.
End Total.
End Images.

(** ** Properties *)

(** C19. Image validation is exact and total.  For any volume and any directory
    iterator, even one that never ends, the validator returns; it accepts an
    image exactly when both GPT copies, the protective MBR and every gap have
    the canonical bytes, the FAT is allocated from the front with matching
    copies and hint, the tree holds exactly the three files with the fixed
    timestamps, and these are a PE loader, a kernel the boot validator accepts
    and one scenario; the manifest records exactly these. *)
Theorem image_validation_is_exact {U G V D F : Type} `{EqDecision U} (crates : DiskCrates U G V D F)
    (digest : list Z -> list Z) (reserves : Z -> bool) (image : list Z) :
  FatLaws crates -> (forall l, is_bytes (digest l)) -> slice_ok image ->
  validate_image_bytes crates digest reserves image <> Panic /\
  forall m, validate_image_bytes crates digest reserves image = Ok m <->
            image_spec crates digest reserves image m.
Proof.
  intros Hc Hd Hs. split; [by apply validate_image_no_panic|]. intros m. by apply validate_image_iff.
Qed.

(** What the builder returns, boots.  An image that was built holds, on a
    volume that reads back, payloads with the digests of the inputs: a loader of
    the UEFI format, a kernel the loader's validator accepts, and a
    configuration the loader's parser reads as the requested scenario. *)
Theorem built_image_reads_back {U G V D F : Type} `{EqDecision U} (crates : DiskCrates U G V D F)
    (digest : list Z -> list Z) (reserves : Z -> bool) (loader kernel disk : list Z) (s : BootScenario)
    (m : ImageManifest) :
  FatLaws crates -> (forall l, is_bytes (digest l)) ->
  build_image_bytes crates digest reserves loader kernel s = Ok (disk, m) ->
  image_spec crates digest reserves disk m /\
  exists v loader' kernel' elf,
    fat_mount crates get_current_date get_current_date_time (esp_bytes disk) = Some v /\
    volume_ok crates reserves v loader' kernel' s /\
    digest loader' = digest loader /\ digest kernel' = digest kernel /\
    BootElf.parse kernel' = Ok elf /\
    Scenario.parse (as_str s ++ [LF]) = Ok (loader_scenario s).
Proof.
  intros Hc Hd Hb. apply built_image in Hb as (Hs & Hv & Hl & Hk & Hsc); [|done].
  apply validate_image_iff in Hv; [|done..]. split; [done|].
  destruct Hv as [_ _ _ (dg & eg & v & ld & k & h & hl & hk & _ & _ & _ & Hm & Hvo & _ & H2 & H3 & Em)].
  rewrite Hsc in Hvo. destruct (vo_elf _ _ _ _ _ _ Hvo) as [elf Helf].
  exists v, ld, k, elf. rewrite Em in Hl, Hk. cbn [im_loader_sha256 im_kernel_sha256] in Hl, Hk.
  split_and!; try done.
  - by apply (hex_encode_inj (E:=ImageError) _ _ hl).
  - by apply (hex_encode_inj (E:=ImageError) _ _ hk).
  - by destruct s.
Qed.

(** Files are read from the image exactly: whatever piece sizes the volume
    serves a file in, the loop returns its contents when they fit the limit and
    the limit error when they do not, within its iteration bound. *)
Theorem fat_file_read_is_exact {U G V D F : Type} (crates : DiskCrates U G V D F) (reserves : Z -> bool)
    (v : V) (root : D) (path : string) (maximum : Z) (f : F) (file_at : F -> list Z -> Prop)
    (content : list Z) :
  FatLaws crates -> ServesFat crates v file_at -> 0 <= maximum <= MAX_PAYLOAD_BYTES ->
  len content < 2 ^ 63 -> (forall n, reserves n = true) ->
  open_file crates v root (ascii_bytes path) = Some f -> file_at f content ->
  read_fat_file crates reserves v root path maximum =
    if len content <=? maximum then Ok content else Err (Invalid "ESP file exceeds its limit").
Proof. intros Hc Hs Hm Hl Hr Ho Hf. by eapply (read_fat_file_exact crates reserves v maximum Hm file_at). Qed.
