(* ===== verification/DiskDemo.v ===== *)
(** A complete disk image that the validator accepts, built from its parts, and
    a volume that serves its three files: the theorems of [RawImageProps],
    [FatProps] and [DiskImageProps] applied to it. *)

From stdpp Require Import gmap.
From S2P Require Import Prelude Bytes BootElf ElfSpec ElfProps Console Scenario.
From S2P Require Import HostScenario Artifact RawImage RawImageProps FatProps HostFs DiskImage DiskImageProps.
Import Image.

Lemma sub_list_zeros n o k : 0 <= o -> 0 <= k -> o + k <= n -> sub_list (zeros n) o k = zeros k.
Proof.
  intros. apply zeros_iff; [rewrite length_sub_list; [done|lia|lia|rewrite len_zeros; lia]|].
  apply forallb_forall. intros x Hx. apply Z.eqb_eq.
  assert (Forall (fun b => b = 0) (zeros n)) as Hz by (apply Forall_replicate; done).
  apply (sub_list_Forall _ _ o k) in Hz. rewrite Forall_forall in Hz. apply Hz.
  by apply list_elem_of_In.
Qed.

Lemma bytes_zeros n : is_bytes (zeros n).
Proof. apply Forall_replicate. by_decide. Qed.

#[local] Opaque sub_list zeros Z.to_nat.

(** ** A partition: 977 sectors per FAT, one allocated cluster *)
Definition demo_boot : list Z :=
  concat [[0xeb; 0x58; 0x90]; ascii_bytes "MSWIN4.1"; to_le_bytes 2 512; [1]; to_le_bytes 2 8; [2];
          to_le_bytes 2 0; to_le_bytes 2 0; [0xf8]; to_le_bytes 2 0; replicate 8 0;
          to_le_bytes 4 126976; to_le_bytes 4 977; to_le_bytes 2 0; to_le_bytes 2 0; to_le_bytes 4 2;
          to_le_bytes 2 1; to_le_bytes 2 6; replicate 19 0; FAT_VOLUME_LABEL; replicate 428 0;
          BOOT_SIGNATURE].
Definition demo_info : list Z :=
  concat [to_le_bytes 4 0x41615252; replicate 480 0; to_le_bytes 4 0x61417272; to_le_bytes 4 (2 ^ 32 - 1);
          to_le_bytes 4 3; replicate 12 0; [0x00; 0x00; 0x55; 0xaa]].
Definition demo_head : list Z := [0xf8; 0xff; 0xff; 0x0f] ++ SENTINEL ++ SENTINEL.
Definition demo_tail : list Z := concat (replicate 40 SENTINEL).
Definition demo_fat_pieces : list (list Z) := [demo_head; zeros 500052; demo_tail].
Definition demo_fat : list Z := concat demo_fat_pieces.
Definition demo_esp_pieces : list (list Z) :=
  [demo_boot; demo_info; zeros 2048; demo_boot; zeros 512; demo_fat; demo_fat; zeros 64007168].
Definition demo_esp : list Z := concat demo_esp_pieces.

Lemma demo_fat_len : len demo_fat = 500224.
Proof.
  unfold demo_fat, demo_fat_pieces. cbn [concat]. rewrite !length_app, !Nat2Z.inj_add, len_zeros by lia.
  reflexivity.
Qed.

Lemma demo_esp_len : len demo_esp = 65011712.
Proof.
  unfold demo_esp, demo_esp_pieces. cbn [concat].
  rewrite !length_app, !Nat2Z.inj_add, !len_zeros, demo_fat_len by lia. reflexivity.
Qed.

Lemma demo_fat_at : sub_list demo_fat 0 12 = demo_head /\ sub_list demo_fat 12 500052 = zeros 500052 /\
  sub_list demo_fat 500064 160 = demo_tail.
Proof.
  pose proof (proj1 (concat_iff demo_fat demo_fat_pieces eq_refl) eq_refl) as H.
  cbn [demo_fat_pieces at_offset] in H. rewrite len_zeros in H by lia.
  destruct H as (H1 & H2 & H3 & _). split_and!; [exact H1|exact H2|exact H3].
Qed.

Lemma demo_fat_slice : slice_ok demo_fat.
Proof.
  split; [|rewrite demo_fat_len; lia]. unfold demo_fat, demo_fat_pieces. cbn [concat].
  repeat (apply is_bytes_app; [first [apply bytes_zeros|by_decide]|]). constructor.
Qed.

Lemma demo_tail_sentinels k : 0 <= k < 40 -> sub_list demo_tail (k * 4) 4 = SENTINEL.
Proof.
  intros Hk. assert (forallb (fun i => bool_decide (sub_list demo_tail (Z.of_nat i * 4) 4 = SENTINEL))
    (seq 0 40) = true) as H by (vm_compute; reflexivity).
  rewrite forallb_forall in H. specialize (H (Z.to_nat k)).
  rewrite Z2Nat.id in H by lia. apply bool_decide_eq_true in H; [done|]. apply in_seq. lia.
Qed.

Lemma demo_fat_ok : fat_ok demo_fat 125016 3.
Proof.
  destruct demo_fat_at as (H1 & H2 & H3).
  assert (forall c, 0 <= c < 3 -> sub_list demo_fat (c * 4) 4 = sub_list demo_head (c * 4) 4) as Hh.
  { intros c Hc. rewrite <- H1, sub_list_sub_list by lia. done. }
  split.
  - change (sub_list demo_fat 0 4) with (sub_list demo_fat (0 * 4) 4). rewrite (Hh 0) by lia. vm_compute. reflexivity.
  - unfold fat_entry. rewrite (Hh 1) by lia. vm_compute. discriminate.
  - lia.
  - rewrite demo_fat_len. lia.
  - intros c Hc. assert (c = 2) as -> by lia. right. unfold fat_entry. rewrite (Hh 2) by lia.
    vm_compute. discriminate.
  - intros c Hc. unfold fat_entry.
    replace (sub_list demo_fat (c * 4) 4) with (sub_list (sub_list demo_fat 12 500052) (c * 4 - 12) 4)
      by (rewrite sub_list_sub_list by lia; f_equal; lia).
    rewrite H2, sub_list_zeros by lia. reflexivity.
  - intros c Hc Hl. rewrite demo_fat_len in Hl.
    replace (sub_list demo_fat (c * 4) 4) with (sub_list (sub_list demo_fat 500064 160) ((c - 125016) * 4) 4)
      by (rewrite sub_list_sub_list by lia; f_equal; lia).
    rewrite H3. apply demo_tail_sentinels. lia.
Qed.

Lemma demo_esp_at :
  sub_list demo_esp 0 512 = demo_boot /\ sub_list demo_esp 512 512 = demo_info /\
  sub_list demo_esp 1024 2048 = zeros 2048 /\ sub_list demo_esp 3072 512 = demo_boot /\
  sub_list demo_esp 3584 512 = zeros 512 /\ sub_list demo_esp 4096 500224 = demo_fat /\
  sub_list demo_esp 504320 500224 = demo_fat.
Proof.
  pose proof (proj1 (concat_iff demo_esp demo_esp_pieces eq_refl) eq_refl) as H.
  cbn [demo_esp_pieces at_offset] in H. rewrite !len_zeros, !demo_fat_len in H by lia.
  destruct H as (H1 & H2 & H3 & H4 & H5 & H6 & H7 & _).
  split_and!; [exact H1|exact H2|exact H3|exact H4|exact H5|exact H6|exact H7].
Qed.

Lemma demo_esp_slice : slice_ok demo_esp.
Proof.
  split; [|rewrite demo_esp_len; lia]. unfold demo_esp, demo_esp_pieces. cbn [concat].
  repeat (apply is_bytes_app; [first [apply bytes_zeros|apply demo_fat_slice|by_decide]|]). constructor.
Qed.

Lemma demo_esp_ok : fat32_ok demo_esp 977 3.
Proof.
  destruct demo_esp_at as (H1 & H2 & H3 & H4 & H5 & H6 & H7).
  assert (len demo_esp / 512 = 126976) as Hn by (by rewrite demo_esp_len).
  split.
  - rewrite H1, Hn. split.
    + vm_compute. tauto.
    + vm_compute. tauto.
    + reflexivity.
    + by_decide.
    + lia.
  - rewrite H1, H4. reflexivity.
  - split; assumption.
  - rewrite H2. vm_compute. tauto.
  - rewrite Hn. lia.
  - change (4096 + 977 * 512) with 504320. change (977 * 512) with 500224. rewrite H6, H7. reflexivity.
  - rewrite Hn. change (977 * 512) with 500224. rewrite H6. apply demo_fat_ok.
Qed.

(** ** The disk *)
Definition demo_entry : list Z := replicate 128 1.
Definition demo_disk : list Z :=
  canonical_disk (replicate 4 1) (replicate 4 2) (replicate 16 3) (replicate 4 4) demo_entry demo_esp.

Lemma demo_parts :
  disk_parts (replicate 4 1) (replicate 4 2) (replicate 16 3) (replicate 4 4) demo_entry demo_esp.
Proof.
  split; [reflexivity|reflexivity|reflexivity|reflexivity|reflexivity|exact demo_esp_len|reflexivity].
Qed.

Lemma demo_disk_len : len demo_disk = DISK_BYTES.
Proof. apply len_canonical_disk, demo_parts. Qed.

Lemma demo_disk_slice : slice_ok demo_disk.
Proof.
  split; [|rewrite demo_disk_len; unfold DISK_BYTES; lia]. unfold demo_disk, canonical_disk. cbn [concat].
  assert (forall a b c d e f, is_bytes a -> is_bytes b -> is_bytes c ->
    is_bytes (gpt_header a b c d e f)) as Hh.
  { intros. unfold gpt_header. cbn [concat].
    repeat (apply is_bytes_app; [first [assumption|apply bytes_zeros|apply to_le_bytes_is_bytes|by_decide]|]).
    constructor. }
  repeat (apply is_bytes_app; [first [apply bytes_zeros|apply demo_esp_slice|apply Hh; by_decide|by_decide]|]).
  constructor.
Qed.

Lemma demo_disk_esp : esp_bytes demo_disk = demo_esp.
Proof. eapply canonical_esp; [exact demo_disk_len|exact demo_parts|reflexivity]. Qed.

(** ** A volume with three files *)
Definition demo_loader : list Z :=
  concat [MZ; replicate 58 0; to_le_bytes 4 64; PE_SIGNATURE; to_le_bytes 2 0x8664; replicate 18 0;
          to_le_bytes 2 0x20b; replicate 66 0; to_le_bytes 2 10].

Definition demo_dir_entry (name : string) (is_dir : bool) : DirEntry :=
  mkDirEntry (ascii_bytes name) is_dir get_current_date_time get_current_date_time get_current_date.

(** Directories: the root, EFI, EFI/BOOT and POLYTOPE. *)
Inductive demo_dir := DRoot | DEfi | DBoot | DPolytope.
Definition demo_entries (d : demo_dir) : list DirEntry :=
  match d with
  | DRoot => [demo_dir_entry "EFI" true; demo_dir_entry "POLYTOPE" true]
  | DEfi => [demo_dir_entry "." true; demo_dir_entry ".." true; demo_dir_entry "BOOT" true]
  | DBoot => [demo_dir_entry "." true; demo_dir_entry ".." true; demo_dir_entry "BOOTX64.EFI" false]
  | DPolytope => [demo_dir_entry "." true; demo_dir_entry ".." true; demo_dir_entry "KERNEL.ELF" false;
                  demo_dir_entry "BOOT.CFG" false]
  end.
Definition demo_open_dir (d : demo_dir) (name : list Z) : option demo_dir :=
  match d with
  | DRoot => if bool_decide (name = ascii_bytes "EFI") then Some DEfi
             else if bool_decide (name = ascii_bytes "POLYTOPE") then Some DPolytope else None
  | DEfi => if bool_decide (name = ascii_bytes "BOOT") then Some DBoot else None
  | _ => None
  end.
Definition demo_open_file (path : list Z) : option (list Z) :=
  if bool_decide (path = ascii_bytes LOADER_IMAGE_PATH) then Some demo_loader
  else if bool_decide (path = ascii_bytes KERNEL_IMAGE_PATH) then Some sample_elf
  else if bool_decide (path = ascii_bytes SCENARIO_IMAGE_PATH) then Some (as_str Normal ++ [LF])
  else None.

(** Reads fill the buffer; the volume stands for the one on [demo_esp]. *)
Definition demo_file_read (rest chunk : list Z) : Z * list Z * list Z :=
  let n := Nat.min (length chunk) (length rest) in
  (Z.of_nat n, ((fun b => b mod 256) <$> take n rest) ++ drop n chunk, drop n rest).

Definition demo_crates : DiskCrates (list Z) unit unit demo_dir (list Z) := {|
  uuid_parse_str l := Some l;
  uuid_to_string l := l;
  partition_types_EFI := [];
  mbr_overwrite_lba0 _ disk := Some disk;
  gpt_create_from_device _ _ := Some tt;
  gpt_open_from_device _ := Some tt;
  gpt_guid _ := ascii_bytes DISK_GUID;
  gpt_partitions _ := {[ 1 := mkPartition [] (ascii_bytes ESP_GUID) 2048 129023 0 [] ]};
  gpt_update_partitions _ g := Some g;
  gpt_write _ := Some demo_disk;
  fat_format_volume _ esp := Some esp;
  fat_mount _ _ _ := Some tt;
  fat_type _ := Fat32;
  fat_volume_id _ := FAT_VOLUME_ID;
  fat_volume_label_as_bytes _ := FAT_VOLUME_LABEL_VISIBLE;
  root_dir _ := DRoot;
  dir_next _ d n := Some <$> demo_entries d !! n;
  open_dir _ := demo_open_dir;
  open_file _ _ := demo_open_file;
  file_read _ f chunk := Some (demo_file_read f chunk);
  create_dir v _ _ := Some v;
  create_file v _ _ := Some ([], v);
  file_write v f bytes := Some (len bytes, (f ++ bytes, v));
  file_flush v _ := Some v;
  unmount _ := Some demo_esp
|}.

#[global] Instance demo_fat_laws : FatLaws demo_crates.
Proof.
  split.
  - intros v f chunk n chunk' f' Hc [= <- <- <-].
    rewrite length_app, length_fmap, length_take, length_drop. split; [lia|]. split; [lia|].
    apply is_bytes_app; [|by apply Forall_drop].
    apply Forall_fmap, Forall_true. intros b. unfold compose, uint. apply Z.mod_pos_bound. lia.
  - intros g disk [= <-]. apply demo_disk_slice.
  - intros v f bytes n f' v' [= <- _]. lia.
  - intros v esp [= <-]. apply demo_esp_slice.
Qed.

Definition demo_digest (l : list Z) : list Z := replicate 32 0xab.
Definition demo_reserves (n : Z) : bool := true.
Definition demo_manifest : ImageManifest :=
  let h := mjoin (replicate 32 (ascii_bytes "ab")) in
  mkImageManifest 1 DISK_BYTES h h h Normal 2048 129023 (ascii_bytes DISK_GUID) (ascii_bytes ESP_GUID).

Lemma demo_holds_exactly d expected :
  bool_decide (length (demo_entries d) <= length expected + 2)%nat = true ->
  Forall2 entry_ok (filter is_named (demo_entries d)) expected ->
  holds_exactly (dir_next demo_crates tt d) expected.
Proof.
  intros Hl%bool_decide_eq_true Hf. exists (demo_entries d). split; [|done].
  by destruct d; repeat split.
Qed.

#[global] Instance demo_serves_fat : ServesFat demo_crates tt (fun f rest => f = rest /\ is_bytes rest).
Proof.
  split. intros f rest chunk [-> Hr] Hc. eexists _, _, _. split; [reflexivity|].
  set (n := Nat.min _ _). rewrite Nat2Z.id.
  assert (n <= length rest /\ n <= length chunk /\ (n = 0 -> length rest = 0))%nat as Hn by lia.
  clearbody n.
  assert ((fun b => b mod 256) <$> take n rest = take n rest) as Hmod.
  { rewrite <- list_fmap_id. apply list_fmap_ext. intros i b Hb. apply Z.mod_small.
    apply (Forall_lookup_1 (fun b => uint 8 b) (take n rest) i b); [by apply Forall_take|done]. }
  rewrite Hmod, length_app, length_take, length_drop. split_and!; [done|by apply Forall_drop|lia..| |].
  - rewrite take_app_le by (rewrite length_take; lia). by rewrite take_take, Nat.min_id.
  - intros Hz. apply nil_length_inv. lia.
Qed.

Lemma demo_read_file path maximum content :
  demo_open_file (ascii_bytes path) = Some content -> is_bytes content ->
  0 <= maximum <= MAX_PAYLOAD_BYTES -> len content <= maximum ->
  read_fat_file demo_crates demo_reserves tt DRoot path maximum = Ok content.
Proof.
  intros Ho Hb Hm Hl. rewrite (read_fat_file_exact demo_crates demo_reserves tt maximum Hm
    (fun f rest => f = rest /\ is_bytes rest) content) with (f := content); try done.
  - by rewrite (proj2 (Z.leb_le _ _) Hl).
  - unfold MAX_PAYLOAD_BYTES in Hm. lia.
Qed.

Lemma demo_volume_ok : volume_ok demo_crates demo_reserves tt demo_loader sample_elf Normal.
Proof.
  assert (forall name b, entry_ok (demo_dir_entry name b) (name, b)) as He by done.
  split; [reflexivity|reflexivity|reflexivity|..].
  - apply demo_holds_exactly; [reflexivity|]. repeat constructor.
  - exists DEfi, DBoot. split_and!; [reflexivity| |reflexivity|];
      (apply demo_holds_exactly; [reflexivity|]; repeat constructor).
  - exists DPolytope. split; [reflexivity|]. apply demo_holds_exactly; [reflexivity|]. repeat constructor.
  - apply demo_read_file; by_decide.
  - apply uefi_loader_iff; [split; by_decide|]. vm_compute. reflexivity.
  - apply demo_read_file; by_decide.
  - exists (validated sample_elf). apply sample_elf_parses.
  - apply demo_read_file; by_decide.
Qed.

Lemma demo_digest_bytes l : is_bytes (demo_digest l).
Proof. by_decide. Qed.

Lemma demo_spec : image_spec demo_crates demo_digest demo_reserves demo_disk demo_manifest.
Proof.
  split; rewrite demo_disk_esp.
  - exists (replicate 4 1), (replicate 4 2), (replicate 16 3), (replicate 4 4), demo_entry.
    split; [exact demo_parts|reflexivity].
  - exists 977, 3. exact demo_esp_ok.
  - destruct demo_esp_at as [H _].
    replace (sub_list demo_esp 71 11) with (sub_list (sub_list demo_esp 0 512) 71 11)
      by (rewrite sub_list_sub_list by lia; reflexivity).
    rewrite H. vm_compute. reflexivity.
  - exists (ascii_bytes DISK_GUID), (ascii_bytes ESP_GUID), tt, demo_loader, sample_elf.
    do 3 exists (mjoin (replicate 32 (ascii_bytes "ab"))).
    split; [reflexivity|]. split; [reflexivity|]. split.
    { exists tt. eexists. split; [reflexivity|]. split; [reflexivity|]. split; [reflexivity|].
      repeat split. }
    split; [reflexivity|]. split; [exact demo_volume_ok|].
    split; [reflexivity|]. split; [reflexivity|]. split; reflexivity.
Qed.

(** The demo image is accepted. *)
Lemma image_validation_is_exact_witness :
  validate_image_bytes demo_crates demo_digest demo_reserves demo_disk = Ok demo_manifest.
Proof.
  refine (proj2 (proj2 (image_validation_is_exact demo_crates demo_digest demo_reserves demo_disk
    demo_fat_laws demo_digest_bytes demo_disk_slice) demo_manifest) demo_spec).
Defined.

(** A file of twelve bytes, read through the volume. *)
Lemma fat_file_read_is_exact_witness :
  read_fat_file demo_crates demo_reserves tt DRoot SCENARIO_IMAGE_PATH MAX_SCENARIO_FILE_BYTES =
    Ok (as_str Normal ++ [LF]).
Proof.
  rewrite (fat_file_read_is_exact demo_crates demo_reserves tt DRoot SCENARIO_IMAGE_PATH
    MAX_SCENARIO_FILE_BYTES (as_str Normal ++ [LF]) (fun f rest => f = rest /\ is_bytes rest)
    (as_str Normal ++ [LF]) demo_fat_laws demo_serves_fat).
  - reflexivity.
  - by_decide.
  - by_decide.
  - reflexivity.
  - reflexivity.
  - split; [reflexivity|by_decide].
Defined.

Lemma demo_write_fat_file path bytes :
  bytes <> [] -> write_fat_file demo_crates tt DRoot path bytes = Ok tt.
Proof.
  intros Hne. destruct bytes as [|b bytes]; [done|]. unfold write_fat_file.
  change (create_file demo_crates tt DRoot (ascii_bytes path)) with (Some (@nil Z, tt)).
  rewrite context_value. cbn [fst snd length write_all_fat].
  change (file_write demo_crates tt [] (b :: bytes)) with (Some (len (b :: bytes), (b :: bytes, tt))).
  cbv iota beta. rewrite (proj2 (Z.eqb_neq _ _)) by (cbn [length]; lia).
  rewrite index_range_exact, bind_value by (cbn [length]; lia). rewrite Z.sub_diag.
  pose proof (length_sub_list (b :: bytes) (len (b :: bytes)) 0) as Hz.
  rewrite (nil_length_inv (sub_list (b :: bytes) (len (b :: bytes)) 0)) by lia.
  by destruct (length bytes).
Qed.

Lemma demo_format : format_esp demo_crates demo_disk demo_loader sample_elf (as_str Normal ++ [10]) = Ok demo_disk.
Proof.
  unfold format_esp. change (lba_to_offset ESP_FIRST_LBA) with (@Ok ImageError Z 1048576).
  change (lba_to_offset (ESP_LAST_LBA + 1)) with (@Ok ImageError Z 66060288).
  pose proof demo_disk_len as Hl. unfold DISK_BYTES in Hl.
  rewrite !bind_value, get_range_exact, context_value by lia.
  set (esp := sub_list demo_disk 1048576 (66060288 - 1048576)).
  change (fat_format_volume demo_crates ESP_FORMAT esp) with (Some esp). rewrite context_value.
  change (fat_mount demo_crates get_current_date get_current_date_time esp) with (Some tt).
  rewrite context_value. clear esp.
  change (root_dir demo_crates tt) with DRoot.
  do 3 (match goal with |- context [create_dir demo_crates tt DRoot ?n] =>
    change (create_dir demo_crates tt DRoot n) with (Some tt) end; rewrite context_value).
  rewrite !demo_write_fat_file, !bind_value by done.
  rewrite !demo_write_fat_file, !bind_value by done.
  rewrite !demo_write_fat_file, !bind_value by done.
  change (unmount demo_crates tt) with (Some demo_esp). rewrite context_value.
  apply (f_equal (@Ok ImageError (list Z))). rewrite <- demo_disk_esp, Hl. unfold esp_bytes.
  change (64 * 1024 * 1024 - 66060288) with 1048576.
  pose proof (sub_list_split demo_disk 1048576 65011712 1048576 ltac:(lia) ltac:(lia) ltac:(lia)) as H1.
  pose proof (sub_list_split demo_disk 0 1048576 66060288 ltac:(lia) ltac:(lia) ltac:(lia)) as H2.
  pose proof (sub_list_all demo_disk) as H3. rewrite Hl in H3.
  change (1048576 + 65011712) with 66060288 in H1. change (65011712 + 1048576) with 66060288 in H1.
  change (0 + 1048576) with 1048576 in H2. change (1048576 + 66060288) with (64 * 1024 * 1024) in H2.
  rewrite <- H1, <- H2. exact H3.
Qed.

Lemma demo_validates :
  validate_image_bytes demo_crates demo_digest demo_reserves demo_disk = Ok demo_manifest.
Proof. apply validate_image_iff; [exact demo_fat_laws|exact demo_disk_slice|exact demo_spec]. Qed.

Lemma demo_build :
  build_image_bytes demo_crates demo_digest demo_reserves demo_loader sample_elf Normal
  = Ok (demo_disk, demo_manifest).
Proof.
  unfold build_image_bytes.
  rewrite (proj2 (uefi_loader_iff demo_loader ltac:(split; by_decide))), bind_value
    by apply (vo_pe _ _ _ _ _ _ demo_volume_ok).
  rewrite (proj2 (kernel_elf_iff sample_elf)), bind_value by apply (vo_elf _ _ _ _ _ _ demo_volume_ok).
  change (len demo_loader <=? MAX_PAYLOAD_BYTES) with true.
  change (len sample_elf <=? MAX_PAYLOAD_BYTES) with true.
  change (ensure true _) with (@Ok ImageError unit tt). rewrite !bind_value.
  change (sha256_hex demo_digest demo_loader)
    with (@Ok ImageError (list Z) (mjoin (replicate 32 (ascii_bytes "ab")))).
  change (sha256_hex demo_digest sample_elf)
    with (@Ok ImageError (list Z) (mjoin (replicate 32 (ascii_bytes "ab")))).
  rewrite !bind_value.
  assert (create_gpt_disk demo_crates = Ok demo_disk) as -> by reflexivity.
  rewrite bind_value, demo_format, bind_value.
  rewrite demo_validates, bind_value. reflexivity.
Qed.

(** The demo inputs build the demo image. *)
Lemma built_image_reads_back_witness :
  exists v loader' kernel' elf,
    fat_mount demo_crates get_current_date get_current_date_time (esp_bytes demo_disk) = Some v /\
    volume_ok demo_crates demo_reserves v loader' kernel' Normal /\
    demo_digest loader' = demo_digest demo_loader /\ demo_digest kernel' = demo_digest sample_elf /\
    BootElf.parse kernel' = Ok elf /\
    Scenario.parse (as_str Normal ++ [LF]) = Ok (loader_scenario Normal).
Proof.
  exact (proj2 (built_image_reads_back demo_crates demo_digest demo_reserves demo_loader sample_elf
    demo_disk Normal demo_manifest demo_fat_laws demo_digest_bytes demo_build)).
Defined.

