(* ===== verification/Repro.v ===== *)
(** Clean-room reproducibility: crates/xtask/src/repro.rs.

    Two builds in separate target directories, byte comparison, and the scan of
    every artifact for host paths.  [String]s are lists of Unicode scalar values,
    paths and program arguments byte strings.  The environment, the programs that are run
    (cargo, rustc, git) and the files they leave are the record [Host]; the
    files this code writes itself are the [FsState] of [HostFs].  The paths that are compared are canonical, so that path equality is
    equality of their bytes. *)

From stdpp Require Import gmap pretty.
From S2P Require Import Prelude Bytes Console Text Artifact HostScenario RawImage HostFs DiskImage.
Import Image.

Definition SOURCE_DATE_EPOCH : Z := 946684800.
Definition WORKSPACE_REMAP_DESTINATION : list Z := ascii_bytes "/workspace/polytope-os".
Definition CARGO_HOME_REMAP_DESTINATION : list Z := ascii_bytes "/build/cargo-home".
Definition USER_HOME_REMAP_DESTINATION : list Z := ascii_bytes "/build/user-home".
Definition TARGET_REMAP_DESTINATION : list Z := ascii_bytes "/build/target".
Definition RUSTFLAG_SEPARATOR : Z := 0x1f.
Definition MAX_ARTIFACT_BYTES : Z := 64 * 1024 * 1024.

Inductive ReproError :=
| Failure (message : string)
| FileSystem (e : FsError)
| ImageFailure (e : ImageError)
| Differs (stage : string) (difference : ByteDifference) (left_len right_len : Z).

Definition bail_if (c : bool) (message : string) : exec ReproError unit := fail_if c (Failure message).
Definition require {A} (o : option A) (message : string) : exec ReproError A := ok_or o (Failure message).

(** ** Artifacts and their flags *)
Inductive ArtifactRustcFlag := StaticRelocationModel | LinkArgument (argument : list Z).
#[global] Instance ArtifactRustcFlag_eq_dec : EqDecision ArtifactRustcFlag.
Proof. solve_decision. Defined.

Record ArtifactSpec := mkArtifactSpec {
  as_package : list Z;
  as_binary : list Z;
  as_target : list Z;
  as_relative_path : list Z;
  as_features : list (list Z);
  as_rustc_flags : list ArtifactRustcFlag
}.

Record ReproRequest := mkReproRequest {
  rr_workspace : list Z;
  rr_cargo : option (list Z);
  rr_loader : ArtifactSpec;
  rr_kernel : ArtifactSpec;
  rr_output : OutputPath;
  rr_verified_loader_output : option OutputPath;
  rr_verified_kernel_output : option OutputPath;
  rr_verified_kernel_map_output : option OutputPath;
  rr_kernel_map_relative_path : option (list Z);
  rr_scenario : BootScenario
}.

Definition default_loader : ArtifactSpec :=
  mkArtifactSpec (ascii_bytes "polytope-boot-uefi") (ascii_bytes "polytope-boot-uefi")
    (ascii_bytes "x86_64-unknown-uefi") (ascii_bytes "x86_64-unknown-uefi/boot/polytope-boot-uefi.efi")
    [ascii_bytes "uefi-binary"] [LinkArgument (ascii_bytes "/debug:none")].
Definition default_kernel : ArtifactSpec :=
  mkArtifactSpec (ascii_bytes "polytope-kernel") (ascii_bytes "polytope-kernel-x86_64")
    (ascii_bytes "x86_64-unknown-none") (ascii_bytes "x86_64-unknown-none/boot/polytope-kernel-x86_64")
    [ascii_bytes "boot-binary"] [StaticRelocationModel; LinkArgument (ascii_bytes "-no-pie")].
Definition polytope_defaults (workspace : list Z) (output : OutputPath) : ReproRequest :=
  mkReproRequest workspace None default_loader default_kernel output None None None
    (Some (ascii_bytes "x86_64-unknown-none/boot/polytope-kernel-x86_64.map")) Normal.

Definition has_link_argument (artifact : ArtifactSpec) (expected : list Z) : bool :=
  existsb (fun flag => match flag with
                       | LinkArgument value => bool_decide (value = expected)
                       | StaticRelocationModel => false
                       end) (as_rustc_flags artifact).

Definition validate_artifact_rustc_contract (artifact : ArtifactSpec) : exec ReproError unit :=
  if bool_decide (as_target artifact = ascii_bytes "x86_64-unknown-uefi")
     && negb (has_link_argument artifact (ascii_bytes "/debug:none"))
  then Err (Failure "UEFI artifact contract must disable the nondeterministic CodeView record")
  else if bool_decide (as_target artifact = ascii_bytes "x86_64-unknown-none")
          && (negb (existsb (fun f => bool_decide (f = StaticRelocationModel)) (as_rustc_flags artifact))
              || negb (has_link_argument artifact (ascii_bytes "-no-pie")))
  then Err (Failure "kernel artifact contract must retain static relocation and -no-pie")
  else Ok tt.

Definition contains_char (c : Z) (l : list Z) : bool := existsb (fun x => x =? c) l.

Definition validate_rustflag_value (value : list Z) : exec ReproError unit :=
  bail_if (bool_decide (value = []) || contains_char RUSTFLAG_SEPARATOR value)
    "value is empty or contains the Cargo rustflag separator".

(** [for x in l { check(x)?; }] *)
Fixpoint check_all {A} (check : A -> exec ReproError unit) (l : list A) : exec ReproError unit :=
  match l with
  | [] => Ok tt
  | x :: l => check x ;; check_all check l
  end.

(** The loop that pushes the arguments of each flag. *)
Fixpoint flag_arguments (flags : list ArtifactRustcFlag) : exec ReproError (list (list Z)) :=
  match flags with
  | [] => Ok []
  | StaticRelocationModel :: flags =>
      rest ← flag_arguments flags;
      Ok (ascii_bytes "-C" :: ascii_bytes "relocation-model=static" :: rest)
  | LinkArgument argument :: flags =>
      validate_rustflag_value argument ;;
      rest ← flag_arguments flags;
      Ok (ascii_bytes "-C" :: (ascii_bytes "link-arg=" ++ argument) :: rest)
  end.

Definition artifact_rustc_arguments (artifact : ArtifactSpec) : exec ReproError (list (list Z)) :=
  validate_artifact_rustc_contract artifact ;;
  arguments ← flag_arguments (as_rustc_flags artifact);
  check_all validate_rustflag_value arguments ;;
  Ok arguments.

(** ** Path remapping *)
Inductive PathKind := Target | Workspace | CargoHome | UserHome.

Record PathRemap := mkPathRemap {
  pr_kind : PathKind;
  pr_source : list Z;
  pr_destination : list Z
}.

(** [BuildPathContract { remaps }] *)
Abbreviation BuildPathContract := (list PathRemap).

Record HostPaths := mkHostPaths { hp_cargo_home : list Z; hp_user_home : list Z }.

Definition validate_remap_path (path : list Z) : exec ReproError unit :=
  value ← require (from_utf8 path) "path is not valid UTF-8";
  bail_if (contains_char RUSTFLAG_SEPARATOR value || contains_char 61 value)
    "path contains a character unsupported by the rustflag contract".

(** The loop over [remaps.iter().enumerate()]; [earlier] is [remaps[..index]]. *)
Fixpoint reject_duplicates (earlier : list (list Z)) (remaps : list PathRemap) : exec ReproError unit :=
  match remaps with
  | [] => Ok tt
  | remap :: remaps =>
      bail_if (existsb (fun source => bool_decide (source = pr_source remap)) earlier)
        "path duplicates a more-specific remap source" ;;
      reject_duplicates (earlier ++ [pr_source remap]) remaps
  end.

Definition BuildPathContract_new (workspace target_directory : list Z) (host_paths : HostPaths)
    : exec ReproError BuildPathContract :=
  check_all validate_remap_path
    [workspace; target_directory; hp_cargo_home host_paths; hp_user_home host_paths] ;;
  let remaps :=
    [mkPathRemap Target target_directory TARGET_REMAP_DESTINATION;
     mkPathRemap Workspace workspace WORKSPACE_REMAP_DESTINATION;
     mkPathRemap CargoHome (hp_cargo_home host_paths) CARGO_HOME_REMAP_DESTINATION;
     mkPathRemap UserHome (hp_user_home host_paths) USER_HOME_REMAP_DESTINATION] in
  reject_duplicates [] remaps ;;
  Ok remaps.

(** [format!("--remap-path-prefix={source}={}", destination)] *)
Definition remap_argument (remap : PathRemap) : exec ReproError (list Z) :=
  source ← require (from_utf8 (pr_source remap)) "validated remap source unexpectedly became non-UTF-8";
  Ok (ascii_bytes "--remap-path-prefix=" ++ source ++ ascii_bytes "=" ++ pr_destination remap).

Fixpoint remap_arguments (remaps : list PathRemap) : exec ReproError (list (list Z)) :=
  match remaps with
  | [] => Ok []
  | remap :: remaps =>
      argument ← remap_argument remap;
      rest ← remap_arguments remaps;
      Ok (argument :: rest)
  end.

(** [arguments.join("\u{1f}")] *)
Fixpoint join (separator : Z) (l : list (list Z)) : list Z :=
  match l with
  | [] => []
  | [a] => a
  | a :: l => a ++ separator :: join separator l
  end.

(** All the arguments, and their encoding. *)
Definition rustc_arguments (artifact : ArtifactSpec) (contract : BuildPathContract)
    : exec ReproError (list (list Z)) :=
  arguments ← artifact_rustc_arguments artifact;
  remaps ← remap_arguments (rev contract);
  check_all validate_rustflag_value (arguments ++ remaps) ;;
  Ok (arguments ++ remaps).

Definition encoded_rustflags (artifact : ArtifactSpec) (contract : BuildPathContract)
    : exec ReproError (list Z) :=
  arguments ← rustc_arguments artifact contract;
  Ok (encode_utf8 (join RUSTFLAG_SEPARATOR arguments)).

(** ** The path-privacy scan *)
Record PathPrivacyEvidence := mkPathPrivacyEvidence {
  pp_host_patterns_scanned : Z;
  pp_unremapped_matches : Z;
  pp_workspace_destination_occurrences : Z;
  pp_cargo_home_destination_occurrences : Z;
  pp_user_home_destination_occurrences : Z;
  pp_target_destination_occurrences : Z
}.
#[global] Instance PathPrivacyEvidence_eq_dec : EqDecision PathPrivacyEvidence.
Proof. solve_decision. Defined.

(** [bytes.windows(n)] *)
Fixpoint windows (n : nat) (bytes : list Z) : list (list Z) :=
  match bytes with
  | [] => []
  | _ :: rest => if (length bytes <? n)%nat then [] else take n bytes :: windows n rest
  end.

(** [Iterator::position] *)
Fixpoint position (p : list Z -> bool) (offset : Z) (l : list (list Z)) : option Z :=
  match l with
  | [] => None
  | x :: l => if p x then Some offset else position p (offset + 1) l
  end.

Definition first_subslice (bytes pattern : list Z) : option Z :=
  if bool_decide (pattern = []) || (len bytes <? len pattern) then None
  else position (fun window => same window pattern) 0 (windows (length pattern) bytes).

Definition saturating_add (w a b : Z) : Z := Z.min (2 ^ w - 1) (a + b).

Definition count_subslices (bytes pattern : list Z) : Z :=
  if bool_decide (pattern = []) || (len bytes <? len pattern) then 0
  else fold_left (fun count _ => saturating_add 64 count 1)
         (filter (fun window => is_true (same window pattern)) (windows (length pattern) bytes)) 0.

(** [for remap in &contract.remaps] *)
Definition scan_remap (bytes : list Z) (remap : PathRemap) : exec ReproError unit :=
  text ← require (from_utf8 (pr_source remap)) "validated remap source unexpectedly became non-UTF-8";
  let pattern := encode_utf8 text in
  match first_subslice bytes pattern with
  | Some offset => Err (Failure "path-privacy failure")
  | None => Ok tt
  end.

Definition verify_path_privacy (bytes : list Z) (contract : BuildPathContract)
    : exec ReproError PathPrivacyEvidence :=
  check_all (scan_remap bytes) contract ;;
  scanned ← require (try_uint 32 (len contract)) "path-pattern count does not fit u32";
  Ok (mkPathPrivacyEvidence scanned 0
        (count_subslices bytes WORKSPACE_REMAP_DESTINATION)
        (count_subslices bytes CARGO_HOME_REMAP_DESTINATION)
        (count_subslices bytes USER_HOME_REMAP_DESTINATION)
        (count_subslices bytes TARGET_REMAP_DESTINATION)).

Definition require_privacy_evidence_identical (first second : PathPrivacyEvidence)
    : exec ReproError unit :=
  bail_if (negb (bool_decide (first = second))) "path-privacy evidence differs between builds".

Definition require_identical (stage : string) (left_ right_ : list Z) : exec ReproError unit :=
  match first_difference left_ right_ with
  | Some difference => Err (Differs stage difference (len left_) (len right_))
  | None => Ok tt
  end.

(** ** Paths, programs and the environment *)

(** [Path::is_absolute] and [Path::join] *)
Definition is_absolute (path : list Z) : bool :=
  match path with c :: _ => c =? 47 | [] => false end.
Definition path_join (base path : list Z) : list Z :=
  if is_absolute path || bool_decide (base = []) then path
  else if bool_decide (last base = Some 47) then base ++ path
  else base ++ 47 :: path.
(** [path.parent().is_none()] of an absolute path: nothing but separators. *)
Definition is_root (path : list Z) : bool := forallb (fun c => c =? 47) path.

(** A program run to completion. *)
Record Command := mkCommand {
  cmd_program : list Z;
  cmd_current_dir : option (list Z);
  cmd_args : list (list Z);
  cmd_env : list (string * option (list Z))
}.
Record Output := mkOutput { out_success : bool; out_stdout : list Z; out_stderr : list Z }.

(** What the host answers: its environment, its files and the programs it runs,
    which change them. *)
Record Host (W : Type) := mkHost {
  h_env : string -> option (list Z);
  h_canonicalize : list Z -> W -> option (list Z);
  h_is_file : list Z -> W -> bool;
  h_is_dir : list Z -> W -> bool;
  h_metadata : list Z -> W -> option (bool * Z);
  h_read : list Z -> W -> option (list Z);
  h_create_dir_all : list Z -> W -> bool * W;
  h_run : Command -> W -> option Output * W
}.
Arguments h_env {W}.
Arguments h_canonicalize {W}.
Arguments h_is_file {W}.
Arguments h_is_dir {W}.
Arguments h_metadata {W}.
Arguments h_read {W}.
Arguments h_create_dir_all {W}.
Arguments h_run {W}.

(** The host, the files written by this program, and the counter of its
    temporary directories. *)
Record ReproWorld (W : Type) := mkReproWorld {
  rw_host : W;
  rw_fs : FsState;
  rw_next_id : Z
}.
Arguments mkReproWorld {W}.
Arguments rw_host {W}.
Arguments rw_fs {W}.
Arguments rw_next_id {W}.

Section Host.
Context {W : Type}.
Variable host : Host W.

Abbreviation M := (io (ReproWorld W) ReproError).

Definition pure {A} (m : exec ReproError A) : M A := fun s => (m, s).
Definition asks {A} (f : W -> A) : M A := fun s => (Ok (f (rw_host s)), s).
Definition host_call {A} (f : W -> A * W) : M A := fun s =>
  let (a, w) := f (rw_host s) in (Ok a, mkReproWorld w (rw_fs s) (rw_next_id s)).
Definition fs_call {A} (m : io FsState FsError A) : M A := fun s =>
  let (r, fs) := m (rw_fs s) in
  (map_err FileSystem r, mkReproWorld (rw_host s) fs (rw_next_id s)).

Definition require_executable (path : list Z) (source : string) : M (list Z) :=
  file ← asks (h_is_file host path);
  if file : bool then mret path else pure (Err (Failure source)).

(** [env::split_paths(&path).map(..).find(|candidate| candidate.is_file())] *)
Definition find_on_path (program : list Z) : M (option (list Z)) :=
  asks (fun w =>
    match h_env host "PATH" with
    | None => None
    | Some path =>
        find (fun candidate => h_is_file host candidate w)
          ((fun directory => path_join directory program) <$> split_where (fun c => c =? 58) path)
    end).

Definition resolve_cargo (override_path : option (list Z)) : M (list Z) :=
  match override_path, h_env host "POLYTOPE_CARGO" with
  | Some path, _ => require_executable path "Cargo override does not identify a file"
  | None, Some path => require_executable path "POLYTOPE_CARGO does not identify a file"
  | None, None =>
      found ← find_on_path (ascii_bytes "cargo");
      match found with
      | Some path => mret path
      | None =>
          let homebrew := ascii_bytes "/opt/homebrew/opt/rustup/bin/cargo" in
          file ← asks (h_is_file host homebrew);
          if file : bool then mret homebrew else pure (Err (Failure "could not find Cargo"))
      end
  end.

Definition resolve_rustc : M (list Z) :=
  match h_env host "RUSTC" with
  | Some path => require_executable path "RUSTC does not identify a file"
  | None =>
      found ← find_on_path (ascii_bytes "rustc");
      match found with
      | Some path => mret path
      | None =>
          let homebrew := ascii_bytes "/opt/homebrew/opt/rustup/bin/rustc" in
          file ← asks (h_is_file host homebrew);
          if file : bool then mret homebrew else pure (Err (Failure "could not find rustc"))
      end
  end.

(** [str::trim] *)
Fixpoint trim_start (l : list Z) : list Z :=
  match l with
  | [] => []
  | c :: t => if is_whitespace c then trim_start t else l
  end.
Definition trim (l : list Z) : list Z := rev (trim_start (rev (trim_start l))).

Definition tool_version (tool : list Z) (arguments : list string) : M (list Z) :=
  output ← host_call (h_run host (mkCommand tool None (ascii_bytes <$> arguments) []));
  output ← pure (require output "failed to query version");
  pure (bail_if (negb (out_success output)) "version query failed") ;;
  version ← pure (require (from_utf8 (out_stdout output)) "version output is not UTF-8");
  mret (trim version).

Definition git_source_state (workspace : list Z) : M (option (list Z) * option bool) :=
  let git arguments :=
    host_call (h_run host (mkCommand (ascii_bytes "git") (Some workspace) (ascii_bytes <$> arguments) [])) in
  revision ← git ["rev-parse"; "--verify"; "HEAD"]%string;
  status ← git ["status"; "--porcelain=v1"; "--untracked-files=normal"]%string;
  mret (match revision with
        | Some output => if out_success output then trim <$> from_utf8 (out_stdout output) else None
        | None => None
        end,
        match status with
        | Some output => if out_success output then Some (bool_decide (out_stdout output = [])) else None
        | None => None
        end).

Definition canonical_directory (path base : list Z) : M (list Z) :=
  let candidate := if is_absolute path then path else path_join base path in
  canonical ← asks (h_canonicalize host candidate);
  canonical ← pure (require canonical "not a readable directory");
  directory ← asks (h_is_dir host canonical);
  pure (bail_if (negb directory) "not a directory") ;;
  pure (validate_remap_path canonical) ;;
  mret canonical.

Definition HostPaths_discover (workspace : list Z) : M HostPaths :=
  user_home_value ← pure (require (h_env host "HOME") "HOME is unavailable");
  user_home ← canonical_directory user_home_value workspace;
  pure (bail_if (is_root user_home) "HOME resolves to a filesystem root") ;;
  let cargo_home_value := match h_env host "CARGO_HOME" with
                          | Some value => value
                          | None => path_join user_home (ascii_bytes ".cargo")
                          end in
  cargo_home ← canonical_directory cargo_home_value workspace;
  pure (bail_if (is_root cargo_home) "Cargo home resolves to a filesystem root") ;;
  mret (mkHostPaths cargo_home user_home).

(** ** One build *)
Definition build_command (cargo workspace target_directory : list Z) (artifact : ArtifactSpec)
    (host_paths : HostPaths) (rustflags : list Z) : Command :=
  mkCommand cargo (Some workspace)
    ([ascii_bytes "rustc"; ascii_bytes "--locked"; ascii_bytes "--profile"; ascii_bytes "boot";
      ascii_bytes "--manifest-path"; path_join workspace (ascii_bytes "Cargo.toml");
      ascii_bytes "--package"; encode_utf8 (as_package artifact);
      ascii_bytes "--bin"; encode_utf8 (as_binary artifact);
      ascii_bytes "--target"; encode_utf8 (as_target artifact)]
     ++ match as_features artifact with
        | [] => []
        | features => [ascii_bytes "--features"; encode_utf8 (join 44 features)]
        end)
    [("CARGO_TARGET_DIR"%string, Some target_directory);
     ("CARGO_INCREMENTAL"%string, Some (ascii_bytes "0"));
     ("CARGO_HOME"%string, Some (hp_cargo_home host_paths));
     ("HOME"%string, Some (hp_user_home host_paths));
     ("CARGO_ENCODED_RUSTFLAGS"%string, Some rustflags);
     ("RUSTFLAGS"%string, None);
     ("SOURCE_DATE_EPOCH"%string, Some (ascii_bytes (pretty (Z.to_N SOURCE_DATE_EPOCH))))].

Definition build_artifact (cargo workspace target_directory : list Z) (artifact : ArtifactSpec)
    (path_contract : BuildPathContract) (host_paths : HostPaths) : M unit :=
  rustflags ← pure (encoded_rustflags artifact path_contract);
  output ← host_call (h_run host
             (build_command cargo workspace target_directory artifact host_paths rustflags));
  output ← pure (require output "failed to execute Cargo");
  pure (bail_if (negb (out_success output)) "clean build failed").

(** [read_bounded_path]; [read_artifact] is the same on the artifact's path. *)
Definition read_bounded_path (path : list Z) : M (list Z) :=
  metadata ← asks (h_metadata host path);
  metadata ← pure (require metadata "failed to inspect file");
  pure (bail_if (negb metadata.1 || (MAX_ARTIFACT_BYTES <? metadata.2))
    "not a regular file within the bound") ;;
  bytes ← asks (h_read host path);
  pure (require bytes "failed to read file").

Definition read_artifact (target_directory : list Z) (artifact : ArtifactSpec) : M (list Z) :=
  read_bounded_path (path_join target_directory (as_relative_path artifact)).

Record BuiltArtifacts := mkBuiltArtifacts {
  ba_loader : list Z;
  ba_kernel : list Z;
  ba_kernel_map : option (list Z);
  ba_loader_path_privacy : PathPrivacyEvidence;
  ba_kernel_path_privacy : PathPrivacyEvidence;
  ba_path_contract : BuildPathContract
}.

(** [option.map(f).transpose()?] *)
Definition traverse {A B} (f : A -> M B) (o : option A) : M (option B) :=
  match o with
  | None => mret None
  | Some a => b ← f a; mret (Some b)
  end.

Definition build_once (cargo workspace target_directory : list Z) (request : ReproRequest)
    (host_paths : HostPaths) : M BuiltArtifacts :=
  created ← host_call (h_create_dir_all host target_directory);
  pure (bail_if (negb created) "failed to create clean target directory") ;;
  target_directory ← asks (h_canonicalize host target_directory);
  target_directory ← pure (require target_directory "failed to resolve clean target directory");
  path_contract ← pure (BuildPathContract_new workspace target_directory host_paths);
  build_artifact cargo workspace target_directory (rr_loader request) path_contract host_paths ;;
  build_artifact cargo workspace target_directory (rr_kernel request) path_contract host_paths ;;
  loader ← read_artifact target_directory (rr_loader request);
  kernel ← read_artifact target_directory (rr_kernel request);
  kernel_map ← traverse (fun relative => read_bounded_path (path_join target_directory relative))
                 (rr_kernel_map_relative_path request);
  loader_path_privacy ← pure (verify_path_privacy loader path_contract);
  kernel_path_privacy ← pure (verify_path_privacy kernel path_contract);
  mret (mkBuiltArtifacts loader kernel kernel_map loader_path_privacy kernel_path_privacy path_contract).
End Host.

(** ** Verification *)
Record ReproReport := mkReproReport {
  rp_schema_version : Z;
  rp_cargo_profile : list Z;
  rp_scenario : BootScenario;
  rp_rustc_version : list Z;
  rp_cargo_version : list Z;
  rp_source_revision : option (list Z);
  rp_source_tree_clean : option bool;
  rp_cargo_lock_sha256 : list Z;
  rp_loader_target : list Z;
  rp_kernel_target : list Z;
  rp_loader_required_rustc_flags : list (list Z);
  rp_kernel_required_rustc_flags : list (list Z);
  rp_loader_sha256 : list Z;
  rp_loader_bytes : Z;
  rp_kernel_sha256 : list Z;
  rp_kernel_bytes : Z;
  rp_image_sha256 : list Z;
  rp_image_bytes : Z;
  rp_source_date_epoch : Z;
  rp_workspace_remap_destination : list Z;
  rp_cargo_home_remap_destination : list Z;
  rp_user_home_remap_destination : list Z;
  rp_target_directory_remap_destination : list Z;
  rp_loader_path_privacy : PathPrivacyEvidence;
  rp_kernel_path_privacy : PathPrivacyEvidence;
  rp_image_path_privacy : PathPrivacyEvidence
}.

(** The comparisons of [verify], up to the writes. *)
Section Verify.
Context {W U G V D F : Type} `{EqDecision U}.
Variables (host : Host W) (crates : DiskCrates U G V D F).
Variables (digest : list Z -> list Z) (reserves : Z -> bool) (os : Os) (pid : list Z).

Definition compare_builds (scenario : BootScenario) (first second : BuiltArtifacts)
    : exec ReproError (list Z * ImageManifest * PathPrivacyEvidence) :=
  require_identical "loader" (ba_loader first) (ba_loader second) ;;
  require_identical "kernel" (ba_kernel first) (ba_kernel second) ;;
  require_privacy_evidence_identical (ba_loader_path_privacy first) (ba_loader_path_privacy second) ;;
  require_privacy_evidence_identical (ba_kernel_path_privacy first) (ba_kernel_path_privacy second) ;;
  first_image ← map_err ImageFailure
    (build_image_bytes crates digest reserves (ba_loader first) (ba_kernel first) scenario);
  second_image ← map_err ImageFailure
    (build_image_bytes crates digest reserves (ba_loader second) (ba_kernel second) scenario);
  require_identical "disk image" first_image.1 second_image.1 ;;
  first_image_privacy ← verify_path_privacy first_image.1 (ba_path_contract first);
  second_image_privacy ← verify_path_privacy second_image.1 (ba_path_contract second);
  require_privacy_evidence_identical first_image_privacy second_image_privacy ;;
  Ok (first_image.1, first_image.2, first_image_privacy).

(** [if let Some(output) = &optional { write_verified_file(..)?; }] *)
Definition write_optional (output : option OutputPath) (bytes : list Z) : io (ReproWorld W) ReproError unit :=
  match output with
  | Some output => fs_call (write_verified_file os pid output bytes)
  | None => mret tt
  end.

Definition write_outputs (request : ReproRequest) (image : list Z) (first : BuiltArtifacts)
    : io (ReproWorld W) ReproError unit :=
  fs_call (write_verified_file os pid (rr_output request) image) ;;
  write_optional (rr_verified_loader_output request) (ba_loader first) ;;
  write_optional (rr_verified_kernel_output request) (ba_kernel first) ;;
  match rr_verified_kernel_map_output request with
  | None => mret tt
  | Some output =>
      map ← pure (require (ba_kernel_map first)
        "verified kernel-map output was requested without a kernel-map artifact contract");
      fs_call (write_verified_file os pid output map)
  end.

Definition sha256 (bytes : list Z) : exec ReproError (list Z) := sha256_hex digest bytes.

Definition make_report (request : ReproRequest) (rustc_version cargo_version : list Z)
    (source : option (list Z) * option bool) (cargo_lock : list Z) (first : BuiltArtifacts)
    (manifest : ImageManifest) (image_privacy : PathPrivacyEvidence) : exec ReproError ReproReport :=
  cargo_lock_sha256 ← sha256 cargo_lock;
  loader_flags ← artifact_rustc_arguments (rr_loader request);
  kernel_flags ← artifact_rustc_arguments (rr_kernel request);
  loader_sha256 ← sha256 (ba_loader first);
  loader_bytes ← require (try_uint 64 (len (ba_loader first))) "loader size does not fit u64";
  kernel_sha256 ← sha256 (ba_kernel first);
  kernel_bytes ← require (try_uint 64 (len (ba_kernel first))) "kernel size does not fit u64";
  Ok (mkReproReport 3 (ascii_bytes "boot") (rr_scenario request) rustc_version cargo_version
        source.1 source.2 cargo_lock_sha256 (as_target (rr_loader request)) (as_target (rr_kernel request))
        loader_flags kernel_flags loader_sha256 loader_bytes kernel_sha256 kernel_bytes
        (im_image_sha256 manifest) (im_image_bytes manifest) SOURCE_DATE_EPOCH
        WORKSPACE_REMAP_DESTINATION CARGO_HOME_REMAP_DESTINATION USER_HOME_REMAP_DESTINATION
        TARGET_REMAP_DESTINATION (ba_loader_path_privacy first) (ba_kernel_path_privacy first)
        image_privacy).

(** What happens while the temporary directory exists. *)
Definition verify_in (temporary : list Z) (request : ReproRequest) (cargo workspace : list Z)
    (host_paths : HostPaths) (rustc_version cargo_version : list Z)
    (source : option (list Z) * option bool) (cargo_lock : list Z)
    : io (ReproWorld W) ReproError ReproReport :=
  first ← build_once host cargo workspace (path_join temporary (ascii_bytes "build-a")) request host_paths;
  second ← build_once host cargo workspace (path_join temporary (ascii_bytes "build-b")) request host_paths;
  compared ← pure (compare_builds (rr_scenario request) first second);
  let '(first_image, first_manifest, first_image_privacy) := compared in
  write_outputs request first_image first ;;
  pure (make_report request rustc_version cargo_version source cargo_lock first first_manifest
          first_image_privacy).

(** [output.parent().filter(..).unwrap_or("target")] *)
Definition temporary_parent (output : OutputPath) : list Z :=
  match op_parent output with
  | Some p => if bool_decide (p = []) then ascii_bytes "target" else p
  | None => ascii_bytes "target"
  end.

(** [TemporaryDirectory::create] on the shared counter; an error ends the run. *)
Definition create_temporary_directory (parent : list Z) : io (ReproWorld W) ReproError location := fun s =>
  match TemporaryDirectory_create os parent (ascii_bytes "repro") pid (rw_next_id s) (rw_fs s) with
  | (Ok (l, next_id), fs) => (Ok l, mkReproWorld (rw_host s) fs next_id)
  | (Err e, fs) => (Err (FileSystem e), mkReproWorld (rw_host s) fs (rw_next_id s))
  | (Panic, fs) => (Panic, mkReproWorld (rw_host s) fs (rw_next_id s))
  end.

(** The temporary directory is dropped on every way out of [body]. *)
Definition with_temporary {A} (temporary : location) (body : io (ReproWorld W) ReproError A)
    : io (ReproWorld W) ReproError A := fun s =>
  let (r, s) := body s in
  (r, mkReproWorld (rw_host s) (TemporaryDirectory_drop os temporary (rw_fs s)).2 (rw_next_id s)).

Definition verify (request : ReproRequest) : io (ReproWorld W) ReproError ReproReport :=
  workspace ← asks (h_canonicalize host (rr_workspace request));
  workspace ← pure (require workspace "workspace does not exist");
  cargo ← resolve_cargo host (rr_cargo request);
  rustc ← resolve_rustc host;
  host_paths ← HostPaths_discover host workspace;
  cargo_version ← tool_version host cargo ["--version"]%string;
  rustc_version ← tool_version host rustc ["--version"; "--verbose"]%string;
  cargo_lock ← asks (h_read host (path_join workspace (ascii_bytes "Cargo.lock")));
  cargo_lock ← pure (require cargo_lock "reproducibility check requires a readable Cargo.lock");
  source ← git_source_state host workspace;
  temporary ← create_temporary_directory (temporary_parent (rr_output request));
  with_temporary temporary
    (verify_in (path_join temporary.1 temporary.2) request cargo workspace host_paths rustc_version
       cargo_version source cargo_lock).
End Verify.
