(* ===== verification/ReproProps.v ===== *)
(** Reproducibility: the flags handed to rustc are unambiguous, the path scan is
    exact, and what [verify] accepts is byte-identical and free of host paths. *)

From stdpp Require Import gmap.
From S2P Require Import Prelude Bytes Console Text Artifact HostScenario.
From S2P Require Import RawImage RawImageProps HostFs HostFsProps DiskImage Repro.
Import Image.

(** ** Loops *)
Lemma check_all_Ok {A} (check : A -> exec ReproError unit) l :
  check_all check l = Ok tt <-> Forall (fun x => check x = Ok tt) l.
Proof.
  induction l as [|x l IH]; cbn [check_all]; [by split|]. rewrite bind_unit, IH, Forall_cons. done.
Qed.

Lemma check_all_no_panic {A} (check : A -> exec ReproError unit) l :
  (forall x, check x <> Panic) -> check_all check l <> Panic.
Proof. intros H. induction l as [|x l IH]; [done|]. apply bind_no_panic; [apply H|done]. Qed.

Lemma contains_char_false c l : contains_char c l = false <-> c ∉ l.
Proof.
  induction l as [|x l IH]; cbn.
  - split; [intros _; apply not_elem_of_nil|done].
  - rewrite orb_false_iff, Z.eqb_neq, not_elem_of_cons. unfold contains_char in IH. rewrite IH. naive_solver.
Qed.

(** ** Separators *)
Lemma split_where_clean p l : Forall (fun c => p c = false) l -> split_where p l = [l].
Proof.
  induction 1 as [|c l Hc _ IH]; [done|]. cbn [split_where]. by rewrite Hc, IH.
Qed.

Lemma split_where_app p l c t :
  Forall (fun c => p c = false) l -> p c = true ->
  split_where p (l ++ c :: t) = l :: split_where p t.
Proof.
  intros Hl Hc. induction Hl as [|x l Hx _ IH]; cbn [app split_where]; [by rewrite Hc|].
  by rewrite Hx, IH.
Qed.

Lemma split_join sep l :
  l <> [] -> Forall (fun a => sep ∉ a) l -> split_where (fun c => c =? sep) (join sep l) = l.
Proof.
  assert (forall a : list Z, sep ∉ a -> Forall (fun c => (c =? sep) = false) a) as Hc.
  { intros a Ha. apply Forall_forall. intros c Hin. apply Z.eqb_neq. by intros ->. }
  intros Hne Hl. induction Hl as [|a l Ha Hl IH]; [done|].
  destruct l as [|b l]; [by apply split_where_clean, Hc|].
  change (join sep (a :: b :: l)) with (a ++ sep :: join sep (b :: l)).
  rewrite split_where_app by (first [by apply Hc|apply Z.eqb_refl]). by rewrite IH.
Qed.

(** ** The scan *)

(** [pattern] stands at offset [o] of [bytes]. *)
Definition occurs (bytes pattern : list Z) (o : nat) : Prop :=
  take (length pattern) (drop o bytes) = pattern.
#[global] Instance occurs_dec bytes pattern o : Decision (occurs bytes pattern o).
Proof. unfold occurs. apply _. Defined.

Lemma windows_lookup n bytes : (0 < n)%nat ->
  windows n bytes = (fun i => take n (drop i bytes)) <$> seq 0 (length bytes + 1 - n).
Proof.
  intros Hn. induction bytes as [|b bytes IH]; cbn [windows].
  { by replace (length (@nil Z) + 1 - n)%nat with 0%nat by (cbn; lia). }
  destruct (Nat.ltb_spec (length (b :: bytes)) n) as [Hl|Hl].
  - by replace (length (b :: bytes) + 1 - n)%nat with 0%nat by lia.
  - replace (length (b :: bytes) + 1 - n)%nat with (S (length bytes + 1 - n)) by (cbn in *; lia).
    cbn [seq fmap list_fmap drop]. f_equal. rewrite IH, <- seq_shift, <- list_fmap_compose. done.
Qed.

Lemma occurs_bound bytes pattern o :
  pattern <> [] -> occurs bytes pattern o -> (o + length pattern <= length bytes)%nat.
Proof.
  unfold occurs. intros Hne H. apply (f_equal length) in H. rewrite length_take, length_drop in H.
  destruct pattern; [done|]. cbn [length] in *. lia.
Qed.

Lemma position_Some p l : forall o k,
  position p o l = Some k <->
  exists i, k = o + Z.of_nat i /\ (exists x, l !! i = Some x /\ p x = true) /\
    forall j x, (j < i)%nat -> l !! j = Some x -> p x = false.
Proof.
  induction l as [|x l IH]; intros o k; cbn [position].
  { split; [done|]. intros (i & _ & (y & Hy & _) & _). done. }
  destruct (p x) eqn:Ep.
  - split.
    + intros [= <-]. exists 0%nat. split; [lia|]. split; [by exists x|]. intros; lia.
    + intros ([|i] & -> & _ & Hall); [f_equal; lia|]. rewrite (Hall 0%nat x) in Ep by (done || lia). done.
  - rewrite IH. split.
    + intros (i & -> & Hi & Hall). exists (S i). split; [lia|]. split; [done|].
      intros [|j] y Hj Hy; [by injection Hy as <-|]. apply (Hall j); [lia|done].
    + intros ([|i] & -> & (y & Hy & Hp) & Hall); [injection Hy as <-; congruence|].
      exists i. split; [lia|]. split; [by exists y|]. intros j z Hj Hz. apply (Hall (S j)); [lia|done].
Qed.

Lemma position_None p l : forall o, position p o l = None <-> Forall (fun x => p x = false) l.
Proof.
  induction l as [|x l IH]; intros o; cbn [position]; [by split|].
  rewrite Forall_cons. destruct (p x); [split; [done|by intros [? _]]|]. rewrite IH. naive_solver.
Qed.

Lemma length_filter_fmap {A B} (f : A -> B) (P : B -> Prop) (Q : A -> Prop)
    `{forall x, Decision (P x)} `{forall x, Decision (Q x)} l :
  (forall x, P (f x) <-> Q x) -> length (filter P (f <$> l)) = length (filter Q l).
Proof.
  intros Hf. induction l as [|x l IH]; [done|]. cbn [fmap list_fmap]. rewrite !filter_cons.
  destruct (decide (P (f x))) as [Hp|Hp], (decide (Q x)) as [Hq|Hq]; cbn [length]; try (by rewrite <- IH);
    rewrite Hf in Hp; done.
Qed.

Section Scan.
Variables bytes pattern : list Z.
Hypothesis Hne : pattern <> [].

Lemma window_lookup i x :
  windows (length pattern) bytes !! i = Some x <->
  (i + length pattern <= length bytes)%nat /\ x = take (length pattern) (drop i bytes).
Proof using Hne.
  assert (0 < length pattern)%nat by (destruct pattern; [done|cbn; lia]).
  rewrite windows_lookup by done. rewrite list_lookup_fmap, fmap_Some.
  setoid_rewrite lookup_seq. split.
  - intros (j & [-> Hj] & ->). split; [lia|done].
  - intros [Hi ->]. exists i. split; [split; [done|lia]|done].
Qed.

Lemma no_room : (len bytes <? len pattern) = true -> forall o, ~ occurs bytes pattern o.
Proof using Hne. intros Hl%Z.ltb_lt o Ho%occurs_bound; [lia|done]. Qed.

Lemma first_subslice_Some k :
  first_subslice bytes pattern = Some k <->
  exists o, k = Z.of_nat o /\ occurs bytes pattern o /\
    forall j, (j < o)%nat -> ~ occurs bytes pattern j.
Proof using Hne.
  unfold first_subslice. rewrite bool_decide_false by done. cbn [orb].
  destruct (len bytes <? len pattern) eqn:El.
  { split; [done|]. intros (o & _ & Ho & _). by apply no_room in Ho. }
  rewrite position_Some. setoid_rewrite window_lookup. setoid_rewrite same_iff. split.
  - intros (i & -> & (x & [Hi Hx] & Hp) & Hall). exists i. split; [lia|]. split; [unfold occurs; congruence|].
    intros j Hj Ho. pose proof (occurs_bound _ _ _ Hne Ho) as Hb.
    specialize (Hall j _ Hj (conj Hb eq_refl)). unfold occurs in Ho. rewrite Ho in Hall.
    unfold same in Hall. by rewrite bool_decide_true in Hall.
  - intros (o & -> & Ho & Hall). exists o. split; [lia|]. split.
    + exists (take (length pattern) (drop o bytes)). split; [split; [by apply occurs_bound|done]|exact Ho].
    + intros j x Hj [_ ->]. apply bool_decide_eq_false. by apply Hall.
Qed.

Lemma first_subslice_None :
  first_subslice bytes pattern = None <-> forall o, ~ occurs bytes pattern o.
Proof using Hne.
  split.
  - intros Hn o Ho.
    assert (exists m, occurs bytes pattern m /\ forall j, (j < m)%nat -> ~ occurs bytes pattern j)
      as (m & Hm & Hall).
    { induction o as [o IH] using lt_wf_ind.
      destruct (decide (Exists (occurs bytes pattern) (seq 0 o))) as [He|He].
      - apply Exists_exists in He as (j & Hj%elem_of_seq & Hoj). apply (IH j); [lia|done].
      - exists o. split; [done|]. intros j Hj Hoj. apply He. apply Exists_exists. exists j.
        split; [apply elem_of_seq; lia|done]. }
    rewrite (proj2 (first_subslice_Some (Z.of_nat m))) in Hn by (by exists m). done.
  - intros H. destruct (first_subslice bytes pattern) as [k|] eqn:E; [|done].
    apply first_subslice_Some in E as (o & _ & Ho & _). by destruct (H o).
Qed.

Lemma saturating_fold {A} (l : list A) : forall n,
  0 <= n <= 2 ^ 64 - 1 ->
  fold_left (fun count _ => saturating_add 64 count 1) l n = Z.min (2 ^ 64 - 1) (n + len l).
Proof.
  induction l as [|x l IH]; intros n Hn; cbn [fold_left length]; [lia|].
  unfold saturating_add at 2. rewrite IH by lia. lia.
Qed.

Lemma count_subslices_exact :
  len bytes < 2 ^ 63 ->
  count_subslices bytes pattern = len (filter (occurs bytes pattern) (seq 0 (length bytes))).
Proof using Hne.
  intros Hb. unfold count_subslices. rewrite bool_decide_false by done. cbn [orb].
  assert (0 < length pattern)%nat by (destruct pattern; [done|cbn; lia]).
  destruct (len bytes <? len pattern) eqn:El.
  { replace (filter (occurs bytes pattern) (seq 0 (length bytes))) with (@nil nat); [done|].
    symmetry. apply filter_none. intros o _. by apply no_room. }
  apply Z.ltb_ge in El. rewrite saturating_fold by lia. rewrite windows_lookup by done.
  replace (length bytes) with ((length bytes + 1 - length pattern) + (length pattern - 1))%nat at 2 by lia.
  rewrite seq_app, filter_app.
  replace (filter (occurs bytes pattern) (seq (0 + (length bytes + 1 - length pattern)) (length pattern - 1)))
    with (@nil nat).
  2: { symmetry. apply filter_none. intros o Ho%elem_of_seq Hoc%occurs_bound; [lia|done]. }
  rewrite app_nil_r, Z.add_0_l.
  rewrite (length_filter_fmap _ _ (occurs bytes pattern)) by (intros i; apply same_iff).
  assert (length (filter (occurs bytes pattern) (seq 0 (length bytes + 1 - length pattern)))
    <= length (seq 0 (length bytes + 1 - length pattern)))%nat as Hle by apply length_filter.
  rewrite length_seq in Hle. lia.
Qed.
End Scan.

(** No host path of the contract stands anywhere in the bytes. *)
Definition path_free (bytes : list Z) (contract : BuildPathContract) : Prop :=
  forall remap, remap ∈ contract -> pr_source remap <> [] ->
  forall o, ~ occurs bytes (pr_source remap) o.

Definition occurrences (bytes pattern : list Z) : Z :=
  len (filter (occurs bytes pattern) (seq 0 (length bytes))).

Lemma scan_remap_iff bytes remap :
  scan_remap bytes remap = Ok tt <->
  is_Some (from_utf8 (pr_source remap)) /\
  (pr_source remap <> [] -> forall o, ~ occurs bytes (pr_source remap) o).
Proof.
  unfold scan_remap. destruct (from_utf8 (pr_source remap)) as [text|] eqn:Eu; cbn.
  2: { split; [done|]. by intros [[? ?] _]. }
  apply from_utf8_iff in Eu as [_ Eu]. rewrite <- Eu.
  destruct (decide (pr_source remap = [])) as [E|E].
  - rewrite E. split; [|done]. intros _. split; [by eexists|done].
  - rewrite <- (first_subslice_None bytes _ E).
    destruct (first_subslice bytes (pr_source remap)); split; intros H; try done.
    destruct H as [_ H]. by specialize (H E).
Qed.

Lemma verify_path_privacy_iff bytes contract e :
  len bytes < 2 ^ 63 -> len contract < 2 ^ 32 ->
  verify_path_privacy bytes contract = Ok e <->
  Forall (fun remap => is_Some (from_utf8 (pr_source remap))) contract /\ path_free bytes contract /\
  e = mkPathPrivacyEvidence (len contract) 0
        (occurrences bytes WORKSPACE_REMAP_DESTINATION) (occurrences bytes CARGO_HOME_REMAP_DESTINATION)
        (occurrences bytes USER_HOME_REMAP_DESTINATION) (occurrences bytes TARGET_REMAP_DESTINATION).
Proof.
  intros Hb Hc. unfold verify_path_privacy, occurrences. rewrite <- !count_subslices_exact by done.
  rewrite bind_unit, check_all_Ok, try_uint_exact by lia.
  setoid_rewrite scan_remap_iff. rewrite !Forall_forall. unfold path_free.
  change (require (Some (len contract)) _) with (@Ok ReproError Z (len contract)). rewrite bind_value.
  split.
  - intros [H [= <-]]. split_and!; [|by intros r Hr; apply H|done]. intros r Hr. by apply H.
  - intros (H1 & H2 & ->). split; [|done]. intros r Hr. split; [by apply H1|by apply H2].
Qed.

Lemma verify_path_privacy_no_panic bytes contract : verify_path_privacy bytes contract <> Panic.
Proof.
  apply bind_no_panic.
  - apply check_all_no_panic. intros r. unfold scan_remap.
    apply bind_no_panic; [apply ok_or_no_panic|]. intros t _. by destruct (first_subslice _ _).
  - intros _ _. apply bind_no_panic; [apply ok_or_no_panic|done].
Qed.

(** ** The path contract *)
Definition clean_path (path : list Z) : Prop :=
  exists text, from_utf8 path = Some text /\ (RUSTFLAG_SEPARATOR ∉ text) /\ (61 ∉ text).

Lemma validate_remap_path_iff path : validate_remap_path path = Ok tt <-> clean_path path.
Proof.
  unfold validate_remap_path, clean_path, require, bail_if.
  destruct (from_utf8 path) as [text|]; cbn; [|naive_solver].
  rewrite fail_if_Ok, orb_false_iff, !contains_char_false. naive_solver.
Qed.

Definition host_remaps (workspace target_directory : list Z) (hp : HostPaths) : list PathRemap :=
  [mkPathRemap Target target_directory TARGET_REMAP_DESTINATION;
   mkPathRemap Workspace workspace WORKSPACE_REMAP_DESTINATION;
   mkPathRemap CargoHome (hp_cargo_home hp) CARGO_HOME_REMAP_DESTINATION;
   mkPathRemap UserHome (hp_user_home hp) USER_HOME_REMAP_DESTINATION].

Lemma reject_duplicates_iff l : forall earlier,
  reject_duplicates earlier l = Ok tt <->
  NoDup (pr_source <$> l) /\ forall r, r ∈ l -> pr_source r ∉ earlier.
Proof.
  induction l as [|r l IH]; intros earlier; cbn [reject_duplicates fmap list_fmap].
  { split; [|done]. intros _. split; [constructor|]. intros r Hr. by apply not_elem_of_nil in Hr. }
  unfold bail_if. rewrite bind_fail_if, IH, NoDup_cons.
  assert (existsb (fun source => bool_decide (source = pr_source r)) earlier = false <->
    (pr_source r ∉ earlier)) as ->.
  { rewrite <- not_true_iff_false, existsb_exists. setoid_rewrite bool_decide_eq_true.
    split; intros H.
    - intros Hin. apply H. exists (pr_source r). split; [by apply list_elem_of_In|done].
    - intros (x & Hx & ->). apply H. by apply list_elem_of_In. }
  setoid_rewrite not_elem_of_app. setoid_rewrite list_elem_of_singleton. setoid_rewrite elem_of_cons.
  setoid_rewrite list_elem_of_fmap. split.
  - intros (H1 & H2 & H3). split_and!; [|done|naive_solver]. intros (r' & Heq & Hr'). by apply (H3 r').
  - intros ((H1 & H2) & H3). split_and!; [naive_solver|done|]. intros r' Hr'. split; [naive_solver|].
    intros Heq. apply H1. by exists r'.
Qed.

Lemma contract_iff workspace target_directory hp c :
  BuildPathContract_new workspace target_directory hp = Ok c <->
  Forall clean_path [workspace; target_directory; hp_cargo_home hp; hp_user_home hp] /\
  NoDup (pr_source <$> c) /\ c = host_remaps workspace target_directory hp.
Proof.
  unfold BuildPathContract_new. rewrite !bind_unit, check_all_Ok, reject_duplicates_iff.
  setoid_rewrite validate_remap_path_iff. fold (host_remaps workspace target_directory hp).
  split.
  - intros (H1 & [H2 _] & [= <-]). done.
  - intros (H1 & H2 & ->). split_and!; [done|done|intros r _; apply not_elem_of_nil|done].
Qed.

(** ** The flags *)
Definition plain (a : list Z) : Prop := a <> [] /\ RUSTFLAG_SEPARATOR ∉ a.

Lemma rustflag_value_iff a : validate_rustflag_value a = Ok tt <-> plain a.
Proof.
  unfold validate_rustflag_value, bail_if, plain.
  rewrite fail_if_Ok, orb_false_iff, bool_decide_eq_false, contains_char_false. done.
Qed.

Lemma artifact_arguments_plain artifact flags :
  artifact_rustc_arguments artifact = Ok flags -> Forall plain flags.
Proof.
  unfold artifact_rustc_arguments. rewrite bind_unit. intros [_ H].
  apply bind_Ok in H as (l & _ & H). apply bind_unit in H as [H [= <-]].
  apply check_all_Ok in H. eapply Forall_impl; [exact H|]. intros a. apply rustflag_value_iff.
Qed.

(** The scalar values of the link arguments of an artifact. *)
Definition flags_text (artifact : ArtifactSpec) : Prop :=
  forall a, LinkArgument a ∈ as_rustc_flags artifact -> Forall scalar a.

Lemma ascii_scalar s : Forall (fun c => 0 <= c < 128) (ascii_bytes s) -> Forall scalar (ascii_bytes s).
Proof. intros H. eapply Forall_impl; [exact H|]. unfold scalar. lia. Qed.

Lemma flag_arguments_text flags : (forall a, LinkArgument a ∈ flags -> Forall scalar a) ->
  forall l, flag_arguments flags = Ok l -> Forall (Forall scalar) l.
Proof.
  induction flags as [|[|a] flags IH]; intros Ht l; cbn [flag_arguments].
  - intros [= <-]. constructor.
  - intros H. apply bind_Ok in H as (rest & Hr & [= <-]).
    constructor; [apply ascii_scalar; by_decide|]. constructor; [apply ascii_scalar; by_decide|].
    apply IH; [|done]. intros a Ha. apply Ht. by right.
  - rewrite bind_unit. intros [_ H]. apply bind_Ok in H as (rest & Hr & [= <-]).
    constructor; [apply ascii_scalar; by_decide|]. constructor.
    + apply (Forall_app _ (ascii_bytes "link-arg=")). split; [apply ascii_scalar; by_decide|].
      apply Ht. left.
    + apply IH; [|done]. intros b Hb. apply Ht. by right.
Qed.

Lemma artifact_arguments_text artifact flags :
  flags_text artifact -> artifact_rustc_arguments artifact = Ok flags -> Forall (Forall scalar) flags.
Proof.
  intros Ht. unfold artifact_rustc_arguments. rewrite bind_unit. intros [_ H].
  apply bind_Ok in H as (l & Hl & H). apply bind_unit in H as [_ [= <-]].
  by eapply flag_arguments_text.
Qed.

(** The argument of a remap, and how rustc takes it apart. *)
Definition remap_text (remap : PathRemap) (argument : list Z) : Prop :=
  exists source, from_utf8 (pr_source remap) = Some source /\
    argument = ascii_bytes "--remap-path-prefix=" ++ source ++ 61 :: pr_destination remap /\
    split_where (fun c => c =? 61) (source ++ 61 :: pr_destination remap) = [source; pr_destination remap].

Lemma not_in_Forall c (l : list Z) : c ∉ l -> Forall (fun x => (x =? c) = false) l.
Proof. intros Hn. apply Forall_forall. intros x Hx. apply Z.eqb_neq. by intros ->. Qed.

Lemma remap_arguments_ok remaps :
  Forall (fun r => clean_path (pr_source r) /\
            Forall (fun c => 32 <= c < 127 /\ c <> 61) (pr_destination r)) remaps ->
  exists l, remap_arguments remaps = Ok l /\ Forall2 remap_text remaps l /\
    Forall plain l /\ Forall (Forall scalar) l.
Proof.
  induction 1 as [|r remaps [(text & Ht & Hs & Hq) Hd] _ (l & Hl & H2 & Hp & Hsc)].
  { exists []. split_and!; constructor. }
  exists ((ascii_bytes "--remap-path-prefix=" ++ text ++ ascii_bytes "=" ++ pr_destination r) :: l).
  cbn [remap_arguments]. unfold remap_argument. rewrite Ht, Hl. cbn.
  assert (forall P : Z -> Prop, (forall c, 32 <= c < 127 /\ c <> 61 -> P c) -> Forall P (pr_destination r)) as Hdst.
  { intros P HP. eapply Forall_impl; [exact Hd|]. exact HP. }
  split; [done|]. split; [|split].
  - constructor; [|done]. exists text. split; [done|]. split; [done|].
    rewrite split_where_app by (first [by apply not_in_Forall|done]).
    rewrite split_where_clean; [done|]. apply Hdst. intros c ?. apply Z.eqb_neq. lia.
  - constructor; [|done]. split; [done|]. rewrite !not_elem_of_cons, !not_elem_of_app.
    split_and!; try (unfold RUSTFLAG_SEPARATOR; lia); [done|]. rewrite not_elem_of_cons.
    split; [unfold RUSTFLAG_SEPARATOR; lia|]. intros Hin. rewrite Forall_forall in Hd. apply Hd in Hin.
    unfold RUSTFLAG_SEPARATOR in Hin. lia.
  - constructor; [|done]. apply (Forall_app _ (ascii_bytes "--remap-path-prefix=")).
    split; [apply ascii_scalar; by_decide|]. apply Forall_app. split; [by apply from_utf8_iff in Ht as [? _]|].
    constructor; [unfold scalar; lia|]. apply Hdst. unfold scalar. lia.
Qed.

Lemma join_scalar sep l : scalar sep -> Forall (Forall scalar) l -> Forall scalar (join sep l).
Proof.
  intros Hs. induction 1 as [|a l Ha Hl IH]; [constructor|]. destruct l as [|b l]; [done|].
  change (join sep (a :: b :: l)) with (a ++ sep :: join sep (b :: l)).
  apply Forall_app. split; [done|]. by constructor.
Qed.

Lemma host_remaps_clean workspace target_directory hp :
  Forall clean_path [workspace; target_directory; hp_cargo_home hp; hp_user_home hp] ->
  Forall (fun r => clean_path (pr_source r) /\
            Forall (fun c => 32 <= c < 127 /\ c <> 61) (pr_destination r))
    (host_remaps workspace target_directory hp).
Proof.
  rewrite !Forall_cons. intros (H1 & H2 & H3 & H4 & _).
  repeat constructor; try done; cbn [pr_destination]; by_decide.
Qed.

(** ** Identical builds *)
Lemma first_difference_None l r : first_difference l r = None <-> l = r.
Proof.
  unfold first_difference. destruct (find_difference 0 l r) as [[k [x y]]|] eqn:Hd.
  - apply find_difference_Some in Hd as (n & -> & Ht & Hl & Hr & Hxy).
    split; [done|]. intros ->. congruence.
  - apply find_difference_None in Hd. destruct (Z.eqb_spec (len l) (len r)) as [He|He]; cbn [negb].
    + split; [|done]. intros _. by rewrite !take_ge in Hd by lia.
    + split; [done|congruence].
Qed.

Lemma require_identical_iff stage l r : require_identical stage l r = Ok tt <-> l = r.
Proof.
  unfold require_identical. rewrite <- first_difference_None.
  by destruct (first_difference l r).
Qed.

Lemma evidence_identical_iff a b : require_privacy_evidence_identical a b = Ok tt <-> a = b.
Proof.
  unfold require_privacy_evidence_identical, bail_if. rewrite fail_if_Ok, negb_false_iff. apply bool_decide_eq_true.
Qed.

Section Runs.
Context {W : Type}.
Abbreviation M := (io (ReproWorld W) ReproError).

Lemma pure_Ok {A} (m : exec ReproError A) (s s' : ReproWorld W) a :
  pure m s = (Ok a, s') <-> m = Ok a /\ s' = s.
Proof. unfold pure. naive_solver. Qed.

Lemma asks_Ok {A} (f : W -> A) (s s' : ReproWorld W) a :
  asks f s = (Ok a, s') <-> a = f (rw_host s) /\ s' = s.
Proof. unfold asks. naive_solver. Qed.
End Runs.

(** Splits a successful run into its steps. *)
Ltac inv_io :=
  repeat match goal with
  | H : (_ ≫= _) ?s = (Ok _, _) |- _ => apply io_bind_Ok in H as (? & ? & ? & H)
  | H : pure _ _ = (Ok _, _) |- _ => apply pure_Ok in H as [? ->]
  | H : asks _ _ = (Ok _, _) |- _ => apply asks_Ok in H as [-> ->]
  end.

Section Verify.
Context {W U G V D F : Type} `{EqDecision U}.
Variables (host : Host W) (crates : DiskCrates U G V D F).
Variables (digest : list Z -> list Z) (reserves : Z -> bool) (os : Os) (pid : list Z).

(** What [build_once] establishes of its artifacts. *)
Definition scanned (workspace target_directory : list Z) (hp : HostPaths) (b : BuiltArtifacts) : Prop :=
  exists target, ba_path_contract b = host_remaps workspace target hp /\
    (exists w, h_canonicalize host target_directory w = Some target) /\
    NoDup (pr_source <$> ba_path_contract b) /\
    verify_path_privacy (ba_loader b) (ba_path_contract b) = Ok (ba_loader_path_privacy b) /\
    verify_path_privacy (ba_kernel b) (ba_path_contract b) = Ok (ba_kernel_path_privacy b).

Lemma build_once_scanned cargo workspace target_directory request hp s b s' :
  build_once host cargo workspace target_directory request hp s = (Ok b, s') ->
  scanned workspace target_directory hp b.
Proof.
  intros H. unfold build_once in H. inv_io. unfold mret, io_ret in H. injection H as <- <-.
  match goal with H : BuildPathContract_new _ ?t _ = Ok ?c |- _ =>
    apply contract_iff in H as (_ & Hnd & ->); exists t end.
  cbn [ba_path_contract ba_loader ba_kernel ba_loader_path_privacy ba_kernel_path_privacy].
  split_and!; try done.
  match goal with H : require (h_canonicalize host target_directory ?w) _ = Ok _ |- _ =>
    exists w; unfold require in H; by apply ok_or_Ok in H end.
Qed.

Lemma compare_builds_Ok scenario a b image m e :
  compare_builds crates digest reserves scenario a b = Ok (image, m, e) ->
  ba_loader a = ba_loader b /\ ba_kernel a = ba_kernel b /\
  build_image_bytes crates digest reserves (ba_loader a) (ba_kernel a) scenario = Ok (image, m) /\
  verify_path_privacy image (ba_path_contract a) = Ok e /\
  verify_path_privacy image (ba_path_contract b) = Ok e.
Proof.
  unfold compare_builds. rewrite !bind_unit, !require_identical_iff, !evidence_identical_iff.
  intros (Hl & Hk & _ & _ & H). apply bind_Ok in H as ([i1 m1] & H1%map_err_Ok & H).
  apply bind_Ok in H as ([i2 m2] & H2%map_err_Ok & H). apply bind_unit in H as [Hi%require_identical_iff H].
  apply bind_Ok in H as (e1 & He1 & H). apply bind_Ok in H as (e2 & He2 & H).
  apply bind_unit in H as [He%evidence_identical_iff H]. cbn [fst snd] in *.
  injection H as -> -> ->. subst. done.
Qed.

Lemma compare_builds_intro scenario a b image m e :
  ba_loader a = ba_loader b -> ba_kernel a = ba_kernel b ->
  ba_loader_path_privacy a = ba_loader_path_privacy b -> ba_kernel_path_privacy a = ba_kernel_path_privacy b ->
  build_image_bytes crates digest reserves (ba_loader a) (ba_kernel a) scenario = Ok (image, m) ->
  verify_path_privacy image (ba_path_contract a) = Ok e ->
  verify_path_privacy image (ba_path_contract b) = Ok e ->
  compare_builds crates digest reserves scenario a b = Ok (image, m, e).
Proof.
  intros Hl Hk El Ek Hi Ha Hb. unfold compare_builds. rewrite <- Hl, <- Hk, <- El, <- Ek, Hi.
  rewrite (proj2 (require_identical_iff "loader" _ _) eq_refl), bind_value.
  rewrite (proj2 (require_identical_iff "kernel" _ _) eq_refl), bind_value.
  rewrite !(proj2 (evidence_identical_iff _ _) eq_refl), !bind_value. cbn [map_err fst snd].
  rewrite !bind_value. cbn [fst snd]. rewrite (proj2 (require_identical_iff _ image image) eq_refl), bind_value.
  rewrite Ha, bind_value, Hb, bind_value, (proj2 (evidence_identical_iff e e) eq_refl), bind_value. done.
Qed.

Lemma privacy_path_free bytes contract e :
  verify_path_privacy bytes contract = Ok e -> path_free bytes contract.
Proof.
  unfold verify_path_privacy. rewrite bind_unit, check_all_Ok, Forall_forall. intros [H _] r Hr.
  by apply scan_remap_iff, H.
Qed.

Lemma fs_call_Ok {A} (m : io FsState FsError A) (s s' : ReproWorld W) a :
  fs_call m s = (Ok a, s') -> exists fs, m (rw_fs s) = (Ok a, fs) /\ rw_fs s' = fs.
Proof.
  unfold fs_call. destruct (m (rw_fs s)) as [[x|e|] fs]; cbn; intros H; try done.
  injection H as <- <-. by exists fs.
Qed.

(** The file an output names, and the temporary file it is written through. *)
Definition target_of (o : OutputPath) : option location :=
  name ← op_file_name o; Some (output_directory o, name).
Definition temporary_of (o : OutputPath) : option location :=
  name ← op_file_name o; Some (output_directory o, temporary_name name (ascii_bytes ".repro-") pid).

(** Writing [o'] later leaves the file of [o] alone. *)
Definition apart (o o' : OutputPath) : Prop := target_of o <> target_of o' /\ target_of o <> temporary_of o'.

(** The files asked for, in the order they are written: the image, and from the
    first build the loader, the kernel and its linker map. *)
Definition requested_outputs (request : ReproRequest) (image : list Z) (first : BuiltArtifacts)
    : list (OutputPath * list Z) :=
  (rr_output request, image)
  :: ((fun o => (o, ba_loader first)) <$> option_list (rr_verified_loader_output request))
  ++ ((fun o => (o, ba_kernel first)) <$> option_list (rr_verified_kernel_output request))
  ++ ((fun o => (o, default [] (ba_kernel_map first))) <$> option_list (rr_verified_kernel_map_output request)).

Definition holds (f : files) (o : OutputPath) (bytes : list Z) : Prop :=
  exists l, target_of o = Some l /\ f !! l = Some bytes.

(** Writing [l] one after the other turns the files [f] into [f']. *)
Fixpoint written (l : list (OutputPath * list Z)) (f f' : files) : Prop :=
  match l with
  | [] => f' = f
  | (o, bytes) :: l => exists f1, holds f1 o bytes /\
      (forall k, target_of o <> Some k -> temporary_of o <> Some k -> f1 !! k = f !! k) /\ written l f1 f'
  end.

Lemma written_app l1 l2 : forall f f1 f', written l1 f f1 -> written l2 f1 f' -> written (l1 ++ l2) f f'.
Proof.
  induction l1 as [|[o b] l1 IH]; intros f f1 f'; cbn [written app]; [by intros ->|].
  intros (f0 & Hh & Hk & H1) H2. exists f0. split_and!; try done. by eapply IH.
Qed.

Lemma written_frame l : forall f f', written l f f' ->
  forall k, Forall (fun p => target_of p.1 <> Some k /\ temporary_of p.1 <> Some k) l -> f' !! k = f !! k.
Proof.
  induction l as [|[o b] l IH]; intros f f' H k Hk; cbn [written] in H; [by subst|].
  destruct H as (f1 & _ & Hf & H). apply Forall_cons in Hk as [[Ht Hm] Hk].
  rewrite (IH _ _ H k Hk). by apply Hf.
Qed.

Lemma written_holds l1 o b l2 f f' :
  written (l1 ++ (o, b) :: l2) f f' -> Forall (fun p => apart o p.1) l2 -> holds f' o b.
Proof.
  revert f. induction l1 as [|[o1 b1] l1 IH]; intros f H Ha; cbn [written app] in H;
    destruct H as (f1 & Hh & _ & H); [|by eapply IH].
  destruct Hh as (k & Hk & Hb). exists k. split; [done|]. rewrite (written_frame _ _ _ H); [done|].
  eapply Forall_impl; [exact Ha|]. intros [o' b'] [H1 H2]. rewrite Hk in H1, H2. cbn [fst] in *. split; congruence.
Qed.

Lemma write_one o bytes (s s' : ReproWorld W) :
  fs_call (write_verified_file os pid o bytes) s = (Ok tt, s') ->
  written [(o, bytes)] (fs_files (rw_fs s)) (fs_files (rw_fs s')).
Proof.
  intros H. apply fs_call_Ok in H as (fs & Hw & Hfs). exists (fs_files fs). rewrite Hfs.
  pose proof Hw as (name & Hn & Hf)%write_verified_file_Ok. unfold holds, target_of, temporary_of. rewrite Hn. cbn.
  split; [by eexists|]. split; [|done]. intros k Hk Ht.
  destruct (writer_atomic os pid o name bytes ".repro-" (write_verified_file os pid o bytes) (rw_fs s) Hn)
    as (moments & _ & Hi & _); [unfold writers; rewrite !elem_of_cons; auto|].
  rewrite Hw in Hi. apply Forall_cons in Hi as [[_ Hi] _]. apply Hi; intros ->; [by apply Hk|by apply Ht].
Qed.

Lemma write_option o bytes (s s' : ReproWorld W) :
  write_optional os pid o bytes s = (Ok tt, s') ->
  written ((fun o => (o, bytes)) <$> option_list o) (fs_files (rw_fs s)) (fs_files (rw_fs s')).
Proof. destruct o as [o|]; [apply write_one|]. by intros [= <-]. Qed.

Lemma write_outputs_written request image b (s s' : ReproWorld W) :
  write_outputs os pid request image b s = (Ok tt, s') ->
  written (requested_outputs request image b) (fs_files (rw_fs s)) (fs_files (rw_fs s')) /\
  (is_Some (rr_verified_kernel_map_output request) -> is_Some (ba_kernel_map b)).
Proof.
  unfold write_outputs. intros H. apply io_bind_Ok in H as ([] & s1 & H1 & H).
  apply io_bind_Ok in H as ([] & s2 & H2 & H). apply io_bind_Ok in H as ([] & s3 & H3 & H).
  assert (written ((fun o => (o, default [] (ba_kernel_map b))) <$> option_list (rr_verified_kernel_map_output request))
            (fs_files (rw_fs s3)) (fs_files (rw_fs s')) /\
          (is_Some (rr_verified_kernel_map_output request) -> is_Some (ba_kernel_map b))) as [H4 Hm].
  { destruct (rr_verified_kernel_map_output request) as [o|].
    - inv_io. match goal with H : require _ _ = Ok _ |- _ => unfold require in H; apply ok_or_Ok in H as -> end.
      split; [by apply write_one|done].
    - injection H as <-. split; [done|]. by intros []. }
  split; [|done]. apply (written_app [_] _ _ _ _ (write_one _ _ _ _ H1)).
  eapply written_app; [by apply write_option|]. eapply written_app; [by apply write_option|done].
Qed.

Lemma create_temporary_directory_new parent (s s' : ReproWorld W) l :
  create_temporary_directory os pid parent s = (Ok l, s') -> l ∉ fs_directories (rw_fs s).
Proof.
  unfold create_temporary_directory. intros H.
  pose proof (temporary_directory_adds os parent (ascii_bytes "repro") pid (rw_next_id s) (rw_fs s)) as Hn.
  destruct (TemporaryDirectory_create _ _ _ _ _ _) as [[[l' id]| |] fs]; [|done..].
  injection H as -> _. by destruct Hn as (_ & _ & Hn & _).
Qed.

Lemma drop_keeps_files l fs : fs_files (remove_dir_all os l fs).2 = fs_files fs.
Proof.
  unfold remove_dir_all. by destruct (os_fails os (fs_calls fs)).
Qed.
End Verify.

(** ** Properties *)

(** C25. The flags handed to rustc cannot be mistaken: for clean, distinct host
    paths and an artifact whose flags pass, the encoded flags exist, are valid
    UTF-8, and cut at the separator give back exactly the artifact's flags and
    then the four remaps, from the broadest (user home) to the most specific
    (target directory), each of which cut at '=' gives back its source and its
    destination. *)
Theorem rustflags_are_unambiguous (artifact : ArtifactSpec) (workspace target_directory : list Z)
    (hp : HostPaths) (c : BuildPathContract) (flags : list (list Z)) :
  flags_text artifact ->
  BuildPathContract_new workspace target_directory hp = Ok c ->
  artifact_rustc_arguments artifact = Ok flags ->
  NoDup (pr_source <$> c) /\
  (pr_source <$> rev c) = [hp_user_home hp; hp_cargo_home hp; workspace; target_directory] /\
  exists encoded text remaps,
    encoded_rustflags artifact c = Ok encoded /\ from_utf8 encoded = Some text /\
    split_where (fun ch => ch =? RUSTFLAG_SEPARATOR) text = flags ++ remaps /\
    Forall2 remap_text (rev c) remaps.
Proof.
  intros Ht Hc Ha. apply contract_iff in Hc as (Hclean & Hnd & ->). split; [done|]. split; [done|].
  destruct (remap_arguments_ok (rev (host_remaps workspace target_directory hp))) as (l & Hl & H2 & Hp & Hs).
  { apply Forall_rev. by apply host_remaps_clean. }
  pose proof (artifact_arguments_plain _ _ Ha) as Hpf. pose proof (artifact_arguments_text _ _ Ht Ha) as Htf.
  exists (encode_utf8 (join RUSTFLAG_SEPARATOR (flags ++ l))), (join RUSTFLAG_SEPARATOR (flags ++ l)), l.
  split_and!; [| | |done].
  - unfold encoded_rustflags, rustc_arguments. rewrite Ha, bind_value, Hl, bind_value.
    rewrite (proj2 (check_all_Ok _ _)); [done|]. apply Forall_app.
    split; [eapply Forall_impl; [exact Hpf|]|eapply Forall_impl; [exact Hp|]]; intros a; apply rustflag_value_iff.
  - apply from_utf8_iff. split; [|done]. apply join_scalar; [by_decide|]. by apply Forall_app.
  - apply split_join.
    + inversion H2. intros E. by apply app_nil in E as [_ E].
    + apply Forall_app.
      split; [eapply Forall_impl; [exact Hpf|]|eapply Forall_impl; [exact Hp|]]; intros a [_ Hn]; done.
Qed.

(** C24. The path scan is exact: it fails on an artifact exactly when a host path
    of the contract stands somewhere in its bytes (or is not UTF-8), and its
    evidence counts every place where a normalized path stands, overlapping
    ones included. *)
Theorem path_scan_is_exact (bytes : list Z) (contract : BuildPathContract) :
  len bytes < 2 ^ 63 -> len contract < 2 ^ 32 ->
  verify_path_privacy bytes contract <> Panic /\
  forall e, verify_path_privacy bytes contract = Ok e <->
    Forall (fun remap => is_Some (from_utf8 (pr_source remap))) contract /\ path_free bytes contract /\
    e = mkPathPrivacyEvidence (len contract) 0
          (occurrences bytes WORKSPACE_REMAP_DESTINATION) (occurrences bytes CARGO_HOME_REMAP_DESTINATION)
          (occurrences bytes USER_HOME_REMAP_DESTINATION) (occurrences bytes TARGET_REMAP_DESTINATION).
Proof.
  intros Hb Hc. split; [apply verify_path_privacy_no_panic|]. intros e. by apply verify_path_privacy_iff.
Qed.

(** The artifacts of a build in [directory], and an image, hold no host path of
    it. *)
Definition private_build {W : Type} (host : Host W) (workspace directory : list Z) (hp : HostPaths)
    (image : list Z) (b : BuiltArtifacts) : Prop :=
  scanned host workspace directory hp b /\
  path_free (ba_loader b) (ba_path_contract b) /\ path_free (ba_kernel b) (ba_path_contract b) /\
  path_free image (ba_path_contract b).

(** Two builds from world [s1] on, in directories of [temporary], are identical
    and private, the report names their image, loader and kernel, and in [f] every
    requested output holds its bytes unless a later one was written over it. *)
Definition reproduced {W U G V D F : Type} `{EqDecision U} (host : Host W) (crates : DiskCrates U G V D F)
    (digest : list Z -> list Z) (reserves : Z -> bool) (pid : list Z) (request : ReproRequest)
    (report : ReproReport) (cargo workspace : list Z) (hp : HostPaths) (temporary : list Z)
    (s1 : ReproWorld W) (f : files) : Prop :=
  let build_a := path_join temporary (ascii_bytes "build-a") in
  let build_b := path_join temporary (ascii_bytes "build-b") in
  exists first second s2 s3 image m,
    build_once host cargo workspace build_a request hp s1 = (Ok first, s2) /\
    build_once host cargo workspace build_b request hp s2 = (Ok second, s3) /\
    ba_loader first = ba_loader second /\ ba_kernel first = ba_kernel second /\
    build_image_bytes crates digest reserves (ba_loader first) (ba_kernel first) (rr_scenario request)
      = Ok (image, m) /\
    private_build host workspace build_a hp image first /\
    private_build host workspace build_b hp image second /\
    rp_image_sha256 report = im_image_sha256 m /\
    sha256 digest (ba_loader first) = Ok (rp_loader_sha256 report) /\
    sha256 digest (ba_kernel first) = Ok (rp_kernel_sha256 report) /\
    (is_Some (rr_verified_kernel_map_output request) -> is_Some (ba_kernel_map first)) /\
    (forall before o bytes later,
       requested_outputs request image first = before ++ (o, bytes) :: later ->
       Forall (fun p => apart pid o p.1) later -> holds f o bytes) /\
    (forall l, Forall (fun p => target_of p.1 <> Some l /\ temporary_of pid p.1 <> Some l)
                 (requested_outputs request image first) ->
       f !! l = fs_files (rw_fs s3) !! l).

Lemma verify_in_reproduced {W U G V D F : Type} `{EqDecision U} (host : Host W)
    (crates : DiskCrates U G V D F) digest reserves os pid temporary request cargo workspace hp
    rustc_version cargo_version source cargo_lock report (s s' : ReproWorld W) :
  verify_in host crates digest reserves os pid temporary request cargo workspace hp rustc_version
    cargo_version source cargo_lock s = (Ok report, s') ->
  reproduced host crates digest reserves pid request report cargo workspace hp temporary s (fs_files (rw_fs s')).
Proof.
  intros H. unfold verify_in in H. apply io_bind_Ok in H as (a & s2 & Ha & H).
  apply io_bind_Ok in H as (b & s3 & Hb & H). apply io_bind_Ok in H as ([[image m] e] & s4 & Hc & H).
  apply pure_Ok in Hc as [Hc ->]. apply io_bind_Ok in H as ([] & s5 & Hw & H).
  apply pure_Ok in H as [Hr ->].
  apply compare_builds_Ok in Hc as (Hl & Hk & Hi & Ea & Eb).
  apply write_outputs_written in Hw as [Hw Hm].
  pose proof (build_once_scanned _ _ _ _ _ _ _ _ _ Ha) as Sa.
  pose proof (build_once_scanned _ _ _ _ _ _ _ _ _ Hb) as Sb.
  unfold make_report in Hr. repeat (apply bind_Ok in Hr as (? & ? & Hr)). injection Hr as <-.
  exists a, b, s2, s3, image, m. split_and!; try done.
  - split; [exact Sa|]. destruct Sa as (t & _ & _ & _ & S1 & S2). split_and!; by eapply privacy_path_free.
  - split; [exact Sb|]. destruct Sb as (t & _ & _ & _ & S1 & S2). split_and!; by eapply privacy_path_free.
  - intros before o bytes later E Hap. rewrite E in Hw. by eapply written_holds.
  - by apply written_frame.
Qed.

(** C20. A verified build is reproducible and private: when [verify] reports
    success, two builds ran in separate directories of a fresh temporary
    directory, their loaders and kernels are byte-identical, so are the images
    built from them, and no host path of either build (target directory,
    workspace, Cargo home, user home) stands anywhere in loader, kernel or image.
    The report has the digests of image, loader and kernel.  Every file asked for
    (the image, and if requested the verified loader, kernel and kernel linker
    map) holds the image, respectively the bytes of the first build, unless it is
    also the file or the temporary file of a later one; no other file changed
    while they were written.  The linker map is only copied from the first build:
    it is neither compared nor scanned. *)
Theorem verified_build_is_reproducible {W U G V D F : Type} `{EqDecision U} (host : Host W)
    (crates : DiskCrates U G V D F) (digest : list Z -> list Z) (reserves : Z -> bool) (os : Os)
    (pid : list Z) (request : ReproRequest) (report : ReproReport) (s s' : ReproWorld W) :
  verify host crates digest reserves os pid request s = (Ok report, s') ->
  exists cargo workspace hp temporary s0 s1,
    create_temporary_directory os pid (temporary_parent (rr_output request)) s0 = (Ok temporary, s1) /\
    (temporary ∉ fs_directories (rw_fs s0)) /\
    reproduced host crates digest reserves pid request report cargo workspace hp
      (path_join temporary.1 temporary.2) s1 (fs_files (rw_fs s')).
Proof.
  intros H. unfold verify in H. inv_io.
  match goal with H : with_temporary _ ?t _ ?s1 = _, Hc : create_temporary_directory _ _ _ ?s0 = _ |- _ =>
    eexists _, _, _, t, s0, s1; split; [exact Hc|]; unfold with_temporary in H;
    destruct (verify_in _ _ _ _ _ _ _ _ _ _ _ _ _ _ _ s1) as [r s2] eqn:Hv; injection H as -> <-;
    apply verify_in_reproduced in Hv; rename Hc into Hcreate end.
  split; [by eapply create_temporary_directory_new|]. cbn [rw_fs].
  rewrite drop_keeps_files. exact Hv.
Qed.
