(* ===== verification/ReproTotal.v ===== *)
(** The reproducibility check always ends: whatever the programs it runs and the
    files they leave, [verify] (crates/xtask/src/repro.rs) returns a report or an
    error, and its temporary directory does not survive it. *)

From stdpp Require Import gmap.
From S2P Require Import Prelude Bytes Console Text Artifact HostScenario.
From S2P Require Import RawImage RawImageProps HostFs HostFsProps DiskImage DiskImageProps Repro ReproProps.
Import Image.

(** ** Pure steps *)
Lemma bail_if_no_panic c message : bail_if c message <> Panic.
Proof. apply fail_if_no_panic. Qed.
Lemma repro_require_no_panic {A} (o : option A) message : require o message <> Panic.
Proof. apply ok_or_no_panic. Qed.
Lemma rustflag_value_no_panic a : validate_rustflag_value a <> Panic.
Proof. apply bail_if_no_panic. Qed.

Lemma flag_arguments_no_panic flags : flag_arguments flags <> Panic.
Proof.
  induction flags as [|[|a] flags IH]; cbn [flag_arguments]; [done| |].
  - by apply bind_no_panic.
  - apply bind_no_panic; [apply rustflag_value_no_panic|intros _ _]. by apply bind_no_panic.
Qed.

Lemma artifact_arguments_no_panic artifact : artifact_rustc_arguments artifact <> Panic.
Proof.
  unfold artifact_rustc_arguments, validate_artifact_rustc_contract.
  apply bind_no_panic; [by repeat case_match|intros _ _].
  apply bind_no_panic; [apply flag_arguments_no_panic|intros l _].
  apply bind_no_panic; [apply check_all_no_panic, rustflag_value_no_panic|done].
Qed.

Lemma remap_arguments_no_panic remaps : remap_arguments remaps <> Panic.
Proof.
  induction remaps as [|r remaps IH]; [done|]. cbn [remap_arguments]. apply bind_no_panic.
  - unfold remap_argument. apply bind_no_panic; [apply repro_require_no_panic|done].
  - intros a _. by apply bind_no_panic.
Qed.

Lemma encoded_rustflags_no_panic artifact contract : encoded_rustflags artifact contract <> Panic.
Proof.
  unfold encoded_rustflags, rustc_arguments. apply bind_no_panic; [|done].
  apply bind_no_panic; [apply artifact_arguments_no_panic|intros a _].
  apply bind_no_panic; [apply remap_arguments_no_panic|intros r _].
  apply bind_no_panic; [apply check_all_no_panic, rustflag_value_no_panic|done].
Qed.

Lemma remap_path_no_panic path : validate_remap_path path <> Panic.
Proof.
  unfold validate_remap_path. apply bind_no_panic; [apply repro_require_no_panic|intros v _]. apply bail_if_no_panic.
Qed.

Lemma reject_duplicates_no_panic remaps : forall earlier, reject_duplicates earlier remaps <> Panic.
Proof.
  induction remaps as [|r remaps IH]; intros earlier; [done|]. cbn [reject_duplicates].
  apply bind_no_panic; [apply bail_if_no_panic|intros _ _; apply IH].
Qed.

Lemma path_contract_no_panic workspace target hp : BuildPathContract_new workspace target hp <> Panic.
Proof.
  unfold BuildPathContract_new. apply bind_no_panic; [apply check_all_no_panic, remap_path_no_panic|intros _ _].
  apply bind_no_panic; [apply reject_duplicates_no_panic|done].
Qed.

Lemma require_identical_no_panic stage a b : require_identical stage a b <> Panic.
Proof. unfold require_identical. by destruct (first_difference a b). Qed.

(** ** Steps of the check *)
Section Tame.
Context {W : Type}.
Abbreviation M := (io (ReproWorld W) ReproError).

(** [m] never panics, and makes or removes no directory of its own. *)
Definition tame {A} (m : M A) : Prop :=
  forall s, (m s).1 <> Panic /\ fs_directories (rw_fs (m s).2) = fs_directories (rw_fs s).

(** A continuation is only run on results of the first step. *)
Lemma tame_bind {A B} (m : M A) (k : A -> M B) :
  tame m -> (forall a, (exists s s', m s = (Ok a, s')) -> tame (k a)) -> tame (m ≫= k).
Proof.
  intros Hm Hk s. destruct (Hm s) as [H1 H2]. unfold mbind, io_bind.
  destruct (m s) as [[a|e|] s1] eqn:E; [|done..]. destruct (Hk a) with s1 as [H3 H4]; [by exists s, s1|].
  split; [done|by rewrite H4].
Qed.
Lemma tame_ret {A} (a : A) : tame (mret a).
Proof. done. Qed.
Lemma tame_pure {A} (m : exec ReproError A) : m <> Panic -> tame (pure m).
Proof. done. Qed.
Lemma tame_asks {A} (f : W -> A) : tame (asks f).
Proof. done. Qed.
Lemma tame_host_call {A} (f : W -> A * W) : tame (host_call f).
Proof. intros s. unfold host_call. by destruct (f _). Qed.
Lemma tame_fs_call {A} (m : io FsState FsError A) : files_only m -> tame (fs_call m).
Proof.
  intros Hm s. destruct (Hm (rw_fs s)) as [H1 H2]. unfold fs_call.
  destruct (m (rw_fs s)) as [r fs]. split; [by apply map_err_no_panic|done].
Qed.
End Tame.

(** Walks through a computation of tame steps. *)
Ltac tame_steps :=
  repeat first
    [ apply tame_ret | apply tame_asks | apply tame_host_call
    | apply tame_pure; first [ done | apply repro_require_no_panic | apply bail_if_no_panic
        | apply encoded_rustflags_no_panic | apply path_contract_no_panic | apply remap_path_no_panic
        | apply verify_path_privacy_no_panic ]
    | apply tame_fs_call, write_verified_files_only
    | apply tame_bind; [|intros ? _]
    | match goal with |- tame (match ?x with _ => _ end) => destruct x end ].

Section Steps.
Context {W : Type} (host : Host W).

Lemma tame_resolve_cargo o : tame (resolve_cargo host o).
Proof. unfold resolve_cargo, require_executable, find_on_path. tame_steps. Qed.
Lemma tame_resolve_rustc : tame (resolve_rustc host).
Proof. unfold resolve_rustc, require_executable, find_on_path. tame_steps. Qed.
Lemma tame_tool_version tool arguments : tame (tool_version host tool arguments).
Proof. unfold tool_version. tame_steps. Qed.
Lemma tame_git workspace : tame (git_source_state host workspace).
Proof. unfold git_source_state. tame_steps. Qed.
Lemma tame_discover workspace : tame (HostPaths_discover host workspace).
Proof. unfold HostPaths_discover, canonical_directory. tame_steps. Qed.
Lemma tame_build_artifact cargo workspace target artifact contract hp :
  tame (build_artifact host cargo workspace target artifact contract hp).
Proof. unfold build_artifact. tame_steps. Qed.
Lemma tame_read_bounded path : tame (read_bounded_path host path).
Proof. unfold read_bounded_path. tame_steps. Qed.
Lemma tame_build_once cargo workspace target request hp : tame (build_once host cargo workspace target request hp).
Proof.
  unfold build_once, read_artifact, traverse. tame_steps; first [apply tame_build_artifact|apply tame_read_bounded].
Qed.
End Steps.

Section Verify.
Context {W U G V D F : Type} `{EqDecision U}.
Variables (host : Host W) (crates : DiskCrates U G V D F).
Variables (digest : list Z -> list Z) (reserves : Z -> bool) (os : Os) (pid : list Z).
Context `{!FatLaws crates}.
Hypothesis Hdigest : forall l, is_bytes (digest l).
Hypothesis Hread : forall p w b, h_read host p w = Some b -> slice_ok b.

Lemma read_bounded_slice path s bytes s' : read_bounded_path host path s = (Ok bytes, s') -> slice_ok bytes.
Proof using Hread.
  unfold read_bounded_path, require. intros H. inv_io.
  match goal with H : ok_or _ _ = Ok bytes |- _ => apply ok_or_Ok in H; by eapply Hread end.
Qed.

Lemma build_once_slices cargo workspace target request hp s b s' :
  build_once host cargo workspace target request hp s = (Ok b, s') ->
  slice_ok (ba_loader b) /\ slice_ok (ba_kernel b).
Proof using Hread.
  unfold build_once, read_artifact. intros H. inv_io. injection H as <- _. cbn [ba_loader ba_kernel].
  repeat match goal with H : read_bounded_path _ _ _ = _ |- _ => apply read_bounded_slice in H end. done.
Qed.

Lemma compare_builds_no_panic scenario a b :
  slice_ok (ba_loader a) -> slice_ok (ba_kernel a) -> slice_ok (ba_loader b) -> slice_ok (ba_kernel b) ->
  compare_builds crates digest reserves scenario a b <> Panic.
Proof using All.
  intros Ha1 Ha2 Hb1 Hb2. unfold compare_builds, require_privacy_evidence_identical.
  repeat (apply bind_no_panic; [first [ apply require_identical_no_panic | apply bail_if_no_panic
    | apply verify_path_privacy_no_panic | by apply map_err_no_panic, build_image_bytes_no_panic ]|intros ? _]).
  done.
Qed.

Lemma make_report_no_panic request rustc cargo source lock b m e :
  make_report digest request rustc cargo source lock b m e <> Panic.
Proof using Hdigest.
  unfold make_report, sha256.
  repeat (apply bind_no_panic; [first [ apply (sha256_hex_no_panic digest Hdigest) | apply artifact_arguments_no_panic
    | apply repro_require_no_panic ]|intros ? _]). done.
Qed.

Lemma tame_verify_in temporary request cargo workspace hp rustc_version cargo_version source lock :
  tame (verify_in host crates digest reserves os pid temporary request cargo workspace hp rustc_version
          cargo_version source lock).
Proof using All.
  unfold verify_in. apply tame_bind; [apply tame_build_once|intros a (s & s' & Ha)].
  apply build_once_slices in Ha as [Ha1 Ha2]. apply tame_bind; [apply tame_build_once|intros b (s1 & s1' & Hb)].
  apply build_once_slices in Hb as [Hb1 Hb2].
  apply tame_bind; [by apply tame_pure, compare_builds_no_panic|intros [[image m] e] _].
  apply tame_bind; [|intros _ _; apply tame_pure, make_report_no_panic].
  unfold write_outputs, write_optional. tame_steps.
Qed.

(** The whole check: it ends, and when no file-system call fails its temporary
    directory is gone. *)
Lemma verify_total request s :
  let '(r, s') := verify host crates digest reserves os pid request s in
  r <> Panic /\
  ((forall n, os_fails os n = false) -> fs_directories (rw_fs s') = fs_directories (rw_fs s)).
Proof using All.
  set (P := fun (m : io (ReproWorld W) ReproError ReproReport) => forall s, let '(r, s') := m s in r <> Panic /\
    ((forall n, os_fails os n = false) -> fs_directories (rw_fs s') = fs_directories (rw_fs s))).
  assert (forall A (m : io (ReproWorld W) ReproError A) k, tame m -> (forall a, P (k a)) -> P (m ≫= k)) as Hstep.
  { intros A m k Hm Hk s0. unfold mbind, io_bind. destruct (Hm s0) as [H1 H2].
    destruct (m s0) as [[a|e|] s1]; [|done..]. specialize (Hk a s1). destruct (k a s1) as [r s2].
    destruct Hk as [H3 H4]. split; [done|]. intros Ho. by rewrite H4. }
  revert s. change (P (verify host crates digest reserves os pid request)). unfold verify.
  repeat (apply Hstep; [solve [ apply tame_resolve_cargo | apply tame_resolve_rustc | apply tame_discover
    | apply tame_tool_version | apply tame_git | tame_steps ]|intros ?]).
  intros s. unfold mbind, io_bind. unfold create_temporary_directory at 1.
  pose proof (temporary_directory_adds os (temporary_parent (rr_output request)) (ascii_bytes "repro") pid
    (rw_next_id s) (rw_fs s)) as Hn.
  destruct (TemporaryDirectory_create _ _ _ _ _ _) as [[[l id]|e|] fs]; [|naive_solver..].
  destruct Hn as (_ & _ & Hnew & Hd). unfold with_temporary.
  match goal with |- context [verify_in host crates digest reserves os pid ?t request ?c ?w ?hp ?rv ?cv ?so ?lo ?s1] =>
    destruct (tame_verify_in t request c w hp rv cv so lo s1) as [H1 H2];
    destruct (verify_in host crates digest reserves os pid t request c w hp rv cv so lo s1) as [r s2] end.
  cbn [fst snd rw_fs] in *. split; [done|]. intros Ho. unfold TemporaryDirectory_drop, ignore, remove_dir_all.
  rewrite Ho. cbn [snd fs_directories]. rewrite H2, Hd. set_solver.
Qed.
End Verify.
