(* ===== verification/ReproDemo.v ===== *)
(** A host on which the reproducibility check succeeds, with the image of
    [DiskDemo]: the theorems of [ReproProps] applied to it. *)

From stdpp Require Import gmap.
From S2P Require Import Prelude Bytes BootElf ElfSpec ElfProps Console Text Artifact HostScenario.
From S2P Require Import RawImage RawImageProps HostFs HostFsProps DiskImage DiskImageProps DiskDemo Repro ReproProps.
Import Image.

Definition demo_home : list Z := ascii_bytes "/home/u".
Definition demo_host : Host unit := {|
  h_env name := if bool_decide (name = "HOME"%string) then Some demo_home
                else if bool_decide (name = "RUSTC"%string) then Some (ascii_bytes "/usr/rustc") else None;
  h_canonicalize path _ := Some (if is_absolute path then path else ascii_bytes "/ws/" ++ path);
  h_is_file _ _ := true;
  h_is_dir _ _ := true;
  h_metadata _ _ := Some (true, 4096);
  h_read path _ := Some (if bool_decide (last path = Some 105) then demo_loader
                         else if bool_decide (last path = Some 52) then sample_elf else []);
  h_create_dir_all _ w := (true, w);
  h_run _ w := (Some (mkOutput true [] []), w)
|}.
Definition demo_os : Os := mkOs (fun _ => false) (fun _ => 2 ^ 40).

(** The image and the three verified outputs, as the release check asks for them. *)
Definition demo_output (name : string) : OutputPath :=
  mkOutputPath (Some (ascii_bytes "out")) (Some (ascii_bytes name)).
Definition demo_outputs : list OutputPath :=
  demo_output <$> ["disk.img"; "loader.efi"; "kernel"; "kernel.map"]%string.
Definition demo_request : ReproRequest :=
  mkReproRequest (ascii_bytes "/ws") (Some (ascii_bytes "/usr/cargo")) default_loader default_kernel
    (demo_output "disk.img") (Some (demo_output "loader.efi")) (Some (demo_output "kernel"))
    (Some (demo_output "kernel.map"))
    (Some (ascii_bytes "kernel.map")) Normal.
Definition demo_paths : HostPaths := mkHostPaths (ascii_bytes "/home/u/.cargo") demo_home.
Definition demo_temporary : location := (ascii_bytes "out", ascii_bytes ".polytope-repro-7-0").
Definition demo_fs0 : FsState := mkFsState ∅ ∅ [] 0.
Definition demo_fs1 : FsState := mkFsState ∅ {[ demo_temporary ]} [∅; ∅] 2.

Definition demo_build_in (name : string) : exec ReproError BuiltArtifacts :=
  (build_once demo_host (ascii_bytes "/usr/cargo") (ascii_bytes "/ws")
     (path_join (ascii_bytes "out/.polytope-repro-7-0") (ascii_bytes name)) demo_request demo_paths
     (mkReproWorld tt demo_fs1 1)).1.
Definition demo_artifacts (name : string) : BuiltArtifacts :=
  mkBuiltArtifacts demo_loader sample_elf (Some [])
    (mkPathPrivacyEvidence 4 0 0 0 0 0) (mkPathPrivacyEvidence 4 0 0 0 0 0)
    (host_remaps (ascii_bytes "/ws")
       (ascii_bytes "/ws/" ++ path_join (ascii_bytes "out/.polytope-repro-7-0") (ascii_bytes name)) demo_paths).

Lemma demo_builds name fs :
  name = "build-a"%string \/ name = "build-b"%string ->
  build_once demo_host (ascii_bytes "/usr/cargo") (ascii_bytes "/ws")
    (path_join (ascii_bytes "out/.polytope-repro-7-0") (ascii_bytes name)) demo_request demo_paths
    (mkReproWorld tt fs 1) = (Ok (demo_artifacts name), mkReproWorld tt fs 1).
Proof. intros [-> | ->]; vm_compute; reflexivity. Qed.

(** ** No path stands in the image: it has no '/' *)
Definition no_slash (l : list Z) : Prop := Forall (fun b => b <> 47) l.

Lemma no_slash_zeros n : no_slash (zeros n).
Proof. apply Forall_replicate. lia. Qed.

#[local] Opaque sub_list zeros Z.to_nat.

Lemma demo_disk_no_slash : no_slash demo_disk.
Proof.
  assert (no_slash demo_fat) as Hf.
  { unfold no_slash, demo_fat, demo_fat_pieces. cbn [concat].
    repeat (apply Forall_app; split; [first [apply no_slash_zeros|by_decide]|]). constructor. }
  assert (no_slash demo_esp) as He.
  { unfold no_slash, demo_esp, demo_esp_pieces. cbn [concat].
    repeat (apply Forall_app; split;
      [match goal with
       | |- Forall _ demo_fat => exact Hf
       | |- Forall _ (zeros _) => apply no_slash_zeros
       | _ => by_decide
       end|]). constructor. }
  unfold no_slash, demo_disk, canonical_disk. cbn [concat].
  repeat (apply Forall_app; split;
    [match goal with
     | |- Forall _ demo_esp => exact He
     | |- Forall _ (zeros _) => apply no_slash_zeros
     | _ => by_decide
     end|]). constructor.
Qed.

Lemma no_slash_path_free bytes contract :
  no_slash bytes -> Forall (fun r => is_absolute (pr_source r) = true) contract -> path_free bytes contract.
Proof.
  intros Hb Hc r Hr Hne o Ho. rewrite Forall_forall in Hc. apply Hc in Hr. unfold no_slash in Hb.
  rewrite Forall_forall in Hb. destruct (pr_source r) as [|c p]; [done|]. cbn in Hr.
  apply Z.eqb_eq in Hr as ->. apply (Hb 47); [|done]. unfold occurs in Ho.
  assert (47 ∈ take (length (47 :: p)) (drop o bytes)) as Hin by (rewrite Ho; left).
  apply elem_of_take in Hin as (i & Hi & _). rewrite lookup_drop in Hi. by eapply list_elem_of_lookup_2.
Qed.

Lemma demo_disk_private name :
  name = "build-a"%string \/ name = "build-b"%string ->
  verify_path_privacy demo_disk (ba_path_contract (demo_artifacts name)) =
  Ok (mkPathPrivacyEvidence 4 0
        (occurrences demo_disk WORKSPACE_REMAP_DESTINATION) (occurrences demo_disk CARGO_HOME_REMAP_DESTINATION)
        (occurrences demo_disk USER_HOME_REMAP_DESTINATION) (occurrences demo_disk TARGET_REMAP_DESTINATION)).
Proof.
  intros Hn. apply verify_path_privacy_iff; [rewrite demo_disk_len; by_decide|reflexivity|]. split; [|split].
  - destruct Hn as [-> | ->]; apply (bool_decide_unpack _); vm_compute; exact I.
  - apply no_slash_path_free; [exact demo_disk_no_slash|]. destruct Hn as [-> | ->]; by_decide.
  - reflexivity.
Qed.

Lemma demo_compare : exists e,
  compare_builds demo_crates demo_digest demo_reserves Normal (demo_artifacts "build-a")
    (demo_artifacts "build-b") = Ok (demo_disk, demo_manifest, e).
Proof.
  eexists. apply compare_builds_intro; [reflexivity|reflexivity|reflexivity|reflexivity|exact demo_build| |];
    apply demo_disk_private; auto.
Qed.

(** ** The run *)
Lemma run_step {A B} (m : io (ReproWorld unit) ReproError A) (k : A -> io (ReproWorld unit) ReproError B) s a s1 :
  m s = (Ok a, s1) -> (m ≫= k) s = k a s1.
Proof. unfold mbind, io_bind. by intros ->. Qed.

Lemma fs_call_run {A} (m : io FsState FsError A) fs r fs' (w : unit) id :
  m fs = (Ok r, fs') -> fs_call m (mkReproWorld w fs id) = (Ok r, mkReproWorld w fs' id).
Proof. intros H. unfold fs_call. cbn [rw_fs rw_host rw_next_id]. by rewrite H. Qed.

#[local] Opaque write_verified_file.

(** A write succeeds when the temporary name is free. *)
Lemma demo_write o bytes fs :
  (forall l, temporary_of (ascii_bytes "7") o = Some l -> fs_files fs !! l = None) ->
  is_Some (op_file_name o) ->
  exists fs', fs_call (write_verified_file demo_os (ascii_bytes "7") o bytes) (mkReproWorld tt fs 1)
      = (Ok tt, mkReproWorld tt fs' 1) /\
    written (ascii_bytes "7") [(o, bytes)] (fs_files fs) (fs_files fs').
Proof.
  intros Ht [name Hn].
  destruct (writer_atomic demo_os (ascii_bytes "7") o name bytes ".repro-"
    (write_verified_file demo_os (ascii_bytes "7") o bytes) fs Hn) as (_ & _ & _ & _ & _ & Hok);
    [unfold writers; rewrite !elem_of_cons; auto|].
  assert ((write_verified_file demo_os (ascii_bytes "7") o bytes fs).1 = Ok tt) as Hw.
  { apply Hok; [done|]. apply Ht. unfold temporary_of. by rewrite Hn. }
  destruct (write_verified_file demo_os (ascii_bytes "7") o bytes fs) as [r fs'] eqn:E. cbn [fst] in Hw. subst r.
  exists fs'. apply (fs_call_run _ _ _ _ tt 1) in E. split; [done|]. exact (write_one _ _ _ _ _ _ E).
Qed.

(** Distinct outputs of the demo disturb neither each other nor their temporaries. *)
Definition demo_free (names : list string) (fs : FsState) : Prop :=
  Forall (fun name => forall l, temporary_of (ascii_bytes "7") (demo_output name) = Some l ->
                                fs_files fs !! l = None) names.

Lemma demo_write_next name names bytes fs :
  demo_free (name :: names) fs ->
  Forall (fun name' => temporary_of (ascii_bytes "7") (demo_output name') <> target_of (demo_output name) /\
    temporary_of (ascii_bytes "7") (demo_output name') <> temporary_of (ascii_bytes "7") (demo_output name)) names ->
  exists fs', fs_call (write_verified_file demo_os (ascii_bytes "7") (demo_output name) bytes) (mkReproWorld tt fs 1)
      = (Ok tt, mkReproWorld tt fs' 1) /\ demo_free names fs'.
Proof.
  intros [Hf Hfs]%Forall_cons Hn.
  destruct (demo_write (demo_output name) bytes fs Hf ltac:(by eexists)) as (fs' & Hw & Hwr).
  exists fs'. split; [done|]. unfold demo_free in *. rewrite Forall_forall in *. intros name' Hin l Hl.
  rewrite (written_frame _ _ _ _ Hwr l); [by apply (Hfs name')|].
  apply Forall_singleton. destruct (Hn name' Hin) as [H1 H2]. rewrite Hl in H1, H2. cbn [fst]; split; congruence.
Qed.

#[local] Opaque demo_disk.

Lemma demo_write_outputs : exists fs,
  write_outputs demo_os (ascii_bytes "7") demo_request demo_disk (demo_artifacts "build-a")
    (mkReproWorld tt demo_fs1 1) = (Ok tt, mkReproWorld tt fs 1).
Proof.
  destruct (demo_write_next "disk.img" ["loader.efi"; "kernel"; "kernel.map"]%string demo_disk demo_fs1)
    as (f1 & H1 & F1); [repeat constructor; intros l _; apply lookup_empty|by_decide|].
  destruct (demo_write_next "loader.efi" ["kernel"; "kernel.map"]%string demo_loader f1 F1)
    as (f2 & H2 & F2); [by_decide|].
  destruct (demo_write_next "kernel" ["kernel.map"]%string sample_elf f2 F2) as (f3 & H3 & F3); [by_decide|].
  destruct (demo_write_next "kernel.map" []%string [] f3 F3) as (f4 & H4 & _); [constructor|].
  exists f4. unfold write_outputs. rewrite (run_step _ _ _ _ _ H1), (run_step _ _ _ _ _ H2), (run_step _ _ _ _ _ H3).
  exact H4.
Qed.

Lemma demo_verify_in : exists report fs,
  verify_in demo_host demo_crates demo_digest demo_reserves demo_os (ascii_bytes "7")
    (ascii_bytes "out/.polytope-repro-7-0") demo_request (ascii_bytes "/usr/cargo") (ascii_bytes "/ws")
    demo_paths [] [] (Some [], Some true) [] (mkReproWorld tt demo_fs1 1)
  = (Ok report, mkReproWorld tt fs 1).
Proof.
  destruct demo_compare as [e He]. destruct demo_write_outputs as [fs Ho]. eexists _, fs. unfold verify_in.
  rewrite (run_step _ _ _ _ _ (demo_builds "build-a" demo_fs1 (or_introl eq_refl))).
  rewrite (run_step _ _ _ _ _ (demo_builds "build-b" demo_fs1 (or_intror eq_refl))).
  change (rr_scenario demo_request) with Normal.
  rewrite (run_step (pure (compare_builds _ _ _ _ _ _)) _ _ _ _ (f_equal (fun r => (r, _)) He)).
  cbv beta iota. rewrite (run_step _ _ _ _ _ Ho). reflexivity.
Qed.

(** The steps before the temporary directory exists. *)
Definition demo_world : ReproWorld unit := mkReproWorld tt demo_fs0 0.

Lemma demo_discovery :
  resolve_cargo demo_host (Some (ascii_bytes "/usr/cargo")) demo_world = (Ok (ascii_bytes "/usr/cargo"), demo_world) /\
  resolve_rustc demo_host demo_world = (Ok (ascii_bytes "/usr/rustc"), demo_world) /\
  HostPaths_discover demo_host (ascii_bytes "/ws") demo_world = (Ok demo_paths, demo_world) /\
  tool_version demo_host (ascii_bytes "/usr/cargo") ["--version"]%string demo_world = (Ok [], demo_world) /\
  tool_version demo_host (ascii_bytes "/usr/rustc") ["--version"; "--verbose"]%string demo_world
    = (Ok [], demo_world) /\
  git_source_state demo_host (ascii_bytes "/ws") demo_world = (Ok (Some [], Some true), demo_world) /\
  create_temporary_directory demo_os (ascii_bytes "7") (temporary_parent (rr_output demo_request)) demo_world
    = (Ok demo_temporary, mkReproWorld tt demo_fs1 1) /\
  asks (h_canonicalize demo_host (rr_workspace demo_request)) demo_world
    = (Ok (Some (ascii_bytes "/ws")), demo_world) /\
  asks (h_read demo_host (path_join (ascii_bytes "/ws") (ascii_bytes "Cargo.lock"))) demo_world
    = (Ok (Some []), demo_world).
Proof. split_and!; vm_compute; reflexivity. Qed.

Lemma demo_verify : exists report s',
  verify demo_host demo_crates demo_digest demo_reserves demo_os (ascii_bytes "7") demo_request demo_world
  = (Ok report, s').
Proof.
  destruct demo_verify_in as (report & fs & Hv). exists report. eexists. unfold verify.
  destruct demo_discovery as (H1 & H2 & H3 & H4 & H5 & H6 & H7 & H8 & H9).
  rewrite (run_step _ _ _ _ _ H8).
  rewrite (run_step (pure (require (Some (ascii_bytes "/ws")) _)) _ _ _ _ eq_refl).
  rewrite (run_step _ _ _ _ _ H1), (run_step _ _ _ _ _ H2), (run_step _ _ _ _ _ H3),
    (run_step _ _ _ _ _ H4), (run_step _ _ _ _ _ H5), (run_step _ _ _ _ _ H9).
  rewrite (run_step (pure (require (Some []) _)) _ _ _ _ eq_refl).
  rewrite (run_step _ _ _ _ _ H6), (run_step _ _ _ _ _ H7).
  unfold with_temporary. change (path_join demo_temporary.1 demo_temporary.2)
    with (ascii_bytes "out/.polytope-repro-7-0"). rewrite Hv. reflexivity.
Qed.

(** All four requested files are there at the end. *)
Lemma verified_build_is_reproducible_witness : exists report (s' : ReproWorld unit) cargo workspace hp temporary s0 s1,
    create_temporary_directory demo_os (ascii_bytes "7") (temporary_parent (rr_output demo_request)) s0
      = (Ok temporary, s1) /\
    (temporary ∉ fs_directories (rw_fs s0)) /\
    reproduced demo_host demo_crates demo_digest demo_reserves (ascii_bytes "7") demo_request report cargo workspace
      hp (path_join temporary.1 temporary.2) s1 (fs_files (rw_fs s')) /\
    Forall (fun o => exists bytes, holds (fs_files (rw_fs s')) o bytes) demo_outputs.
Proof.
  destruct demo_verify as (report & s' & H). exists report, s'.
  destruct (verified_build_is_reproducible demo_host demo_crates demo_digest demo_reserves demo_os
    (ascii_bytes "7") demo_request report demo_world s' H)
    as (cargo & workspace & hp & temporary & s0 & s1 & H1 & H2 & H3).
  exists cargo, workspace, hp, temporary, s0, s1. split; [exact H1|]. split; [exact H2|]. split; [exact H3|].
  destruct H3 as (first & second & s2 & s3 & image & m & _ & _ & _ & _ & _ & _ & _ & _ & _ & _ & _ & Ho & _).
  unfold demo_outputs. cbn [fmap list_fmap].
  constructor; [exists image|constructor; [exists (ba_loader first)|constructor; [exists (ba_kernel first)|
    constructor; [exists (default [] (ba_kernel_map first))|constructor]]]].
  - apply (Ho [] _ _ _ eq_refl). repeat constructor; by_decide.
  - apply (Ho [_] _ _ _ eq_refl). repeat constructor; by_decide.
  - apply (Ho [_; _] _ _ _ eq_refl). repeat constructor; by_decide.
  - apply (Ho [_; _; _] _ _ _ eq_refl). constructor.
Defined.

(** The default kernel, built in [/t]. *)
Lemma rustflags_are_unambiguous_witness : exists encoded text remaps,
    encoded_rustflags default_kernel (host_remaps (ascii_bytes "/ws") (ascii_bytes "/t") demo_paths) = Ok encoded /\
    from_utf8 encoded = Some text /\
    split_where (fun ch => ch =? RUSTFLAG_SEPARATOR) text =
      [ascii_bytes "-C"; ascii_bytes "relocation-model=static"; ascii_bytes "-C"; ascii_bytes "link-arg=-no-pie"]
      ++ remaps /\
    Forall2 remap_text (rev (host_remaps (ascii_bytes "/ws") (ascii_bytes "/t") demo_paths)) remaps.
Proof.
  destruct (rustflags_are_unambiguous default_kernel (ascii_bytes "/ws") (ascii_bytes "/t") demo_paths
    (host_remaps (ascii_bytes "/ws") (ascii_bytes "/t") demo_paths)
    [ascii_bytes "-C"; ascii_bytes "relocation-model=static"; ascii_bytes "-C"; ascii_bytes "link-arg=-no-pie"])
    as (_ & _ & H).
  - intros a Ha. unfold default_kernel in Ha. cbn [as_rustc_flags] in Ha.
    rewrite !elem_of_cons, elem_of_nil in Ha. destruct Ha as [|[[= ->]|[]]]; [done|].
    apply ascii_scalar. by_decide.
  - vm_compute. reflexivity.
  - vm_compute. reflexivity.
  - exact H.
Defined.

(** The sample bytes hold the workspace's destination once and no host path. *)
Lemma path_scan_is_exact_witness :
  verify_path_privacy (WORKSPACE_REMAP_DESTINATION ++ ascii_bytes "/lib.rs")
    (host_remaps (ascii_bytes "/ws") (ascii_bytes "/t") demo_paths) = Ok (mkPathPrivacyEvidence 4 0 1 0 0 0).
Proof.
  destruct (path_scan_is_exact (WORKSPACE_REMAP_DESTINATION ++ ascii_bytes "/lib.rs")
    (host_remaps (ascii_bytes "/ws") (ascii_bytes "/t") demo_paths)) as [_ H].
  - vm_compute. reflexivity.
  - vm_compute. reflexivity.
  - apply H. split; [by_decide|]. split; [|vm_compute; reflexivity].
    apply (privacy_path_free _ _ (mkPathPrivacyEvidence 4 0 1 0 0 0)). vm_compute. reflexivity.
Defined.
