(* ===== verification/XtaskCli.v ===== *)
(** The command line of crates/xtask/src/main.rs.

    Arguments are byte strings ([OsString]), option names and textual values are
    Unicode texts.  What a parsed command does is in [Xtask]. *)

From stdpp Require Import gmap.
From S2P Require Import Prelude Bytes Console Text HostScenario HostFs Repro.
Import Image.

Definition DEFAULT_IMAGE : list Z := ascii_bytes "target/polytope/polytope-x86_64.img".
Definition DEFAULT_BASELINE : list Z := ascii_bytes "target/polytope/boot-baseline.json".
Definition DEFAULT_OVMF_CACHE : list Z := ascii_bytes "target/ovmf".

Inductive CliError :=
| NotUtf8Command
| UnknownCommand (command : list Z)
| NotUtf8Name
| NotAnOption (name : list Z)
| HelpOption
| MissingValue (name : list Z)
| Duplicate (name : list Z)
| MissingOption (name : string)
| NotUtf8Value (name : string)
| NotANumber (name : string)
| BadScenario (e : ScenarioFileError)
| NoFeatures (name : string)
| ZeroTimeout
| ProbeNeedsNormal
| UnsupportedOption.

(** ** Options *)

(** [BTreeMap<String, OsString>] *)
Abbreviation Options := (gmap (list Z) (list Z)).

Definition starts_with (prefix l : list Z) : bool := bool_decide (take (length prefix) l = prefix).

(** The loop of [Options::parse]; each turn takes two arguments. *)
Fixpoint parse_options (arguments : list (list Z)) (values : Options) : exec CliError Options :=
  match arguments with
  | [] => Ok values
  | name :: rest =>
      name ← ok_or (from_utf8 name) NotUtf8Name;
      fail_if (negb (starts_with (ascii_bytes "--") name)) (NotAnOption name) ;;
      fail_if (bool_decide (name = ascii_bytes "--help")) HelpOption ;;
      match rest with
      | [] => Err (MissingValue name)
      | value :: rest =>
          fail_if (bool_decide (is_Some (values !! name))) (Duplicate name) ;;
          parse_options rest (<[name := value]> values)
      end
  end.
Definition Options_parse (arguments : list (list Z)) : exec CliError Options := parse_options arguments ∅.

(** [self.values.remove(name)] *)
Definition remove (name : string) : st Options CliError (option (list Z)) := fun values =>
  Ok (values !! ascii_bytes name, delete (ascii_bytes name) values).

Definition optional_path (name : string) : st Options CliError (option (list Z)) := remove name.

Definition lift_exec {S A} (m : exec CliError A) : st S CliError A := fun s => a ← m; Ok (a, s).

Definition required_path (name : string) : st Options CliError (list Z) :=
  path ← optional_path name;
  lift_exec (ok_or path (MissingOption name)).

(** [option.map(f).transpose()?] *)
Definition transpose {A B} (f : A -> exec CliError B) (o : option A) : st Options CliError (option B) :=
  lift_exec (match o with
             | None => Ok None
             | Some a => b ← f a; Ok (Some b)
             end).

Definition optional_string (name : string) : st Options CliError (option (list Z)) :=
  value ← remove name;
  transpose (fun value => ok_or (from_utf8 value) (NotUtf8Value name)) value.

(** [str::parse::<u64>]: an optional plus sign and at least one digit. *)
Fixpoint decimal_digits (acc : Z) (l : list Z) : option Z :=
  match l with
  | [] => Some acc
  | c :: l =>
      if between 48 c 57 then
        acc ← checked_mul 64 acc 10;
        acc ← checked_add 64 acc (c - 48);
        decimal_digits acc l
      else None
  end.
Definition parse_u64 (text : list Z) : option Z :=
  match text with
  | [] => None
  | [c] => if c =? 43 then None else decimal_digits 0 text
  | c :: rest => if c =? 43 then decimal_digits 0 rest else decimal_digits 0 text
  end.

Definition optional_u64 (name : string) : st Options CliError (option Z) :=
  value ← optional_string name;
  transpose (fun value => ok_or (parse_u64 value) (NotANumber name)) value.
(** [usize] has 64 bits. *)
Definition optional_usize (name : string) : st Options CliError (option Z) := optional_u64 name.

Definition scenario_option : st Options CliError BootScenario :=
  value ← optional_string "--scenario";
  lift_exec (match value with
             | None => Ok Normal
             | Some value => map_err BadScenario (from_str value)
             end).

Definition finish : st Options CliError unit := fun values =>
  if bool_decide (values = ∅) then Ok (tt, values) else Err UnsupportedOption.

(** ** Requests *)
Record XImageRequest := mkXImageRequest {
  xi_loader : list Z; xi_kernel : list Z; xi_output : list Z; xi_scenario : BootScenario
}.
Record XInspectionRequest := mkXInspectionRequest { xk_kernel : list Z; xk_map : list Z }.
Record BootRequest := mkBootRequest {
  br_image : list Z;
  br_scenario : BootScenario;
  br_timeout_secs : Z;
  br_qemu : option (list Z);
  br_ovmf_cache : list Z
}.
Record BaselineRequest := mkBaselineRequest { bl_boot : BootRequest; bl_runs : Z; bl_output : list Z }.

Inductive Invocation :=
| Usage
| RunImage (request : XImageRequest)
| RunInspect (request : XInspectionRequest)
| RunRepro (request : ReproRequest)
| RunBootTest (request : BootRequest)
| RunTimeoutProbe (request : BootRequest)
| RunBaseline (request : BaselineRequest).

Section Commands.
(** [Path::parent] and [Path::file_name] of an output path. *)
Variable as_output : list Z -> OutputPath.

Definition command_inspect_kernel : st Options CliError Invocation :=
  kernel ← required_path "--kernel";
  map ← required_path "--map";
  finish ;;
  mret (RunInspect (mkXInspectionRequest kernel map)).

Definition command_image : st Options CliError Invocation :=
  loader ← required_path "--loader";
  kernel ← required_path "--kernel";
  output ← optional_path "--output";
  scenario ← scenario_option;
  finish ;;
  mret (RunImage (mkXImageRequest loader kernel (default DEFAULT_IMAGE output) scenario)).

Definition override_string (name : string) (destination : list Z) : st Options CliError (list Z) :=
  value ← optional_string name;
  mret (default destination value).

(** [value.split(',').map(str::trim).filter(|feature| !feature.is_empty())] *)
Definition feature_list (value : list Z) : list (list Z) :=
  filter (fun feature => feature <> []) (trim <$> split_where (fun c => c =? 44) value).

Definition override_features (name : string) (destination : list (list Z))
    : st Options CliError (list (list Z)) :=
  value ← optional_string name;
  lift_exec (match value with
             | None => Ok destination
             | Some value =>
                 let features := feature_list value in
                 fail_if (bool_decide (features = [])) (NoFeatures name) ;;
                 Ok features
             end).

(** The overrides of one artifact: package, binary, target, path, features. *)
Definition override_artifact (package bin target artifact features : string) (spec : ArtifactSpec)
    (map : st Options CliError (option (list Z))) : st Options CliError (ArtifactSpec * option (list Z)) :=
  as_package ← override_string package (as_package spec);
  as_binary ← override_string bin (as_binary spec);
  as_target ← override_string target (as_target spec);
  path ← optional_path artifact;
  map_path ← map;
  as_features ← override_features features (as_features spec);
  mret (mkArtifactSpec as_package as_binary as_target (default (as_relative_path spec) path) as_features
          (as_rustc_flags spec), map_path).

Definition command_repro : st Options CliError Invocation :=
  workspace ← optional_path "--workspace";
  output ← optional_path "--output";
  let request := polytope_defaults (default (ascii_bytes ".") workspace)
                   (as_output (default DEFAULT_IMAGE output)) in
  cargo ← optional_path "--cargo";
  scenario ← scenario_option;
  verified_loader_output ← optional_path "--verified-loader-output";
  verified_kernel_output ← optional_path "--verified-kernel-output";
  verified_kernel_map_output ← optional_path "--verified-kernel-map-output";
  loader ← override_artifact "--loader-package" "--loader-bin" "--loader-target" "--loader-artifact"
             "--loader-features" (rr_loader request) (mret None);
  kernel ← override_artifact "--kernel-package" "--kernel-bin" "--kernel-target" "--kernel-artifact"
             "--kernel-features" (rr_kernel request) (optional_path "--kernel-map-artifact");
  finish ;;
  mret (RunRepro (mkReproRequest (rr_workspace request) cargo loader.1 kernel.1 (rr_output request)
          (as_output <$> verified_loader_output) (as_output <$> verified_kernel_output)
          (as_output <$> verified_kernel_map_output)
          (match kernel.2 with Some path => Some path | None => rr_kernel_map_relative_path request end)
          scenario)).

Definition boot_request : st Options CliError BootRequest :=
  timeout_seconds ← optional_u64 "--timeout-secs";
  let timeout_seconds := default 15 timeout_seconds in
  lift_exec (fail_if (negb (0 <? timeout_seconds)) ZeroTimeout) ;;
  image ← optional_path "--image";
  scenario ← scenario_option;
  qemu ← optional_path "--qemu";
  ovmf_cache ← optional_path "--ovmf-cache";
  mret (mkBootRequest (default DEFAULT_IMAGE image) scenario timeout_seconds qemu
          (default DEFAULT_OVMF_CACHE ovmf_cache)).

Definition command_boot_test : st Options CliError Invocation :=
  request ← boot_request;
  finish ;;
  mret (RunBootTest request).

Definition command_timeout_probe : st Options CliError Invocation :=
  request ← boot_request;
  lift_exec (fail_if (negb (bool_decide (br_scenario request = Normal))) ProbeNeedsNormal) ;;
  finish ;;
  mret (RunTimeoutProbe request).

Definition command_baseline : st Options CliError Invocation :=
  boot ← boot_request;
  runs ← optional_usize "--runs";
  output ← optional_path "--output";
  finish ;;
  mret (RunBaseline (mkBaselineRequest boot (default 10 runs) (default DEFAULT_BASELINE output))).

(** The commands, and the options each of them takes. *)
Definition dispatch (command : list Z) : option (st Options CliError Invocation) :=
  if bool_decide (command = ascii_bytes "image") then Some command_image
  else if bool_decide (command = ascii_bytes "inspect-kernel") then Some command_inspect_kernel
  else if bool_decide (command = ascii_bytes "repro-check") then Some command_repro
  else if bool_decide (command = ascii_bytes "boot-test") then Some command_boot_test
  else if bool_decide (command = ascii_bytes "timeout-probe") then Some command_timeout_probe
  else if bool_decide (command = ascii_bytes "baseline") then Some command_baseline
  else None.

Definition is_help (command : list Z) : bool :=
  bool_decide (command = ascii_bytes "help") || bool_decide (command = ascii_bytes "--help")
  || bool_decide (command = ascii_bytes "-h").

(** [run] up to the command's work; [arguments] without the program name. *)
Definition parse_invocation (arguments : list (list Z)) : exec CliError Invocation :=
  match arguments with
  | [] => Ok Usage
  | command :: arguments =>
      command ← ok_or (from_utf8 command) NotUtf8Command;
      if is_help command then Ok Usage else
      options ← Options_parse arguments;
      match dispatch command with
      | Some run => r ← run options; Ok r.1
      | None => Err (UnknownCommand command)
      end
  end.
End Commands.
