(* ===== verification/XtaskCliProps.v ===== *)
(** The option parser is exact: which command lines are accepted, and which
    request each of them makes, option by option. *)

From stdpp Require Import gmap.
From S2P Require Import Prelude Bytes Console Text HostScenario HostFs Repro XtaskCli.
Import Image.

(** ** Parsing options *)

(** The command line of a list of options. *)
Definition flat (pairs : list (list Z * list Z)) : list (list Z) :=
  concat ((fun p => [encode_utf8 p.1; p.2]) <$> pairs).

Definition name_ok (name : list Z) : Prop :=
  Forall scalar name /\ starts_with (ascii_bytes "--") name = true /\ name <> ascii_bytes "--help".

Lemma encode_utf8_inj l l' :
  Forall scalar l -> Forall scalar l' -> encode_utf8 l = encode_utf8 l' -> l = l'.
Proof.
  intros H H' E. assert (Some l = Some l') as [= <-]; [|done].
  rewrite <- (proj2 (from_utf8_iff (encode_utf8 l) l)) by done.
  rewrite E. by apply from_utf8_iff.
Qed.

Definition parsed (arguments : list (list Z)) (values m : Options) : Prop :=
  exists pairs, arguments = flat pairs /\ Forall name_ok pairs.*1 /\ NoDup pairs.*1 /\
    (forall k, k ∈ pairs.*1 -> values !! k = None) /\ m = list_to_map pairs ∪ values.

Lemma parsed_nil values m : parsed [] values m <-> m = values.
Proof.
  split.
  - intros ([|[x y] pairs] & E & _ & _ & _ & ->); [apply (left_id_L ∅ (∪))|done].
  - intros ->. exists []. cbn. split_and!; [done|constructor|constructor| |symmetry; apply (left_id_L ∅ (∪))].
    intros k Hk. by apply not_elem_of_nil in Hk.
Qed.

Lemma parsed_cons name value rest values m :
  Forall scalar name ->
  parsed (encode_utf8 name :: value :: rest) values m <->
  name_ok name /\ values !! name = None /\ parsed rest (<[name := value]> values) m.
Proof.
  intros Hsc. split.
  - intros ([|[name' value'] pairs] & E & Hok & Hnd & Hfree & ->); [done|].
    cbn in E. injection E as E -> ->. apply encode_utf8_inj in E;
      [|done|by apply Forall_cons in Hok as [[? _] _]]. subst name'.
    cbn [fmap list_fmap fst] in *. apply Forall_cons in Hok as [Hn Hok]. apply NoDup_cons in Hnd as [Hnin Hnd].
    split_and!; [done|apply Hfree; left|]. exists pairs. split_and!; [done..| |].
    + intros k Hk. rewrite lookup_insert_ne by (intros ->; done). apply Hfree. by right.
    + cbn [list_to_map foldr uncurry]. rewrite <- insert_union_l.
      apply insert_union_r. by apply not_elem_of_list_to_map_1.
  - intros (Hn & Hv & pairs & -> & Hok & Hnd & Hfree & ->). exists ((name, value) :: pairs).
    cbn [fmap list_fmap fst].
    assert (name ∉ pairs.*1) as Hnin.
    { intros Hin. apply Hfree in Hin. by rewrite lookup_insert_eq in Hin. }
    split_and!; [done|by constructor|by constructor| |].
    + intros k Hk. apply elem_of_cons in Hk as [->|Hk]; [done|].
      specialize (Hfree k Hk). by rewrite lookup_insert_None in Hfree; destruct Hfree.
    + cbn [list_to_map foldr uncurry]. rewrite <- insert_union_l. symmetry.
      apply insert_union_r. by apply not_elem_of_list_to_map_1.
Qed.

Lemma parse_options_iff n : forall arguments values m,
  (length arguments <= n)%nat -> parse_options arguments values = Ok m <-> parsed arguments values m.
Proof.
  induction n as [|n IH]; intros arguments values m Hn; destruct arguments as [|a rest]; cbn [length] in Hn; try lia.
  1, 2: rewrite parsed_nil; cbn [parse_options]; naive_solver.
  cbn [parse_options]. rewrite bind_Ok. split.
  - intros (name & Hu%ok_or_Ok & H). rewrite !bind_fail_if in H. destruct H as (Hs & Hh & H).
    destruct rest as [|value rest]; [done|]. rewrite bind_fail_if in H. destruct H as [Hd H].
    apply negb_false_iff in Hs. apply bool_decide_eq_false in Hh, Hd. cbn [length] in Hn.
    apply from_utf8_iff in Hu as [Hsc ->]. apply IH in H; [|lia].
    apply parsed_cons; [done|]. split_and!; [done|by apply eq_None_not_Some|done].
  - intros Hp. destruct rest as [|value rest].
    { destruct Hp as ([|[x y] pairs] & E & _); [done|]. cbn in E. by injection E. }
    assert (exists name, Forall scalar name /\ a = encode_utf8 name) as (name & Hsc & ->).
    { destruct Hp as ([|[x y] pairs] & E & Hok & _); [done|]. cbn in E. injection E as -> _ _.
      exists x. by apply Forall_cons in Hok as [[? _] _]. }
    apply parsed_cons in Hp as ((_ & Hs & Hh) & Hv & Hp); [|done]. exists name.
    split; [by apply ok_or_Ok, from_utf8_iff|]. rewrite !bind_fail_if, Hs. split; [done|].
    split; [by apply bool_decide_eq_false|]. split; [by apply bool_decide_eq_false, eq_None_not_Some|].
    cbn [length] in Hn. by apply IH; [lia|].
Qed.

Lemma options_parse_iff arguments m :
  Options_parse arguments = Ok m <->
  exists pairs, arguments = flat pairs /\ Forall name_ok pairs.*1 /\ NoDup pairs.*1 /\ m = list_to_map pairs.
Proof.
  unfold Options_parse. rewrite (parse_options_iff (length arguments)) by done. unfold parsed.
  setoid_rewrite (right_id_L ∅ (∪)). setoid_rewrite lookup_empty. naive_solver.
Qed.

(** ** Taking options *)
Definition without (names : list string) (v : Options) : Options :=
  foldl (fun v name => delete (ascii_bytes name) v) v names.

Lemma lookup_without names : forall v k,
  without names v !! k = if decide (k ∈ ascii_bytes <$> names) then None else v !! k.
Proof.
  induction names as [|name names IH]; intros v k; cbn [without foldl fmap list_fmap].
  { by rewrite decide_False by apply not_elem_of_nil. }
  unfold without in IH. rewrite IH, lookup_delete. repeat case_decide; set_solver.
Qed.

Lemma without_empty names v :
  without names v = ∅ <-> forall k, is_Some (v !! k) -> k ∈ ascii_bytes <$> names.
Proof.
  rewrite map_empty. setoid_rewrite lookup_without. split; intros H k; specialize (H k).
  - case_decide; [done|]. rewrite H. by intros [].
  - case_decide; [done|]. apply eq_None_not_Some. naive_solver.
Qed.

Definition agree (names : list string) (v w : Options) : Prop :=
  forall name, name ∈ names -> v !! ascii_bytes name = w !! ascii_bytes name.

(** The values [m] can return are those [P] allows, from the options [names] and no
    other, and it removes exactly these. *)
Definition takes {A : Type} (m : st Options CliError A) (names : list string) (P : Options -> A -> Prop) : Prop :=
  (forall v a v', m v = Ok (a, v') <-> P v a /\ v' = without names v) /\
  (forall v w a, agree names v w -> P v a <-> P w a).

(** As [takes], and there is no other option. *)
Definition finishes {A : Type} (m : st Options CliError A) (names : list string) (P : Options -> A -> Prop) : Prop :=
  (forall v a v', m v = Ok (a, v') <-> P v a /\ without names v = ∅ /\ v' = ∅) /\
  (forall v w a, agree names v w -> P v a <-> P w a).

Definition fresh (n1 n2 : list string) : Prop := Forall (fun name => ascii_bytes name ∉ ascii_bytes <$> n1) n2.

Lemma agree_without n1 n2 v : fresh n1 n2 -> agree n2 (without n1 v) v.
Proof.
  unfold fresh. rewrite Forall_forall. intros Hf name Hin. rewrite lookup_without. apply Hf in Hin.
  by rewrite decide_False.
Qed.

Lemma agree_app n1 n2 v w : agree (n1 ++ n2) v w -> agree n1 v w /\ agree n2 v w.
Proof. intros H. split; intros name Hin; apply H; set_solver. Qed.

Lemma st_bind_iff {S E A B} (m : st S E A) (f : A -> st S E B) s b s'' :
  (m ≫= f) s = Ok (b, s'') <-> exists a s', m s = Ok (a, s') /\ f a s' = Ok (b, s'').
Proof. split; [apply st_bind_inv|]. intros (a & s' & H1 & H2). by rewrite (st_bind_Ok _ _ _ _ _ H1). Qed.

Section Bind.
Context {A B : Type} (m : st Options CliError A) (f : A -> st Options CliError B).
Context (n1 n2 : list string) (P : Options -> A -> Prop) (Q : A -> Options -> B -> Prop).

Lemma then_local :
  (forall v w a, agree n1 v w -> P v a <-> P w a) -> (forall x v w a, agree n2 v w -> Q x v a <-> Q x w a) ->
  forall v w b, agree (n1 ++ n2) v w ->
    (exists a, P v a /\ Q a v b) <-> exists a, P w a /\ Q a w b.
Proof.
  intros HP HQ v w b [H1 H2]%agree_app. setoid_rewrite (HP v w); [|done]. by setoid_rewrite (HQ _ v w).
Qed.

Lemma takes_bind :
  takes m n1 P -> (forall a, takes (f a) n2 (Q a)) -> fresh n1 n2 ->
  takes (m ≫= f) (n1 ++ n2) (fun v b => exists a, P v a /\ Q a v b).
Proof.
  intros [Hm HP] Hf Hn. split; [|apply then_local; [done|apply Hf]].
  intros v b v'. rewrite st_bind_iff. unfold without. rewrite foldl_app. fold (without n1 v). fold (without n2 (without n1 v)).
  setoid_rewrite Hm. setoid_rewrite (proj1 (Hf _)).
  pose proof (fun a => proj2 (Hf a) _ _ b (agree_without n1 n2 v Hn)). naive_solver.
Qed.

Lemma finishes_bind :
  takes m n1 P -> (forall a, finishes (f a) n2 (Q a)) -> fresh n1 n2 ->
  finishes (m ≫= f) (n1 ++ n2) (fun v b => exists a, P v a /\ Q a v b).
Proof.
  intros [Hm HP] Hf Hn. split; [|apply then_local; [done|apply Hf]].
  intros v b v'. rewrite st_bind_iff. unfold without. rewrite foldl_app. fold (without n1 v). fold (without n2 (without n1 v)).
  setoid_rewrite Hm. setoid_rewrite (proj1 (Hf _)).
  pose proof (fun a => proj2 (Hf a) _ _ b (agree_without n1 n2 v Hn)). naive_solver.
Qed.
End Bind.

Lemma takes_iff {A : Type} (m : st Options CliError A) n n' P P' :
  takes m n P -> n = n' -> (forall v a, P v a <-> P' v a) -> takes m n' P'.
Proof. intros [H1 H2] <- HP. split; intros; rewrite <- !HP; auto. Qed.
Lemma finishes_iff {A : Type} (m : st Options CliError A) n n' P P' :
  finishes m n P -> n = n' -> (forall v a, P v a <-> P' v a) -> finishes m n' P'.
Proof. intros [H1 H2] <- HP. split; intros; rewrite <- !HP; auto. Qed.

Lemma takes_ret {A : Type} (x : A) : takes (mret x) [] (fun _ a => a = x).
Proof. split; [|done]. intros v a v'. unfold mret, st_ret. cbn. naive_solver. Qed.
Lemma takes_lift {A : Type} (m : exec CliError A) : takes (lift_exec m) [] (fun _ a => m = Ok a).
Proof. split; [|done]. intros v a v'. unfold lift_exec. rewrite bind_Ok. cbn. naive_solver. Qed.
Lemma takes_remove name : takes (remove name) [name] (fun v a => a = v !! ascii_bytes name).
Proof.
  split.
  - intros v a v'. unfold remove. cbn. naive_solver.
  - intros v w a H. by rewrite (H name) by set_solver.
Qed.
Lemma finishes_finish {A : Type} (x : A) : finishes (finish ;; mret x) [] (fun _ a => a = x).
Proof.
  split; [|done]. intros v a v'. rewrite st_bind_iff. unfold finish, mret, st_ret. cbn.
  case_bool_decide; naive_solver.
Qed.

(** Walks through the steps of a command. *)
Ltac walk leaf :=
  repeat first
    [ leaf | apply takes_ret | apply takes_lift | apply takes_remove | apply finishes_finish
    | eapply finishes_bind; [|intros ?|]
    | eapply takes_bind; [|intros ?|] ].

(** ** What an option says *)

(** A text, a number, a scenario, a list of features, or what the command takes when
    the option is not given. *)
Definition says_text (v : Options) (name : string) (otherwise value : list Z) : Prop :=
  match v !! ascii_bytes name with None => value = otherwise | Some bytes => from_utf8 bytes = Some value end.
Definition says_number (v : Options) (name : string) (otherwise value : Z) : Prop :=
  match v !! ascii_bytes name with
  | None => value = otherwise
  | Some bytes => exists text, from_utf8 bytes = Some text /\ parse_u64 text = Some value
  end.
Definition says_scenario (v : Options) (value : BootScenario) : Prop :=
  match v !! ascii_bytes "--scenario" with
  | None => value = Normal
  | Some bytes => exists text, from_utf8 bytes = Some text /\ from_str text = Ok value
  end.
Definition says_features (v : Options) (name : string) (otherwise value : list (list Z)) : Prop :=
  match v !! ascii_bytes name with
  | None => value = otherwise
  | Some bytes => exists text, from_utf8 bytes = Some text /\ value = feature_list text /\ value <> []
  end.
Definition says_path (v : Options) (name : string) (otherwise : list Z) : list Z :=
  default otherwise (v !! ascii_bytes name).

Lemma takes_required name : takes (required_path name) [name] (fun v a => v !! ascii_bytes name = Some a).
Proof.
  unfold required_path, optional_path. eapply takes_iff; [walk fail; constructor|done|].
  intros v a. cbv beta. setoid_rewrite ok_or_Ok. naive_solver.
Qed.

Lemma takes_string name :
  takes (optional_string name) [name] (fun v o =>
    match v !! ascii_bytes name with None => o = None | Some b => exists t, from_utf8 b = Some t /\ o = Some t end).
Proof.
  unfold optional_string, transpose. eapply takes_iff; [walk fail; constructor|done|].
  intros v o. cbv beta. split.
  - intros (x & -> & H). destruct (v !! ascii_bytes name); [|by injection H].
    apply bind_Ok in H as (t & H%ok_or_Ok & [= <-]). by exists t.
  - intros H. eexists. split; [done|]. destruct (v !! ascii_bytes name); [|by subst].
    destruct H as (t & -> & ->). done.
Qed.

Lemma takes_text name otherwise :
  takes (override_string name otherwise) [name] (fun v a => says_text v name otherwise a).
Proof.
  unfold override_string. eapply takes_iff; [walk ltac:(apply takes_string); constructor|done|].
  intros v a. cbv beta. unfold says_text. destruct (v !! ascii_bytes name); naive_solver.
Qed.

Lemma takes_features name otherwise :
  takes (override_features name otherwise) [name] (fun v a => says_features v name otherwise a).
Proof.
  unfold override_features. eapply takes_iff; [walk ltac:(apply takes_string); constructor|done|].
  intros v a. cbv beta. unfold says_features. destruct (v !! ascii_bytes name) as [b|].
  - split.
    + intros (o & (t & Ht & ->) & H). apply bind_fail_if in H as [Hf [= <-]].
      apply bool_decide_eq_false in Hf. by exists t.
    + intros (t & Ht & -> & Hne). exists (Some t). split; [by exists t|]. by rewrite bool_decide_false.
  - naive_solver.
Qed.

Lemma takes_scenario : takes scenario_option ["--scenario"]%string says_scenario.
Proof.
  unfold scenario_option. eapply takes_iff; [walk ltac:(apply takes_string); constructor|done|].
  intros v a. cbv beta. unfold says_scenario. destruct (v !! ascii_bytes "--scenario") as [b|].
  - split.
    + intros (o & (t & Ht & ->) & H%map_err_Ok). by exists t.
    + intros (t & Ht & H). exists (Some t). split; [by exists t|]. by rewrite H.
  - naive_solver.
Qed.

(** [optional_u64], then the value taken when the option is not given. *)
Definition number_option (v : Options) (name : string) (o : option Z) : Prop :=
  match v !! ascii_bytes name with
  | None => o = None
  | Some bytes => exists text n, from_utf8 bytes = Some text /\ parse_u64 text = Some n /\ o = Some n
  end.
Lemma takes_number name : takes (optional_u64 name) [name] (fun v o => number_option v name o).
Proof.
  unfold optional_u64, transpose. eapply takes_iff; [walk ltac:(apply takes_string); constructor|done|].
  intros v o. cbv beta. unfold number_option. destruct (v !! ascii_bytes name) as [b|].
  - split.
    + intros (x & (t & Ht & ->) & H). apply bind_Ok in H as (n & H%ok_or_Ok & [= <-]). by exists t, n.
    + intros (t & n & Ht & Hn & ->). exists (Some t). split; [by exists t|]. by rewrite Hn.
  - naive_solver.
Qed.
Lemma number_default v name otherwise n :
  says_number v name otherwise n <-> exists o, number_option v name o /\ n = default otherwise o.
Proof.
  unfold says_number, number_option. destruct (v !! ascii_bytes name) as [b|]; split.
  - intros (text & Ht & Hn). exists (Some n). split; [by exists text, n|done].
  - intros (o & (text & k & Ht & Hk & ->) & ->). by exists text.
  - intros ->. by exists None.
  - intros (o & -> & ->). done.
Qed.

(** The options of each command, as its usage lists them. *)
Definition boot_options : list string := ["--timeout-secs"; "--image"; "--scenario"; "--qemu"; "--ovmf-cache"].
Definition command_options (command : list Z) : list string :=
  if bool_decide (command = ascii_bytes "image") then ["--loader"; "--kernel"; "--output"; "--scenario"]
  else if bool_decide (command = ascii_bytes "inspect-kernel") then ["--kernel"; "--map"]
  else if bool_decide (command = ascii_bytes "repro-check") then
    ["--workspace"; "--output"; "--cargo"; "--scenario"; "--verified-loader-output";
     "--verified-kernel-output"; "--verified-kernel-map-output";
     "--loader-package"; "--loader-bin"; "--loader-target"; "--loader-artifact"; "--loader-features";
     "--kernel-package"; "--kernel-bin"; "--kernel-target"; "--kernel-artifact"; "--kernel-map-artifact";
     "--kernel-features"]
  else if bool_decide (command = ascii_bytes "baseline") then boot_options ++ ["--runs"; "--output"]
  else boot_options.

(** ** What a command line asks for *)
Definition describes_boot (v : Options) (request : BootRequest) : Prop :=
  br_image request = says_path v "--image" DEFAULT_IMAGE /\ says_scenario v (br_scenario request) /\
  says_number v "--timeout-secs" 15 (br_timeout_secs request) /\ 0 < br_timeout_secs request /\
  br_qemu request = v !! ascii_bytes "--qemu" /\
  br_ovmf_cache request = says_path v "--ovmf-cache" DEFAULT_OVMF_CACHE.

Definition describes_artifact (package bin target artifact features : string) (contract : ArtifactSpec)
    (v : Options) (spec : ArtifactSpec) : Prop :=
  says_text v package (as_package contract) (as_package spec) /\
  says_text v bin (as_binary contract) (as_binary spec) /\
  says_text v target (as_target contract) (as_target spec) /\
  as_relative_path spec = says_path v artifact (as_relative_path contract) /\
  says_features v features (as_features contract) (as_features spec) /\
  as_rustc_flags spec = as_rustc_flags contract.

(** The request that the options [v] of [command] make: each option fills its field,
    and each field has its option's value or the documented default. *)
Definition describes (as_output : list Z -> OutputPath) (command : list Z) (v : Options) (inv : Invocation) : Prop :=
  match inv with
  | Usage => False
  | RunImage r => command = ascii_bytes "image" /\
      v !! ascii_bytes "--loader" = Some (xi_loader r) /\ v !! ascii_bytes "--kernel" = Some (xi_kernel r) /\
      xi_output r = says_path v "--output" DEFAULT_IMAGE /\ says_scenario v (xi_scenario r)
  | RunInspect r => command = ascii_bytes "inspect-kernel" /\
      v !! ascii_bytes "--kernel" = Some (xk_kernel r) /\ v !! ascii_bytes "--map" = Some (xk_map r)
  | RunRepro r => command = ascii_bytes "repro-check" /\
      rr_workspace r = says_path v "--workspace" (ascii_bytes ".") /\
      rr_output r = as_output (says_path v "--output" DEFAULT_IMAGE) /\
      rr_cargo r = v !! ascii_bytes "--cargo" /\ says_scenario v (rr_scenario r) /\
      rr_verified_loader_output r = as_output <$> v !! ascii_bytes "--verified-loader-output" /\
      rr_verified_kernel_output r = as_output <$> v !! ascii_bytes "--verified-kernel-output" /\
      rr_verified_kernel_map_output r = as_output <$> v !! ascii_bytes "--verified-kernel-map-output" /\
      describes_artifact "--loader-package" "--loader-bin" "--loader-target" "--loader-artifact"
        "--loader-features" default_loader v (rr_loader r) /\
      describes_artifact "--kernel-package" "--kernel-bin" "--kernel-target" "--kernel-artifact"
        "--kernel-features" default_kernel v (rr_kernel r) /\
      rr_kernel_map_relative_path r =
        Some (says_path v "--kernel-map-artifact" (ascii_bytes "x86_64-unknown-none/boot/polytope-kernel-x86_64.map"))
  | RunBootTest r => command = ascii_bytes "boot-test" /\ describes_boot v r
  | RunTimeoutProbe r => command = ascii_bytes "timeout-probe" /\ describes_boot v r /\ br_scenario r = Normal
  | RunBaseline r => command = ascii_bytes "baseline" /\ describes_boot v (bl_boot r) /\
      says_number v "--runs" 10 (bl_runs r) /\ bl_output r = says_path v "--output" DEFAULT_BASELINE
  end.

(** Takes conjunctions and existentials apart, and puts them together. *)
Ltac open := repeat match goal with H : exists _, _ |- _ => destruct H | H : _ /\ _ |- _ => destruct H end.
Ltac close := repeat (eexists; split; [first [eassumption | reflexivity]|]).

Lemma takes_boot : takes boot_request boot_options describes_boot.
Proof.
  unfold boot_request, optional_path. eapply takes_iff;
    [walk ltac:(first [apply takes_number | apply takes_scenario]); by_decide|done|].
  intros v r. cbv beta zeta. unfold describes_boot, says_path. rewrite number_default. split.
  - intros H. open. subst. cbn.
    match goal with H : fail_if _ _ = Ok _ |- _ => apply fail_if_Ok, negb_false_iff, Z.ltb_lt in H end.
    split_and!; eauto.
  - intros H. open. destruct r. cbn in *. subst.
    eexists. split; [eassumption|]. exists tt.
    split; [by apply fail_if_Ok, negb_false_iff, Z.ltb_lt|]. close. done.
Qed.

Lemma takes_artifact package bin target artifact features contract map nm Pm :
  takes map nm Pm ->
  fresh [artifact] (nm ++ [features]) -> fresh nm [features] ->
  fresh [target] ([artifact] ++ nm ++ [features]) -> fresh [bin] ([target] ++ [artifact] ++ nm ++ [features]) ->
  fresh [package] ([bin] ++ [target] ++ [artifact] ++ nm ++ [features]) ->
  takes (override_artifact package bin target artifact features contract map)
    ([package; bin; target; artifact] ++ nm ++ [features])
    (fun v r => describes_artifact package bin target artifact features contract v r.1 /\ Pm v r.2).
Proof.
  intros Hm H1 H2 H3 H4 H5. unfold override_artifact, optional_path. eapply takes_iff;
    [walk ltac:(first [apply takes_text | apply takes_features | exact Hm]);
       rewrite ?app_nil_r; first [eassumption | constructor]| |].
  - by rewrite !app_nil_r.
  - intros v r. cbv beta. unfold describes_artifact, says_path. split.
    + intros H. open. subst. cbn. split_and!; eauto.
    + intros H. open. destruct r as [[] ?]. cbn in *. subst. close. done.
Qed.

Lemma takes_loader :
  takes (override_artifact "--loader-package" "--loader-bin" "--loader-target" "--loader-artifact"
           "--loader-features" default_loader (mret None))
    ["--loader-package"; "--loader-bin"; "--loader-target"; "--loader-artifact"; "--loader-features"]%string
    (fun v r => describes_artifact "--loader-package" "--loader-bin" "--loader-target" "--loader-artifact"
                  "--loader-features" default_loader v r.1 /\ r.2 = None).
Proof. apply (takes_artifact _ _ _ _ _ _ _ [] _ (takes_ret None)); by_decide. Qed.

Lemma takes_kernel :
  takes (override_artifact "--kernel-package" "--kernel-bin" "--kernel-target" "--kernel-artifact"
           "--kernel-features" default_kernel (remove "--kernel-map-artifact"))
    ["--kernel-package"; "--kernel-bin"; "--kernel-target"; "--kernel-artifact"; "--kernel-map-artifact";
     "--kernel-features"]%string
    (fun v r => describes_artifact "--kernel-package" "--kernel-bin" "--kernel-target" "--kernel-artifact"
                  "--kernel-features" default_kernel v r.1 /\ r.2 = v !! ascii_bytes "--kernel-map-artifact").
Proof. apply (takes_artifact _ _ _ _ _ _ _ ["--kernel-map-artifact"%string] _ (takes_remove _)); by_decide. Qed.

Section Commands.
Variable as_output : list Z -> OutputPath.


(** A step of a command. *)
Ltac leaf := first [ apply takes_required | apply takes_boot | apply takes_number | apply takes_scenario ].

Lemma finishes_image : finishes command_image (command_options (ascii_bytes "image")) (describes as_output (ascii_bytes "image")).
Proof.
  unfold command_image, optional_path. eapply finishes_iff; [walk leaf; by_decide|reflexivity|].
  intros v inv. cbv beta. unfold says_path, describes. split.
  - intros H. open. subst. done.
  - destruct inv as [|[]| | | | |]; try (by intros []); intros H; open; try done. cbn in *. subst. close. done.
Qed.

Lemma finishes_inspect : finishes command_inspect_kernel (command_options (ascii_bytes "inspect-kernel"))
  (describes as_output (ascii_bytes "inspect-kernel")).
Proof.
  unfold command_inspect_kernel. eapply finishes_iff; [walk leaf; by_decide|reflexivity|].
  intros v inv. cbv beta. unfold says_path, describes. split.
  - intros H. open. subst. done.
  - destruct inv as [| |[]| | | |]; try (by intros []); intros H; open; try done. cbn in *. subst. close. done.
Qed.

Lemma finishes_boot_test : finishes command_boot_test (command_options (ascii_bytes "boot-test"))
  (describes as_output (ascii_bytes "boot-test")).
Proof.
  unfold command_boot_test. eapply finishes_iff; [walk leaf; by_decide|reflexivity|].
  intros v inv. cbv beta. unfold describes. split.
  - intros H. open. subst. done.
  - destruct inv; intros H; open; try done. close. done.
Qed.

Lemma finishes_timeout_probe : finishes command_timeout_probe (command_options (ascii_bytes "timeout-probe"))
  (describes as_output (ascii_bytes "timeout-probe")).
Proof.
  unfold command_timeout_probe. eapply finishes_iff; [walk leaf; by_decide|reflexivity|].
  intros v inv. cbv beta. unfold describes. split.
  - intros H. open. subst.
    match goal with H : fail_if _ _ = Ok ?u |- _ => destruct u; by apply fail_if_Ok, negb_false_iff, bool_decide_eq_true in H end.
  - destruct inv; intros H; open; try done. eexists. split; [eassumption|]. exists tt.
    split; [by apply fail_if_Ok, negb_false_iff, bool_decide_eq_true|done].
Qed.

Lemma finishes_baseline : finishes command_baseline (command_options (ascii_bytes "baseline"))
  (describes as_output (ascii_bytes "baseline")).
Proof.
  unfold command_baseline, optional_path, optional_usize. eapply finishes_iff; [walk leaf; by_decide|reflexivity|].
  intros v inv. cbv beta. unfold describes, says_path. split.
  - intros H. open. subst. cbn. rewrite number_default. split_and!; eauto.
  - destruct inv as [| | | | | |[]]; intros H; open; try done. cbn in *. rewrite number_default in *. open.
    subst. close. done.
Qed.

Lemma finishes_repro : finishes (command_repro as_output) (command_options (ascii_bytes "repro-check"))
  (describes as_output (ascii_bytes "repro-check")).
Proof.
  unfold command_repro, optional_path. eapply finishes_iff;
    [walk ltac:(first [leaf | apply takes_loader | apply takes_kernel]); by_decide|reflexivity|].
  intros v inv. cbv beta zeta. unfold describes, says_path. split.
  - intros H. open. subst. split_and!; try done. unfold polytope_defaults. cbn [rr_kernel_map_relative_path].
    match goal with H : _ = v !! ascii_bytes "--kernel-map-artifact" |- _ => rewrite H end.
    by destruct (v !! ascii_bytes "--kernel-map-artifact").
  - destruct inv as [| | |[]| | |]; intros H; open; try done.
    cbn [Repro.rr_workspace Repro.rr_cargo Repro.rr_loader Repro.rr_kernel Repro.rr_output
      Repro.rr_verified_loader_output Repro.rr_verified_kernel_output Repro.rr_verified_kernel_map_output
      Repro.rr_kernel_map_relative_path Repro.rr_scenario] in *. subst. close.
    exists (rr_loader, None). split; [done|]. exists (rr_kernel, v !! ascii_bytes "--kernel-map-artifact").
    split; [done|]. unfold polytope_defaults. cbn [rr_kernel_map_relative_path rr_workspace rr_output fst snd].
    by destruct (v !! ascii_bytes "--kernel-map-artifact").
Qed.

(** A command runs on the options [v] exactly when they are its own and describe a
    request, which is the result. *)
Lemma dispatch_describes command v inv :
  (exists run, dispatch as_output command = Some run /\ exists v', run v = Ok (inv, v')) <->
  (forall k, is_Some (v !! k) -> k ∈ ascii_bytes <$> command_options command) /\ describes as_output command v inv.
Proof.
  assert (forall run text, finishes run (command_options text) (describes as_output text) ->
    dispatch as_output text = Some run ->
    (exists run, dispatch as_output text = Some run /\ exists v', run v = Ok (inv, v')) <->
    (forall k, is_Some (v !! k) -> k ∈ ascii_bytes <$> command_options text) /\ describes as_output text v inv) as H.
  { intros run text [He _] ->. rewrite <- without_empty. setoid_rewrite (inj_iff Some). split.
    - intros (r & <- & v' & Hr). apply He in Hr. naive_solver.
    - intros [H1 H2]. exists run. split; [done|]. exists ∅. by apply He. }
  destruct (decide (Forall (fun name => command <> ascii_bytes name)
    ["image"; "inspect-kernel"; "repro-check"; "boot-test"; "timeout-probe"; "baseline"]%string)) as [Hn|Hn].
  - rewrite !Forall_cons in Hn. destruct Hn as (? & ? & ? & ? & ? & ? & _). unfold dispatch.
    rewrite !bool_decide_false by done. split; [by intros (run & [=] & _)|].
    intros [_ Hd]. destruct inv; cbn [describes] in Hd; [done|by destruct Hd..].
  - apply not_Forall_Exists, Exists_exists in Hn as (name & Hin & Hn%dec_stable); [|apply _]. subst command.
    rewrite !elem_of_cons, elem_of_nil in Hin. destruct Hin as [->|[->|[->|[->|[->|[->|[]]]]]]];
      (eapply H; [|reflexivity]); [apply finishes_image|apply finishes_inspect|apply finishes_repro|apply finishes_boot_test
      |apply finishes_timeout_probe|apply finishes_baseline].
Qed.
End Commands.

Lemma list_to_map_is_Some (pairs : list (list Z * list Z)) (names : list (list Z)) :
  (forall k, is_Some ((list_to_map pairs : Options) !! k) -> k ∈ names) <-> Forall (fun name => name ∈ names) pairs.*1.
Proof.
  rewrite Forall_forall. split; intros H k Hk; apply H.
  - apply not_eq_None_Some. by rewrite <- not_elem_of_list_to_map; intros [].
  - destruct (decide (k ∈ pairs.*1)) as [|Hn]; [done|]. apply not_elem_of_list_to_map_1 in Hn.
    rewrite Hn in Hk. by destruct Hk.
Qed.

(** C26. The command line is parsed exactly, and outside of help nothing on it is
    ignored.  [help] (also [--help] and [-h]) prints the usage whatever follows
    it.  Any other command line is accepted exactly when it is a command followed
    by distinct, well-formed option-value pairs, all of them options of that
    command, and then the request is the one described by them: every option
    fills its own field, every field has its option's value or its default.  So
    the order of the pairs does not matter. *)
Theorem accepted_options_are_used (as_output : list Z -> OutputPath) (command : list Z)
    (arguments : list (list Z)) (inv : Invocation) :
  parse_invocation as_output (command :: arguments) = Ok inv <->
  exists text, from_utf8 command = Some text /\
  (if is_help text then inv = Usage else
   exists pairs, arguments = flat pairs /\ NoDup pairs.*1 /\ Forall name_ok pairs.*1 /\
     Forall (fun name => name ∈ ascii_bytes <$> command_options text) pairs.*1 /\
     describes as_output text (list_to_map pairs) inv).
Proof.
  unfold parse_invocation. rewrite bind_Ok. setoid_rewrite ok_or_Ok.
  apply exist_proper. intros text. apply and_iff_compat_l. destruct (is_help text); [naive_solver|].
  rewrite bind_Ok. setoid_rewrite options_parse_iff. split.
  - intros (m & (pairs & -> & Hok & Hnd & ->) & H). exists pairs.
    destruct (dispatch as_output text) as [run|] eqn:Ed; [|done]. apply bind_Ok in H as ([i v'] & Hr & [= ->]).
    destruct (proj1 (dispatch_describes as_output text (list_to_map pairs) inv)) as [Hf%list_to_map_is_Some Hd];
      [by eauto|done].
  - intros (pairs & -> & Hnd & Hok & Hf & Hd). exists (list_to_map pairs). split; [by exists pairs|].
    destruct (proj2 (dispatch_describes as_output text (list_to_map pairs) inv)) as (run & -> & v' & Hr).
    { split; [by apply list_to_map_is_Some|done]. }
    by rewrite Hr.
Qed.

(** The help ignores the rest; a repeated option is refused elsewhere. *)
Example help_ignores_the_rest :
  parse_invocation (fun p => mkOutputPath None (Some p))
    (ascii_bytes <$> ["help"; "--bogus"; "--bogus"]%string) = Ok Usage.
Proof. vm_compute. reflexivity. Qed.
Example runs_fill_the_baseline :
  parse_invocation (fun p => mkOutputPath None (Some p))
    (ascii_bytes <$> ["baseline"; "--runs"; "3"; "--image"; "a.img"]%string) =
  Ok (RunBaseline (mkBaselineRequest (mkBootRequest (ascii_bytes "a.img") Normal 15 None DEFAULT_OVMF_CACHE) 3
        DEFAULT_BASELINE)).
Proof. vm_compute. reflexivity. Qed.
Example repeated_options_are_refused :
  parse_invocation (fun p => mkOutputPath None (Some p))
    (ascii_bytes <$> ["baseline"; "--runs"; "3"; "--runs"; "3"]%string) = Err (Duplicate (ascii_bytes "--runs")).
Proof. vm_compute. reflexivity. Qed.
