(* ===== verification/Polyctl.v ===== *)
(** The developer control tool: crates/polyctl/src/main.rs.  Running a program
    and reading the manifest are answers of the host. *)

From S2P Require Import Prelude Bytes Console Text Repro.

Inductive CliCommand := Doctor | Help.

Inductive DoctorError :=
| Manifest
| NotWorkspace
| ToolStart (tool : string)
| ToolFailed (tool : string)
| ToolOutput (tool : string).

Inductive UsageError := UnknownPolyctlCommand (command : list Z) | NotOneCommand.

Definition parse_command (arguments : list (list Z)) : exec UsageError CliCommand :=
  match arguments with
  | [] => Ok Help
  | [command] =>
      if bool_decide (command = ascii_bytes "help") then Ok Help
      else if bool_decide (command = ascii_bytes "doctor") then Ok Doctor
      else Err (UnknownPolyctlCommand command)
  | _ => Err NotOneCommand
  end.

Section Doctor.
(** [Command::new(tool).arg("--version").output()]; [fs::read_to_string] of the
    manifest of a directory; [env::current_dir]. *)
Variables (version_output : string -> option Output) (read_manifest : list Z -> option (list Z))
  (current_dir : option (list Z)).

Definition polyctl_tool_version (tool : string) : exec DoctorError (list Z) :=
  output ← ok_or (version_output tool) (ToolStart tool);
  fail_if (negb (out_success output)) (ToolFailed tool) ;;
  version ← ok_or (from_utf8 (out_stdout output)) (ToolOutput tool);
  Ok (trim version).

(** The lines it prints. *)
Definition doctor (workspace : list Z) : exec DoctorError (list (list Z)) :=
  manifest ← ok_or (bytes ← read_manifest (path_join workspace (ascii_bytes "Cargo.toml")); from_utf8 bytes)
    Manifest;
  fail_if (negb (contains manifest (ascii_bytes "[workspace]")) || negb (contains manifest (ascii_bytes "polyctl")))
    NotWorkspace ;;
  rustc ← polyctl_tool_version "rustc";
  cargo ← polyctl_tool_version "cargo";
  Ok [ascii_bytes "[ok] PolytopeOS workspace manifest"; ascii_bytes "[ok] " ++ rustc;
      ascii_bytes "[ok] " ++ cargo;
      ascii_bytes "Foundation checks passed; boot tooling is introduced in Sprint 2."].

(** The exit status. *)
Definition polyctl_main (arguments : list (list Z)) : Z :=
  match parse_command arguments with
  | Ok Help => 0
  | Ok Doctor =>
      match (directory ← ok_or current_dir Manifest; doctor directory) with
      | Ok _ => 0
      | _ => 1
      end
  | _ => 2
  end.

Lemma polyctl_tool_version_Ok tool v :
  polyctl_tool_version tool = Ok v <->
  exists o text, version_output tool = Some o /\ out_success o = true /\
    from_utf8 (out_stdout o) = Some text /\ v = trim text.
Proof.
  unfold polyctl_tool_version. split.
  - intros H. apply bind_Ok in H as (o & Ho%ok_or_Ok & H). apply bind_fail_if in H as [Hs H].
    apply bind_Ok in H as (text & Ht%ok_or_Ok & [= <-]). apply negb_false_iff in Hs. by exists o, text.
  - intros (o & text & -> & Hs & Ht & ->). cbn [ok_or]. by rewrite bind_value, Hs, Ht.
Qed.

(** [doctor] succeeds exactly in a directory whose manifest is a workspace that
    names polyctl, with both tools reporting a version in UTF-8. *)
Lemma doctor_iff workspace :
  (exists lines, doctor workspace = Ok lines) <->
  (exists bytes manifest, read_manifest (path_join workspace (ascii_bytes "Cargo.toml")) = Some bytes /\
     from_utf8 bytes = Some manifest /\ contains manifest (ascii_bytes "[workspace]") = true /\
     contains manifest (ascii_bytes "polyctl") = true) /\
  (exists v, polyctl_tool_version "rustc" = Ok v) /\ exists v, polyctl_tool_version "cargo" = Ok v.
Proof.
  unfold doctor. split.
  - intros (lines & H). apply bind_Ok in H as (manifest & Hm%ok_or_Ok & H).
    apply bind_Some in Hm as (bytes & Hb & Hu). apply bind_fail_if in H as [Hc H].
    apply orb_false_iff in Hc as [C1%negb_false_iff C2%negb_false_iff].
    apply bind_Ok in H as (r & Hr & H). apply bind_Ok in H as (c & Hc & _).
    split_and!; [by exists bytes, manifest|by exists r|by exists c].
  - intros ((bytes & manifest & Hb & Hu & C1 & C2) & (r & Hr) & c & Hc). eexists.
    rewrite Hb. change (Some bytes ≫= _) with (from_utf8 bytes). rewrite Hu. cbn [ok_or].
    rewrite bind_value, C1, C2. cbn [negb orb fail_if]. by rewrite bind_value, Hr, bind_value, Hc, bind_value.
Qed.
End Doctor.
