(* ===== verification/HostExec.v ===== *)
(** Running the emulator: the bounded execution of crates/xtask/src/qemu.rs, its
    child guards and memory sampler.

    The operating system (clock, processes, the growing debug log) is the record
    [Machine].  Durations are in nanoseconds.  The state keeps which processes
    were started and which were waited for, with what came of the wait, so that
    leaving one behind is visible. *)

From S2P Require Import Prelude Bytes Console Text HostScenario HostRun HostFs Repro XtaskCli.
Import Image.

Definition MILLISECOND : Z := 1000000.
Definition RSS_SAMPLE_INTERVAL : Z := 25 * MILLISECOND.
Definition RSS_SAMPLE_TIMEOUT : Z := 20 * MILLISECOND.
Definition POLL_INTERVAL : Z := 5 * MILLISECOND.

(** [u64::try_from(duration.as_millis()).unwrap_or(u64::MAX)] *)
Definition as_millis_u64 (duration : Z) : Z :=
  default u64_MAX (try_uint 64 (duration / MILLISECOND)).

(** Exit statuses are [ExitStatus::code()]: absent when a signal ended the
    process.  A failed call answers [None]. *)
Record Machine (W : Type) := mkMachine {
  m_now : W -> Z * W;
  m_spawn : Command -> W -> option Z * W;
  m_try_wait : Z -> W -> option (option (option Z)) * W;
  m_kill : Z -> W -> bool * W;
  m_wait : Z -> W -> option (option Z) * W;
  m_stdout : Z -> W -> option (list Z) * W;
  m_sleep : Z -> W -> W;
  m_debug_log : W -> LogFile
}.
Arguments m_now {W}.
Arguments m_spawn {W}.
Arguments m_try_wait {W}.
Arguments m_kill {W}.
Arguments m_wait {W}.
Arguments m_stdout {W}.
Arguments m_sleep {W}.
Arguments m_debug_log {W}.

Inductive ExecError := SpawnFailed | StatusFailed | TerminateFailed | ObserverFailed (e : HostError).

Record ChildGuard := mkChildGuard { cg_pid : Z; cg_armed : bool }.
Record SamplerProcess := mkSamplerProcess { sp_child : ChildGuard; sp_started : Z }.
Record RssSampler := mkRssSampler {
  rs_process : option SamplerProcess;
  rs_next_sample : Z;
  rs_peak_kib : option Z;
  rs_disabled : bool
}.
Definition RssSampler_new : RssSampler := mkRssSampler None 0 None false.

(** The machine, the processes started, and those that were given up: with [true]
    when a call returned their status, so that they are reaped, and with [false]
    when the last wait for them failed. *)
Record PState (W : Type) := mkPState {
  ps_world : W;
  ps_spawned : list Z;
  ps_settled : list (Z * bool)
}.
Arguments mkPState {W}.
Arguments ps_world {W}.
Arguments ps_spawned {W}.
Arguments ps_settled {W}.

Section Exec.
Context {W : Type}.
Variable machine : Machine W.
(** How many bytes [read] of the log returns at an offset. *)
Variable chunk : Z -> Z.

Abbreviation M := (io (PState W) ExecError).

Definition machine_call {A} (f : W -> A * W) : M A := fun s =>
  let (a, w) := f (ps_world s) in (Ok a, mkPState w (ps_spawned s) (ps_settled s)).
Definition machine_view {A} (f : W -> A) : M A := fun s => (Ok (f (ps_world s)), s).
Definition settle (pid : Z) (reaped : bool) : M unit := fun s =>
  (Ok tt, mkPState (ps_world s) (ps_spawned s) ((pid, reaped) :: ps_settled s)).

(** [started.elapsed()] *)
Definition elapsed_since (started : Z) : M Z :=
  now ← machine_call (m_now machine);
  mret (Z.max 0 (now - started)).

(** ** Child guards *)

(** [ChildGuard::new(command.spawn()?)] *)
Definition spawn (command : Command) : M (option ChildGuard) := fun s =>
  let (pid, w) := m_spawn machine command (ps_world s) in
  match pid with
  | Some pid => (Ok (Some (mkChildGuard pid true)), mkPState w (pid :: ps_spawned s) (ps_settled s))
  | None => (Ok None, mkPState w (ps_spawned s) (ps_settled s))
  end.

(** A status that was returned means that the process was reaped. *)
Definition try_wait (child : ChildGuard) : M (option (option (option Z))) :=
  r ← machine_call (m_try_wait machine (cg_pid child));
  match r with
  | Some (Some _) => settle (cg_pid child) true ;; mret r
  | _ => mret r
  end.

Definition disarm (child : ChildGuard) : ChildGuard := mkChildGuard (cg_pid child) false.

(** [terminate]: the status if killing and waiting both succeeded, and the
    guard, still armed if they did not. *)
Definition terminate (child : ChildGuard) : M (option (option Z) * ChildGuard) :=
  killed ← machine_call (m_kill machine (cg_pid child));
  if (killed : bool) then
    status ← machine_call (m_wait machine (cg_pid child));
    match status with
    | Some status => settle (cg_pid child) true ;; mret (Some status, disarm child)
    | None => mret (None, child)
    end
  else mret (None, child).

(** [Drop for ChildGuard] *)
Definition drop_guard (child : ChildGuard) : M unit :=
  if cg_armed child then
    machine_call (m_kill machine (cg_pid child)) ;;
    status ← machine_call (m_wait machine (cg_pid child));
    settle (cg_pid child) (bool_decide (is_Some status))
  else mret tt.

(** ** Memory samples *)
Definition parse_rss_output (output : list Z) : option Z :=
  text ← from_utf8 (take 128 output);
  parse_u64 (trim text).

(** [process.child.take_stdout().and_then(parse_rss_output)] *)
Definition take_sample (child : ChildGuard) : M (option Z) :=
  output ← machine_call (m_stdout machine (cg_pid child));
  mret (output ≫= parse_rss_output).

Definition saturating_duration (a b : Z) : Z := Z.min (2 ^ 64 * 1000000000 - 1) (a + b).

(** The first half of [poll]: what became of a running sample, and whether the
    function returns there. *)
Definition poll_running (process : SamplerProcess) (elapsed : Z) (sampler : RssSampler)
    : M (RssSampler * bool) :=
  let next := saturating_duration elapsed RSS_SAMPLE_INTERVAL in
  let abandon :=
    r ← terminate (sp_child process);
    drop_guard r.2 ;;
    mret (mkRssSampler None next (rs_peak_kib sampler) (rs_disabled sampler), true) in
  status ← try_wait (sp_child process);
  match status with
  | Some (Some _) =>
      sample ← take_sample (sp_child process);
      drop_guard (disarm (sp_child process)) ;;
      mret (mkRssSampler None next (max_option (rs_peak_kib sampler) sample) (rs_disabled sampler), false)
  | Some None =>
      running ← elapsed_since (sp_started process);
      if running <? RSS_SAMPLE_TIMEOUT then mret (sampler, true) else abandon
  | None => abandon
  end.

Definition ps_command (pid : Z) : Command :=
  mkCommand (ascii_bytes "ps") None
    [ascii_bytes "-o"; ascii_bytes "rss="; ascii_bytes "-p"; decimal pid] [].

Definition poll (pid elapsed : Z) (sampler : RssSampler) : M RssSampler :=
  r ← match rs_process sampler with
      | Some process => poll_running process elapsed sampler
      | None => mret (sampler, false)
      end;
  let '(sampler, returned) := r : RssSampler * bool in
  if returned then mret sampler else
  if bool_decide (is_Some (rs_process sampler)) || rs_disabled sampler || (elapsed <? rs_next_sample sampler)
  then mret sampler else
  child ← spawn (ps_command pid);
  match child with
  | Some child =>
      started ← machine_call (m_now machine);
      mret (mkRssSampler (Some (mkSamplerProcess child started)) (rs_next_sample sampler)
              (rs_peak_kib sampler) (rs_disabled sampler))
  | None => mret (mkRssSampler None (rs_next_sample sampler) (rs_peak_kib sampler) true)
  end.

(** [finish] consumes the sampler: its guard is dropped at the end. *)
Definition finish_sampler (sampler : RssSampler) : M (option Z) :=
  match rs_process sampler with
  | None => mret (rs_peak_kib sampler)
  | Some process =>
      status ← try_wait (sp_child process);
      match status with
      | Some (Some _) =>
          sample ← take_sample (sp_child process);
          drop_guard (disarm (sp_child process)) ;;
          mret (max_option (rs_peak_kib sampler) sample)
      | _ =>
          r ← terminate (sp_child process);
          drop_guard r.2 ;;
          mret (rs_peak_kib sampler)
      end
  end.

(** [Drop] of a sampler on an early return. *)
Definition drop_sampler (sampler : RssSampler) : M unit :=
  match rs_process sampler with
  | Some process => drop_guard (sp_child process)
  | None => mret tt
  end.

(** ** The bounded execution *)

(** The local variables of [execute_bounded_qemu] that live through its loop. *)
Record Locals := mkLocals {
  lo_child : ChildGuard;
  lo_observer : ReadyMarkerObserver;
  lo_sampler : RssSampler
}.

(** [ready_observer.observe(started)]; the clock is read when the log was. *)
Definition observe_log (started : Z) (observer : ReadyMarkerObserver) : M (exec ExecError ReadyMarkerObserver) :=
  log ← machine_view (m_debug_log machine);
  elapsed ← elapsed_since started;
  mret (map_err ObserverFailed (observe chunk elapsed [log] observer)).

(** The guards are dropped in reverse order of their declaration. *)
Definition drop_locals (l : Locals) : M unit :=
  drop_sampler (lo_sampler l) ;; drop_guard (lo_child l).

(** [return Err(e)] with the locals in scope. *)
Definition bail {A} (l : Locals) (e : ExecError) : M A := drop_locals l ;; io_fail e.

(** The loop; it ends with the exit status and whether time ran out. *)
Fixpoint wait_loop (fuel : nat) (started timeout : Z) (l : Locals) : M (option Z * bool * Locals) :=
  match fuel with
  | O => fun s => (Panic, s)
  | S fuel =>
      elapsed ← elapsed_since started;
      observed ← observe_log started (lo_observer l);
      match observed with
      | Err e => bail l e
      | Panic => fun s => (Panic, s)
      | Ok observer =>
          let l := mkLocals (lo_child l) observer (lo_sampler l) in
          status ← try_wait (lo_child l);
          match status with
          | None => bail l StatusFailed
          | Some (Some status) =>
              mret (status, false, mkLocals (disarm (lo_child l)) observer (lo_sampler l))
          | Some None =>
              if timeout <=? elapsed then
                r ← terminate (lo_child l);
                match r.1 with
                | Some status => mret (status, true, mkLocals r.2 observer (lo_sampler l))
                | None => bail (mkLocals r.2 observer (lo_sampler l)) TerminateFailed
                end
              else
                sampler ← poll (cg_pid (lo_child l)) elapsed (lo_sampler l);
                machine_call (fun w => (tt, m_sleep machine POLL_INTERVAL w)) ;;
                wait_loop fuel started timeout (mkLocals (lo_child l) observer sampler)
          end
      end
  end.

(** One iteration for every poll interval within the timeout, and two more. *)
Definition loop_fuel (timeout : Z) : nat := Z.to_nat (timeout / POLL_INTERVAL + 2).

Definition execute_bounded_qemu (command : Command) (timeout : Z) : M QemuExecution :=
  started ← machine_call (m_now machine);
  child ← spawn command;
  match child with
  | None => io_fail SpawnFailed
  | Some child =>
      let l := mkLocals child (ReadyMarkerObserver_new 1) RssSampler_new in
      r ← wait_loop (loop_fuel timeout) started timeout l;
      let '(status, timed_out, l) := r : option Z * bool * Locals in
      observed ← observe_log started (lo_observer l);
      match observed with
      | Err e => bail l e
      | Panic => fun s => (Panic, s)
      | Ok observer =>
          elapsed ← elapsed_since started;
          sampler ← poll (cg_pid (lo_child l)) elapsed (lo_sampler l);
          peak_rss_kib ← finish_sampler sampler;
          duration ← elapsed_since started;
          drop_guard (lo_child l) ;;
          mret (mkQemuExecution status (as_millis_u64 duration) (as_millis_u64 <$> ro_observed_at observer)
                  peak_rss_kib timed_out)
      end
  end.
End Exec.
