(* ===== verification/HostExecProps.v ===== *)
(** Running the emulator ends within its time bound and makes a wait for every
    process it started, whatever the operating system answers. *)

From S2P Require Import Prelude Bytes Console Text HostScenario Protocol HostRun HostFs Repro XtaskCli HostExec.
Import Image.

(** ** The clock

    [Instant] never goes back, and [sleep] takes at least as long as asked. *)
Class MachineLaws {W : Type} (machine : Machine W) (time : W -> Z) : Prop := {
  now_exact : forall w, time w <= (m_now machine w).1 <= time (m_now machine w).2;
  spawn_time : forall c w, time w <= time (m_spawn machine c w).2;
  try_wait_time : forall p w, time w <= time (m_try_wait machine p w).2;
  kill_time : forall p w, time w <= time (m_kill machine p w).2;
  wait_time : forall p w, time w <= time (m_wait machine p w).2;
  stdout_time : forall p w, time w <= time (m_stdout machine p w).2;
  sleep_time : forall d w, 0 <= d -> time w + d <= time (m_sleep machine d w)
}.

(** ** The log observer ends *)
Lemma cursor_loop_no_panic chunk fuel : forall needle data c,
  (length data < fuel)%nat -> cursor_loop chunk fuel needle data c <> Panic.
Proof.
  induction fuel as [|fuel IH]; intros needle data c Hf; [lia|]. cbn [cursor_loop].
  destruct (lc_scanned c <? MAX_OBSERVED_LOG_BYTES); [|done].
  set (read := read_length chunk data (lc_offset c) _).
  destruct (Z.eqb_spec read 0) as [|Hr]; [done|].
  destruct (scan_bytes _ _ _) as [[] c']; [done|]. apply IH. rewrite length_drop.
  assert (0 < read /\ data <> []) as [Hp Hd].
  { revert Hr. unfold read, read_length. case_bool_decide; [done|]. intros _. split; [lia|done]. }
  destruct data; [done|]. cbn [length] in *. lia.
Qed.

Lemma observe_no_panic chunk elapsed file o : observe chunk elapsed [file] o <> Panic.
Proof.
  unfold observe. case_bool_decide; [done|]. apply bind_no_panic.
  - destruct (ro_cursors o) as [|c cs]; [done|]. cbn [observe_cursors]. apply bind_no_panic.
    + destruct file as [| |bytes]; [done..|]. unfold contains_new.
      destruct (MAX_OBSERVED_LOG_BYTES <=? _); [done|]. apply cursor_loop_no_panic. rewrite length_drop. lia.
    + by intros [[] c'] _.
  - by intros [cs at_] _.
Qed.

(** Every process that was given up is reaped. *)
Definition reaped {W} (s : PState W) : Prop := Forall (fun p => p.2 = true) (ps_settled s).

(** No process is left: each was waited for, and all are reaped if waits do not
    fail. *)
Record accounted {W} (waits : Prop) (s : PState W) : Prop := {
  ac_waited : ps_spawned s ⊆+ (ps_settled s).*1;
  ac_reaped : waits -> reaped s
}.

Section Exec.
Context {W : Type} (machine : Machine W) (time : W -> Z) `{!MachineLaws machine time} (chunk : Z -> Z).


(** Waits that do not fail, when [waits] holds. *)
Variable waits : Prop.
Hypothesis Hwaits : waits -> forall pid w, is_Some (m_wait machine pid w).1.

(** The processes that still have to be waited for are among [debt], all others
    were reaped if waits do not fail, and the clock has reached [t]. *)
Definition owes (debt : list Z) (t : Z) (s : PState W) : Prop :=
  (ps_spawned s ⊆+ (ps_settled s).*1 ++ debt /\ (waits -> reaped s)) /\ t <= time (ps_world s).

(** [m] starts with a debt, ends with [Q], never panics, and fails only with no
    debt left. *)
Definition runs {A : Type} (debt : list Z) (t : Z) (m : io (PState W) ExecError A)
    (Q : A -> PState W -> Prop) : Prop :=
  forall s, owes debt t s ->
  match m s with
  | (Ok a, s') => Q a s'
  | (Err _, s') => owes [] t s'
  | (Panic, _) => False
  end.

Lemma owes_later debt t t' s : t <= t' -> owes debt t' s -> owes debt t s.
Proof. intros Ht [H1 H2]. split; [done|lia]. Qed.

Lemma runs_bind {A B : Type} debt debt' t (m : io (PState W) ExecError A) (f : A -> io (PState W) ExecError B)
    (P : A -> Z -> Prop) Q :
  runs debt t m (fun a s => exists t', t <= t' /\ owes (debt' a) t' s /\ P a t') ->
  (forall a t', t <= t' -> P a t' -> runs (debt' a) t' (f a) Q) -> runs debt t (m ≫= f) Q.
Proof.
  intros Hm Hf s Hs. specialize (Hm s Hs). unfold mbind, io_bind.
  destruct (m s) as [[a|e|] s1]; [|done..]. destruct Hm as (t' & Ht & Ho & HP).
  specialize (Hf a t' Ht HP s1 Ho). destruct (f a s1) as [[b|e|] s2]; [done| |done].
  by eapply owes_later.
Qed.

Lemma runs_ret {A : Type} debt t (a : A) Q : (forall s, owes debt t s -> Q a s) -> runs debt t (mret a) Q.
Proof. intros H s Hs. by apply H. Qed.

(** A call of the machine keeps the debt and the order of time. *)
Lemma runs_call {A : Type} debt t (f : W -> A * W) :
  (forall w, time w <= time (f w).2) ->
  runs debt t (machine_call f) (fun a s => exists t', t <= t' /\ owes debt t' s /\ True).
Proof.
  intros Hf s [H1 H2]. unfold machine_call. specialize (Hf (ps_world s)).
  destruct (f (ps_world s)) as [a w]. exists t. split; [lia|]. split; [|done]. split; [done|cbn in *; lia].
Qed.

(** The result [a] leaves the debt [debt' a] at a later time, with [P]. *)
Definition yields {A : Type} (t : Z) (debt' : A -> list Z) (P : A -> Z -> Prop) (a : A) (s : PState W) : Prop :=
  exists t', t <= t' /\ owes (debt' a) t' s /\ P a t'.

Lemma owes_more debt debt' t s : debt ⊆+ debt' -> owes debt t s -> owes debt' t s.
Proof. intros Hd [[H1 Hr] H2]. split; [|done]. split; [|done]. etrans; [exact H1|]. by apply submseteq_app. Qed.

Lemma runs_now debt t :
  runs debt t (machine_call (m_now machine)) (yields t (fun _ => debt) (fun now t' => t <= now <= t')).
Proof using MachineLaws0 Hwaits.
  intros s [H1 H2]. unfold machine_call. pose proof (now_exact (ps_world s)) as Hn.
  destruct (m_now machine (ps_world s)) as [now w]. cbn in Hn. exists (time w).
  split; [lia|]. split; [|lia]. split; [done|cbn; lia].
Qed.

Lemma runs_elapsed debt t started :
  started <= t ->
  runs debt t (elapsed_since machine started)
    (yields t (fun _ => debt) (fun e t' => t - started <= e /\ started + e <= t')).
Proof using MachineLaws0 Hwaits.
  intros Hs. unfold elapsed_since.
  apply (runs_bind debt (fun _ => debt) t _ _ (fun now t' => t <= now <= t')); [apply runs_now|].
  intros now t' Ht Hn. apply runs_ret. intros s Ho. exists t'. split; [done|]. split; [done|lia].
Qed.

Lemma runs_settle debt t pid b :
  (waits -> b = true) ->
  runs (pid :: debt) t (settle pid b) (yields t (fun _ => debt) (fun _ _ => True)).
Proof.
  intros Hb s [[H1 Hr] H2]. exists t. split; [lia|]. split; [|done]. split; [|done].
  unfold reaped. cbn [ps_spawned ps_settled]. split.
  - etrans; [exact H1|]. cbn [fmap list_fmap fst]. rewrite <- Permutation_middle. done.
  - intros Hw. constructor; [by apply Hb|by apply Hr].
Qed.

Lemma runs_wait debt t pid :
  runs debt t (machine_call (m_wait machine pid))
    (yields t (fun _ => debt) (fun r _ => waits -> bool_decide (is_Some r) = true)).
Proof using MachineLaws0 Hwaits.
  intros s [H1 H2]. unfold machine_call. pose proof (wait_time pid (ps_world s)) as Ht.
  assert (waits -> is_Some (m_wait machine pid (ps_world s)).1) as Hs by (intros Hw; by apply Hwaits).
  destruct (m_wait machine pid (ps_world s)) as [r w]. cbn [fst snd] in *. exists t. split; [lia|].
  split; [split; [exact H1|cbn; lia]|]. intros Hw. by apply bool_decide_eq_true_2, Hs.
Qed.

Lemma runs_weaken {A : Type} debt debt' t m (Q Q' : A -> PState W -> Prop) :
  runs debt t m Q -> (forall s, owes debt' t s -> owes debt t s) -> (forall a s, Q a s -> Q' a s) ->
  runs debt' t m Q'.
Proof.
  intros Hm Hd HQ s Hs. specialize (Hm s (Hd s Hs)). destruct (m s) as [[a|e|] s']; [by apply HQ|done..].
Qed.

Definition debt_guard (g : ChildGuard) : list Z := if cg_armed g then [cg_pid g] else [].
Definition is_exit (r : option (option (option Z))) : bool :=
  match r with Some (Some _) => true | _ => false end.

Lemma runs_try_wait debt t g :
  runs (cg_pid g :: debt) t (try_wait machine g)
    (yields t (fun r => if is_exit r then debt else cg_pid g :: debt) (fun _ _ => True)).
Proof using MachineLaws0 Hwaits.
  unfold try_wait. apply (runs_bind _ (fun _ => cg_pid g :: debt) t _ _ (fun _ _ => True)).
  { apply runs_call. intros w. apply try_wait_time. }
  intros r t' Ht _. destruct r as [[st|]|]; cbn [is_exit].
  - apply (runs_bind _ (fun _ => debt) t' _ _ (fun _ _ => True)); [by apply runs_settle|].
    intros ? t'' Ht' _. apply runs_ret. intros s Ho. exists t''. split; [lia|done].
  - apply runs_ret. intros s Ho. by exists t'.
  - apply runs_ret. intros s Ho. by exists t'.
Qed.

Lemma runs_drop_guard debt t g :
  runs (debt_guard g ++ debt) t (drop_guard machine g) (yields t (fun _ => debt) (fun _ _ => True)).
Proof using MachineLaws0 Hwaits.
  unfold drop_guard, debt_guard. destruct (cg_armed g); cbn [app].
  - apply (runs_bind _ (fun _ => cg_pid g :: debt) t _ _ (fun _ _ => True)).
    { apply runs_call. intros w. apply kill_time. }
    intros ? t1 H1 _. eapply runs_bind; [apply runs_wait|].
    cbn beta. intros r t2 H2 Hr. eapply runs_weaken; [by apply runs_settle|done|].
    intros ? s (t3 & H3 & Ho & _). exists t3. split; [lia|done].
  - apply runs_ret. intros s Ho. exists t. split; [lia|done].
Qed.

Lemma runs_terminate debt t g :
  cg_armed g = true ->
  runs (cg_pid g :: debt) t (terminate machine g)
    (yields t (fun r => debt_guard r.2 ++ debt)
       (fun r _ => cg_pid r.2 = cg_pid g /\ (is_Some r.1 -> cg_armed r.2 = false))).
Proof using MachineLaws0 Hwaits.
  intros Ha. unfold terminate. apply (runs_bind _ (fun _ => cg_pid g :: debt) t _ _ (fun _ _ => True)).
  { apply runs_call. intros w. apply kill_time. }
  intros [] t1 H1 _.
  2: { apply runs_ret. intros s Ho. exists t1. split; [done|]. unfold debt_guard. cbn [snd]. rewrite Ha.
       split; [done|]. split; [done|]. by intros [? ?]. }
  apply (runs_bind _ (fun _ => cg_pid g :: debt) t1 _ _ (fun _ _ => True)).
  { apply runs_call. intros w. apply wait_time. }
  intros [status|] t2 H2 _.
  - apply (runs_bind _ (fun _ => debt) t2 _ _ (fun _ _ => True)); [by apply runs_settle|].
    intros ? t3 H3 _. apply runs_ret. intros s Ho. exists t3. split; [lia|done].
  - apply runs_ret. intros s Ho. exists t2. split; [lia|]. unfold debt_guard. cbn [snd]. rewrite Ha.
    split; [done|]. split; [done|by intros [? ?]].
Qed.

(** ** The sampler *)
Definition debt_sampler (sm : RssSampler) : list Z :=
  match rs_process sm with Some p => [cg_pid (sp_child p)] | None => [] end.
(** A sample in progress is guarded, and was started in the past. *)
Definition sampler_ok (sm : RssSampler) (t : Z) : Prop :=
  match rs_process sm with Some p => cg_armed (sp_child p) = true /\ sp_started p <= t | None => True end.

Lemma runs_sample debt t g :
  runs debt t (take_sample machine g) (yields t (fun _ => debt) (fun _ _ => True)).
Proof using MachineLaws0 Hwaits.
  unfold take_sample. apply (runs_bind _ (fun _ => debt) t _ _ (fun _ _ => True)).
  { apply runs_call. intros w. apply stdout_time. }
  intros o t1 H1 _. apply runs_ret. intros s Ho. by exists t1.
Qed.

(** Giving up on a child: terminate it, and drop the guard whatever came of it. *)
Lemma runs_abandon debt t g {A : Type} (k : io (PState W) ExecError A) Q :
  cg_armed g = true -> (forall t', t <= t' -> runs debt t' k Q) ->
  runs (cg_pid g :: debt) t (r ← terminate machine g; drop_guard machine r.2 ;; k) Q.
Proof using MachineLaws0 Hwaits.
  intros Ha Hk. eapply runs_bind; [by apply runs_terminate|].
  intros r t1 H1 _. apply (runs_bind _ (fun _ => debt) t1 _ _ (fun _ _ => True)); [apply runs_drop_guard|].
  intros ? t2 H2 _. apply Hk. lia.
Qed.

(** Taking the sample of a child that ended. *)
Lemma runs_taken debt t g {A : Type} (k : option Z -> io (PState W) ExecError A) Q :
  (forall o t', t <= t' -> runs debt t' (k o) Q) ->
  runs debt t (sample ← take_sample machine g; drop_guard machine (disarm g) ;; k sample) Q.
Proof using MachineLaws0 Hwaits.
  intros Hk. apply (runs_bind _ (fun _ => debt) t _ _ (fun _ _ => True)); [apply runs_sample|].
  intros o t1 H1 _. apply (runs_bind _ (fun _ => debt) t1 _ _ (fun _ _ => True)).
  { apply (runs_drop_guard debt t1 (disarm g)). }
  intros ? t2 H2 _. apply Hk. lia.
Qed.

Lemma runs_poll_running debt t process elapsed sm :
  rs_process sm = Some process -> sampler_ok sm t ->
  runs (cg_pid (sp_child process) :: debt) t (poll_running machine process elapsed sm)
    (yields t (fun r => debt_sampler r.1 ++ debt)
       (fun r t' => sampler_ok r.1 t' /\ (r.2 = false -> rs_process r.1 = None))).
Proof using MachineLaws0 Hwaits.
  intros Hp Hok. unfold sampler_ok in Hok. rewrite Hp in Hok. destruct Hok as [Ha Hst]. unfold poll_running.
  eapply runs_bind; [apply runs_try_wait|]. intros status t1 H1 _.
  assert (forall n t1, t <= t1 -> runs (cg_pid (sp_child process) :: debt) t1
    (r ← terminate machine (sp_child process); drop_guard machine r.2 ;;
     mret (mkRssSampler None n (rs_peak_kib sm) (rs_disabled sm), true))
    (yields t (fun r => debt_sampler r.1 ++ debt)
       (fun r t' => sampler_ok r.1 t' /\ (r.2 = false -> rs_process r.1 = None)))) as Hgive.
  { intros n t2' H2'. apply runs_abandon; [done|]. intros t2 H2. apply runs_ret. intros s Ho. exists t2.
    split; [lia|done]. }
  destruct status as [[st|]|]; cbn [is_exit].
  - apply runs_taken. intros o t2 H2. apply runs_ret. intros s Ho. exists t2. split; [lia|done].
  - eapply runs_bind; [apply runs_elapsed; lia|]. intros e t2 H2 _.
    destruct (e <? RSS_SAMPLE_TIMEOUT).
    + apply runs_ret. intros s Ho. exists t2. split; [lia|]. unfold debt_sampler, sampler_ok. cbn [fst snd].
      rewrite Hp. split; [done|]. split; [split; [done|lia]|done].
    + apply Hgive. lia.
  - apply Hgive. lia.
Qed.

Lemma runs_spawn debt t c :
  runs debt t (spawn machine c)
    (yields t (fun g => match g with Some g => cg_pid g :: debt | None => debt end)
       (fun g _ => match g with Some g => cg_armed g = true | None => True end)).
Proof using MachineLaws0 Hwaits.
  intros s [H1 H2]. unfold spawn. pose proof (spawn_time c (ps_world s)) as Ht.
  destruct (m_spawn machine c (ps_world s)) as [[pid|] w]; cbn in Ht; exists t; (split; [lia|]);
    (split; [|done]); (split; [|cbn; lia]); destruct H1 as [H1 Hr]; (split; [|exact Hr]);
    cbn [ps_spawned ps_settled cg_pid]; [|done].
  rewrite <- Permutation_middle. by apply submseteq_skip.
Qed.

Lemma runs_poll debt t pid elapsed sm :
  sampler_ok sm t ->
  runs (debt_sampler sm ++ debt) t (poll machine pid elapsed sm)
    (yields t (fun sm' => debt_sampler sm' ++ debt) (fun sm' t' => sampler_ok sm' t')).
Proof using MachineLaws0 Hwaits.
  intros Hok. unfold poll.
  apply (runs_bind _ (fun r => debt_sampler r.1 ++ debt) t _ _
    (fun r t' => sampler_ok r.1 t' /\ (r.2 = false -> rs_process r.1 = None))).
  { destruct (rs_process sm) as [process|] eqn:Hp.
    - unfold debt_sampler at 1. rewrite Hp. by apply runs_poll_running.
    - apply runs_ret. intros s Ho. exists t. split; [lia|]. split; [done|]. done. }
  intros [sm1 returned] t1 H1 [Hok1 Hnone]. cbn [fst snd] in *.
  assert (forall s, owes (debt_sampler sm1 ++ debt) t1 s ->
    yields t (fun sm' => debt_sampler sm' ++ debt) (fun sm' t' => sampler_ok sm' t') sm1 s) as Hret.
  { intros s Ho. exists t1. done. }
  destruct returned; [by apply runs_ret|]. specialize (Hnone eq_refl).
  destruct (_ || _); [by apply runs_ret|].
  eapply runs_bind; [apply runs_spawn|]. unfold debt_sampler. rewrite Hnone. cbn [app].
  intros [g|] t2 H2 Hg.
  - eapply runs_bind; [apply runs_now|]. intros now t3 H3 Hn. apply runs_ret. intros s Ho. exists t3.
    split; [lia|]. split; [done|]. split; [done|cbn in *; lia].
  - apply runs_ret. intros s Ho. exists t2. split; [lia|done].
Qed.

Lemma runs_finish_sampler debt t sm :
  sampler_ok sm t ->
  runs (debt_sampler sm ++ debt) t (finish_sampler machine sm) (yields t (fun _ => debt) (fun _ _ => True)).
Proof using MachineLaws0 Hwaits.
  intros Hok. unfold finish_sampler, debt_sampler, sampler_ok in *.
  destruct (rs_process sm) as [process|]; cbn [app].
  2: { apply runs_ret. intros s Ho. exists t. split; [lia|done]. }
  eapply runs_bind; [apply runs_try_wait|]. intros status t1 H1 _.
  assert (runs (cg_pid (sp_child process) :: debt) t1
    (r ← terminate machine (sp_child process); drop_guard machine r.2 ;; mret (rs_peak_kib sm))
    (yields t (fun _ => debt) (fun _ _ => True))) as Hgive.
  { apply runs_abandon; [by destruct Hok|]. intros t2 H2. apply runs_ret. intros s Ho. exists t2. split; [lia|done]. }
  destruct status as [[st|]|]; cbn [is_exit]; [|exact Hgive..].
  apply runs_taken. intros o t2 H2. apply runs_ret. intros s Ho. exists t2. split; [lia|done].
Qed.

Lemma runs_bail {A : Type} debt t l e Q :
  sampler_ok (lo_sampler l) t ->
  debt ⊆+ debt_sampler (lo_sampler l) ++ debt_guard (lo_child l) ->
  runs debt t (bail (A:=A) machine l e) Q.
Proof using MachineLaws0 Hwaits.
  intros Hok Hd. unfold bail, drop_locals.
  assert (runs debt t (drop_sampler machine (lo_sampler l))
    (yields t (fun _ => debt_guard (lo_child l)) (fun _ _ => True))) as Hds.
  { eapply (runs_weaken (debt_sampler (lo_sampler l) ++ debt_guard (lo_child l)));
      [|intros s; by apply owes_more|done].
    unfold drop_sampler, debt_sampler, sampler_ok in *. destruct (rs_process (lo_sampler l)) as [p|]; cbn [app].
    - destruct Hok as [Ha _]. pose proof (runs_drop_guard (debt_guard (lo_child l)) t (sp_child p)) as H.
      unfold debt_guard at 1 in H. by rewrite Ha in H.
    - apply runs_ret. intros s Ho. exists t. split; [lia|done]. }
  apply (runs_bind _ (fun _ => []) t _ _ (fun _ _ => True)).
  2: { intros ? t1 H1 _ s Ho. done. }
  apply (runs_bind _ (fun _ => debt_guard (lo_child l)) t _ _ (fun _ _ => True)); [exact Hds|].
  intros ? t1 H1 _. eapply runs_weaken.
  - apply (runs_drop_guard [] t1 (lo_child l)).
  - intros s. by rewrite app_nil_r.
  - intros ? s (t2 & H2 & Ho & _). exists t2. split; [lia|done].
Qed.

(** ** The loop *)
Lemma runs_observe debt t started o :
  started <= t ->
  runs debt t (observe_log machine chunk started o)
    (yields t (fun _ => debt) (fun r t' => r <> Panic)).
Proof using MachineLaws0 Hwaits.
  intros Hs. unfold observe_log.
  apply (runs_bind _ (fun _ => debt) t _ _ (fun _ _ => True)).
  { intros s Ho. exists t. split; [lia|done]. }
  intros log t1 H1 _. eapply runs_bind; [apply runs_elapsed; lia|]. intros e t2 H2 _.
  apply runs_ret. intros s Ho. exists t2. split; [lia|]. split; [done|].
  apply map_err_no_panic, observe_no_panic.
Qed.

(** What the loop returns: the child was waited for, and a timeout means that
    the time is over. *)
Definition loop_done (started timeout : Z) (r : option Z * bool * Locals) (t : Z) : Prop :=
  cg_armed (lo_child r.2) = false /\ sampler_ok (lo_sampler r.2) t /\
  (r.1.2 = true -> started + timeout <= t).

(** One iteration, with what the next one needs. *)
Lemma runs_iteration started timeout fuel t l :
  started <= t -> cg_armed (lo_child l) = true -> sampler_ok (lo_sampler l) t ->
  (forall o sm e t', t - started <= e -> e < timeout -> t + POLL_INTERVAL <= t' -> sampler_ok sm t' ->
     runs (cg_pid (lo_child l) :: debt_sampler sm) t'
       (wait_loop machine chunk fuel started timeout (mkLocals (lo_child l) o sm))
       (yields t (fun r => debt_sampler (lo_sampler r.2)) (loop_done started timeout))) ->
  runs (cg_pid (lo_child l) :: debt_sampler (lo_sampler l)) t
    (wait_loop machine chunk (S fuel) started timeout l)
    (yields t (fun r => debt_sampler (lo_sampler r.2)) (loop_done started timeout)).
Proof using MachineLaws0 Hwaits.
  intros Hst Ha Hok Hnext. cbn [wait_loop]. set (D := debt_sampler (lo_sampler l)).
  assert (forall t', t <= t' -> sampler_ok (lo_sampler l) t') as Hok'.
  { intros t' Ht. unfold sampler_ok in *. destruct (rs_process _); [|done]. destruct Hok. split; [done|lia]. }
  assert (cg_pid (lo_child l) :: D ⊆+ D ++ debt_guard (lo_child l)) as Hall.
  { unfold debt_guard. rewrite Ha, <- Permutation_cons_append. done. }
  eapply runs_bind; [by apply runs_elapsed|]. cbn beta. intros e t1 H1 [He1 He2].
  eapply runs_bind; [apply runs_observe; lia|]. cbn beta. intros obs t2 H2 Hobs.
  destruct obs as [o|err|]; [| |done].
  2: { apply runs_bail; [apply Hok'; lia|exact Hall]. }
  eapply runs_bind; [apply runs_try_wait|]. cbn beta. intros status t3 H3 _.
  destruct status as [[st|]|]; cbn [is_exit lo_child lo_sampler].
  - apply runs_ret. intros s Ho. exists t3. split; [lia|]. split; [done|]. split; [done|].
    split; [apply Hok'; lia|done].
  - destruct (Z.leb_spec timeout e) as [Hto|Hto].
    + eapply runs_bind; [by apply runs_terminate|]. cbn beta. intros [[st|] g] t4 H4 [Hp Hg]; cbn [fst snd] in *.
      * apply runs_ret. intros s Ho. exists t4. specialize (Hg (ltac:(by eexists))).
        unfold debt_guard in Ho. rewrite Hg in Ho. split; [lia|]. split; [done|]. split; [done|].
        split; [apply Hok'; lia|]. cbn. lia.
      * apply runs_bail; cbn [lo_child lo_sampler]; [apply Hok'; lia|]. by rewrite Permutation_app_comm.
    + eapply runs_bind.
      { eapply (runs_weaken (D ++ [cg_pid (lo_child l)])); [apply runs_poll; apply Hok'; lia| |done].
        intros s. apply owes_more. by rewrite <- Permutation_cons_append. }
      cbn beta. intros sm t4 H4 Hsm.
      apply (runs_bind _ (fun _ => cg_pid (lo_child l) :: debt_sampler sm) t4 _ _
        (fun _ t' => t + POLL_INTERVAL <= t')).
      { intros s [[Ho1 Hor] Ho2]. exists (time (ps_world s) + POLL_INTERVAL).
        pose proof (sleep_time POLL_INTERVAL (ps_world s)) as Hsl.
        unfold POLL_INTERVAL, MILLISECOND in *. cbn [machine_call ps_world].
        split; [lia|]. split; [|lia]. split; [|cbn; lia]. split; [|exact Hor]. cbn [ps_spawned ps_settled].
        etrans; [exact Ho1|]. rewrite <- (Permutation_cons_append (debt_sampler sm)). done. }
      cbn beta. intros ? t5 H5 Ht5. apply Hnext with (e := e); [lia|lia|lia|].
      unfold sampler_ok in *. destruct (rs_process sm); [|done]. destruct Hsm. split; [done|lia].
  - apply runs_bail; cbn [lo_child lo_sampler]; [apply Hok'; lia|exact Hall].
Qed.

Lemma runs_wait_loop started timeout fuel : forall t l,
  started + (timeout / POLL_INTERVAL + 1 - Z.of_nat fuel) * POLL_INTERVAL <= t -> started <= t ->
  cg_armed (lo_child l) = true -> sampler_ok (lo_sampler l) t ->
  runs (cg_pid (lo_child l) :: debt_sampler (lo_sampler l)) t
    (wait_loop machine chunk (S fuel) started timeout l)
    (yields t (fun r => debt_sampler (lo_sampler r.2)) (loop_done started timeout)).
Proof using MachineLaws0 Hwaits.
  induction fuel as [|fuel IH]; intros t l Ht Hst Ha Hok; apply runs_iteration; try done;
    intros o sm e t' He Hto Ht' Hsm.
  - exfalso. pose proof (Z.mul_succ_div_gt timeout POLL_INTERVAL eq_refl). unfold POLL_INTERVAL, MILLISECOND in *. lia.
  - eapply runs_weaken; [apply (IH t' (mkLocals (lo_child l) o sm))|done|].
    + unfold POLL_INTERVAL, MILLISECOND in *. lia.
    + unfold POLL_INTERVAL, MILLISECOND in *. lia.
    + done.
    + done.
    + intros r s (t2 & H2 & Hr). exists t2. split; [unfold POLL_INTERVAL, MILLISECOND in *; lia|done].
Qed.

Lemma runs_execute command timeout t :
  0 <= timeout ->
  runs [] t (execute_bounded_qemu machine chunk command timeout)
    (yields t (fun _ => []) (fun e t' => exists duration, qe_duration_ms e = as_millis_u64 duration /\
       (qe_timed_out e = true -> timeout <= duration))).
Proof using MachineLaws0 Hwaits.
  intros Hto. unfold execute_bounded_qemu.
  eapply runs_bind; [apply runs_now|]. cbn beta. intros started t1 H1 Hs.
  eapply runs_bind; [apply runs_spawn|]. cbn beta. intros [child|] t2 H2 Ha.
  2: { intros s Ho. cbn. eapply owes_later; [|exact Ho]. lia. }
  assert (exists n, loop_fuel timeout = S n /\ Z.of_nat n = timeout / POLL_INTERVAL + 1) as (n & -> & Hn).
  { exists (Z.to_nat (timeout / POLL_INTERVAL + 1)). unfold loop_fuel.
    pose proof (Z.div_pos timeout POLL_INTERVAL Hto eq_refl). split; lia. }
  eapply runs_bind.
  { apply (runs_wait_loop started timeout n t2 (mkLocals child (ReadyMarkerObserver_new 1) RssSampler_new));
      [|lia|done|done]. rewrite Hn, Z.sub_diag. lia. }
  cbn beta. intros [[status timed_out] l] t3 H3 (Hdis & Hok & Htime). cbn [fst snd] in *.
  eapply runs_bind; [apply runs_observe; lia|]. cbn beta. intros obs t4 H4 Hobs.
  assert (forall t', t3 <= t' -> sampler_ok (lo_sampler l) t') as Hok'.
  { intros t' Ht. unfold sampler_ok in *. destruct (rs_process _); [|done]. destruct Hok. split; [done|lia]. }
  destruct obs as [o|err|]; [| |done].
  2: { apply runs_bail; [apply Hok'; lia|]. unfold debt_guard. by rewrite Hdis, app_nil_r. }
  eapply runs_bind; [apply runs_elapsed; lia|]. cbn beta. intros e t5 H5 _.
  eapply runs_bind.
  { eapply (runs_weaken (debt_sampler (lo_sampler l) ++ [])); [apply runs_poll; apply Hok'; lia| |done].
    intros s. by rewrite app_nil_r. }
  cbn beta. intros sm t6 H6 Hsm. eapply runs_bind; [by apply runs_finish_sampler|]. cbn beta. intros peak t7 H7 _.
  eapply runs_bind; [apply runs_elapsed; lia|]. cbn beta. intros duration t8 H8 [Hd _].
  eapply runs_bind.
  { pose proof (runs_drop_guard [] t8 (lo_child l)) as Hg. unfold debt_guard in Hg. rewrite Hdis in Hg. exact Hg. }
  cbn beta. intros ? t9 H9 _. apply runs_ret. intros s Ho. exists t9. split; [lia|]. split; [done|].
  exists duration. split; [done|]. cbn. intros Htrue. specialize (Htime Htrue). lia.
Qed.
End Exec.

Lemma as_millis_mono a b : 0 <= a <= b -> as_millis_u64 a <= as_millis_u64 b.
Proof.
  intros Hab. unfold as_millis_u64, try_uint, u64_MAX.
  pose proof (Z.div_le_mono a b MILLISECOND eq_refl (proj2 Hab)) as H.
  destruct (Z.ltb_spec (a / MILLISECOND) (2 ^ 64)), (Z.ltb_spec (b / MILLISECOND) (2 ^ 64)); simpl; lia.
Qed.

Lemma execute_accounted {W : Type} (machine : Machine W) (time : W -> Z) (chunk : Z -> Z) (waits : Prop)
    (command : Command) (timeout : Z) (s : PState W) :
  MachineLaws machine time -> (waits -> forall pid w, is_Some (m_wait machine pid w).1) -> 0 <= timeout ->
  accounted waits s ->
  let '(r, s') := execute_bounded_qemu machine chunk command timeout s in
  r <> Panic /\ accounted waits s' /\
  forall e, r = Ok e -> qe_timed_out e = true -> as_millis_u64 timeout <= qe_duration_ms e.
Proof.
  intros Hm Hw Hto [Ha Hr].
  pose proof (runs_execute machine time chunk waits Hw command timeout (time (ps_world s)) Hto s) as H.
  destruct (execute_bounded_qemu _ _ _ _ _) as [r s'].
  specialize (H ltac:(split; [by rewrite app_nil_r|lia])). destruct r as [e|e|]; [| |done].
  - destruct H as (t' & _ & [Ho _] & d & Hd & Hle). rewrite app_nil_r in Ho. split_and!; [done|by split; apply Ho|].
    intros e' [= <-] Ht. rewrite Hd. apply as_millis_mono. split; [done|by apply Hle].
  - destruct H as [Ho _]. rewrite app_nil_r in Ho. split_and!; [done|by split; apply Ho|done].
Qed.

(** A boot run ends and cleans up.  On any machine whose clock does not go
    back and whose sleeps take as long as asked, the execution returns within
    its bound of polls whatever the emulator, the sampler, the log and the
    process calls do; on every way out, errors included, a wait was made for each
    process that was started, emulator or sampler, and if waits do not fail each
    was reaped; and a run that reports a timeout lasted at least the timeout, as
    the timeout probe requires. *)
Theorem execution_ends_and_reaps {W : Type} (machine : Machine W) (time : W -> Z) (chunk : Z -> Z)
    (command : Command) (timeout : Z) (w : W) :
  MachineLaws machine time -> 0 <= timeout ->
  let '(r, s') := execute_bounded_qemu machine chunk command timeout (mkPState w [] []) in
  r <> Panic /\ accounted (forall pid w, is_Some (m_wait machine pid w).1) s' /\
  forall e, r = Ok e -> qe_timed_out e = true -> as_millis_u64 timeout <= qe_duration_ms e.
Proof.
  intros Hm Hto. apply (execute_accounted machine time); [done..|]. split; [done|]. intros _. constructor.
Qed.

(** A guest that hangs: it never exits, and the clock moves with the sleeps. *)
Definition hung_machine : Machine Z := {|
  m_now w := (w, w);
  m_spawn _ w := (Some 7, w);
  m_try_wait _ w := (Some None, w);
  m_kill _ w := (true, w);
  m_wait _ w := (Some None, w);
  m_stdout _ w := (None, w);
  m_sleep d w := w + d;
  m_debug_log _ := NotFound
|}.
#[global] Instance hung_laws : MachineLaws hung_machine (fun w => w).
Proof. split; cbn; intros; lia. Qed.

(** A timeout of twelve milliseconds. *)
Lemma execution_ends_and_reaps_witness :
  let '(r, s') := execute_bounded_qemu hung_machine (fun _ => 1) (mkCommand [] None [] []) (12 * MILLISECOND)
                    (mkPState 0 [] []) in
  r = Ok (mkQemuExecution None 15 None None true) /\ ps_spawned s' ⊆+ (ps_settled s').*1 /\ reaped s'.
Proof.
  pose proof (execution_ends_and_reaps hung_machine (fun w => w) (fun _ => 1) (mkCommand [] None [] [])
    (12 * MILLISECOND) 0 hung_laws ltac:(by_decide)) as H.
  destruct (execute_bounded_qemu _ _ _ _ _) as [r s'] eqn:E. destruct H as (_ & [H Hr] & _).
  split; [|exact (conj H (Hr (fun _ _ => ltac:(by eexists))))]. apply (f_equal fst) in E. cbn [fst] in E. rewrite <- E. vm_compute. reflexivity.
Defined.
