(* ===== verification/QemuArgs.v ===== *)
(** The emulator's arguments: [QemuInvocation], [qemu_invocation] and
    [qemu_option_path] of crates/xtask/src/qemu.rs.  Every argument has a
    sanitized twin for the report. *)

From S2P Require Import Prelude Bytes Console Text.

Record QemuInvocation := mkQemuInvocation {
  qi_arguments : list (list Z);
  qi_sanitized_argv : list (list Z)
}.

(** [path.to_string_lossy().replace(',', ",,")] *)
Definition double_commas (l : list Z) : list Z := concat ((fun c => if c =? 44 then [44; 44] else [c]) <$> l).
Definition qemu_option_path (path : list Z) : list Z := double_commas (from_utf8_lossy path).

(** [qemu_name] is [qemu.file_name()]. *)
Definition QemuInvocation_new (qemu_name : option (list Z)) : QemuInvocation :=
  mkQemuInvocation [] [match qemu_name with
                       | None => ascii_bytes "<QEMU_EXECUTABLE>"
                       | Some name => from_utf8_lossy name
                       end].

Definition push (argument sanitized : list Z) (i : QemuInvocation) : QemuInvocation :=
  mkQemuInvocation (qi_arguments i ++ [encode_utf8 argument]) (qi_sanitized_argv i ++ [sanitized]).
Definition push_literal (argument : string) (i : QemuInvocation) : QemuInvocation :=
  push (ascii_bytes argument) (ascii_bytes argument) i.
Definition push_literals (l : list string) (i : QemuInvocation) : QemuInvocation :=
  fold_left (fun i argument => push_literal argument i) l i.

Definition FIXED_ARGUMENTS : list string :=
  ["-machine"; "q35,accel=tcg"; "-cpu"; "max"; "-smp"; "1"; "-m"; "256M"; "-display"; "none"; "-monitor"; "none";
   "-nic"; "none"; "-no-reboot"; "-boot"; "order=c,strict=on"; "-snapshot"; "-drive"]%string.

(** The three drive arguments. *)
Definition code_drive (ovmf_code : list Z) : list Z :=
  ascii_bytes "if=pflash,format=raw,unit=0,readonly=on,file=" ++ qemu_option_path ovmf_code.
Definition vars_drive (ovmf_vars : list Z) : list Z :=
  ascii_bytes "if=pflash,format=raw,unit=1,file=" ++ qemu_option_path ovmf_vars.
Definition image_drive (image : list Z) : list Z :=
  ascii_bytes "format=raw,if=virtio,readonly=on,file=" ++ qemu_option_path image.

(** [linux] is [cfg!(target_os = "linux")]. *)
Definition qemu_invocation (linux : bool) (qemu_name : option (list Z))
    (ovmf_code ovmf_vars image serial_log debug_log : list Z) (attach_debug_exit : bool) : QemuInvocation :=
  let i := push_literals FIXED_ARGUMENTS (QemuInvocation_new qemu_name) in
  let i := push (code_drive ovmf_code)
             (ascii_bytes "if=pflash,format=raw,unit=0,readonly=on,file=<OVMF_CODE>") i in
  let i := push_literal "-drive" i in
  let i := push (vars_drive ovmf_vars) (ascii_bytes "if=pflash,format=raw,unit=1,file=<OVMF_VARS_MUTABLE>") i in
  let i := push_literal "-drive" i in
  let i := push (image_drive image) (ascii_bytes "format=raw,if=virtio,readonly=on,file=<BOOT_IMAGE>") i in
  let i := push_literal "-serial" i in
  let i := push (ascii_bytes "file:" ++ from_utf8_lossy serial_log) (ascii_bytes "file:<SERIAL_LOG>") i in
  let i := push_literal "-debugcon" i in
  let i := push (ascii_bytes "file:" ++ from_utf8_lossy debug_log) (ascii_bytes "file:<DEBUGCON_LOG>") i in
  let i := push_literals ["-global"; "isa-debugcon.iobase=0xe9"]%string i in
  let i := if attach_debug_exit
           then push_literals ["-device"; "isa-debug-exit,iobase=0xf4,iosize=0x04"]%string i else i in
  if linux
  then push_literals ["-sandbox";
         "on,obsolete=deny,elevateprivileges=deny,spawn=deny,resourcecontrol=deny"]%string i
  else i.

(** ** The command line as a list *)

(** The whole command line with its five arguments that name files; the report's
    twin has placeholders in their place. *)
Definition command_line (linux exit_ : bool) (code vars image serial debug : list Z) : list (list Z) :=
  let text := fmap ascii_bytes in
  text ["-machine"; "q35,accel=tcg"; "-cpu"; "max"; "-smp"; "1"; "-m"; "256M"; "-display"; "none"; "-monitor";
        "none"; "-nic"; "none"; "-no-reboot"; "-boot"; "order=c,strict=on"; "-snapshot"]%string ++
  text ["-drive"]%string ++ [code] ++ text ["-drive"]%string ++ [vars] ++ text ["-drive"]%string ++ [image] ++
  text ["-serial"]%string ++ [serial] ++ text ["-debugcon"]%string ++ [debug] ++
  text ["-global"; "isa-debugcon.iobase=0xe9"]%string ++
  (if exit_ then text ["-device"; "isa-debug-exit,iobase=0xf4,iosize=0x04"]%string else []) ++
  (if linux then text ["-sandbox"; "on,obsolete=deny,elevateprivileges=deny,spawn=deny,resourcecontrol=deny"]%string
   else []).

(** The command line of a report: no path is in it. *)
Definition reported_line (linux exit_ : bool) : list (list Z) :=
  command_line linux exit_
    (ascii_bytes "if=pflash,format=raw,unit=0,readonly=on,file=<OVMF_CODE>")
    (ascii_bytes "if=pflash,format=raw,unit=1,file=<OVMF_VARS_MUTABLE>")
    (ascii_bytes "format=raw,if=virtio,readonly=on,file=<BOOT_IMAGE>")
    (ascii_bytes "file:<SERIAL_LOG>") (ascii_bytes "file:<DEBUGCON_LOG>").

(** How a report names the emulator: by the last component of its path. *)
Definition reported_name (name : option (list Z)) : list Z :=
  match name with None => ascii_bytes "<QEMU_EXECUTABLE>" | Some name => from_utf8_lossy name end.

Lemma invocation_exact linux name code vars image serial debug exit_ :
  qemu_invocation linux name code vars image serial debug exit_ =
  mkQemuInvocation
    (command_line linux exit_ (encode_utf8 (code_drive code)) (encode_utf8 (vars_drive vars))
       (encode_utf8 (image_drive image)) (encode_utf8 (ascii_bytes "file:" ++ from_utf8_lossy serial))
       (encode_utf8 (ascii_bytes "file:" ++ from_utf8_lossy debug)))
    (reported_name name :: reported_line linux exit_).
Proof. destruct linux, exit_; reflexivity. Qed.

(** ** How the emulator reads a drive argument

    The emulator is not part of the program.  What its manual says of option
    arguments: options are separated by commas, and a comma of a value is written
    twice. *)
Definition no_comma (l : list Z) : bool := forallb (fun c => negb (c =? 44)) l.

Class OptionSyntax (fields : list Z -> list (list Z)) : Prop := {
  os_separator o c rest : no_comma o = true -> (c =? 44) = false ->
    fields (o ++ 44 :: c :: rest) = o :: fields (c :: rest);
  os_value key value : no_comma key = true -> fields (key ++ double_commas value) = [key ++ value]
}.

(** An argument of comma-free options and a last one that ends in a value. *)
Fixpoint options_text (options : list (list Z)) (last_ : list Z) : list Z :=
  match options with
  | [] => last_
  | o :: options => o ++ 44 :: options_text options last_
  end.

Definition option_ok (o : list Z) : bool := no_comma o && negb (bool_decide (o = [])).

Lemma fields_options (fields : list Z -> list (list Z)) `{!OptionSyntax fields} options key value :
  forallb option_ok options = true -> option_ok key = true ->
  fields (options_text options (key ++ double_commas value)) = options ++ [key ++ value].
Proof.
  intros Ho Hk.
  assert (Hhead : forall o rest, option_ok o = true -> exists c l, o ++ rest = c :: l /\ (c =? 44) = false).
  { intros [|c o] rest Hc; [done|]. apply andb_true_iff in Hc as [Hc _]. apply andb_true_iff in Hc as [Hc _].
    apply negb_true_iff in Hc. by exists c, (o ++ rest). }
  induction options as [|o options IH]; [apply os_value; by apply andb_true_iff in Hk as [? _]|].
  apply andb_true_iff in Ho as [Ho1 Ho2]. cbn [options_text].
  assert (exists c l, options_text options (key ++ double_commas value) = c :: l /\ (c =? 44) = false)
    as (c & l & E & Hc).
  { destruct options as [|o' options]; [by apply Hhead|]. apply andb_true_iff in Ho2 as [Ho' _]. by apply Hhead. }
  rewrite E, os_separator; [|by apply andb_true_iff in Ho1 as [? _]|done].
  rewrite <- E, IH by done. done.
Qed.

(** ** Commas and UTF-8: only a comma has the byte 44 *)
Lemma double_commas_app a b : double_commas (a ++ b) = double_commas a ++ double_commas b.
Proof. unfold double_commas. by rewrite fmap_app, concat_app. Qed.
Lemma double_commas_none l : no_comma l = true -> double_commas l = l.
Proof.
  induction l as [|c l IH]; [done|]. intros [Hc Hl]%andb_true_iff. apply negb_true_iff in Hc.
  unfold double_commas in *. cbn [fmap list_fmap concat]. by rewrite Hc, IH.
Qed.
Lemma encode_utf8_app a b : encode_utf8 (a ++ b) = encode_utf8 a ++ encode_utf8 b.
Proof. unfold encode_utf8. by rewrite fmap_app, concat_app. Qed.

Lemma encode_char_commas c : scalar c -> double_commas (encode_char c) = encode_utf8 (if c =? 44 then [44; 44] else [c]).
Proof.
  intros Hs. destruct (Z.eqb_spec c 44) as [->|Hc]; [reflexivity|].
  unfold encode_utf8. cbn [fmap list_fmap concat]. rewrite app_nil_r. apply double_commas_none.
  unfold scalar in Hs. unfold encode_char, no_comma.
  destruct (Z.ltb_spec c 0x80); [by cbn; rewrite (proj2 (Z.eqb_neq c 44) Hc)|].
  pose proof (Z.mod_pos_bound c 64 ltac:(lia)). pose proof (Z.mod_pos_bound (c / 64) 64 ltac:(lia)).
  pose proof (Z.mod_pos_bound (c / 4096) 64 ltac:(lia)). pose proof (Z.div_pos c 64 ltac:(lia) ltac:(lia)).
  pose proof (Z.div_pos c 4096 ltac:(lia) ltac:(lia)). pose proof (Z.div_pos c 262144 ltac:(lia) ltac:(lia)).
  destruct (c <? 0x800), (c <? 0x10000); cbn [forallb];
    rewrite ?(proj2 (Z.eqb_neq _ _)) by lia; done.
Qed.

Lemma encode_double_commas l : Forall scalar l -> encode_utf8 (double_commas l) = double_commas (encode_utf8 l).
Proof.
  induction 1 as [|c l Hc _ IH]; [done|].
  change (double_commas (c :: l)) with ((if c =? 44 then [44; 44] else [c]) ++ double_commas l).
  change (encode_utf8 (c :: l)) with (encode_char c ++ encode_utf8 l).
  by rewrite encode_utf8_app, double_commas_app, encode_char_commas, IH.
Qed.

(** The argument's bytes for a path that is UTF-8. *)
Lemma drive_bytes path prefix :
  is_Some (from_utf8 path) -> encode_utf8 prefix = prefix ->
  encode_utf8 (prefix ++ qemu_option_path path) = prefix ++ double_commas path.
Proof.
  intros [text [Hs ->]%from_utf8_iff] Hp. unfold qemu_option_path.
  by rewrite from_utf8_lossy_encode, encode_utf8_app, Hp, encode_double_commas.
Qed.

(** ** Properties *)

(** C27. Paths cannot inject emulator options, nor leak into a report.  For
    firmware and image paths that are UTF-8, commas included, and any reading of
    option arguments that follows the emulator's manual (commas separate options,
    a doubled comma is a comma of the value), the three drive arguments are read as
    the fixed options and one file option with exactly that path; they stand at
    their places in the fixed command line.  The reported command line is the same
    with a placeholder for each of the five arguments with a path, preceded by the
    emulator's file name: no directory and no other path is in it. *)
Theorem drive_paths_are_contained (fields : list Z -> list (list Z)) (linux : bool) (name : option (list Z))
    (code vars image serial debug : list Z) (exit_ : bool) :
  OptionSyntax fields -> Forall (fun path => is_Some (from_utf8 path)) [code; vars; image] ->
  let invocation := qemu_invocation linux name code vars image serial debug exit_ in
  (exists code_argument vars_argument image_argument serial_argument debug_argument,
    qi_arguments invocation =
      command_line linux exit_ code_argument vars_argument image_argument serial_argument debug_argument /\
    fields code_argument =
      [ascii_bytes "if=pflash"; ascii_bytes "format=raw"; ascii_bytes "unit=0"; ascii_bytes "readonly=on";
       ascii_bytes "file=" ++ code] /\
    fields vars_argument =
      [ascii_bytes "if=pflash"; ascii_bytes "format=raw"; ascii_bytes "unit=1"; ascii_bytes "file=" ++ vars] /\
    fields image_argument =
      [ascii_bytes "format=raw"; ascii_bytes "if=virtio"; ascii_bytes "readonly=on";
       ascii_bytes "file=" ++ image]) /\
  qi_sanitized_argv invocation = reported_name name :: reported_line linux exit_.
Proof.
  intros Hf Hu invocation. subst invocation. rewrite invocation_exact. cbn [qi_arguments qi_sanitized_argv].
  rewrite !Forall_cons in Hu. destruct Hu as (Hc & Hv & Hi & _). split; [|reflexivity].
  eexists _, _, _, _, _. split; [reflexivity|]. unfold code_drive, vars_drive, image_drive.
  rewrite !drive_bytes by (done || reflexivity). split_and!.
  - exact (fields_options fields [ascii_bytes "if=pflash"; ascii_bytes "format=raw"; ascii_bytes "unit=0";
      ascii_bytes "readonly=on"] (ascii_bytes "file=") code eq_refl eq_refl).
  - exact (fields_options fields [ascii_bytes "if=pflash"; ascii_bytes "format=raw"; ascii_bytes "unit=1"]
      (ascii_bytes "file=") vars eq_refl eq_refl).
  - exact (fields_options fields [ascii_bytes "format=raw"; ascii_bytes "if=virtio"; ascii_bytes "readonly=on"]
      (ascii_bytes "file=") image eq_refl eq_refl).
Qed.

(** ** A reader of option arguments *)
Definition extend (c : Z) (fields : list (list Z)) : list (list Z) :=
  match fields with
  | field :: fields => (c :: field) :: fields
  | [] => [[c]]
  end.
Fixpoint sample_fields (l : list Z) : list (list Z) :=
  match l with
  | [] => [[]]
  | c :: t =>
      if c =? 44 then
        match t with
        | d :: t' => if d =? 44 then extend 44 (sample_fields t') else [] :: sample_fields t
        | [] => [[]; []]
        end
      else extend c (sample_fields t)
  end.

#[global] Instance sample_syntax : OptionSyntax sample_fields.
Proof.
  split.
  - intros o c rest Ho Hc. induction o as [|d o IH].
    + cbn [app sample_fields]. change (44 =? 44) with true. cbv iota. by rewrite Hc.
    + apply andb_true_iff in Ho as [Hd Ho]. apply negb_true_iff in Hd.
      change ((d :: o) ++ 44 :: c :: rest) with (d :: (o ++ 44 :: c :: rest)).
      cbn [sample_fields]. rewrite Hd, (IH Ho). done.
  - intros key value Hk. assert (sample_fields (double_commas value) = [value]) as Hv.
    { induction value as [|c l IH]; [done|]. unfold double_commas in *. cbn [fmap list_fmap concat].
      destruct (Z.eqb_spec c 44) as [->|Hc].
      - cbn [app sample_fields]. change (44 =? 44) with true. cbv iota. by rewrite IH.
      - cbn [app sample_fields]. rewrite (proj2 (Z.eqb_neq c 44) Hc), IH. done. }
    induction key as [|c key IH]; [exact Hv|]. apply andb_true_iff in Hk as [Hc Hk].
    cbn [app sample_fields]. apply negb_true_iff in Hc. rewrite Hc, (IH Hk). done.
Qed.

(** A directory with a comma in its name: the option is read with that name. *)
Lemma drive_paths_are_contained_witness : exists a b,
  sample_fields a = [ascii_bytes "format=raw"; ascii_bytes "if=virtio"; ascii_bytes "readonly=on";
                     ascii_bytes "file=/tmp/a,if=none/boot.img"] /\
  qi_sanitized_argv (qemu_invocation true (Some (ascii_bytes "qemu")) (ascii_bytes "c") (ascii_bytes "v")
    (ascii_bytes "/tmp/a,if=none/boot.img") (ascii_bytes "s") (ascii_bytes "d") true) = ascii_bytes "qemu" :: b.
Proof.
  destruct (drive_paths_are_contained sample_fields true (Some (ascii_bytes "qemu")) (ascii_bytes "c")
    (ascii_bytes "v") (ascii_bytes "/tmp/a,if=none/boot.img") (ascii_bytes "s") (ascii_bytes "d") true sample_syntax)
    as [(ca & va & ia & sa & da & _ & _ & _ & Hi) Hs].
  - repeat constructor; eexists; vm_compute; reflexivity.
  - exists ia, (reported_line true true). split; [exact Hi|exact Hs].
Defined.
