(* ===== verification/Statistics.v ===== *)
(** Baseline statistics: [SampleStatistics], [sample_statistics] and
    [u64_to_f64] of crates/xtask/src/qemu.rs.

    An [f64] is a [spec_float] of the Standard Library's specification of
    binary64 arithmetic: 53 bits of precision, exponents below 1024, rounding to
    nearest, ties to even. *)

From Stdlib Require Import SpecFloat.
From stdpp Require Import sorting.
From S2P Require Import Prelude Bytes.

(** ** Binary64 *)
Abbreviation f64 := spec_float.
Definition f64_add : f64 -> f64 -> f64 := SFadd 53 1024.
Definition f64_sub : f64 -> f64 -> f64 := SFsub 53 1024.
Definition f64_mul : f64 -> f64 -> f64 := SFmul 53 1024.
Definition f64_div : f64 -> f64 -> f64 := SFdiv 53 1024.
Definition f64_sqrt : f64 -> f64 := SFsqrt 53 1024.
(** The double nearest to [m * 2 ^ e]. *)
Definition f64_round (m e : Z) : f64 := binary_normalize 53 1024 m e false.
(** [f64::from] of a [u32] *)
Definition f64_from (v : Z) : f64 := f64_round v 0.

(** A finite double as [m * 2 ^ e]. *)
Definition f64_exact (x : f64) : option (Z * Z) :=
  match x with
  | S754_zero _ => Some (0, 0)
  | S754_finite s m e => Some (if s then Zneg m else Zpos m, e)
  | S754_infinity _ | S754_nan => None
  end.

(** [x.mul_add(y, z)]: one rounding of the exact result; operands that are not
    finite follow the two separate operations. *)
Definition mul_add (x y z : f64) : f64 :=
  match f64_exact x, f64_exact y, f64_exact z with
  | Some (mx, ex), Some (my, ey), Some (mz, ez) =>
      let e := Z.min (ex + ey) ez in
      f64_round (mx * my * 2 ^ (ex + ey - e) + mz * 2 ^ (ez - e)) e
  | _, _, _ => f64_add (f64_mul x y) z
  end.

(** [f64::midpoint]; [MIN_POSITIVE] is [2 ^ -1022] and [MAX] is
    [(2 ^ 53 - 1) * 2 ^ 971]. *)
Definition midpoint (a b : f64) : f64 :=
  let LO := f64_round 1 (-1021) in
  let HI := f64_round (2 ^ 53 - 1) 970 in
  let two := f64_from 2 in
  if SFleb (SFabs a) HI && SFleb (SFabs b) HI then f64_div (f64_add a b) two
  else if SFltb (SFabs a) LO then f64_add a (f64_div b two)
  else if SFltb (SFabs b) LO then f64_add (f64_div a two) b
  else f64_add (f64_div a two) (f64_div b two).

(** [Iterator::sum], which starts at the neutral negative zero. *)
Definition f64_sum (l : list f64) : f64 := fold_left f64_add l (S754_zero true).

Definition u64_to_f64 (value : Z) : f64 :=
  let bytes := to_le_bytes 8 value in
  let low := from_le_bytes (take 4 bytes) in
  let high := from_le_bytes (drop 4 bytes) in
  mul_add (f64_from high) (f64_from (2 ^ 32)) (f64_from low).

(** ** Statistics *)
Record SampleStatistics := mkSampleStatistics {
  ss_min : Z;
  ss_median : f64;
  ss_p95 : Z;
  ss_max : Z;
  ss_mean : f64;
  ss_population_stddev : f64
}.

(** [sorted[index]] *)
Definition at_index {E} (l : list Z) (index : Z) : exec E Z :=
  if index <? 0 then Panic else match l !! Z.to_nat index with Some v => Ok v | None => Panic end.

Definition sorted_samples (samples : list Z) : list Z := merge_sort Z.le samples.

(** [sorted.len().saturating_mul(95).div_ceil(100).saturating_sub(1)] *)
Definition p95_index (n : Z) : Z :=
  Z.max 0 ((Z.min u64_MAX (n * 95) + 99) / 100 - 1).

Definition median_of {E} (sorted : list Z) : exec E f64 :=
  let middle := len sorted / 2 in
  if len sorted mod 2 =? 0 then
    low ← at_index sorted (middle - 1);
    high ← at_index sorted middle;
    Ok (midpoint (u64_to_f64 low) (u64_to_f64 high))
  else
    value ← at_index sorted middle;
    Ok (u64_to_f64 value).

Definition mean_of (count : f64) (sorted : list Z) : f64 :=
  f64_div (f64_sum (u64_to_f64 <$> sorted)) count.

Definition variance_of (count mean : f64) (sorted : list Z) : f64 :=
  f64_div (f64_sum ((fun value => let difference := f64_sub (u64_to_f64 value) mean in
                                  f64_mul difference difference) <$> sorted)) count.

Definition sample_statistics {E} (samples : list Z) : exec E (option SampleStatistics) :=
  if bool_decide (samples = []) then Ok None else
  let sorted := sorted_samples samples in
  median ← median_of sorted;
  match try_uint 32 (len sorted) with
  | None => Ok None
  | Some n =>
      let count := f64_from n in
      let mean := mean_of count sorted in
      let population_variance := variance_of count mean sorted in
      smallest ← at_index sorted 0;
      p95 ← at_index sorted (p95_index (len sorted));
      largest ← at_index sorted (len sorted - 1);
      Ok (Some (mkSampleStatistics smallest median p95 largest mean (f64_sqrt population_variance)))
  end.

(** The distribution 10, 20, 30, 40: median and mean 25, deviation the square
    root of 125. *)
Example four_samples :
  sample_statistics (E:=unit) [30; 10; 40; 20] =
  Ok (Some (mkSampleStatistics 10 (f64_from 25) 40 40 (f64_from 25) (f64_sqrt (f64_from 125)))).
Proof. vm_compute. reflexivity. Qed.
