(* ===== verification/StatisticsProps.v ===== *)
(** What the baseline statistics mean: the conversion to [f64] rounds once, and
    the integer statistics are order statistics of the samples. *)

From Stdlib Require Import SpecFloat.
From stdpp Require Import sorting.
From S2P Require Import Prelude Bytes Statistics.

(** ** Shifting mantissas *)
Abbreviation shl k p := (Nat.iter k xO p).

Lemma digits_shl k p : Zpos (digits2_pos (shl k p)) = Zpos (digits2_pos p) + Z.of_nat k.
Proof.
  induction k as [|k IH]; [cbn; lia|].
  change (shl (S k) p) with (xO (shl k p)). cbn [digits2_pos]. rewrite Pos2Z.inj_succ, IH. lia.
Qed.

Lemma shl_value k p : Zpos (shl k p) = Zpos p * 2 ^ Z.of_nat k.
Proof.
  induction k as [|k IH]; [cbn; lia|].
  change (shl (S k) p) with (xO (shl k p)). rewrite Pos2Z.inj_xO, IH, Nat2Z.inj_succ, Z.pow_succ_r; lia.
Qed.

Lemma iter_add {A} (f : A -> A) a b x : Nat.iter (a + b) f x = Nat.iter a f (Nat.iter b f x).
Proof. induction a as [|a IH]; [done|]. cbn [Nat.add Nat.iter nat_rect]. by f_equal. Qed.

Lemma iter_pos_iter {A} (f : A -> A) n : forall x, SpecFloat.iter_pos f n x = Nat.iter (Pos.to_nat n) f x.
Proof.
  induction n as [n IH|n IH|]; intros x; cbn [SpecFloat.iter_pos]; [| |done].
  - rewrite !IH, Pos2Nat.inj_xI, <-iter_add, Nat.iter_succ_r. f_equal. lia.
  - rewrite !IH, Pos2Nat.inj_xO, <-iter_add. f_equal. lia.
Qed.

Lemma shr_iter r e n : shr r e n = (Nat.iter (Z.to_nat n) shr_1 r, e + Z.max 0 n).
Proof.
  unfold shr. destruct n as [|p|p]; cbn [Z.to_nat].
  - f_equal. lia.
  - rewrite iter_pos_iter. f_equal; lia.
  - f_equal. lia.
Qed.

Lemma shr_exact k p : Nat.iter k shr_1 (Build_shr_record (Zpos (shl k p)) false false) =
  Build_shr_record (Zpos p) false false.
Proof. induction k as [|k IH]; [done|]. by rewrite Nat.iter_succ_r. Qed.

(** ** Rounding *)

(** The first step of a rounding: the mantissa with 53 digits, and what was
    shifted out. *)
Definition aligned (p : positive) : shr_record * Z :=
  let digits := Zpos (digits2_pos p) in
  (Nat.iter (Z.to_nat (digits - 53)) shr_1
     (Build_shr_record (Zpos (shl (Z.to_nat (53 - digits)) p)) false false), digits - 53).

Lemma fexp_digits p : fexp 53 1024 (Zpos (digits2_pos p)) = Zpos (digits2_pos p) - 53.
Proof. unfold fexp, emin. lia. Qed.

Lemma align_shifted k p :
  (let '(mz, ez) := shl_align (shl k p) (- Z.of_nat k)
                      (fexp 53 1024 (Zpos (digits2_pos (shl k p)) + - Z.of_nat k)) in
   shr_fexp 53 1024 (Zpos mz) ez loc_Exact) = aligned p.
Proof.
  rewrite digits_shl.
  replace (Zpos (digits2_pos p) + Z.of_nat k + - Z.of_nat k) with (Zpos (digits2_pos p)) by lia.
  pose proof (fexp_digits p) as Hf. unfold aligned. set (D := Zpos (digits2_pos p)) in *. rewrite Hf.
  assert (1 <= D) as HD by lia. unfold shl_align.
  destruct (D - 53 - - Z.of_nat k) as [|n|n] eqn:En.
  - unfold shr_fexp, Zdigits2. rewrite digits_shl.
    replace (Zpos (digits2_pos p) + Z.of_nat k + - Z.of_nat k) with D by lia. rewrite Hf, shr_iter.
    replace (D - 53 - - Z.of_nat k) with 0 by lia. cbn [Z.to_nat Nat.iter nat_rect shr_record_of_loc].
    replace (Z.to_nat (D - 53)) with 0%nat by lia. replace (Z.to_nat (53 - D)) with k by lia.
    cbn [Nat.iter nat_rect]. f_equal. lia.
  - unfold shr_fexp, Zdigits2. rewrite digits_shl.
    replace (Zpos (digits2_pos p) + Z.of_nat k + - Z.of_nat k) with D by lia. rewrite Hf, shr_iter. cbn [shr_record_of_loc]. f_equal; [|lia].
    set (j := (Z.to_nat (D - 53 - - Z.of_nat k) - Z.to_nat (D - 53))%nat).
    assert (Z.to_nat (D - 53 - - Z.of_nat k) = Z.to_nat (D - 53) + j)%nat as -> by lia.
    replace (shl k p) with (shl j (shl (Z.to_nat (53 - D)) p))
      by (rewrite <-iter_add; f_equal; lia).
    rewrite iter_add. f_equal. apply shr_exact.
  - unfold shr_fexp, Zdigits2. 
    assert (Pos.iter xO (shl k p) n = shl (Pos.to_nat n) (shl k p)) as -> by apply Pos2Nat.inj_iter.
    rewrite <-iter_add, digits_shl.
    replace (Pos.to_nat n + k)%nat with (Z.to_nat (53 - D)) by lia.
    replace (Zpos (digits2_pos p) + Z.of_nat (Z.to_nat (53 - D)) + (D - 53)) with D by lia.
    rewrite Hf, shr_iter.
    replace (D - 53 - (D - 53)) with 0 by lia. replace (Z.to_nat (D - 53)) with 0%nat by lia.
    cbn [Z.to_nat Nat.iter nat_rect shr_record_of_loc]. f_equal. lia.
Qed.

(** The second step: round to even, and align again. *)
Definition rounded (r : shr_record * Z) : f64 :=
  let '(mrs, e) := shr_fexp 53 1024 (round_nearest_even (shr_m r.1) (loc_of_shr_record r.1)) r.2 loc_Exact in
  match shr_m mrs with
  | Z0 => S754_zero false
  | Zpos m => if e <=? 1024 - 53 then S754_finite false m e else S754_infinity false
  | Zneg _ => S754_nan
  end.

Lemma round_shifted k p : binary_round 53 1024 false (shl k p) (- Z.of_nat k) = rounded (aligned p).
Proof.
  rewrite <-(align_shifted k p). unfold binary_round. destruct (shl_align _ _ _) as [mz ez].
  unfold binary_round_aux, rounded. by destruct (shr_fexp _ _ (Zpos mz) _ _) as [mrs e].
Qed.

Lemma f64_round_shifted v k : 0 <= v -> 0 <= k -> f64_round (v * 2 ^ k) (- k) = f64_round v 0.
Proof.
  intros Hv Hk. destruct v as [|p|p]; [done| |lia]. rewrite <-(Z2Nat.id k) at 1 2 by done.
  rewrite <-shl_value. unfold f64_round, binary_normalize. rewrite <-(Z2Nat.id k) by done.
  rewrite Nat2Z.id, round_shifted. symmetry. apply (round_shifted 0).
Qed.

Lemma digits_bounds p : 2 ^ (Zpos (digits2_pos p) - 1) <= Zpos p < 2 ^ Zpos (digits2_pos p).
Proof.
  induction p as [p IH|p IH|]; cbn [digits2_pos]; [| |done];
    rewrite Pos2Z.inj_succ, Z.pow_succ_r by lia;
    replace (Z.succ (Zpos (digits2_pos p)) - 1) with (Z.succ (Zpos (digits2_pos p) - 1)) by lia;
    rewrite Z.pow_succ_r by lia; lia.
Qed.

(** Numbers of 53 digits are represented exactly. *)
Lemma f64_from_exact v : 0 <= v < 2 ^ 53 ->
  exists k, 0 <= k /\ f64_exact (f64_from v) = Some (v * 2 ^ k, - k).
Proof.
  intros Hv. destruct v as [|p|p]; [by exists 0| |lia].
  pose proof (digits_bounds p) as [Hp _]. set (D := Zpos (digits2_pos p)) in *.
  assert (D <= 53) as HD.
  { destruct (Z.le_gt_cases D 53) as [|HD]; [done|].
    assert (2 ^ 53 <= 2 ^ (D - 1)) by (apply Z.pow_le_mono_r; lia). lia. }
  exists (53 - D). split; [lia|]. unfold f64_from, f64_round, binary_normalize.
  assert (binary_round 53 1024 false p 0 = rounded (aligned p)) as -> by apply (round_shifted 0).
  unfold aligned. fold D. replace (Z.to_nat (D - 53)) with 0%nat by lia.
  unfold rounded. cbn [Nat.iter nat_rect fst snd shr_m loc_of_shr_record round_nearest_even].
  unfold shr_fexp, Zdigits2. rewrite digits_shl. fold D.
  replace (D + Z.of_nat (Z.to_nat (53 - D)) + (D - 53)) with D by lia.
  assert (fexp 53 1024 D = D - 53) as -> by apply fexp_digits. rewrite shr_iter.
  replace (D - 53 - (D - 53)) with 0 by lia. change (Z.to_nat 0) with 0%nat.
  cbn [Nat.iter nat_rect shr_record_of_loc shr_m].
  rewrite (proj2 (Z.leb_le _ _)) by lia. cbn [f64_exact]. rewrite shl_value.
  rewrite Z2Nat.id by lia. f_equal. f_equal. lia.
Qed.

Lemma from_le_bytes_app a b : from_le_bytes (a ++ b) = from_le_bytes a + 256 ^ len a * from_le_bytes b.
Proof.
  induction a as [|x a IH].
  - change (from_le_bytes []) with 0. change (256 ^ len []) with 1. cbn [app]. lia.
  - change (from_le_bytes ((x :: a) ++ b)) with (x + 256 * from_le_bytes (a ++ b)).
    change (from_le_bytes (x :: a)) with (x + 256 * from_le_bytes a).
    replace (len (x :: a)) with (Z.succ (len a)) by (cbn [length]; lia).
    rewrite IH, Z.pow_succ_r by lia. lia.
Qed.

(** The two [u32] halves of a [u64]. *)
Lemma u64_halves v : uint 64 v ->
  let low := from_le_bytes (take 4 (to_le_bytes 8 v)) in
  let high := from_le_bytes (drop 4 (to_le_bytes 8 v)) in
  uint 32 high /\ uint 32 low /\ v = high * 2 ^ 32 + low.
Proof.
  intros Hv low high. pose proof (from_to_le_bytes 8 v Hv) as Hf.
  rewrite <-(take_drop 4 (to_le_bytes 8 v)), from_le_bytes_app in Hf. fold low high in Hf.
  pose proof (to_le_bytes_is_bytes 8 v) as Hb.
  assert (is_bytes (take 4 (to_le_bytes 8 v)) /\ is_bytes (drop 4 (to_le_bytes 8 v))) as [Ht Hd].
  { apply Forall_app. by rewrite take_drop. }
  pose proof (from_le_bytes_range _ Ht) as Rl. pose proof (from_le_bytes_range _ Hd) as Rh.
  fold low in Rl. fold high in Rh. unfold uint in *.
  assert (len (take 4 (to_le_bytes 8 v)) = 4) as E4 by (by rewrite length_take, length_to_le_bytes).
  rewrite E4 in Hf. rewrite length_take, length_to_le_bytes in Rl. rewrite length_drop, length_to_le_bytes in Rh.
  change (256 ^ 4) with (2 ^ 32) in Hf. cbn -[Z.pow] in Rl, Rh. lia.
Qed.

(** The conversion of a counter to a double rounds once: [u64_to_f64], which
    goes through two exact halves and a fused multiply-add, is the double
    nearest to the integer, and exact below [2 ^ 53]. *)
Lemma u64_to_f64_rounds_once (value : Z) :
  uint 64 value ->
  u64_to_f64 value = f64_round value 0 /\
  (value < 2 ^ 53 -> exists k, 0 <= k /\ f64_exact (u64_to_f64 value) = Some (value * 2 ^ k, - k)).
Proof.
  intros Hv. destruct (u64_halves value Hv) as (Hh & Hl & Hsum). unfold u64_to_f64.
  set (low := from_le_bytes (take 4 _)) in *. set (high := from_le_bytes (drop 4 _)) in *.
  unfold uint in *.
  destruct (f64_from_exact high ltac:(lia)) as (h & Hh0 & Eh).
  destruct (f64_from_exact low ltac:(lia)) as (l & Hl0 & El).
  assert (mul_add (f64_from high) (f64_from (2 ^ 32)) (f64_from low) = f64_round value 0) as E.
  { unfold mul_add. rewrite Eh, El. change (f64_exact (f64_from (2 ^ 32))) with (Some (2 ^ 52, -20)).
    cbv beta iota zeta. set (e := Z.min (- h + -20) (- l)).
    assert (high * 2 ^ h * 2 ^ 52 * 2 ^ (- h + -20 - e) + low * 2 ^ l * 2 ^ (- l - e) = value * 2 ^ (- e)) as ->.
    { rewrite Hsum, <-!Z.mul_assoc, <-!Z.pow_add_r, Z.mul_add_distr_r, <-Z.mul_assoc, <-Z.pow_add_r by lia.
      f_equal; f_equal; f_equal; lia. }
    rewrite <-(Z.opp_involutive e) at 2. apply f64_round_shifted; lia. }
  split; [exact E|]. intros Hb. rewrite E. apply f64_from_exact. lia.
Qed.

Example rounds_to_even : u64_to_f64 (2 ^ 53 + 1) = f64_from (2 ^ 53).
Proof. vm_compute. reflexivity. Qed.

(** ** Order statistics *)

Lemma sorted_perm samples : sorted_samples samples ≡ₚ samples.
Proof. apply merge_sort_Permutation. Qed.

Lemma sorted_lookup samples i j x y :
  sorted_samples samples !! i = Some x -> sorted_samples samples !! j = Some y -> (i <= j)%nat -> x <= y.
Proof.
  intros Hi Hj Hij. pose proof (StronglySorted_merge_sort Z.le samples) as Hs.
  fold (sorted_samples samples) in Hs.
  destruct (decide (i = j)) as [->|Hne]; [rewrite Hi in Hj; by injection Hj as ->; lia|].
  apply (StronglySorted_lookup Z.le (sorted_samples samples) Hs i j); [lia|done|done].
Qed.

(** How many samples are at most [y]. *)
Definition at_most (y : Z) (samples : list Z) : Z := len (filter (fun x => x <= y) samples).

Lemma at_most_perm y a b : a ≡ₚ b -> at_most y a = at_most y b.
Proof. intros H. unfold at_most. by rewrite H. Qed.

Lemma at_index_lookup {E} l i : 0 <= i < len l -> exists x, l !! Z.to_nat i = Some x /\ at_index (E:=E) l i = Ok x.
Proof.
  intros Hi. destruct (lookup_lt_is_Some_2 l (Z.to_nat i)) as [x Hx]; [lia|]. exists x.
  split; [done|]. unfold at_index. by rewrite (proj2 (Z.ltb_ge i 0)), Hx by lia.
Qed.

Lemma at_most_rank samples k x :
  sorted_samples samples !! k = Some x -> Z.of_nat k + 1 <= at_most x samples.
Proof.
  intros Hk. rewrite <-(at_most_perm x _ _ (sorted_perm samples)). unfold at_most.
  set (l := sorted_samples samples) in *. pose proof (lookup_lt_Some _ _ _ Hk) as Hlt.
  rewrite <-(take_drop (S k) l), filter_app, length_app.
  assert (filter (fun y => y <= x) (take (S k) l) = take (S k) l) as ->.
  { apply filter_all. intros y (i & Hi)%list_elem_of_lookup_1. apply lookup_take_Some in Hi as [Hi Hik].
    apply (sorted_lookup samples i k); [done|done|lia]. }
  rewrite length_take. lia.
Qed.

Lemma at_most_below samples k x y :
  sorted_samples samples !! k = Some x -> y < x -> at_most y samples <= Z.of_nat k.
Proof.
  intros Hk Hy. rewrite <-(at_most_perm y _ _ (sorted_perm samples)). unfold at_most.
  set (l := sorted_samples samples) in *.
  rewrite <-(take_drop k l), filter_app, length_app.
  assert (filter (fun z => z <= y) (drop k l) = []) as ->.
  { apply filter_none. intros z (i & Hi)%list_elem_of_lookup_1. rewrite lookup_drop in Hi.
    assert (x <= z) by (apply (sorted_lookup samples k (k + i)); [done|done|lia]). lia. }
  pose proof (length_filter (fun z => z <= y) (take k l)). rewrite length_take in *. cbn [length]. lia.
Qed.

Lemma p95_rank n : 0 < n -> n < 2 ^ 32 ->
  0 <= p95_index n < n /\ 95 * n <= 100 * (p95_index n + 1) /\ 100 * p95_index n < 95 * n.
Proof.
  intros H0 Hn. unfold p95_index, u64_MAX. rewrite Z.min_r by lia.
  pose proof (Z.div_mod (n * 95 + 99) 100) as Hd. pose proof (Z.mod_pos_bound (n * 95 + 99) 100). lia.
Qed.

(** The middle of the sorted samples, as [sample_statistics] defines it. *)
Definition is_median (sorted : list Z) (m : f64) : Prop :=
  if len sorted mod 2 =? 0 then
    exists low high, sorted !! Z.to_nat (len sorted / 2 - 1) = Some low /\
      sorted !! Z.to_nat (len sorted / 2) = Some high /\ m = midpoint (u64_to_f64 low) (u64_to_f64 high)
  else exists v, sorted !! Z.to_nat (len sorted / 2) = Some v /\ m = u64_to_f64 v.

Lemma median_of_total {E} sorted : sorted <> [] ->
  exists m, median_of (E:=E) sorted = Ok m /\ is_median sorted m.
Proof.
  intros Hne. assert (0 < len sorted) as Hl by (destruct sorted; [done|cbn [length]; lia]).
  pose proof (Z.div_mod (len sorted) 2) as Hd. pose proof (Z.mod_pos_bound (len sorted) 2) as Hm.
  unfold median_of, is_median. destruct (Z.eqb_spec (len sorted mod 2) 0) as [H0|H0].
  - destruct (at_index_lookup (E:=E) sorted (len sorted / 2 - 1)) as (a & La & ->); [lia|].
    destruct (at_index_lookup (E:=E) sorted (len sorted / 2)) as (b & Lb & ->); [lia|].
    eexists. split; [done|]. by exists a, b.
  - destruct (at_index_lookup (E:=E) sorted (len sorted / 2)) as (b & Lb & ->); [lia|].
    eexists. split; [done|]. by exists b.
Qed.

(** Where the statistics stand in the sorted samples. *)
Lemma sample_statistics_total {E} samples : samples <> [] -> len samples < 2 ^ 32 ->
  let sorted := sorted_samples samples in
  exists s, sample_statistics (E:=E) samples = Ok (Some s) /\ sorted !! 0%nat = Some (ss_min s) /\
    sorted !! Z.to_nat (p95_index (len samples)) = Some (ss_p95 s) /\
    sorted !! Z.to_nat (len samples - 1) = Some (ss_max s) /\ is_median sorted (ss_median s).
Proof.
  intros Hne Hlen sorted. pose proof (sorted_perm samples) as Hp. fold sorted in Hp.
  assert (len sorted = len samples) as Hl by (by rewrite Hp).
  assert (sorted <> []) as Hsne by (intros En; apply Hne; rewrite En in Hp; by apply Permutation_nil_l in Hp).
  assert (0 < len samples) as Hpos by (destruct samples; [done|cbn [length]; lia]).
  unfold sample_statistics. rewrite bool_decide_eq_false_2 by done. fold sorted.
  destruct (median_of_total (E:=E) sorted Hsne) as (m & -> & Hm). rewrite bind_value, Hl.
  unfold try_uint. rewrite (proj2 (Z.ltb_lt _ _)) by lia.
  destruct (p95_rank (len samples) Hpos Hlen) as (Hr & _).
  destruct (at_index_lookup (E:=E) sorted 0) as (a & La & ->); [lia|].
  destruct (at_index_lookup (E:=E) sorted (p95_index (len samples))) as (p & Lp & ->); [lia|].
  destruct (at_index_lookup (E:=E) sorted (len samples - 1)) as (b & Lb & ->); [lia|].
  rewrite !bind_value. eexists. split; [reflexivity|]. done.
Qed.

Lemma sample_statistics_no_panic {E} samples : len samples < 2 ^ 32 -> sample_statistics (E:=E) samples <> Panic.
Proof.
  intros Hl. destruct (decide (samples = [])) as [->|Hne]; [done|].
  by destruct (sample_statistics_total (E:=E) samples Hne Hl) as (s & -> & _).
Qed.

(** C28. Baseline statistics are order statistics.  For every non-empty list of
    samples no index is out of range and the result is present; the minimum and
    maximum are samples that bound all others, the median is the middle of the
    sorted samples (the midpoint of the two middle ones for an even count), and
    the 95th percentile is the nearest-rank one: the smallest sample such that
    at least 95 of every 100 samples are not above it. *)
Theorem statistics_are_order_statistics {E : Type} (samples : list Z) :
  samples <> [] -> len samples < 2 ^ 32 ->
  exists s, sample_statistics (E:=E) samples = Ok (Some s) /\
    ss_min s ∈ samples /\ ss_max s ∈ samples /\ ss_p95 s ∈ samples /\
    (forall x, x ∈ samples -> ss_min s <= x <= ss_max s) /\
    (exists sorted, sorted ≡ₚ samples /\ StronglySorted Z.le sorted /\ is_median sorted (ss_median s)) /\
    95 * len samples <= 100 * at_most (ss_p95 s) samples /\
    (forall y, y < ss_p95 s -> 100 * at_most y samples < 95 * len samples).
Proof.
  intros Hne Hlen. destruct (sample_statistics_total (E:=E) samples Hne Hlen) as (s & Hs & La & Lp & Lb & Hm).
  exists s. split; [done|]. pose proof (sorted_perm samples) as Hp.
  assert (0 < len samples) as Hpos by (destruct samples; [done|cbn [length]; lia]).
  destruct (p95_rank (len samples) Hpos Hlen) as (Hr & H95 & H95').
  assert (len (sorted_samples samples) = len samples) as Hl by (by rewrite Hp).
  pose proof (at_most_rank samples _ _ Lp) as Hrank. rewrite Z2Nat.id in Hrank by lia.
  split_and!; [rewrite <-Hp; by eapply list_elem_of_lookup_2..| | |lia|].
  - intros x Hx. rewrite <-Hp in Hx. apply list_elem_of_lookup_1 in Hx as [i Hi].
    pose proof (lookup_lt_Some _ _ _ Hi).
    split; [apply (sorted_lookup samples 0%nat i)|apply (sorted_lookup samples i (Z.to_nat (len samples - 1)))];
      done || lia.
  - exists (sorted_samples samples). split; [done|]. split; [apply (StronglySorted_merge_sort Z.le)|done].
  - intros y Hy. pose proof (at_most_below samples _ _ _ Lp Hy) as Hb. rewrite Z2Nat.id in Hb by lia. lia.
Qed.

Lemma statistics_are_order_statistics_witness :
  exists s, sample_statistics (E:=Empty_set) [30; 10; 40; 20] = Ok (Some s) /\
    95 * 4 <= 100 * at_most (ss_p95 s) [30; 10; 40; 20].
Proof.
  destruct (statistics_are_order_statistics (E:=Empty_set) [30; 10; 40; 20] ltac:(discriminate) eq_refl)
    as (s & E & _ & _ & _ & _ & _ & H & _). exists s. split; [exact E|exact H].
Defined.
