(* ===== verification/BootRunner.v ===== *)
(** Boots on the host: [observe_boot], [run_boot], [run_baseline] and the tool
    and firmware resolution of crates/xtask/src/qemu.rs, and what the boot
    commands of crates/xtask/src/main.rs do with them.

    The host is the record [BootHost]: files and programs ([Repro.Host]), the
    clock and the processes ([HostExec.Machine], which see the files this program
    has written), the log files, and the fetch of the firmware release.  The
    state keeps the processes, the files this program writes, the counter of its
    temporary directories and what it printed. *)

From Stdlib Require Import SpecFloat.
From stdpp Require Import gmap.
From S2P Require Import Prelude Bytes Console Text Artifact HostScenario HostRun RawImage HostFs DiskImage.
From S2P Require Import Repro XtaskCli HostExec QemuArgs Statistics.
Import Image.

(** ** Data *)
Inductive BootError :=
| BootFailure (message : string)
| BootImageError (e : ImageError)
| BootFsError (e : FsError)
| BootExecError (e : ExecError)
| BootHostError (e : HostError).

(** [ovmf_prebuilt::Source] *)
Record Source := mkSource { so_tag : list Z; so_sha256 : list Z }.
Definition OVMF_RELEASE : list Z := ascii_bytes "edk2-stable202605-r1".
Definition OVMF_SOURCE : Source :=
  mkSource OVMF_RELEASE
    (ascii_bytes "8ae4d2d73161cc2335f5675d3b8b6edfa0642301679764a246940488ea3ce20d").

Record FirmwarePaths := mkFirmwarePaths {
  fp_code : list Z;
  fp_vars : list Z;
  fp_release : list Z
}.

Record BaselineReport := mkBaselineReport {
  bp_schema_version : Z;
  bp_runs : Z;
  bp_time_to_ready_marker_ms : SampleStatistics;
  bp_peak_rss_kib : SampleStatistics;
  bp_peak_rss_sample_count : Z;
  bp_host_os : list Z;
  bp_host_arch : list Z;
  bp_ovmf_release : list Z;
  bp_samples : list BootRun
}.

(** [bh_fetch] is [Prebuilt::fetch] followed by the two [get_file] calls;
    [bh_file_name] and [bh_as_output] split paths; [bh_stdout_takes] and
    [bh_stderr_takes] say whether a standard stream, after the lines it was given
    so far, can be written one more. *)
Record BootHost (W : Type) := mkBootHost {
  bh_host : Host W;
  bh_machine : gmap (list Z * list Z) (list Z) -> Machine W;
  bh_log : list Z -> W -> LogFile;
  bh_fetch : Source -> list Z -> W -> option (list Z * list Z) * W;
  bh_chunk : Z -> Z;
  bh_os : Os;
  bh_pid : list Z;
  bh_temp_dir : list Z;
  bh_linux : bool;
  bh_file_name : list Z -> option (list Z);
  bh_as_output : list Z -> OutputPath;
  bh_consts_os : list Z;
  bh_consts_arch : list Z;
  bh_run_json : BootRun -> option (list Z);
  bh_baseline_json : BaselineReport -> option (list Z);
  bh_stdout_takes : list (list Z) -> list Z -> bool;
  bh_stderr_takes : list (list Z) -> list Z -> bool
}.
Arguments bh_host {W}.
Arguments bh_machine {W}.
Arguments bh_log {W}.
Arguments bh_fetch {W}.
Arguments bh_chunk {W}.
Arguments bh_os {W}.
Arguments bh_pid {W}.
Arguments bh_temp_dir {W}.
Arguments bh_linux {W}.
Arguments bh_file_name {W}.
Arguments bh_as_output {W}.
Arguments bh_consts_os {W}.
Arguments bh_consts_arch {W}.
Arguments bh_run_json {W}.
Arguments bh_baseline_json {W}.
Arguments bh_stdout_takes {W}.
Arguments bh_stderr_takes {W}.

Record BootWorld (W : Type) := mkBootWorld {
  bw_proc : PState W;
  bw_fs : FsState;
  bw_next_id : Z;
  bw_stdout : list (list Z)
}.
Arguments mkBootWorld {W}.
Arguments bw_proc {W}.
Arguments bw_fs {W}.
Arguments bw_next_id {W}.
Arguments bw_stdout {W}.

(** The machine that runs the emulator: its processes see [written], and its
    debug log is the file at [debug_path]. *)
Definition machine_at {W} (h : BootHost W) (written : gmap (list Z * list Z) (list Z))
    (debug_path : list Z) : Machine W :=
  let m := bh_machine h written in
  {| m_now := m_now m; m_spawn := m_spawn m; m_try_wait := m_try_wait m; m_kill := m_kill m;
     m_wait := m_wait m; m_stdout := m_stdout m; m_sleep := m_sleep m;
     m_debug_log := bh_log h debug_path |}.

Section Boot.
Context {W U G V D F : Type} `{EqDecision U}.
Variables (h : BootHost W) (crates : DiskCrates U G V D F).
Variables (digest : list Z -> list Z) (reserves : Z -> bool).

Abbreviation M := (io (BootWorld W) BootError).

(** ** Steps *)
Definition pure {A} (m : exec BootError A) : M A := fun s => (m, s).
Definition ensure (c : bool) (message : string) : M unit := pure (fail_if (negb c) (BootFailure message)).
Definition require {A} (o : option A) (message : string) : M A := pure (ok_or o (BootFailure message)).
Definition asks {A} (f : W -> A) : M A := fun s => (Ok (f (ps_world (bw_proc s))), s).
Definition host_call {A} (f : W -> A * W) : M A := fun s =>
  let p := bw_proc s in
  let (a, w) := f (ps_world p) in
  (Ok a, mkBootWorld (mkPState w (ps_spawned p) (ps_settled p)) (bw_fs s) (bw_next_id s) (bw_stdout s)).
Definition fs_call {A} (m : io FsState FsError A) : M A := fun s =>
  let (r, fs) := m (bw_fs s) in
  (map_err BootFsError r, mkBootWorld (bw_proc s) fs (bw_next_id s) (bw_stdout s)).

(** [File::create] and [fs::write] *)
Definition create_file (l : list Z * list Z) : io FsState FsError unit :=
  call (bh_os h) "create" (fun f => Ok (<[l := []]> f)).
Definition fs_write (l : list Z * list Z) (bytes : list Z) : io FsState FsError unit :=
  create_file l ;; write_all (bh_os h) (length bytes) l bytes.

(** ** Inputs and tools *)
Definition read_bounded (path : list Z) (maximum : Z) (description : string) : M (list Z) :=
  metadata ← asks (h_metadata (bh_host h) path);
  metadata ← require metadata ("failed to inspect " ++ description);
  ensure metadata.1 (description ++ " is not a regular file") ;;
  ensure (metadata.2 <=? maximum) (description ++ " is too large") ;;
  bytes ← asks (h_read (bh_host h) path);
  require bytes ("failed to read " ++ description).

Definition require_file (path : list Z) (source : string) : M (list Z) :=
  file ← asks (h_is_file (bh_host h) path);
  if file : bool then mret path else pure (Err (BootFailure (source ++ " does not identify a file"))).

Definition find_on_path (program : list Z) : M (option (list Z)) :=
  asks (fun w =>
    match h_env (bh_host h) "PATH" with
    | None => None
    | Some path =>
        find (fun candidate => h_is_file (bh_host h) candidate w)
          ((fun directory => path_join directory program) <$> split_where (fun c => c =? 58) path)
    end).

(** [for candidate in [..] { if candidate.is_file() { return Ok(..); } }] *)
Definition QEMU_CANDIDATES : list (list Z) :=
  [ascii_bytes "/opt/homebrew/bin/qemu-system-x86_64"; ascii_bytes "/usr/local/bin/qemu-system-x86_64";
   ascii_bytes "/usr/bin/qemu-system-x86_64"].

Definition resolve_qemu (override_path : option (list Z)) : M (list Z) :=
  match override_path, h_env (bh_host h) "POLYTOPE_QEMU" with
  | Some path, _ => require_file path "QEMU override"
  | None, Some path => require_file path "POLYTOPE_QEMU"
  | None, None =>
      found ← find_on_path (ascii_bytes "qemu-system-x86_64");
      match found with
      | Some path => mret path
      | None =>
          candidate ← asks (fun w => find (fun c => h_is_file (bh_host h) c w) QEMU_CANDIDATES);
          require candidate "qemu-system-x86_64 is unavailable; install QEMU or set POLYTOPE_QEMU"
      end
  end.

(** [stdout.lines().next().unwrap_or("unknown QEMU version")] *)
Definition qemu_version (qemu : list Z) : M (list Z) :=
  output ← host_call (h_run (bh_host h) (mkCommand qemu None [ascii_bytes "--version"] []));
  output ← require output "failed to query version";
  ensure (out_success output) "QEMU version command failed" ;;
  mret (default (ascii_bytes "unknown QEMU version") (head (lines (from_utf8_lossy (out_stdout output))))).

Definition resolve_firmware (cache : list Z) : M FirmwarePaths :=
  match h_env (bh_host h) "POLYTOPE_OVMF_CODE", h_env (bh_host h) "POLYTOPE_OVMF_VARS" with
  | Some code, Some vars =>
      code_file ← asks (h_is_file (bh_host h) code);
      ensure code_file "POLYTOPE_OVMF_CODE is not a file" ;;
      vars_file ← asks (h_is_file (bh_host h) vars);
      ensure vars_file "POLYTOPE_OVMF_VARS is not a file" ;;
      mret (mkFirmwarePaths code vars (ascii_bytes "environment-override"))
  | None, None =>
      prebuilt ← host_call (bh_fetch h OVMF_SOURCE cache);
      prebuilt ← require prebuilt "failed to fetch checksum-pinned OVMF edk2-stable202605-r1";
      mret (mkFirmwarePaths prebuilt.1 prebuilt.2 OVMF_RELEASE)
  | _, _ => pure (Err (BootFailure "POLYTOPE_OVMF_CODE and POLYTOPE_OVMF_VARS must be set together"))
  end.

(** ** The temporary directory *)
Definition temporary_path (l : list Z * list Z) : list Z := path_join l.1 l.2.

Definition create_temporary_directory : M (list Z * list Z) := fun s =>
  match TemporaryDirectory_create (bh_os h) (bh_temp_dir h) (ascii_bytes "qemu") (bh_pid h) (bw_next_id s)
          (bw_fs s) with
  | (Ok (l, next_id), fs) => (Ok l, mkBootWorld (bw_proc s) fs next_id (bw_stdout s))
  | (Err e, fs) => (Err (BootFsError e), mkBootWorld (bw_proc s) fs (bw_next_id s) (bw_stdout s))
  | (Panic, fs) => (Panic, mkBootWorld (bw_proc s) fs (bw_next_id s) (bw_stdout s))
  end.

(** [Drop for TemporaryDirectory]: if [remove_dir_all] succeeds, the files of the
    directory are gone with it. *)
Definition drop_directory (l : list Z * list Z) (fs : FsState) : FsState :=
  match remove_dir_all (bh_os h) l fs with
  | (Ok _, fs) =>
      mkFsState (filter (fun entry => entry.1.1 <> temporary_path l) (fs_files fs)) (fs_directories fs)
        (fs_history fs) (fs_calls fs)
  | (_, fs) => fs
  end.

Definition with_temporary {A} (l : list Z * list Z) (body : M A) : M A := fun s =>
  let (r, s) := body s in
  (r, mkBootWorld (bw_proc s) (drop_directory l (bw_fs s)) (bw_next_id s) (bw_stdout s)).

(** ** One boot *)

(** The files of a boot, in its temporary directory. *)
Definition IMAGE_COPY : list Z := ascii_bytes "validated-boot.img".
Definition CODE_COPY : list Z := ascii_bytes "validated-code.fd".
Definition VARS_COPY : list Z := ascii_bytes "vars.fd".
Definition SERIAL_LOG : list Z := ascii_bytes "serial.log".
Definition DEBUG_LOG : list Z := ascii_bytes "debug.log".
Definition STDOUT_LOG : list Z := ascii_bytes "stdout.log".
Definition STDERR_LOG : list Z := ascii_bytes "stderr.log".

(** What was read and checked before the emulator is started. *)
Record BootInputs := mkBootInputs {
  bi_image : list Z;
  bi_qemu : list Z;
  bi_qemu_version : list Z;
  bi_firmware : FirmwarePaths;
  bi_ovmf_code : list Z;
  bi_ovmf_vars : list Z
}.

(** [request.timeout], in nanoseconds. *)
Definition request_timeout (request : BootRequest) : Z := br_timeout_secs request * 1000000000.

Definition read_inputs (request : BootRequest) : M BootInputs :=
  ensure (0 <? request_timeout request) "boot timeout must be positive" ;;
  image ← read_bounded (br_image request) DISK_BYTES "boot image";
  ensure (len image =? DISK_BYTES) "boot image size differs" ;;
  image_manifest ← pure (map_err BootImageError (validate_image_bytes crates digest reserves image));
  ensure (bool_decide (im_scenario image_manifest = br_scenario request))
    "requested scenario does not match image scenario" ;;
  qemu ← resolve_qemu (br_qemu request);
  qemu_version ← qemu_version qemu;
  firmware ← resolve_firmware (br_ovmf_cache request);
  ovmf_code ← read_bounded (fp_code firmware) (64 * 1024 * 1024) "OVMF code";
  ovmf_vars ← read_bounded (fp_vars firmware) (64 * 1024 * 1024) "OVMF vars";
  mret (mkBootInputs image qemu qemu_version firmware ovmf_code ovmf_vars).

(** The copies the emulator will use, and the files for its output. *)
Definition stage (directory : list Z) (inputs : BootInputs) : M unit :=
  fs_call (fs_write (directory, IMAGE_COPY) (bi_image inputs)) ;;
  fs_call (fs_write (directory, CODE_COPY) (bi_ovmf_code inputs)) ;;
  fs_call (fs_write (directory, VARS_COPY) (bi_ovmf_vars inputs)) ;;
  fs_call (create_file (directory, STDOUT_LOG)) ;;
  fs_call (create_file (directory, STDERR_LOG)).

Definition boot_invocation (directory : list Z) (inputs : BootInputs) (mode : BootMode) : QemuInvocation :=
  qemu_invocation (bh_linux h) (bh_file_name h (bi_qemu inputs)) (path_join directory CODE_COPY)
    (path_join directory VARS_COPY) (path_join directory IMAGE_COPY) (path_join directory SERIAL_LOG)
    (path_join directory DEBUG_LOG) (bool_decide (mode = ScenarioRun)).
Definition boot_command (directory : list Z) (inputs : BootInputs) (mode : BootMode) : Command :=
  mkCommand (bi_qemu inputs) None (qi_arguments (boot_invocation directory inputs mode)) [].

(** [execute_bounded_qemu] on the machine that sees the staged files. *)
Definition execute (directory : list Z) (command : Command) (timeout : Z) : M QemuExecution := fun s =>
  let (r, p) := execute_bounded_qemu (machine_at h (fs_files (bw_fs s)) (path_join directory DEBUG_LOG))
                  (bh_chunk h) command timeout (bw_proc s) in
  (map_err BootExecError r, mkBootWorld p (bw_fs s) (bw_next_id s) (bw_stdout s)).

Definition run_identity (request : BootRequest) (inputs : BootInputs) (invocation : QemuInvocation)
    : exec BootError RunIdentity :=
  image_bytes ← ok_or (try_uint 64 (len (bi_image inputs))) (BootFailure "disk image length does not fit u64");
  image_sha256 ← sha256_hex digest (bi_image inputs);
  ovmf_code_sha256 ← sha256_hex digest (bi_ovmf_code inputs);
  ovmf_vars_sha256 ← sha256_hex digest (bi_ovmf_vars inputs);
  Ok (mkRunIdentity (as_millis_u64 (request_timeout request)) image_sha256 image_bytes ovmf_code_sha256
        ovmf_vars_sha256 (bi_qemu_version inputs) (fp_release (bi_firmware inputs))
        (qi_sanitized_argv invocation)).

(** The logs are read once the emulator has been reaped. *)
Definition report (directory : list Z) (request : BootRequest) (mode : BootMode) (inputs : BootInputs)
    (execution : QemuExecution) : M BootRun := fun s =>
  let log name := bh_log h (path_join directory name) (ps_world (bw_proc s)) in
  (identity ← run_identity request inputs (boot_invocation directory inputs mode);
   map_err BootHostError
     (observe_execution mode (br_scenario request) identity execution (log SERIAL_LOG) (log DEBUG_LOG)
        (log STDERR_LOG) (log STDOUT_LOG)), s).

(** What happens while the temporary directory exists. *)
Definition boot_in (directory : list Z) (request : BootRequest) (mode : BootMode) (inputs : BootInputs)
    : M BootRun :=
  stage directory inputs ;;
  execution ← execute directory (boot_command directory inputs mode) (request_timeout request);
  report directory request mode inputs execution.

Definition observe_boot (request : BootRequest) (mode : BootMode) : M BootRun :=
  inputs ← read_inputs request;
  temporary ← create_temporary_directory;
  with_temporary temporary (boot_in (temporary_path temporary) request mode inputs).

Definition host_check (m : exec HostError unit) : M unit := pure (map_err BootHostError m).

Definition run_boot (request : BootRequest) : M BootRun :=
  run ← observe_boot request ScenarioRun;
  host_check (validate_boot_outcome run) ;;
  mret run.

(** ** The baseline *)

(** [for _ in 0..request.runs { samples.push(run_boot(..)?); }] *)
Fixpoint run_samples (runs : nat) (request : BootRequest) : M (list BootRun) :=
  match runs with
  | O => mret []
  | S runs => sample ← run_boot request; samples ← run_samples runs request; mret (sample :: samples)
  end.

(** [samples.iter().map(f).collect::<Result<_>>()?] *)
Fixpoint collect (f : BootRun -> option Z) (message : string) (samples : list BootRun)
    : exec BootError (list Z) :=
  match samples with
  | [] => Ok []
  | sample :: samples =>
      v ← ok_or (f sample) (BootFailure message);
      vs ← collect f message samples;
      Ok (v :: vs)
  end.

Definition same_identity (first sample : BootRun) : bool :=
  bool_decide (br_mode sample = br_mode first)
  && bool_decide (HostRun.br_scenario sample = HostRun.br_scenario first)
  && (br_timeout_ms sample =? br_timeout_ms first)
  && bool_decide (br_image_sha256 sample = br_image_sha256 first)
  && (br_image_bytes sample =? br_image_bytes first)
  && bool_decide (br_ovmf_code_sha256 sample = br_ovmf_code_sha256 first)
  && bool_decide (br_ovmf_vars_sha256 sample = br_ovmf_vars_sha256 first)
  && bool_decide (br_qemu_version sample = br_qemu_version first)
  && bool_decide (br_ovmf_release sample = br_ovmf_release first)
  && bool_decide (br_qemu_argv sample = br_qemu_argv first).

Fixpoint check_identity (first : BootRun) (samples : list BootRun) : exec BootError unit :=
  match samples with
  | [] => Ok tt
  | sample :: samples =>
      fail_if (negb (same_identity first sample))
        (BootFailure "baseline run does not share the first run's complete execution identity") ;;
      check_identity first samples
  end.

Definition statistics_of (samples : list Z) (message : string) : exec BootError SampleStatistics :=
  s ← sample_statistics samples;
  ok_or s (BootFailure message).

Definition baseline_report (samples : list BootRun) : exec BootError BaselineReport :=
  marker_times ← collect br_time_to_ready_marker_ms
    "a validated normal boot did not retain its KERNEL_READY observation time" samples;
  peak_rss_samples ← collect br_peak_rss_kib "baseline run has no peak-RSS sample" samples;
  first ← ok_or (head samples) (BootFailure "the baseline unexpectedly has no samples");
  check_identity first (tail samples) ;;
  time_to_ready_marker_ms ← statistics_of marker_times
    "the non-empty baseline unexpectedly has no marker-time samples";
  peak_rss_kib ← statistics_of peak_rss_samples "the non-empty baseline unexpectedly has no RSS samples";
  Ok (mkBaselineReport 2 (len samples) time_to_ready_marker_ms peak_rss_kib (len peak_rss_samples)
        (bh_consts_os h) (bh_consts_arch h) (br_ovmf_release first) samples).

Definition run_baseline (request : BaselineRequest) : M BaselineReport :=
  ensure (0 <? bl_runs request) "baseline requires at least one run" ;;
  ensure (bl_runs request <=? 100) "baseline run count is capped at 100" ;;
  ensure (bool_decide (br_scenario (bl_boot request) = Normal))
    "boot-time baselines require the normal scenario" ;;
  samples ← run_samples (Z.to_nat (bl_runs request)) (bl_boot request);
  report ← pure (baseline_report samples);
  fs_call (write_json_atomic (bh_os h) (bh_pid h) (bh_as_output h (bl_output request))
             (bh_baseline_json h report)) ;;
  mret report.

(** ** The boot commands of crates/xtask/src/main.rs *)

(** [println!] panics when standard output cannot be written. *)
Definition println (text : list Z) : M unit := fun s =>
  if bh_stdout_takes h (bw_stdout s) text
  then (Ok tt, mkBootWorld (bw_proc s) (bw_fs s) (bw_next_id s) (bw_stdout s ++ [text]))
  else (Panic, s).
Definition print_json (serialized : option (list Z)) : M unit :=
  text ← require serialized "failed to serialize command result";
  println text.

Definition boot_test (request : BootRequest) : M unit :=
  run ← observe_boot request ScenarioRun;
  print_json (bh_run_json h run) ;;
  host_check (validate_boot_outcome run).

Definition timeout_probe (request : BootRequest) : M unit :=
  run ← observe_boot request TimeoutProbe;
  print_json (bh_run_json h run) ;;
  host_check (validate_timeout_probe run).

Definition baseline (request : BaselineRequest) : M unit :=
  report ← run_baseline request;
  print_json (bh_baseline_json h report).
End Boot.
