(* ===== verification/BootRunnerProps.v ===== *)
(** What a boot on the host guarantees: only a validated image is run, from
    copies of exactly the validated bytes; every way out has waited for its
    processes and removed its files, as far as the calls succeed; a baseline is a set of validated boots of one identity. *)

From Stdlib Require Import SpecFloat.
From stdpp Require Import gmap.
From S2P Require Import Prelude Bytes Console Text Artifact HostScenario HostRun RawImage HostFs HostFsProps.
From S2P Require Import DiskImage DiskImageProps Protocol ProtocolProps Repro XtaskCli HostExec HostExecProps QemuArgs.
From S2P Require Import Statistics StatisticsProps BootRunner.
Import Image.

(** ** Steps that start nothing and write nothing *)
Section Quiet.
Context {W : Type}.
Abbreviation M := (io (BootWorld W) BootError).

(** Only the host's own state may differ. *)
Definition quiet (s s' : BootWorld W) : Prop :=
  ps_spawned (bw_proc s') = ps_spawned (bw_proc s) /\ ps_settled (bw_proc s') = ps_settled (bw_proc s) /\
  bw_fs s' = bw_fs s /\ bw_next_id s' = bw_next_id s /\ bw_stdout s' = bw_stdout s.
Definition silent {A} (m : M A) : Prop := forall s, quiet s (m s).2.

Lemma quiet_refl s : quiet s s.
Proof. done. Qed.
Lemma quiet_trans a b c : quiet a b -> quiet b c -> quiet a c.
Proof. unfold quiet. intros (-> & -> & -> & -> & ->). done. Qed.

Lemma silent_bind {A B} (m : M A) (k : A -> M B) : silent m -> (forall a, silent (k a)) -> silent (m ≫= k).
Proof.
  intros Hm Hk s. specialize (Hm s). unfold mbind, io_bind. destruct (m s) as [[a|e|] s1]; [|exact Hm..].
  eapply quiet_trans; [exact Hm|apply Hk].
Qed.
Lemma silent_ret {A} (a : A) : silent (mret a).
Proof. done. Qed.
Lemma silent_pure {A} (m : exec BootError A) : silent (pure m).
Proof. done. Qed.
Lemma silent_ensure c message : silent (ensure c message).
Proof. done. Qed.
Lemma silent_require {A} (o : option A) message : silent (require o message).
Proof. done. Qed.
Lemma silent_asks {A} (f : W -> A) : silent (asks f).
Proof. done. Qed.
Lemma silent_host_call {A} (f : W -> A * W) : silent (host_call f).
Proof. intros s. unfold host_call. by destruct (f _). Qed.
End Quiet.

Create HintDb silent.
#[export] Hint Resolve silent_bind silent_ret silent_pure silent_ensure silent_require silent_asks
  silent_host_call : silent.

(** Walks through a computation of silent steps. *)
Ltac silence :=
  repeat first [ progress intros
               | apply silent_bind
               | solve [eauto with silent nocore]
               | match goal with |- silent (match ?x with _ => _ end) => destruct x end ].

Section Reading.
Context {W U G V D F : Type} `{EqDecision U}.
Variables (h : BootHost W) (crates : DiskCrates U G V D F).
Variables (digest : list Z -> list Z) (reserves : Z -> bool).

Lemma silent_read_bounded path maximum description : silent (read_bounded h path maximum description).
Proof. unfold read_bounded. silence. Qed.
Lemma silent_require_file path source : silent (require_file h path source).
Proof. unfold require_file. silence. Qed.
Lemma silent_resolve_qemu o : silent (resolve_qemu h o).
Proof. unfold resolve_qemu, find_on_path. silence; apply silent_require_file. Qed.
Lemma silent_qemu_version qemu : silent (qemu_version h qemu).
Proof. unfold qemu_version. silence. Qed.
Lemma silent_resolve_firmware cache : silent (resolve_firmware h cache).
Proof. unfold resolve_firmware. silence. Qed.

Lemma silent_read_inputs request : silent (read_inputs h crates digest reserves request).
Proof.
  unfold read_inputs. silence; auto using silent_read_bounded, silent_resolve_qemu, silent_qemu_version,
    silent_resolve_firmware.
Qed.
End Reading.

(** ** Successful steps *)
Section Inversion.
Context {W : Type}.

Lemma boot_pure_Ok {A} (m : exec BootError A) (s s' : BootWorld W) a :
  pure m s = (Ok a, s') <-> m = Ok a /\ s' = s.
Proof. unfold pure. naive_solver. Qed.
Lemma ensure_step_Ok c message (s s' : BootWorld W) a :
  ensure c message s = (Ok a, s') <-> c = true /\ s' = s.
Proof. unfold ensure, pure. destruct a, c; naive_solver. Qed.
Lemma require_Ok {A} (o : option A) message (s s' : BootWorld W) a :
  require o message s = (Ok a, s') <-> o = Some a /\ s' = s.
Proof. unfold require, pure. destruct o; naive_solver. Qed.
Lemma boot_asks_Ok {A} (f : W -> A) (s s' : BootWorld W) a :
  asks f s = (Ok a, s') <-> a = f (ps_world (bw_proc s)) /\ s' = s.
Proof. unfold asks. naive_solver. Qed.
Lemma boot_fs_call_Ok {A} (m : io FsState FsError A) (s s' : BootWorld W) a :
  fs_call m s = (Ok a, s') <->
  exists fs, m (bw_fs s) = (Ok a, fs) /\ s' = mkBootWorld (bw_proc s) fs (bw_next_id s) (bw_stdout s).
Proof. unfold fs_call. destruct (m (bw_fs s)) as [[b|e|] fs]; naive_solver. Qed.
End Inversion.

(** Splits a successful computation into its steps. *)
Ltac inv_boot :=
  repeat match goal with
  | H : (_ ≫= _) ?s = (Ok _, _) |- _ => apply io_bind_Ok in H as (? & ? & ? & H)
  | H : pure _ _ = (Ok _, _) |- _ => apply boot_pure_Ok in H as [? ->]
  | H : ensure _ _ _ = (Ok _, _) |- _ => apply ensure_step_Ok in H as [? ->]
  | H : require _ _ _ = (Ok _, _) |- _ => apply require_Ok in H as [? ->]
  | H : asks _ _ = (Ok _, _) |- _ => apply boot_asks_Ok in H as [-> ->]
  | H : mret _ _ = (Ok _, _) |- _ => injection H as <- <-
  end.

Section Boots.
Context {W U G V D F : Type} `{EqDecision U}.
Variables (h : BootHost W) (crates : DiskCrates U G V D F).
Variables (digest : list Z -> list Z) (reserves : Z -> bool).

Lemma read_bounded_Ok path maximum description (s s' : BootWorld W) bytes :
  read_bounded h path maximum description s = (Ok bytes, s') ->
  h_read (bh_host h) path (ps_world (bw_proc s)) = Some bytes /\ s' = s.
Proof. unfold read_bounded. intros H. inv_boot. done. Qed.

Lemma read_inputs_Ok request s s' inputs :
  read_inputs h crates digest reserves request s = (Ok inputs, s') ->
  0 < request_timeout request /\
  h_read (bh_host h) (br_image request) (ps_world (bw_proc s)) = Some (bi_image inputs) /\
  exists manifest, validate_image_bytes crates digest reserves (bi_image inputs) = Ok manifest /\
    im_scenario manifest = br_scenario request.
Proof.
  unfold read_inputs. intros H. inv_boot.
  match goal with H : read_bounded _ (br_image _) _ _ _ = _ |- _ => apply read_bounded_Ok in H as [Hr ->] end.
  match goal with H : map_err _ _ = Ok ?m |- _ => apply map_err_Ok in H; rename m into manifest, H into Hv end.
  match goal with H : bool_decide (im_scenario _ = _) = true |- _ => apply bool_decide_eq_true in H end.
  match goal with H : (0 <? _) = true |- _ => apply Z.ltb_lt in H end.
  cbn [bi_image]. split_and!; [done|done|]. by exists manifest.
Qed.

(** The image at the request's path is one that may be run. *)
Definition image_accepted (request : BootRequest) (s : BootWorld W) : Prop :=
  exists image manifest, h_read (bh_host h) (br_image request) (ps_world (bw_proc s)) = Some image /\
    validate_image_bytes crates digest reserves image = Ok manifest /\
    im_scenario manifest = br_scenario request.

(** A step that is followed by failure or leaves the world as it was. *)
Definition stops {A} (s : BootWorld W) (r : exec BootError A * BootWorld W) : Prop :=
  r.2 = s /\ forall a, r.1 <> Ok a.

Lemma stops_bind {A B} (m : io (BootWorld W) BootError A) (k : A -> io (BootWorld W) BootError B) s :
  (m s).2 = s -> (forall a, (m s).1 = Ok a -> stops s (k a s)) -> stops s ((m ≫= k) s).
Proof.
  intros Hm Hk. unfold mbind, io_bind. destruct (m s) as [[a|e|] s1]; cbn [fst snd] in *; subst s1; [by apply Hk|done..].
Qed.

Lemma read_bounded_still path maximum description (s : BootWorld W) :
  (read_bounded h path maximum description s).2 = s.
Proof.
  unfold read_bounded, mbind, io_bind, asks, require, ensure, pure.
  destruct (h_metadata _ _ _) as [[b n]|]; [cbn [ok_or fst snd]|done]. destruct b; [cbn|done].
  destruct (n <=? maximum); [cbn|done]. by destruct (h_read (bh_host h) path (ps_world (bw_proc s))).
Qed.

(** Without such an image nothing is asked of the host but its files. *)
Lemma read_inputs_refused request s :
  ~ image_accepted request s -> stops s (read_inputs h crates digest reserves request s).
Proof.
  intros Hn. unfold read_inputs. apply stops_bind; [done|intros [] _].
  apply stops_bind; [apply read_bounded_still|intros image Hi].
  assert (h_read (bh_host h) (br_image request) (ps_world (bw_proc s)) = Some image) as Hr.
  { eapply read_bounded_Ok. rewrite <- Hi. apply surjective_pairing. }
  apply stops_bind; [done|intros [] _].
  apply stops_bind; [done|intros manifest Hv]. cbn [fst pure] in Hv. apply map_err_Ok in Hv.
  apply stops_bind; [done|intros [] He]. exfalso. apply Hn. exists image, manifest. split_and!; [done..|].
  unfold ensure, pure in He. cbn [fst] in He. apply fail_if_Ok, negb_false_iff, bool_decide_eq_true in He. done.
Qed.

(** ** Staging *)
Lemma fs_write_Ok l bytes fs fs' :
  fs_write h l bytes fs = (Ok tt, fs') ->
  fs_files fs' = <[l := bytes]> (fs_files fs) /\ fs_directories fs' = fs_directories fs.
Proof.
  unfold fs_write, create_file. intros H. apply io_bind_Ok in H as ([] & fs1 & H1 & H).
  apply call_Ok in H1 as [[= H1] D1]. apply (write_all_Ok _ _ _ []) in H as [E2 D2].
  - rewrite E2, D2, D1, <-H1. by rewrite insert_insert_eq.
  - by rewrite <-H1, lookup_insert_eq.
Qed.

Definition staged (directory : list Z) (inputs : BootInputs) (f : gmap (list Z * list Z) (list Z))
    : gmap (list Z * list Z) (list Z) :=
  <[(directory, STDERR_LOG) := []]> (<[(directory, STDOUT_LOG) := []]>
    (<[(directory, VARS_COPY) := bi_ovmf_vars inputs]> (<[(directory, CODE_COPY) := bi_ovmf_code inputs]>
      (<[(directory, IMAGE_COPY) := bi_image inputs]> f)))).

Lemma stage_Ok directory inputs s s' :
  stage h directory inputs s = (Ok tt, s') ->
  bw_proc s' = bw_proc s /\ fs_files (bw_fs s') = staged directory inputs (fs_files (bw_fs s)) /\
  fs_directories (bw_fs s') = fs_directories (bw_fs s).
Proof.
  unfold stage. intros H.
  repeat match goal with
  | H : (_ ≫= _) _ = (Ok tt, _) |- _ => apply io_bind_Ok in H as ([] & ? & ? & H)
  | H : fs_call (fs_write _ _ _) _ = (Ok tt, _) |- _ =>
      apply boot_fs_call_Ok in H as (? & H & ->); apply fs_write_Ok in H as [? ?]; cbn [bw_proc bw_fs] in *
  | H : fs_call (create_file _ _) _ = (Ok tt, _) |- _ =>
      apply boot_fs_call_Ok in H as (? & H & ->); apply call_Ok in H as [[= H] ?]; cbn [bw_proc bw_fs] in *
  end.
  split; [done|]. unfold staged. split; congruence.
Qed.

Lemma staged_copies directory inputs f :
  staged directory inputs f !! (directory, IMAGE_COPY) = Some (bi_image inputs) /\
  staged directory inputs f !! (directory, CODE_COPY) = Some (bi_ovmf_code inputs) /\
  staged directory inputs f !! (directory, VARS_COPY) = Some (bi_ovmf_vars inputs).
Proof.
  unfold staged. split_and!; repeat first [rewrite lookup_insert_eq | rewrite lookup_insert_ne by (intros [=])]; done.
Qed.

(** Whatever happens, staging only changes files. *)
Lemma stage_keeps {X : Type} (f : BootWorld W -> X) directory inputs s :
  (forall s0 fs, f (mkBootWorld (bw_proc s0) fs (bw_next_id s0) (bw_stdout s0)) = f s0) ->
  f (stage h directory inputs s).2 = f s.
Proof.
  intros Hf.
  assert (forall A (m : io FsState FsError A) (s0 : BootWorld W), f (fs_call m s0).2 = f s0) as Hc.
  { intros A m s0. unfold fs_call. destruct (m (bw_fs s0)). apply Hf. }
  assert (forall A B (m : io FsState FsError A) (k : A -> io (BootWorld W) BootError B) (s0 : BootWorld W),
    (forall a s1, f (k a s1).2 = f s1) -> f ((fs_call m ≫= k) s0).2 = f s0) as Hb.
  { intros A B m k s0 Hk. unfold mbind, io_bind. pose proof (Hc _ m s0) as Hm.
    destruct (fs_call m s0) as [[a|e|] s1]; [by rewrite Hk|done..]. }
  unfold stage. do 4 (apply Hb; intros ? ?). apply Hc.
Qed.
Lemma stage_proc directory inputs s : bw_proc (stage h directory inputs s).2 = bw_proc s.
Proof. by apply (stage_keeps bw_proc). Qed.

Lemma create_temporary_directory_adds s :
  let '(r, s') := create_temporary_directory h s in
  bw_proc s' = bw_proc s /\ bw_stdout s' = bw_stdout s /\ r <> Panic /\ fs_files (bw_fs s') = fs_files (bw_fs s) /\
  match r with
  | Ok l => (l ∉ fs_directories (bw_fs s)) /\ fs_directories (bw_fs s') = {[l]} ∪ fs_directories (bw_fs s)
  | _ => fs_directories (bw_fs s') = fs_directories (bw_fs s)
  end.
Proof using h.
  clear crates digest reserves. unfold create_temporary_directory.
  pose proof (temporary_directory_adds (bh_os h) (bh_temp_dir h) (ascii_bytes "qemu") (bh_pid h)
    (bw_next_id s) (bw_fs s)) as Hn.
  destruct (TemporaryDirectory_create _ _ _ _ _ _) as [[[l id]|e|] fs]; cbn [bw_proc bw_fs bw_stdout]; naive_solver.
Qed.

(** The state [s1] in which the emulator is started. *)
Record launched (request : BootRequest) (inputs : BootInputs) (temporary : list Z * list Z)
    (s s1 : BootWorld W) : Prop := {
  la_read : h_read (bh_host h) (br_image request) (ps_world (bw_proc s)) = Some (bi_image inputs);
  la_valid : exists manifest, validate_image_bytes crates digest reserves (bi_image inputs) = Ok manifest /\
               im_scenario manifest = br_scenario request;
  la_new : temporary ∉ fs_directories (bw_fs s);
  la_image : fs_files (bw_fs s1) !! (temporary_path temporary, IMAGE_COPY) = Some (bi_image inputs);
  la_code : fs_files (bw_fs s1) !! (temporary_path temporary, CODE_COPY) = Some (bi_ovmf_code inputs);
  la_vars : fs_files (bw_fs s1) !! (temporary_path temporary, VARS_COPY) = Some (bi_ovmf_vars inputs);
  la_spawned : ps_spawned (bw_proc s1) = ps_spawned (bw_proc s);
  la_settled : ps_settled (bw_proc s1) = ps_settled (bw_proc s)
}.

(** The emulator's run from that state. *)
Definition emulation (request : BootRequest) (mode : BootMode) (inputs : BootInputs)
    (temporary : list Z * list Z) (s1 : BootWorld W) : exec ExecError QemuExecution * PState W :=
  execute_bounded_qemu
    (machine_at h (fs_files (bw_fs s1)) (path_join (temporary_path temporary) DEBUG_LOG)) (bh_chunk h)
    (boot_command h (temporary_path temporary) inputs mode) (request_timeout request) (bw_proc s1).

(** What the report says of the inputs. *)
Definition reports_inputs (request : BootRequest) (mode : BootMode) (inputs : BootInputs)
    (temporary : list Z * list Z) (run : BootRun) : Prop :=
  sha256_hex (E:=BootError) digest (bi_image inputs) = Ok (br_image_sha256 run) /\
  sha256_hex (E:=BootError) digest (bi_ovmf_code inputs) = Ok (br_ovmf_code_sha256 run) /\
  sha256_hex (E:=BootError) digest (bi_ovmf_vars inputs) = Ok (br_ovmf_vars_sha256 run) /\
  br_mode run = mode /\ HostRun.br_scenario run = br_scenario request /\
  br_qemu_argv run = qi_sanitized_argv (boot_invocation h (temporary_path temporary) inputs mode) /\
  br_timeout_ms run = as_millis_u64 (request_timeout request).

Lemma observe_execution_Ok mode scenario identity execution serial debug stderr stdout run :
  observe_execution mode scenario identity execution serial debug stderr stdout = Ok run ->
  br_mode run = mode /\ HostRun.br_scenario run = scenario /\ br_timeout_ms run = id_timeout_ms identity /\
  br_image_sha256 run = id_image_sha256 identity /\ br_ovmf_code_sha256 run = id_ovmf_code_sha256 identity /\
  br_ovmf_vars_sha256 run = id_ovmf_vars_sha256 identity /\ br_qemu_argv run = id_qemu_argv identity /\
  br_exit_status run = qe_exit_status execution.
Proof.
  unfold observe_execution. intros H. apply bind_Ok in H as ([bytes truncated] & _ & H).
  apply bind_Ok in H as (trace & _ & H). apply bind_Ok in H as (log & _ & [= <-]). done.
Qed.

Lemma report_Ok temporary request mode inputs execution s run s' :
  report h digest (temporary_path temporary) request mode inputs execution s = (Ok run, s') ->
  reports_inputs request mode inputs temporary run.
Proof.
  unfold report. intros [= H _]. apply bind_Ok in H as (identity & Hi & H). apply map_err_Ok in H.
  apply observe_execution_Ok in H as (H1 & H2 & H3 & H4 & H5 & H6 & H7 & _).
  unfold run_identity in Hi. apply bind_Ok in Hi as (n & _ & Hi). apply bind_Ok in Hi as (a & Ha & Hi).
  apply bind_Ok in Hi as (b & Hb & Hi). apply bind_Ok in Hi as (c & Hc & [= <-]).
  unfold reports_inputs. cbn in *. rewrite H1, H2, H3, H4, H5, H6, H7. done.
Qed.

(** The report is that of the emulator's run, with the logs it left. *)
Definition observed (request : BootRequest) (mode : BootMode) (inputs : BootInputs)
    (temporary : list Z * list Z) (s1 : BootWorld W) (run : BootRun) : Prop :=
  exists identity execution p,
    let log name := bh_log h (path_join (temporary_path temporary) name) (ps_world p) in
    emulation request mode inputs temporary s1 = (Ok execution, p) /\
    observe_execution mode (br_scenario request) identity execution (log SERIAL_LOG) (log DEBUG_LOG)
      (log STDERR_LOG) (log STDOUT_LOG) = Ok run.

(** An execution in the temporary directory, on every outcome. *)
Lemma boot_in_launches request mode inputs temporary s :
  let '(r, s') := boot_in h digest (temporary_path temporary) request mode inputs s in
  (bw_proc s' = bw_proc s /\ (forall run, r <> Ok run) /\
   (stage h (temporary_path temporary) inputs s).1 <> Ok tt) \/
  exists s1, stage h (temporary_path temporary) inputs s = (Ok tt, s1) /\
    bw_proc s' = (emulation request mode inputs temporary s1).2 /\ bw_fs s' = bw_fs s1 /\
    forall run, r = Ok run ->
      reports_inputs request mode inputs temporary run /\ observed request mode inputs temporary s1 run.
Proof.
  unfold boot_in. unfold mbind at 1, io_bind at 1.
  pose proof (stage_proc (temporary_path temporary) inputs s) as Hp.
  destruct (stage h _ inputs s) as [[[]|e|] s1] eqn:Hs; cbn [fst snd] in *; cbv beta iota; [|by left..].
  unfold observed. unfold mbind, io_bind, execute, emulation.
  destruct (execute_bounded_qemu _ _ _ _ _) as [[e|e|] p] eqn:He; cbn [map_err]; cbv beta iota;
    [|right; exists s1; rewrite He; by split_and!..].
  match goal with |- context [report h digest ?d request mode inputs e ?s2] =>
    destruct (report h digest d request mode inputs e s2) as [r s3] eqn:Hr end.
  assert (s3 = mkBootWorld p (bw_fs s1) (bw_next_id s1) (bw_stdout s1)) as -> by (unfold report in Hr; by injection Hr).
  right. exists s1. rewrite He. split_and!; [done..|]. intros run ->. split; [by eapply report_Ok|].
  unfold report in Hr. injection Hr as Hr. apply bind_Ok in Hr as (identity & _ & Hr%map_err_Ok).
  by exists identity, e, p.
Qed.

(** A whole boot, on every outcome. *)
Lemma observe_boot_launches request mode s :
  let '(r, s') := observe_boot h crates digest reserves request mode s in
  (ps_spawned (bw_proc s') = ps_spawned (bw_proc s) /\ forall run, r <> Ok run) \/
  exists inputs temporary s1,
    launched request inputs temporary s s1 /\
    bw_proc s' = (emulation request mode inputs temporary s1).2 /\
    forall run, r = Ok run ->
      reports_inputs request mode inputs temporary run /\ observed request mode inputs temporary s1 run.
Proof.
  unfold observe_boot. unfold mbind at 1, io_bind at 1.
  destruct (silent_read_inputs h crates digest reserves request s) as (Q1 & Q2 & Q3 & Q4 & Q5).
  destruct (read_inputs _ _ _ _ _ s) as [[inputs|e|] s0] eqn:Hi; cbn [snd] in *; cbv beta iota; [|by left..].
  apply read_inputs_Ok in Hi as (Ht & Hr & Hv). unfold mbind, io_bind.
  pose proof (create_temporary_directory_adds s0) as Hc.
  destruct (create_temporary_directory h s0) as [[temporary|e|] s1]; cbv beta iota;
    [|left; by destruct Hc as (-> & _)..].
  destruct Hc as (P1 & _ & _ & F1 & N1 & D1). unfold with_temporary.
  pose proof (boot_in_launches request mode inputs temporary s1) as Hb.
  destruct (boot_in _ _ _ _ _ _ s1) as [r s2]. cbv beta iota. cbn [bw_proc].
  destruct Hb as [(-> & Hn & _)|(s3 & Hs & Hp & _ & Hrep)]; [left; by rewrite P1|].
  right. exists inputs, temporary, s3. apply stage_Ok in Hs as (P3 & F3 & D3).
  destruct (staged_copies (temporary_path temporary) inputs (fs_files (bw_fs s1))) as (S1 & S2 & S3).
  split_and!; [|done|done]. split; try congruence; by rewrite F3.
Qed.
End Boots.

(** ** No way out leaves anything behind *)
Section CleanUp.
Context {W U G V D F : Type} `{EqDecision U}.
Variables (h : BootHost W) (crates : DiskCrates U G V D F).
Variables (digest : list Z -> list Z) (reserves : Z -> bool).

Lemma machine_at_laws f path (time : W -> Z) :
  MachineLaws (bh_machine h f) time -> MachineLaws (machine_at h f path) time.
Proof. intros [L1 L2 L3 L4 L5 L6 L7]. by split. Qed.

(** No wait for a process fails. *)
Definition waits_succeed : Prop := forall f pid w, is_Some (m_wait (bh_machine h f) pid w).1.

Lemma accounted_quiet (waits : Prop) (s s' : BootWorld W) :
  quiet s s' -> accounted waits (bw_proc s) -> accounted waits (bw_proc s').
Proof. intros (Q1 & Q2 & _) [H1 H2]. split; unfold reaped in *; by rewrite ?Q1, Q2. Qed.

Lemma stage_succeeds directory inputs s :
  (forall n, os_fails (bh_os h) n = false) -> (stage h directory inputs s).1 = Ok tt.
Proof using h.
  clear crates digest reserves. intros Hos.
  assert (forall l (s0 : BootWorld W), exists s1, fs_call (create_file h l) s0 = (Ok tt, s1)) as Hc.
  { intros l s0. destruct (call_succeeds (bh_os h) Hos "create" (fun f => Ok (<[l := []]> f)) (bw_fs s0) _ eq_refl)
      as (fs & H1 & _). unfold fs_call, create_file. rewrite H1. by eexists. }
  assert (forall l bytes (s0 : BootWorld W), exists s1, fs_call (fs_write h l bytes) s0 = (Ok tt, s1)) as Hw.
  { intros l bytes s0.
    destruct (call_succeeds (bh_os h) Hos "create" (fun f => Ok (<[l := []]> f)) (bw_fs s0) _ eq_refl)
      as (fs & H1 & E1).
    destruct (write_all_succeeds (bh_os h) Hos (length bytes) l [] bytes fs) as (fs' & H2 & _);
      [lia|by rewrite E1, lookup_insert_eq|].
    unfold fs_call, fs_write, create_file, mbind, io_bind. rewrite H1, H2. by eexists. }
  unfold stage, mbind, io_bind.
  destruct (Hw (directory, IMAGE_COPY) (bi_image inputs) s) as (s1 & ->).
  destruct (Hw (directory, CODE_COPY) (bi_ovmf_code inputs) s1) as (s2 & ->).
  destruct (Hw (directory, VARS_COPY) (bi_ovmf_vars inputs) s2) as (s3 & ->).
  destruct (Hc (directory, STDOUT_LOG) s3) as (s4 & ->).
  by destruct (Hc (directory, STDERR_LOG) s4) as (s5 & ->).
Qed.

(** Dropping the directory takes back it and what was staged. *)
Lemma drop_directories temporary fs0 fs1 :
  os_fails (bh_os h) (fs_calls fs1) = false -> (temporary ∉ fs_directories fs0) ->
  fs_directories fs1 = {[temporary]} ∪ fs_directories fs0 ->
  fs_directories (drop_directory h temporary fs1) = fs_directories fs0.
Proof using h.
  clear crates digest reserves. intros Hos Hnew Hd. unfold drop_directory, remove_dir_all. rewrite Hos.
  cbn [fs_directories]. rewrite Hd. set_solver.
Qed.
Lemma drop_staged temporary inputs fs0 fs1 :
  os_fails (bh_os h) (fs_calls fs1) = false ->
  (forall name, fs_files fs0 !! (temporary_path temporary, name) = None) ->
  fs_files fs1 = staged (temporary_path temporary) inputs (fs_files fs0) ->
  fs_files (drop_directory h temporary fs1) = fs_files fs0.
Proof using h.
  clear crates digest reserves. intros Hos Hnone Hf. unfold drop_directory, remove_dir_all. rewrite Hos.
  cbn [fs_files]. rewrite Hf.
  apply map_eq. intros [d name]. destruct (decide (d = temporary_path temporary)) as [->|Hd'].
  - rewrite Hnone. apply map_lookup_filter_None_2. right. intros v _ Hn. by apply Hn.
  - rewrite map_lookup_filter. unfold staged. rewrite !lookup_insert_ne by (intros [=]; congruence).
    destruct (fs_files fs0 !! (d, name)) as [v|]; [|done]. cbn. by rewrite option_guard_True.
Qed.

(** ** Totality *)
Lemma safe_step {A B} (m : io (BootWorld W) BootError A) (k : A -> io (BootWorld W) BootError B) s :
  (m s).1 <> Panic -> (forall a s1, m s = (Ok a, s1) -> (k a s1).1 <> Panic) -> ((m ≫= k) s).1 <> Panic.
Proof. apply io_bind_safe. Qed.

Lemma safe_ensure c message (s : BootWorld W) : (ensure c message s).1 <> Panic.
Proof. by destruct c. Qed.
Lemma safe_boot_require {A} (o : option A) message (s : BootWorld W) : (require o message s).1 <> Panic.
Proof. by destruct o. Qed.
Lemma safe_host_call {A} (f : W -> A * W) (s : BootWorld W) : (host_call f s).1 <> Panic.
Proof. unfold host_call. by destruct (f _). Qed.

Lemma safe_fs_call {A} (m : io FsState FsError A) (s : BootWorld W) :
  (m (bw_fs s)).1 <> Panic -> (fs_call m s).1 <> Panic.
Proof. unfold fs_call. by destruct (m (bw_fs s)) as [[]]. Qed.
Lemma safe_fs_write l bytes fs : (fs_write h l bytes fs).1 <> Panic.
Proof.
  unfold fs_write, create_file, mbind, io_bind.
  pose proof (call_no_panic (bh_os h) "create" (fun f => Ok (<[l := []]> f)) fs ltac:(done)) as Hc.
  destruct (call _ _ _ fs) as [[[]|e|] fs1]; [|done..]. by apply write_all_no_panic.
Qed.
Lemma safe_stage directory inputs s : (stage h directory inputs s).1 <> Panic.
Proof.
  unfold stage. do 3 (apply safe_step; [apply safe_fs_call, safe_fs_write|intros [] ? _]).
  apply safe_step; [|intros [] ? _]; by apply safe_fs_call, call_no_panic.
Qed.

Lemma read_log_no_panic path : read_log_bounded path <> Panic.
Proof. by destruct path. Qed.
Lemma collect_logs_no_panic paths : forall combined, collect_logs_from combined paths <> Panic.
Proof.
  induction paths as [|path paths IH]; intros combined; [done|]. cbn [collect_logs_from].
  apply bind_no_panic; [apply read_log_no_panic|]. intros [bytes truncated] _. apply IH.
Qed.
Lemma observe_execution_no_panic mode scenario identity execution serial debug stderr stdout :
  observe_execution mode scenario identity execution serial debug stderr stdout <> Panic.
Proof.
  unfold observe_execution. apply bind_no_panic; [apply read_log_no_panic|]. intros [bytes truncated] _.
  rewrite parse_stream_exact. apply bind_no_panic; [done|]. intros trace _.
  apply bind_no_panic; [apply collect_logs_no_panic|done].
Qed.
End CleanUp.

(** Steps through a computation whose basic steps cannot panic. *)
Ltac safe_steps :=
  repeat first
    [ apply safe_ensure | apply safe_boot_require | apply safe_host_call
    | match goal with |- (asks _ _).1 <> Panic => done | |- (mret _ _).1 <> Panic => done
        | |- (pure (Err _) _).1 <> Panic => done end
    | apply safe_step; [|intros ? ? ?]
    | match goal with |- ((match ?x with _ => _ end) _).1 <> Panic => destruct x end ].

Section Total.
Context {W U G V D F : Type} `{EqDecision U}.
Variables (h : BootHost W) (crates : DiskCrates U G V D F).
Variables (digest : list Z -> list Z) (reserves : Z -> bool).
Hypothesis Hcrates : FatLaws crates.
Hypothesis Hdigest : forall l, is_bytes (digest l).
Hypothesis Hread : forall p w b, h_read (bh_host h) p w = Some b -> slice_ok b.

Lemma safe_read_bounded path maximum description s : (read_bounded h path maximum description s).1 <> Panic.
Proof. unfold read_bounded. safe_steps. Qed.
Lemma safe_resolve_qemu o s : (resolve_qemu h o s).1 <> Panic.
Proof. unfold resolve_qemu, require_file, find_on_path. safe_steps. Qed.
Lemma safe_qemu_version qemu s : (qemu_version h qemu s).1 <> Panic.
Proof. unfold qemu_version. safe_steps. Qed.
Lemma safe_resolve_firmware cache s : (resolve_firmware h cache s).1 <> Panic.
Proof. unfold resolve_firmware. safe_steps. Qed.

Lemma safe_read_inputs request s : (read_inputs h crates digest reserves request s).1 <> Panic.
Proof using Hcrates Hdigest Hread.
  unfold read_inputs. apply safe_step; [apply safe_ensure|intros ? s0 _].
  apply safe_step; [apply safe_read_bounded|intros image s1 Hi]. apply read_bounded_Ok in Hi as [Hi _].
  safe_steps; auto using safe_read_bounded, safe_resolve_qemu, safe_qemu_version, safe_resolve_firmware.
  apply map_err_no_panic, validate_image_no_panic; [done|done|]. by eapply Hread.
Qed.

Lemma safe_report directory request mode inputs execution s :
  (report h digest directory request mode inputs execution s).1 <> Panic.
Proof using Hdigest.
  unfold report, run_identity. cbn [fst].
  apply bind_no_panic; [|intros identity _; apply map_err_no_panic, observe_execution_no_panic].
  apply bind_no_panic; [apply ok_or_no_panic|]. intros n _.
  do 3 (apply bind_no_panic; [apply (sha256_hex_no_panic digest Hdigest)|intros ? _]). done.
Qed.

(** With the temporary directory in place, the boot ends and owes no process. *)
Lemma boot_in_ends (time : W -> Z) request mode inputs temporary s :
  (forall f, MachineLaws (bh_machine h f) time) -> 0 <= request_timeout request ->
  accounted (waits_succeed h) (bw_proc s) ->
  exists r s', boot_in h digest (temporary_path temporary) request mode inputs s = (r, s') /\
    r <> Panic /\ accounted (waits_succeed h) (bw_proc s') /\ bw_stdout s' = bw_stdout s /\
    forall s1, stage h (temporary_path temporary) inputs s = (Ok tt, s1) -> bw_fs s' = bw_fs s1.
Proof using Hdigest.
  intros Hm Ht Hdebt. unfold boot_in, mbind, io_bind.
  pose proof (stage_proc h (temporary_path temporary) inputs s) as Hp.
  pose proof (stage_keeps h bw_stdout (temporary_path temporary) inputs s ltac:(done)) as Hout.
  pose proof (safe_stage h (temporary_path temporary) inputs s) as Hsafe.
  destruct (stage h _ inputs s) as [[[]|e|] s1]; cbn [fst snd] in *; [| |done].
  2: { eexists _, _. split; [reflexivity|]. rewrite Hp. by split_and!. }
  unfold execute. set (machine := machine_at h _ _).
  pose proof (machine_at_laws h (fs_files (bw_fs s1)) (path_join (temporary_path temporary) DEBUG_LOG) time (Hm _))
    as Hlaws.
  pose proof (execute_accounted machine time (bh_chunk h) (waits_succeed h)
    (boot_command h (temporary_path temporary) inputs mode) (request_timeout request) (bw_proc s1) Hlaws
    (fun Hw => Hw (fs_files (bw_fs s1))) Ht ltac:(by rewrite Hp)) as Hx.
  destruct (execute_bounded_qemu machine _ _ _ _) as [[e|e|] p]; destruct Hx as (Hnp & Ho & _); cbn [map_err]; [| |done].
  - match goal with |- context [report h digest ?d request mode inputs e ?s2] =>
      pose proof (safe_report d request mode inputs e s2) as Hr;
      assert ((report h digest d request mode inputs e s2).2 = s2) as E by reflexivity;
      destruct (report h digest d request mode inputs e s2) as [r s3] end.
    cbn [fst snd] in *. subst s3. eexists _, _. split; [reflexivity|]. split_and!; [done..|]. by intros s3 [= <-].
  - eexists _, _. split; [reflexivity|]. split_and!; [done..|]. by intros s3 [= <-].
Qed.

(** A whole boot: it ends, owes no process, prints nothing, and leaves no
    directory. *)
Lemma observe_boot_total (time : W -> Z) request mode s :
  (forall f, MachineLaws (bh_machine h f) time) -> accounted (waits_succeed h) (bw_proc s) ->
  let '(r, s') := observe_boot h crates digest reserves request mode s in
  r <> Panic /\ accounted (waits_succeed h) (bw_proc s') /\ bw_stdout s' = bw_stdout s /\
  ((forall n, os_fails (bh_os h) n = false) ->
   fs_directories (bw_fs s') = fs_directories (bw_fs s) /\
   ((forall l name, l ∉ fs_directories (bw_fs s) -> fs_files (bw_fs s) !! (temporary_path l, name) = None) ->
    fs_files (bw_fs s') = fs_files (bw_fs s))).
Proof using Hcrates Hdigest Hread.
  intros Hm Hdebt. unfold observe_boot. unfold mbind at 1, io_bind at 1.
  destruct (silent_read_inputs h crates digest reserves request s) as (Q1 & Q2 & Q3 & Q4 & Q5).
  pose proof (safe_read_inputs request s) as Hsafe.
  destruct (read_inputs _ _ _ _ _ s) as [[inputs|e|] s0] eqn:Hi; cbn [fst snd] in *; cbv beta iota; [| |done].
  2: { split_and!; [done|by apply (accounted_quiet _ s)|done|by rewrite Q3]. }
  apply read_inputs_Ok in Hi as (Ht & _). unfold mbind, io_bind.
  pose proof (create_temporary_directory_adds h s0) as Hc.
  destruct (create_temporary_directory h s0) as [[temporary|e|] s1]; cbv beta iota;
    destruct Hc as (P1 & O1 & Hne & F1 & D1); [| |done].
  2: { rewrite P1, F1, D1, Q3, O1, Q5. split_and!; [done|by apply (accounted_quiet _ s)|done|done]. }
  destruct D1 as [N1 D1]. rewrite Q3 in *. unfold with_temporary.
  assert (accounted (waits_succeed h) (bw_proc s1)) as Hdebt1 by (rewrite P1; by apply (accounted_quiet _ s)).
  destruct (boot_in_ends time request mode inputs temporary s1 Hm) as (r & s2 & -> & Hr & Hd & Ho & Hs); [lia|done|].
  cbv beta iota. cbn [bw_proc bw_fs bw_stdout]. split_and!; [done|done|congruence|]. intros Hos.
  pose proof (stage_succeeds h (temporary_path temporary) inputs s1 Hos) as E.
  destruct (stage h (temporary_path temporary) inputs s1) as [[[]|e|] s3] eqn:Hst; [|done..].
  apply stage_Ok in Hst as (_ & F3 & D3). rewrite (Hs s3 eq_refl).
  split; [apply drop_directories; [done..|congruence]|]. intros Hwf. rewrite <- F1 in *.
  apply (drop_staged h temporary inputs); [done| |congruence]. intros name. rewrite F1 in *. by apply Hwf.
Qed.
End Total.

(** The command of a boot, argument by argument. *)
Lemma boot_command_exact {W} (h : BootHost W) directory inputs mode :
  boot_command h directory inputs mode =
  mkCommand (bi_qemu inputs) None
    (command_line (bh_linux h) (bool_decide (mode = ScenarioRun))
       (encode_utf8 (code_drive (path_join directory CODE_COPY)))
       (encode_utf8 (vars_drive (path_join directory VARS_COPY)))
       (encode_utf8 (image_drive (path_join directory IMAGE_COPY)))
       (encode_utf8 (ascii_bytes "file:" ++ from_utf8_lossy (path_join directory SERIAL_LOG)))
       (encode_utf8 (ascii_bytes "file:" ++ from_utf8_lossy (path_join directory DEBUG_LOG)))) [].
Proof. unfold boot_command, boot_invocation. by rewrite invocation_exact. Qed.

(** C18. Only what was validated is run.  Whatever the host answers, and whichever
    way [observe_boot] ends: if the bytes at the image path do not pass the image
    validator with the requested scenario, there is no report and the whole state
    of processes, files and host is untouched, so that no program was run at all,
    not even the emulator's version query.  Otherwise, either the emulator was not
    started and there is no report, or: it was started in a directory that is new,
    in which the disk, code and variable files hold exactly the bytes that were
    read and validated; its command line names the code copy as the read-only flash
    unit 0, the variable copy as flash unit 1, the image copy as the read-only disk
    and the two logs of that directory; and a report carries the digests of exactly
    these bytes, the request's scenario and timeout, and the command line with
    placeholders for the paths. *)
Theorem only_validated_images_run {W U G V D F : Type} `{EqDecision U} (h : BootHost W)
    (crates : DiskCrates U G V D F) (digest : list Z -> list Z) (reserves : Z -> bool)
    (request : BootRequest) (mode : BootMode) (s : BootWorld W) :
  let '(r, s') := observe_boot h crates digest reserves request mode s in
  (~ image_accepted h crates digest reserves request s -> s' = s /\ forall run, r <> Ok run) /\
  ((ps_spawned (bw_proc s') = ps_spawned (bw_proc s) /\ forall run, r <> Ok run) \/
   exists inputs temporary s1,
    launched h crates digest reserves request inputs temporary s s1 /\
    (let directory := temporary_path temporary in
     let file prefix name :=
       encode_utf8 (ascii_bytes prefix ++ qemu_option_path (path_join directory (ascii_bytes name))) in
     let log name := encode_utf8 (ascii_bytes "file:" ++ from_utf8_lossy (path_join directory (ascii_bytes name))) in
     let command := mkCommand (bi_qemu inputs) None
       (command_line (bh_linux h) (bool_decide (mode = ScenarioRun))
          (file "if=pflash,format=raw,unit=0,readonly=on,file=" "validated-code.fd")
          (file "if=pflash,format=raw,unit=1,file=" "vars.fd")
          (file "format=raw,if=virtio,readonly=on,file=" "validated-boot.img")
          (log "serial.log") (log "debug.log")) [] in
     bw_proc s' = (execute_bounded_qemu (machine_at h (fs_files (bw_fs s1)) (path_join directory DEBUG_LOG))
                     (bh_chunk h) command (request_timeout request) (bw_proc s1)).2) /\
    forall run, r = Ok run ->
      reports_inputs h digest request mode inputs temporary run /\
      br_qemu_argv run = reported_name (bh_file_name h (bi_qemu inputs)) ::
        reported_line (bh_linux h) (bool_decide (mode = ScenarioRun))).
Proof.
  pose proof (observe_boot_launches h crates digest reserves request mode s) as H.
  pose proof (fun Hn => read_inputs_refused h crates digest reserves request s Hn) as Hr.
  destruct (observe_boot _ _ _ _ _ _ s) as [r s'] eqn:E. split.
  { intros Hn. destruct (Hr Hn) as [Hs Hf]. unfold observe_boot, mbind, io_bind in E.
    destruct (read_inputs _ _ _ _ _ s) as [[inputs|e|] s0]; cbn [fst snd] in *;
      [by destruct (Hf inputs)|injection E as <- <-; by split..]. }
  destruct H as [H|(inputs & temporary & s1 & Hl & Hp & Ho)]; [by left|]. right. exists inputs, temporary, s1.
  split; [done|]. split.
  - cbv zeta. rewrite Hp. unfold emulation. by rewrite boot_command_exact.
  - intros run Hrun. destruct (Ho run Hrun) as [Hi _]. split; [done|].
    destruct Hi as (_ & _ & _ & _ & _ & -> & _). unfold boot_invocation. by rewrite invocation_exact.
Qed.

(** A boot always ends, with a report or an error, and cleans up.  On a host
    whose clock does not go back and whose sleeps last, whatever the emulator,
    the files, the logs and the tools answer, [observe_boot] returns and every
    process that was started has been waited for; and when no file-system call
    fails, the files and directories are exactly those from before the boot. *)
Theorem boots_end_and_clean_up {W U G V D F : Type} `{EqDecision U} (h : BootHost W)
    (crates : DiskCrates U G V D F) (digest : list Z -> list Z) (reserves : Z -> bool) (time : W -> Z)
    (request : BootRequest) (mode : BootMode) (s : BootWorld W) :
  (forall f, MachineLaws (bh_machine h f) time) -> FatLaws crates -> (forall l, is_bytes (digest l)) ->
  (forall p w b, h_read (bh_host h) p w = Some b -> slice_ok b) ->
  accounted (waits_succeed h) (bw_proc s) ->
  let '(r, s') := observe_boot h crates digest reserves request mode s in
  r <> Panic /\ accounted (waits_succeed h) (bw_proc s') /\
  ((forall n, os_fails (bh_os h) n = false) ->
   (forall l name, l ∉ fs_directories (bw_fs s) -> fs_files (bw_fs s) !! (temporary_path l, name) = None) ->
   fs_files (bw_fs s') = fs_files (bw_fs s) /\ fs_directories (bw_fs s') = fs_directories (bw_fs s)).
Proof.
  intros Hm Hcrates Hdigest Hread Hdebt.
  pose proof (observe_boot_total h crates digest reserves Hcrates Hdigest Hread time request mode s Hm Hdebt) as H.
  destruct (observe_boot _ _ _ _ _ _ s) as [r s']. naive_solver.
Qed.

(** ** The baseline *)

(** What all runs of a baseline share. *)
Definition identity_of (run : BootRun) :=
  (br_mode run, HostRun.br_scenario run, br_timeout_ms run, (br_image_sha256 run, br_image_bytes run),
   (br_ovmf_code_sha256 run, br_ovmf_vars_sha256 run, br_ovmf_release run), br_qemu_version run,
   br_qemu_argv run).

Lemma same_identity_iff first sample : same_identity first sample = true <-> identity_of sample = identity_of first.
Proof.
  unfold same_identity, identity_of. rewrite !andb_true_iff, !bool_decide_eq_true, !Z.eqb_eq. split.
  - intros (((((((((-> & ->) & ->) & ->) & ->) & ->) & ->) & ->) & ->) & ->). done.
  - intros [=]. by repeat split.
Qed.

Lemma check_identity_Ok first samples :
  check_identity first samples = Ok tt <-> Forall (fun sample => identity_of sample = identity_of first) samples.
Proof.
  induction samples as [|sample samples IH]; [by split|]. cbn [check_identity].
  rewrite bind_fail_if, negb_false_iff, same_identity_iff, IH, Forall_cons. done.
Qed.

Lemma collect_Ok f message samples values :
  collect f message samples = Ok values <-> f <$> samples = Some <$> values.
Proof.
  revert values. induction samples as [|sample samples IH]; intros values; cbn [collect fmap list_fmap].
  - split; [by intros [= <-]|]. by destruct values.
  - split.
    + intros H. apply bind_Ok in H as (v & Hv%ok_or_Ok & H). apply bind_Ok in H as (vs & Hvs & [= <-]).
      apply IH in Hvs. cbn [fmap list_fmap]. by rewrite Hv, Hvs.
    + destruct values as [|v values]; cbn [fmap list_fmap]; [done|]. intros [= -> H]. apply IH in H.
      by rewrite H.
Qed.

Lemma statistics_of_Ok samples message st :
  statistics_of samples message = Ok st <-> sample_statistics (E:=BootError) samples = Ok (Some st).
Proof.
  unfold statistics_of. split.
  - intros H. apply bind_Ok in H as (s & Hs & H%ok_or_Ok). by rewrite Hs, H.
  - by intros ->.
Qed.

(** The report is made exactly of runs that all have a marker time and a memory
    sample and share the first one's identity. *)
Lemma baseline_report_Ok {W} (h : BootHost W) samples rep :
  baseline_report h samples = Ok rep ->
  bp_samples rep = samples /\ bp_runs rep = len samples /\
  exists first times rss, head samples = Some first /\
    Forall (fun sample => identity_of sample = identity_of first) samples /\
    br_time_to_ready_marker_ms <$> samples = Some <$> times /\
    br_peak_rss_kib <$> samples = Some <$> rss /\
    sample_statistics (E:=BootError) times = Ok (Some (bp_time_to_ready_marker_ms rep)) /\
    sample_statistics (E:=BootError) rss = Ok (Some (bp_peak_rss_kib rep)) /\
    bp_peak_rss_sample_count rep = len samples /\ bp_ovmf_release rep = br_ovmf_release first.
Proof.
  unfold baseline_report. intros H.
  apply bind_Ok in H as (times & Ht%collect_Ok & H). apply bind_Ok in H as (rss & Hr%collect_Ok & H).
  apply bind_Ok in H as (first & Hf%ok_or_Ok & H). apply bind_Ok in H as ([] & Hc%check_identity_Ok & H).
  apply bind_Ok in H as (st & Hs%statistics_of_Ok & H).
  apply bind_Ok in H as (sr & Hq%statistics_of_Ok & [= <-]). cbn. split_and!; [done|done|].
  exists first, times, rss. split_and!; try done.
  - destruct samples as [|a samples]; [done|]. injection Hf as ->. by constructor.
  - apply (f_equal length) in Hr. rewrite !length_fmap in Hr. by rewrite Hr.
Qed.

Lemma normal_run_ready run :
  validate_boot_outcome run = Ok tt -> HostRun.br_scenario run = Normal -> br_classification run = Ready.
Proof.
  unfold validate_boot_outcome, validate_scenario_outcome. intros H Hn. apply bind_fail_if in H as [_ H].
  rewrite Hn in H. apply fail_if_Ok, negb_false_iff in H. rewrite !andb_true_iff in H.
  destruct H as [[[[[[[H _] _] _] _] _] _] _]. by apply bool_decide_eq_true in H.
Qed.

(** A sample of a baseline: a boot that passed the verdict on its scenario. *)
Definition accepted_run (request : BootRequest) (run : BootRun) : Prop :=
  validate_boot_outcome run = Ok tt /\ br_mode run = ScenarioRun /\
  HostRun.br_scenario run = br_scenario request.

Section Baseline.
Context {W U G V D F : Type} `{EqDecision U}.
Variables (h : BootHost W) (crates : DiskCrates U G V D F).
Variables (digest : list Z -> list Z) (reserves : Z -> bool).

Lemma observe_boot_report request mode s run s' :
  observe_boot h crates digest reserves request mode s = (Ok run, s') ->
  br_mode run = mode /\ HostRun.br_scenario run = br_scenario request.
Proof.
  intros H. pose proof (observe_boot_launches h crates digest reserves request mode s) as Hb. rewrite H in Hb.
  destruct Hb as [[_ Hn]|(i & t & s1 & _ & _ & Hrep)]; [by destruct (Hn run)|].
  by destruct (Hrep run eq_refl) as [(_ & _ & _ & Hm & Hs & _) _].
Qed.

Lemma run_boot_accepted request s run s' :
  run_boot h crates digest reserves request s = (Ok run, s') -> accepted_run request run.
Proof.
  unfold run_boot, host_check. intros H. inv_boot.
  match goal with H : observe_boot _ _ _ _ _ _ _ = _ |- _ => apply observe_boot_report in H as [? ?] end.
  match goal with H : map_err _ _ = Ok ?u |- _ => destruct u; apply map_err_Ok in H end. done.
Qed.

Lemma run_samples_Ok request n : forall s samples s',
  run_samples h crates digest reserves n request s = (Ok samples, s') ->
  length samples = n /\ Forall (accepted_run request) samples.
Proof.
  induction n as [|n IH]; intros s samples s' H; cbn [run_samples] in H; inv_boot; [done|].
  match goal with H : run_samples _ _ _ _ _ _ _ = _ |- _ => apply IH in H as [<- ?] end.
  match goal with H : run_boot _ _ _ _ _ _ = _ |- _ => apply run_boot_accepted in H end.
  split; [done|]. by constructor.
Qed.
End Baseline.

(** C22. A baseline is what it says.  When [run_baseline] succeeds it made exactly
    the requested number of runs, between 1 and 100; each was a normal boot that
    passed the outcome validation; all share one execution identity (mode,
    scenario, timeout, image, firmware, emulator and arguments); the two
    distributions are the statistics of exactly their marker times and memory
    peaks; and the output file holds the serialized report. *)
Theorem baseline_is_homogeneous {W U G V D F : Type} `{EqDecision U} (h : BootHost W)
    (crates : DiskCrates U G V D F) (digest : list Z -> list Z) (reserves : Z -> bool)
    (request : BaselineRequest) (rep : BaselineReport) (s s' : BootWorld W) :
  run_baseline h crates digest reserves request s = (Ok rep, s') ->
  1 <= bl_runs request <= 100 /\ bp_runs rep = bl_runs request /\ len (bp_samples rep) = bl_runs request /\
  Forall (fun run => validate_boot_outcome run = Ok tt /\ br_classification run = Ready) (bp_samples rep) /\
  (forall a b, a ∈ bp_samples rep -> b ∈ bp_samples rep -> identity_of a = identity_of b) /\
  (exists times rss,
     br_time_to_ready_marker_ms <$> bp_samples rep = Some <$> times /\
     br_peak_rss_kib <$> bp_samples rep = Some <$> rss /\
     sample_statistics (E:=BootError) times = Ok (Some (bp_time_to_ready_marker_ms rep)) /\
     sample_statistics (E:=BootError) rss = Ok (Some (bp_peak_rss_kib rep))) /\
  exists name json, op_file_name (bh_as_output h (bl_output request)) = Some name /\
    bh_baseline_json h rep = Some json /\
    fs_files (bw_fs s') !! (output_directory (bh_as_output h (bl_output request)), name) = Some json.
Proof.
  unfold run_baseline. intros H. inv_boot.
  match goal with H : run_samples _ _ _ _ _ _ _ = _ |- _ => apply run_samples_Ok in H as [Hn Hall] end.
  match goal with H : baseline_report _ _ = _ |- _ => apply baseline_report_Ok in H
    as (-> & -> & first & times & rss & Hf & Hid & Ht & Hr & Hs & Hq & _) end.
  match goal with H : fs_call _ _ = (Ok ?u, _) |- _ => destruct u; apply boot_fs_call_Ok in H as (fs & Hw & ->) end.
  apply write_json_atomic_Ok in Hw as (name & json & Hname & Hjson & Hfile).
  repeat match goal with
  | H : (_ <? _) = true |- _ => apply Z.ltb_lt in H
  | H : (_ <=? _) = true |- _ => apply Z.leb_le in H
  | H : bool_decide _ = true |- _ => apply bool_decide_eq_true in H
  end.
  split_and!; [lia..| | | |by exists name, json].
  - eapply Forall_impl; [exact Hall|]. intros run (Hv & Hm & Hsc). split; [done|].
    by apply (normal_run_ready run); [|congruence].
  - rewrite Forall_forall in Hid. intros a b Ha Hb. by rewrite (Hid a Ha), (Hid b Hb).
  - by exists times, rss.
Qed.
