(* ===== verification/BootDemo.v ===== *)
(** A host on which a baseline of one boot succeeds, for any disk that validates:
    the theorems of [BootRunnerProps] applied to it. *)

From Stdlib Require Import SpecFloat.
From stdpp Require Import gmap.
From S2P Require Import Prelude Bytes Console Text Artifact HostScenario HostRun HostRunProps RawImage HostFs.
From S2P Require Import HostFsProps DiskImage DiskImageProps DiskDemo Protocol ProtocolProps Repro XtaskCli HostExec.
From S2P Require Import HostExecProps QemuArgs Statistics StatisticsProps BootRunner BootRunnerProps.
Import Image.

(** ** The machine: the guest exits with the ready status after one poll, and
    [ps] answers at once. *)
Definition boot_machine : Machine Z := {|
  m_now w := (w, w);
  m_spawn c w := (Some (if bool_decide (cmd_program c = ascii_bytes "ps") then 8 else 7), w);
  m_try_wait pid w := (Some (if pid =? 7 then if w <? POLL_INTERVAL then None else Some (Some 33)
                             else Some (Some 0)), w);
  m_kill _ w := (true, w);
  m_wait _ w := (Some None, w);
  m_stdout _ w := (Some (ascii_bytes "2048"), w);
  m_sleep d w := w + d;
  m_debug_log _ := NotFound
|}.
#[global] Instance boot_machine_laws : MachineLaws boot_machine (fun w => w).
Proof. split; cbn; intros; lia. Qed.

Definition boot_image_path : list Z := ascii_bytes "disk.img".
Definition boot_os : Os := mkOs (fun _ => false) (fun _ => 2 ^ 40).

(** The host, for any machine and logs. *)
Definition host_with (machine : Machine Z) (log : list Z -> Z -> LogFile) (disk : list Z) : BootHost Z := {|
  bh_host := {|
    h_env name := if bool_decide (name = "POLYTOPE_OVMF_CODE"%string) then Some (ascii_bytes "/fw/code.fd")
                  else if bool_decide (name = "POLYTOPE_OVMF_VARS"%string) then Some (ascii_bytes "/fw/vars.fd")
                  else None;
    h_canonicalize path _ := Some path;
    h_is_file _ _ := true;
    h_is_dir _ _ := true;
    h_metadata _ _ := Some (true, 4096);
    h_read path _ := Some (if bool_decide (path = boot_image_path) then disk else [0xab]);
    h_create_dir_all _ w := (true, w);
    h_run _ w := (Some (mkOutput true (ascii_bytes "QEMU 10") []), w)
  |};
  bh_machine _ := machine;
  bh_log := log;
  bh_fetch _ _ w := (None, w);
  bh_chunk _ := 4096;
  bh_os := boot_os;
  bh_pid := ascii_bytes "9";
  bh_temp_dir := ascii_bytes "/tmp";
  bh_linux := true;
  bh_file_name _ := Some (ascii_bytes "qemu-system-x86_64");
  bh_as_output _ := mkOutputPath (Some (ascii_bytes "out")) (Some (ascii_bytes "baseline.json"));
  bh_consts_os := ascii_bytes "linux";
  bh_consts_arch := ascii_bytes "x86_64";
  bh_run_json _ := Some (ascii_bytes "{}");
  bh_baseline_json _ := Some (ascii_bytes "{}");
  bh_stdout_takes _ _ := true;
  bh_stderr_takes _ _ := true
|}.

Definition is_debug_log (path : list Z) : bool :=
  bool_decide (path = ascii_bytes "/tmp/.polytope-qemu-9-0/debug.log").
Definition boot_host : list Z -> BootHost Z :=
  host_with boot_machine (fun path _ => if is_debug_log path then Contents sample_log else NotFound).

Definition boot_request : BootRequest :=
  mkBootRequest boot_image_path Normal 15 (Some (ascii_bytes "/bin/qemu-system-x86_64")) (ascii_bytes "ovmf").
Definition baseline_request : BaselineRequest := mkBaselineRequest boot_request 1 (ascii_bytes "out/baseline.json").
Definition boot_world : BootWorld Z := mkBootWorld (mkPState 0 [] []) (mkFsState ∅ ∅ [] 0) 0 [].

Lemma boot_step {A B} (m : io (BootWorld Z) BootError A) (k : A -> io (BootWorld Z) BootError B) s a s1 :
  m s = (Ok a, s1) -> (m ≫= k) s = k a s1.
Proof. unfold mbind, io_bind. by intros ->. Qed.

Section Demo.
Context {U G V D F : Type} `{EqDecision U}.
Variables (crates : DiskCrates U G V D F) (reserves : Z -> bool) (disk : list Z) (manifest : ImageManifest).
Hypothesis Hlen : len disk = DISK_BYTES.
Hypothesis Hvalid : validate_image_bytes crates demo_digest reserves disk = Ok manifest.
Hypothesis Hscenario : im_scenario manifest = Normal.

Definition boot_inputs : BootInputs :=
  mkBootInputs disk (ascii_bytes "/bin/qemu-system-x86_64") (ascii_bytes "QEMU 10")
    (mkFirmwarePaths (ascii_bytes "/fw/code.fd") (ascii_bytes "/fw/vars.fd") (ascii_bytes "environment-override"))
    [0xab] [0xab].

Lemma demo_read_inputs machine log :
  read_inputs (host_with machine log disk) crates demo_digest reserves boot_request boot_world = (Ok boot_inputs, boot_world).
Proof using Hlen Hvalid Hscenario.
  unfold read_inputs. erewrite boot_step by reflexivity. cbv beta.
  rewrite (boot_step (read_bounded (host_with machine log disk) _ _ _) _ boot_world disk boot_world) by reflexivity.
  rewrite Hlen, Z.eqb_refl. erewrite boot_step by reflexivity. cbv beta.
  rewrite Hvalid. erewrite boot_step by reflexivity. cbv beta.
  rewrite Hscenario. erewrite boot_step by reflexivity. cbv beta.
  do 5 (erewrite boot_step by reflexivity; cbv beta). reflexivity.
Qed.

Definition boot_temporary : list Z * list Z := (ascii_bytes "/tmp", ascii_bytes ".polytope-qemu-9-0").
Definition boot_fs : FsState := mkFsState ∅ {[ boot_temporary ]} [∅; ∅] 2.
Definition boot_world1 : BootWorld Z := mkBootWorld (mkPState 0 [] []) boot_fs 1 [].

Lemma demo_temporary machine log :
  create_temporary_directory (host_with machine log disk) boot_world = (Ok boot_temporary, boot_world1).
Proof. reflexivity. Qed.

Definition boot_execution : QemuExecution := mkQemuExecution (Some 33) 5 (Some 0) (Some 2048) false.
Definition boot_processes : PState Z := mkPState 5000000 [8; 7] [(8, true); (7, true)].

Lemma demo_execute fs id out :
  execute (boot_host disk) (temporary_path boot_temporary)
    (boot_command (boot_host disk) (temporary_path boot_temporary) boot_inputs ScenarioRun)
    (request_timeout boot_request) (mkBootWorld (mkPState 0 [] []) fs id out) =
  (Ok boot_execution, mkBootWorld boot_processes fs id out).
Proof. vm_compute. reflexivity. Qed.

Definition boot_argv : list (list Z) :=
  qi_sanitized_argv (boot_invocation (boot_host []) (temporary_path boot_temporary) boot_inputs ScenarioRun).
Definition boot_identity : RunIdentity :=
  let hex := match sha256_hex (E:=unit) demo_digest [] with Ok text => text | _ => [] end in
  mkRunIdentity 15000 hex DISK_BYTES hex hex (ascii_bytes "QEMU 10") (ascii_bytes "environment-override") boot_argv.
Definition boot_run : BootRun :=
  match observe_execution ScenarioRun Normal boot_identity boot_execution NotFound (Contents sample_log)
          NotFound NotFound with
  | Ok run => run
  | _ => sample_run
  end.

Lemma demo_report fs id out :
  report (boot_host disk) demo_digest (temporary_path boot_temporary) boot_request ScenarioRun boot_inputs
    boot_execution (mkBootWorld boot_processes fs id out) =
  (Ok boot_run, mkBootWorld boot_processes fs id out).
Proof using Hlen.
  unfold report.
  assert (run_identity demo_digest boot_request boot_inputs
    (boot_invocation (boot_host disk) (temporary_path boot_temporary) boot_inputs ScenarioRun) = Ok boot_identity) as ->.
  { unfold run_identity. cbn [bi_image boot_inputs]. rewrite Hlen. vm_compute. reflexivity. }
  vm_compute. reflexivity.
Qed.

(** The whole boot: it ends with the report, and the files are as before. *)
Lemma demo_observe : exists s',
  observe_boot (boot_host disk) crates demo_digest reserves boot_request ScenarioRun boot_world = (Ok boot_run, s') /\
  fs_files (bw_fs s') = ∅.
Proof using Hlen Hvalid Hscenario.
  unfold observe_boot.
  assert (forall n, os_fails (bh_os (boot_host disk)) n = false) as Hos by done.
  pose proof (stage_succeeds (boot_host disk) (temporary_path boot_temporary) boot_inputs boot_world1 Hos) as Hok.
  destruct (stage (boot_host disk) (temporary_path boot_temporary) boot_inputs boot_world1) as [r s2] eqn:Hst.
  cbn [fst] in Hok. subst r. pose proof (stage_Ok _ _ _ _ _ Hst) as (Hp & Hf & Hd).
  destruct s2 as [p fs id out]. cbn [bw_proc bw_fs] in *. subst p.
  exists (mkBootWorld boot_processes (drop_directory (boot_host disk) boot_temporary fs) id out). split.
  - assert (read_inputs (boot_host disk) crates demo_digest reserves boot_request boot_world
      = (Ok boot_inputs, boot_world)) as Hri by apply demo_read_inputs.
    assert (create_temporary_directory (boot_host disk) boot_world = (Ok boot_temporary, boot_world1)) as Htmp
      by apply demo_temporary.
    rewrite (boot_step _ _ _ _ _ Hri), (boot_step _ _ _ _ _ Htmp).
    unfold with_temporary, boot_in. rewrite (boot_step _ _ _ _ _ Hst), (boot_step _ _ _ _ _ (demo_execute fs id out)).
    rewrite demo_report. reflexivity.
  - cbn [bw_fs]. by rewrite (drop_staged (boot_host disk) boot_temporary boot_inputs (mkFsState ∅ ∅ [] 0) fs).
Qed.

Lemma demo_verdict : validate_boot_outcome boot_run = Ok tt.
Proof. vm_compute. reflexivity. Qed.
Lemma demo_boot : exists s',
  run_boot (boot_host disk) crates demo_digest reserves boot_request boot_world = (Ok boot_run, s') /\
  fs_files (bw_fs s') = ∅.
Proof using Hlen Hvalid Hscenario.
  destruct demo_observe as (s' & Ho & Hf). exists s'. split; [|exact Hf].
  unfold run_boot. rewrite (boot_step _ _ _ _ _ Ho). unfold host_check. rewrite demo_verdict. reflexivity.
Qed.

Lemma demo_baseline : exists rep s',
  run_baseline (boot_host disk) crates demo_digest reserves baseline_request boot_world = (Ok rep, s') /\
  bp_samples rep = [boot_run].
Proof using Hlen Hvalid Hscenario.
  destruct demo_boot as (s1 & Hb & Hf).
  assert (exists rep, baseline_report (boot_host disk) [boot_run] = Ok rep /\ bp_samples rep = [boot_run])
    as (rep & Hrep & Hs).
  { eexists. split; [vm_compute; reflexivity|]. vm_compute. reflexivity. }
  exists rep. unfold run_baseline.
  do 3 (erewrite boot_step by reflexivity; cbv beta).
  rewrite (boot_step _ _ _ [boot_run] s1).
  2: { change (Z.to_nat (bl_runs baseline_request)) with 1%nat. cbn [run_samples].
       change (bl_boot baseline_request) with boot_request. rewrite (boot_step _ _ _ _ _ Hb). reflexivity. }
  rewrite (boot_step (pure _) _ _ _ _ (f_equal (fun r => (r, s1)) Hrep)).
  destruct (writer_atomic boot_os (ascii_bytes "9") (bh_as_output (boot_host disk) (bl_output baseline_request))
    (ascii_bytes "baseline.json") (ascii_bytes "{}") ".tmp-"
    (write_json_atomic boot_os (ascii_bytes "9") (bh_as_output (boot_host disk) (bl_output baseline_request))
       (Some (ascii_bytes "{}"))) (bw_fs s1)) as (_ & _ & _ & _ & _ & Hok);
    [done|unfold writers; rewrite !elem_of_cons; auto|].
  specialize (Hok (fun _ => eq_refl)). rewrite Hf, lookup_empty in Hok. specialize (Hok eq_refl).
  destruct (write_json_atomic _ _ _ _ _) as [r fs'] eqn:Hw. cbn [fst] in Hok. subst r.
  exists (mkBootWorld (bw_proc s1) fs' (bw_next_id s1) (bw_stdout s1)). split; [|exact Hs].
  rewrite (boot_step _ _ _ tt (mkBootWorld (bw_proc s1) fs' (bw_next_id s1) (bw_stdout s1))); [reflexivity|].
  unfold fs_call. change (bh_baseline_json (boot_host disk) rep) with (Some (ascii_bytes "{}")).
  change (bh_os (boot_host disk)) with boot_os. change (bh_pid (boot_host disk)) with (ascii_bytes "9").
  rewrite Hw. reflexivity.
Qed.
End Demo.

(** One run, validated, and the report on disk. *)
Lemma baseline_is_homogeneous_witness : exists rep s',
  run_baseline (boot_host demo_disk) demo_crates demo_digest demo_reserves baseline_request boot_world
    = (Ok rep, s') /\
  len (bp_samples rep) = 1 /\
  Forall (fun run => validate_boot_outcome run = Ok tt /\ br_classification run = Ready) (bp_samples rep).
Proof.
  destruct (demo_baseline demo_crates demo_reserves demo_disk demo_manifest demo_disk_len demo_validates eq_refl)
    as (rep & s' & H & _). exists rep, s'. split; [exact H|].
  destruct (baseline_is_homogeneous _ _ _ _ _ _ _ _ H) as (_ & _ & Hn & Hall & _). split; [exact Hn|exact Hall].
Defined.

Lemma demo_reads (p : list Z) (w : Z) b : h_read (bh_host (boot_host demo_disk)) p w = Some b -> slice_ok b.
Proof.
  intros E. change (Some (if bool_decide (p = boot_image_path) then demo_disk else [0xab]) = Some b) in E.
  injection E as <-. destruct (bool_decide (p = boot_image_path)); [exact demo_disk_slice|].
  split; [by_decide|reflexivity].
Qed.

Lemma accounted_nothing waits : accounted waits (bw_proc boot_world).
Proof. split; [apply submseteq_nil_l|]. intros _. constructor. Qed.

(** The same host, from a state without processes. *)
Lemma boots_end_and_clean_up_witness :
  let '(r, s') := observe_boot (boot_host demo_disk) demo_crates demo_digest demo_reserves boot_request
                    TimeoutProbe boot_world in
  r <> Panic /\ ps_spawned (bw_proc s') ⊆+ (ps_settled (bw_proc s')).*1 /\ fs_files (bw_fs s') = ∅.
Proof.
  pose proof (boots_end_and_clean_up (boot_host demo_disk) demo_crates demo_digest demo_reserves (fun w => w)
    boot_request TimeoutProbe boot_world (fun _ => boot_machine_laws) demo_fat_laws demo_digest_bytes) as H.
  specialize (H demo_reads (accounted_nothing _)). destruct (observe_boot _ _ _ _ _ _ _) as [r s'].
  destruct H as (H1 & [H2 _] & H3). split; [exact H1|]. split; [exact H2|].
  destruct (H3 (fun _ => eq_refl) (fun _ _ _ => eq_refl)) as [H4 _]. exact H4.
Defined.
