(* ===== verification/GuestRun.v ===== *)
(** Running a given guest: what [execute_bounded_qemu] (crates/xtask/src/qemu.rs)
    reports when the emulator it started runs a guest with a given debug-console
    output and exit status, within a given time. *)

From S2P Require Import Prelude Bytes Console Text Protocol ProtocolProps HostScenario HostRun HostRunProps.
From S2P Require Import HostFs HostFsProps Repro XtaskCli HostExec HostExecProps.
Import Image.

(** ** The guest *)

(** Which worlds are after the guest's exit, how much of its output is in the
    debug log, which process runs it, and when that process has ended. *)
Record Guest (W : Type) := mkGuest {
  gu_exited : W -> Prop;
  gu_written : W -> nat;
  gu_pid : Z -> Prop;
  gu_due : Z -> Z
}.
Arguments gu_exited {W}.
Arguments gu_written {W}.
Arguments gu_pid {W}.
Arguments gu_due {W}.

(** An exit is final, and the log only grows. *)
Definition keeps {W} (g : Guest W) (w w' : W) : Prop :=
  (gu_exited g w -> gu_exited g w') /\ (gu_written g w <= gu_written g w')%nat.

(** The machine runs the guest when it is asked for [command]: the process is
    started, and ends within [deadline] of the reading of the clock before; its
    status is the guest's; the log is always a prefix of the output, and complete
    once the process has ended.  Nothing else this program does undoes that. *)
Class Emulates {W : Type} (machine : Machine W) (time : W -> Z) (command : Command) (output : list Z)
    (status : option Z) (deadline : Z) (g : Guest W) : Prop := {
  em_now w : keeps g w (m_now machine w).2;
  em_spawn pid w : keeps g w (m_spawn machine (ps_command pid) w).2;
  em_try_wait p w : keeps g w (m_try_wait machine p w).2;
  em_kill p w : keeps g w (m_kill machine p w).2;
  em_wait p w : keeps g w (m_wait machine p w).2;
  em_stdout p w : keeps g w (m_stdout machine p w).2;
  em_sleep d w : keeps g w (m_sleep machine d w);
  em_starts w now w' : m_now machine w = (now, w') ->
    exists pid w'', m_spawn machine command w' = (Some pid, w'') /\ gu_pid g pid /\
      gu_due g pid <= now + deadline;
  em_ends pid w : gu_pid g pid ->
    match m_try_wait machine pid w with
    | (Some (Some st), w') => st = status /\ gu_exited g w'
    | (Some None, _) => time w < gu_due g pid
    | (None, _) => False
    end;
  em_log w : m_debug_log machine w = Contents (take (gu_written g w) output) \/
             (gu_written g w = 0%nat /\ m_debug_log machine w = NotFound);
  em_complete w : gu_exited g w -> (length output <= gu_written g w)%nat
}.

(** ** Time goes on *)
Section Ticks.
Context {W : Type} (machine : Machine W) (time : W -> Z) (g : Guest W).
Abbreviation M := (io (PState W) ExecError).

Definition later (s s' : PState W) : Prop :=
  keeps g (ps_world s) (ps_world s') /\ time (ps_world s) <= time (ps_world s').

Lemma later_refl s : later s s.
Proof. by repeat split. Qed.
Lemma later_trans s1 s2 s3 : later s1 s2 -> later s2 s3 -> later s1 s3.
Proof. intros [[H1 H2] H3] [[H4 H5] H6]. split; [split; [auto|lia]|lia]. Qed.
#[global] Instance later_preorder : PreOrder later.
Proof. split; [exact later_refl|exact later_trans]. Qed.

(** [m] succeeds, and all it does to the guest is to let time pass. *)
Definition ticks {A} (m : M A) : Prop := forall s, exists a s', m s = (Ok a, s') /\ later s s'.

Lemma ticks_bind {A B} (m : M A) (k : A -> M B) : ticks m -> (forall a, ticks (k a)) -> ticks (m ≫= k).
Proof.
  intros Hm Hk s. destruct (Hm s) as (a & s1 & E1 & H1), (Hk a s1) as (b & s2 & E2 & H2).
  exists b, s2. unfold mbind, io_bind. rewrite E1. split; [done|by transitivity s1].
Qed.
Lemma ticks_ret {A} (a : A) : ticks (mret a).
Proof. intros s. by exists a, s. Qed.
Lemma ticks_call {A} (f : W -> A * W) :
  (forall w, keeps g w (f w).2) -> (forall w, time w <= time (f w).2) -> ticks (machine_call f).
Proof.
  intros Hf Ht s. unfold machine_call. specialize (Hf (ps_world s)). specialize (Ht (ps_world s)).
  destruct (f (ps_world s)) as [a w]. eexists _, _. split; [done|]. by split.
Qed.
Lemma ticks_settle pid reaped : ticks (settle pid reaped).
Proof. intros s. eexists _, _. split; [done|]. by repeat split. Qed.
End Ticks.

Create HintDb ticks.
#[export] Hint Resolve ticks_ret ticks_call ticks_settle : ticks.
Ltac tick :=
  repeat first [ progress intros
               | solve [eauto with ticks nocore]
               | apply ticks_bind
               | match goal with |- ticks _ _ (match ?x with _ => _ end) => destruct x end ].

Section Steps.
Context {W : Type} (machine : Machine W) (time : W -> Z) (command : Command) (output : list Z)
  (status : option Z) (deadline : Z) (g : Guest W).
Context `{!MachineLaws machine time, !Emulates machine time command output status deadline g}.
Abbreviation ticks := (ticks time g).

Lemma ticks_now : ticks (machine_call (m_now machine)).
Proof using All. apply ticks_call; [apply em_now|]. intros w. pose proof (now_exact w). lia. Qed.
Lemma ticks_call_kill pid : ticks (machine_call (m_kill machine pid)).
Proof using All. apply ticks_call; [apply em_kill|apply kill_time]. Qed.
Lemma ticks_call_wait pid : ticks (machine_call (m_wait machine pid)).
Proof using All. apply ticks_call; [apply em_wait|apply wait_time]. Qed.
Lemma ticks_call_try_wait pid : ticks (machine_call (m_try_wait machine pid)).
Proof using All. apply ticks_call; [apply em_try_wait|apply try_wait_time]. Qed.
Lemma ticks_call_stdout pid : ticks (machine_call (m_stdout machine pid)).
Proof using All. apply ticks_call; [apply em_stdout|apply stdout_time]. Qed.
Hint Resolve ticks_now ticks_call_kill ticks_call_wait ticks_call_try_wait ticks_call_stdout : ticks.

Lemma ticks_elapsed started : ticks (elapsed_since machine started).
Proof using All. unfold elapsed_since. tick. Qed.
Lemma ticks_spawn_ps pid : ticks (spawn machine (ps_command pid)).
Proof using All.
  intros s. unfold spawn. pose proof (em_spawn pid (ps_world s)) as Hk.
  pose proof (spawn_time (ps_command pid) (ps_world s)) as Ht.
  destruct (m_spawn machine (ps_command pid) (ps_world s)) as [[p|] w]; eexists _, _; (split; [done|]); by split.
Qed.
Lemma ticks_try_wait child : ticks (try_wait machine child).
Proof using All. unfold try_wait. tick. Qed.
Lemma ticks_terminate child : ticks (terminate machine child).
Proof using All. unfold terminate. tick. Qed.
Lemma ticks_drop_guard child : ticks (drop_guard machine child).
Proof using All. unfold drop_guard. tick. Qed.
Lemma ticks_sample child : ticks (take_sample machine child).
Proof using All. unfold take_sample. tick. Qed.
Hint Resolve ticks_elapsed ticks_spawn_ps ticks_try_wait ticks_terminate ticks_drop_guard ticks_sample : ticks.

Lemma ticks_poll_running process elapsed sampler : ticks (poll_running machine process elapsed sampler).
Proof using All. unfold poll_running. tick. Qed.
Hint Resolve ticks_poll_running : ticks.
Lemma ticks_poll pid elapsed sampler : ticks (poll machine pid elapsed sampler).
Proof using All. unfold poll. tick. Qed.
Lemma ticks_finish_sampler sampler : ticks (finish_sampler machine sampler).
Proof using All. unfold finish_sampler. tick. Qed.
Lemma ticks_sleep : ticks (machine_call (fun w => (tt, m_sleep machine POLL_INTERVAL w))).
Proof using All.
  apply ticks_call; [intros w; apply em_sleep|]. intros w. cbn [snd].
  pose proof (sleep_time POLL_INTERVAL w ltac:(done)) as H. unfold POLL_INTERVAL, MILLISECOND in *. lia.
Qed.

(** The clock is read between the two states. *)
Lemma elapsed_exact started s :
  started <= time (ps_world s) ->
  exists e s', elapsed_since machine started s = (Ok e, s') /\ later time g s s' /\
    started + e <= time (ps_world s').
Proof using All.
  intros Hs. destruct (ticks_elapsed started s) as (e & s' & E & Hl). exists e, s'. split; [done|].
  split; [done|]. revert E. unfold elapsed_since, mbind, io_bind, machine_call.
  pose proof (now_exact (ps_world s)) as Hn. destruct (m_now machine (ps_world s)) as [now w].
  intros [= <- <-]. cbn in *. lia.
Qed.

(** ** The observer *)

(** What the observer knows: it saw the marker, and then the output has it; or it
    has read a part of the log and the marker is not in it. *)
Definition sees (w : W) (o : ReadyMarkerObserver) : Prop :=
  match ro_observed_at o with
  | Some _ => has_line READY_MARKER output = true
  | None => exists c n, ro_cursors o = [c] /\ (n <= gu_written g w)%nat /\
              consistent READY_MARKER (take n output) c
  end.
(** It knows the whole output. *)
Definition sees_all (o : ReadyMarkerObserver) : Prop :=
  is_Some (ro_observed_at o) <-> has_line READY_MARKER output = true.

Lemma sees_new w : sees w (ReadyMarkerObserver_new 1).
Proof. exists LogCursor_new, 0%nat. split; [done|]. split; [lia|apply consistent_new]. Qed.
Lemma sees_later w w' o : keeps g w w' -> sees w o -> sees w' o.
Proof.
  intros [_ Hw]. unfold sees. destruct (ro_observed_at o); [done|]. intros (c & n & Hc & Hn & Hs).
  exists c, n. split; [done|]. split; [lia|done].
Qed.

Lemma has_line_take n : has_line READY_MARKER (take n output) = true -> has_line READY_MARKER output = true.
Proof. intros H. by rewrite <- (take_drop n output), has_line_app, H. Qed.
Lemma take_written n w :
  (n <= gu_written g w)%nat -> take (gu_written g w) output = take n output ++ take (gu_written g w - n) (drop n output).
Proof.
  intros Hn. rewrite take_drop_commute. replace (n + (gu_written g w - n))%nat with (gu_written g w) by lia.
  rewrite <- (take_drop n (take (gu_written g w) output)) at 1. by rewrite take_take, Nat.min_l.
Qed.

(** One look at the log. *)
Lemma observe_sees chunk elapsed w o :
  len output <= MAX_OBSERVED_LOG_BYTES -> sees w o ->
  exists o', observe chunk elapsed [m_debug_log machine w] o = Ok o' /\ sees w o' /\
    (gu_exited g w -> sees_all o').
Proof using All.
  intros Hlen Hs. unfold observe. destruct (ro_observed_at o) as [at_|] eqn:Hat.
  { exists o. rewrite bool_decide_eq_true_2 by done. split; [done|]. split; [done|]. intros _.
    unfold sees in Hs. rewrite Hat in Hs. unfold sees_all. rewrite Hat, Hs. done. }
  unfold sees in Hs. rewrite Hat in Hs. destruct Hs as (c & n & Hc & Hn & Hs).
  rewrite bool_decide_eq_false_2 by (by intros [? ?]). rewrite Hc. cbn [observe_cursors].
  destruct (em_log w) as [->|[Hz ->]].
  - rewrite (take_written n w Hn).
    destruct (contains_new_exact chunk READY_MARKER ltac:(vm_compute; congruence) (take n output)
      (take (gu_written g w - n) (drop n output)) c Hs) as (c' & E & Hc').
    { rewrite <- take_written, length_take by done. lia. }
    rewrite <- take_written in E, Hc' by done.
    rewrite <- take_written by done. rewrite E. destruct (has_line READY_MARKER (take _ _)) eqn:Hh; cbn [mbind exec_bind].
    + eexists. split; [done|]. apply has_line_take in Hh. split; [done|]. intros _. unfold sees_all. by rewrite Hh.
    + eexists. split; [done|]. split; [exists c', (gu_written g w); auto|]. intros Hx%em_complete.
      rewrite take_ge in Hh by done. unfold sees_all. cbn [ro_observed_at]. rewrite Hh.
      split; [by intros [? ?]|done].
  - cbn [contains_new mbind exec_bind]. eexists. split; [done|]. split; [exists c, n; auto|].
    intros Hx%em_complete. unfold sees_all. cbn [ro_observed_at].
    rewrite (nil_length_inv output) by lia. split; [by intros [? ?]|done].
Qed.

Lemma observe_log_sees chunk started o s :
  len output <= MAX_OBSERVED_LOG_BYTES -> sees (ps_world s) o ->
  exists o' s', observe_log machine chunk started o s = (Ok (Ok o'), s') /\ later time g s s' /\
    sees (ps_world s') o' /\ (gu_exited g (ps_world s) -> sees_all o').
Proof using All.
  intros Hlen Hs. destruct (ticks_elapsed started s) as (e & s' & E & Hl).
  destruct (observe_sees chunk e (ps_world s) o Hlen Hs) as (o' & Ho & Hs' & Ha).
  exists o', s'. unfold observe_log, mbind at 1, io_bind at 1. cbn [machine_view].
  unfold mbind at 1, io_bind at 1. rewrite E, Ho. split; [done|]. split; [done|]. split; [|done].
  eapply sees_later; [apply Hl|done].
Qed.

(** ** The loop *)
Lemma try_wait_guest child s :
  gu_pid g (cg_pid child) ->
  exists r s', try_wait machine child s = (Ok r, s') /\ later time g s s' /\
    match r with
    | Some (Some st) => st = status /\ gu_exited g (ps_world s')
    | Some None => time (ps_world s) < gu_due g (cg_pid child)
    | None => False
    end.
Proof using All.
  intros Hp. destruct (ticks_try_wait child s) as (r & s' & E & Hl). exists r, s'. split; [done|].
  split; [done|]. revert E. unfold try_wait, mbind, io_bind, machine_call.
  pose proof (em_ends (cg_pid child) (ps_world s) Hp) as He.
  by destruct (m_try_wait machine (cg_pid child) (ps_world s)) as [[[st|]|] w]; [|intros [= <- <-]..]; [intros [= <- <-]| |].
Qed.

Lemma bind_Ok_step {A B} (m : io (PState W) ExecError A) (k : A -> io (PState W) ExecError B) s a s1 :
  m s = (Ok a, s1) -> (m ≫= k) s = k a s1.
Proof. unfold mbind, io_bind. by intros ->. Qed.

(** What the loop leaves: the guest has exited and the observer is up to date. *)
Definition guest_done (s : PState W) (l : Locals) (s' : PState W) : Prop :=
  later time g s s' /\ sees (ps_world s') (lo_observer l) /\ gu_exited g (ps_world s').

Lemma sleep_later s :
  exists s', machine_call (fun w => (tt, m_sleep machine POLL_INTERVAL w)) s = (Ok tt, s') /\
    later time g s s' /\ time (ps_world s) + POLL_INTERVAL <= time (ps_world s').
Proof using All.
  destruct (ticks_sleep s) as ([] & s' & E & Hl). exists s'. split; [done|]. split; [done|].
  injection E as <-. by apply sleep_time.
Qed.

(** One iteration: the guest has ended, or it was running and the loop goes on. *)
Lemma wait_iteration chunk started timeout fuel l s :
  len output <= MAX_OBSERVED_LOG_BYTES -> gu_pid g (cg_pid (lo_child l)) -> sees (ps_world s) (lo_observer l) ->
  started <= time (ps_world s) -> gu_due g (cg_pid (lo_child l)) <= started + timeout ->
  (exists l' s', wait_loop machine chunk (S fuel) started timeout l s = (Ok (status, false, l'), s') /\
     guest_done s l' s') \/
  (time (ps_world s) < gu_due g (cg_pid (lo_child l)) /\
   exists o sm s', wait_loop machine chunk (S fuel) started timeout l s =
       wait_loop machine chunk fuel started timeout (mkLocals (lo_child l) o sm) s' /\
     later time g s s' /\ sees (ps_world s') o /\ time (ps_world s) + POLL_INTERVAL <= time (ps_world s')).
Proof using All.
  intros Hlen Hpid Hsees Hst Hdue. cbn [wait_loop].
  destruct (elapsed_exact started s Hst) as (e & s1 & E1 & L1 & He). rewrite (bind_Ok_step _ _ _ _ _ E1).
  destruct (observe_log_sees chunk started (lo_observer l) s1 Hlen (sees_later _ _ _ (proj1 L1) Hsees))
    as (o & s2 & E2 & L2 & Ho & _). rewrite (bind_Ok_step _ _ _ _ _ E2). cbn [lo_child lo_sampler].
  destruct (try_wait_guest (lo_child l) s2 Hpid) as (r & s3 & E3 & L3 & Hr).
  rewrite (bind_Ok_step _ _ _ _ _ E3). assert (later time g s s3) as L by (transitivity s1; [done|by transitivity s2]).
  pose proof (sees_later _ _ _ (proj1 L3) Ho) as Ho3. destruct r as [[st|]|]; [| |done].
  - left. destruct Hr as [-> Hx]. eexists _, s3. split; [done|]. done.
  - right. pose proof (proj2 L1) as T1. pose proof (proj2 L2) as T2. split; [lia|].
    rewrite (proj2 (Z.leb_gt _ _)) by lia.
    destruct (ticks_poll (cg_pid (lo_child l)) e (lo_sampler l) s3) as (sm & s4 & E4 & L4).
    rewrite (bind_Ok_step _ _ _ _ _ E4). destruct (sleep_later s4) as (s5 & E5 & L5 & Hsl).
    rewrite (bind_Ok_step _ _ _ _ _ E5). exists o, sm, s5. split; [done|].
    split; [transitivity s3; [done|by transitivity s4]|].
    split; [eapply sees_later; [apply L5|]; by eapply sees_later; [apply L4|]|].
    pose proof (proj2 L) as T3. pose proof (proj2 L4) as T4. lia.
Qed.

Lemma wait_loop_ends chunk started timeout fuel : forall l s,
  len output <= MAX_OBSERVED_LOG_BYTES -> gu_pid g (cg_pid (lo_child l)) -> sees (ps_world s) (lo_observer l) ->
  started <= time (ps_world s) -> gu_due g (cg_pid (lo_child l)) <= started + timeout ->
  gu_due g (cg_pid (lo_child l)) <= time (ps_world s) + Z.of_nat fuel * POLL_INTERVAL ->
  exists l' s', wait_loop machine chunk (S fuel) started timeout l s = (Ok (status, false, l'), s') /\
    guest_done s l' s'.
Proof using All.
  induction fuel as [|fuel IH]; intros l s Hlen Hpid Hsees Hst Hdue Hf;
    (edestruct (wait_iteration chunk started timeout) as [Hd|(Hr & o & sm & s1 & E1 & L & Ho & Ht)];
      [exact Hlen|exact Hpid|exact Hsees|exact Hst|exact Hdue|exact Hd|]); [lia|]. rewrite E1.
  destruct (IH (mkLocals (lo_child l) o sm) s1) as (l' & s' & E & L' & Hd);
    cbn [lo_child lo_observer]; [done..|pose proof (proj2 L); lia|done|unfold POLL_INTERVAL, MILLISECOND in *; lia|].
  exists l', s'. split; [done|]. split; [by transitivity s1|done].
Qed.

(** ** The execution *)

(** The report of a run that was not cut short: the guest's status, and a time
    for the ready marker exactly when the guest wrote it. *)
Definition reports_guest (e : QemuExecution) : Prop :=
  qe_exit_status e = status /\ qe_timed_out e = false /\
  (is_Some (qe_time_to_ready_marker_ms e) <-> has_line READY_MARKER output = true).

Lemma execution_reports chunk timeout s :
  len output <= MAX_OBSERVED_LOG_BYTES -> 0 <= timeout -> deadline <= timeout ->
  exists e s', execute_bounded_qemu machine chunk command timeout s = (Ok e, s') /\
    reports_guest e /\ gu_exited g (ps_world s').
Proof using All.
  intros Hlen Hto Hdl. unfold execute_bounded_qemu.
  pose proof (now_exact (ps_world s)) as Hn. destruct (m_now machine (ps_world s)) as [now w1] eqn:Enow.
  cbn [fst snd] in Hn. destruct (em_starts _ _ _ Enow) as (pid & w2 & Esp & Hpid & Hdue).
  pose proof (spawn_time command w1) as Ht2. rewrite Esp in Ht2. cbn [snd] in Ht2.
  set (s1 := mkPState w1 (ps_spawned s) (ps_settled s)).
  rewrite (bind_Ok_step _ _ s now s1) by (unfold machine_call; by rewrite Enow).
  set (s2 := mkPState w2 (pid :: ps_spawned s) (ps_settled s)).
  rewrite (bind_Ok_step _ _ s1 (Some (mkChildGuard pid true)) s2) by (unfold spawn; cbn [ps_world s1]; by rewrite Esp).
  assert (loop_fuel timeout = S (Z.to_nat (timeout / POLL_INTERVAL + 1))) as ->.
  { unfold loop_fuel. pose proof (Z.div_pos timeout POLL_INTERVAL Hto eq_refl). lia. }
  destruct (wait_loop_ends chunk now timeout (Z.to_nat (timeout / POLL_INTERVAL + 1))
    (mkLocals (mkChildGuard pid true) (ReadyMarkerObserver_new 1) RssSampler_new) s2) as (l & s3 & E3 & L3 & Ho3 & Hx3);
    cbn [lo_child lo_observer cg_pid]; [done..|apply sees_new|cbn; lia|lia| |].
  { pose proof (Z.mul_succ_div_gt timeout POLL_INTERVAL eq_refl). pose proof (Z.div_pos timeout POLL_INTERVAL Hto eq_refl).
    change (ps_world s2) with w2. rewrite Z2Nat.id by lia. unfold POLL_INTERVAL, MILLISECOND in *. lia. }
  rewrite (bind_Ok_step _ _ _ _ _ E3).
  destruct (observe_log_sees chunk now (lo_observer l) s3 Hlen Ho3) as (o & s4 & E4 & L4 & _ & Ha).
  rewrite (bind_Ok_step _ _ _ _ _ E4).
  destruct (ticks_elapsed now s4) as (e5 & s5 & E5 & L5). rewrite (bind_Ok_step _ _ _ _ _ E5).
  destruct (ticks_poll (cg_pid (lo_child l)) e5 (lo_sampler l) s5) as (sm & s6 & E6 & L6). rewrite (bind_Ok_step _ _ _ _ _ E6).
  destruct (ticks_finish_sampler sm s6) as (peak & s7 & E7 & L7). rewrite (bind_Ok_step _ _ _ _ _ E7).
  destruct (ticks_elapsed now s7) as (d & s8 & E8 & L8). rewrite (bind_Ok_step _ _ _ _ _ E8).
  destruct (ticks_drop_guard (lo_child l) s8) as (u & s9 & E9 & L9). rewrite (bind_Ok_step _ _ _ _ _ E9).
  eexists _, s9. split; [done|]. split.
  - split; [done|]. split; [done|]. cbn [qe_time_to_ready_marker_ms]. rewrite fmap_is_Some. by apply Ha.
  - by apply L9, L8, L7, L6, L5, L4.
Qed.
End Steps.
