(* ===== verification/VolumeBoot.v ===== *)
(** From a validated disk to a booted kernel: the loader (crates/uefi-loader) on
    a firmware that serves the files of an image the host has validated
    (crates/xtask/src/image.rs). *)

From S2P Require Import Prelude Bytes Console Memory Scenario Kernel Loader LoaderContract LoaderProps.
From S2P Require Import Artifact RawImage RawImageProps DiskImage DiskImageProps HostScenario Protocol ProtocolProps Pipeline.
From S2P Require BootElf ElfSpec ElfProps.

(** ** Serving files

    The firmware finds the volume, opens both files as regular files, serves their
    contents in pieces of any size, and grants the loader's buffers. *)
Class ServesVolume {F H : Type} (fw : Firmware F H) (files : FilePath -> list Z)
    (file_at : H -> F -> list Z -> Prop) : Prop := {
  sv_file_system : forall f, (get_image_file_system fw f).1 = true;
  sv_volume : forall f, (open_volume fw f).1 = true;
  sv_open : forall path f, exists h f', open fw path f = (Some h, f') /\ file_at h f' (files path);
  sv_regular : forall h f rest, file_at h f rest ->
    exists f', into_regular_file fw h f = (true, f') /\ file_at h f' rest;
  sv_read :: forall h, ServesFile fw h (file_at h)
}.

Section Volume.
Context {F H : Type} (fw : Firmware F H) (files : FilePath -> list Z) (file_at : H -> F -> list Z -> Prop).
Context `{!FirmwareLaws fw, !ServesVolume fw files file_at}.

Lemma st_bind_step {S E A B} (m : st S E A) (k : A -> st S E B) s a s1 :
  m s = Ok (a, s1) -> (m ≫= k) s = k a s1.
Proof. unfold mbind, st_bind. by intros ->. Qed.

Lemma with_fw_step {A E} (call : F -> A * F) f mem a f' :
  call f = (a, f') -> with_fw (E:=E) call (mkWorld f mem) = Ok (a, mkWorld f' mem).
Proof. unfold with_fw. cbn [w_fw w_mem]. by intros ->. Qed.

(** A file within the caller's limit is read completely. *)
Lemma read_bounded_file_exact path maximum limit_error w :
  0 <= maximum < 2 ^ 25 - 1 -> len (files path) <= maximum ->
  exists w', read_bounded_file fw path maximum limit_error w = Ok (files path, w').
Proof using All.
  intros Hmax Hlen. destruct w as [f mem]. unfold read_bounded_file.
  destruct (sv_open path f) as (h & f1 & E1 & H1). rewrite (st_bind_step _ _ _ _ _ (with_fw_step _ _ _ _ _ E1)).
  rewrite (st_bind_step (require_some (Some h) _) _ _ h _ eq_refl).
  destruct (sv_regular h f1 _ H1) as (f2 & E2 & H2). rewrite (st_bind_step _ _ _ _ _ (with_fw_step _ _ _ _ _ E2)).
  rewrite (st_bind_step (require true _) _ _ tt _ eq_refl).
  set (n := Z.max 1 (Z.min FILE_READ_CHUNK_BYTES maximum)).
  destruct (reserve_serves fw h f2 _ n H2) as (f3 & E3 & H3). rewrite (st_bind_step _ _ _ _ _ (with_fw_step _ _ _ _ _ E3)).
  rewrite (st_bind_step (require true _) _ _ tt _ eq_refl).
  pose proof (read_loop_content fw h maximum limit_error n (file_at h) (files path) (mkWorld f3 mem)
    Hmax ltac:(lia) ltac:(lia) H3) as Hr.
  destruct (read_loop _ _ _ _ _ _) as [[bytes w']|e|]; [|lia|done]. destruct Hr as [-> _]. by exists w'.
Qed.

(** The kernel the loader reads is the volume's. *)
Lemma reads_volume_kernel file :
  len (files KERNEL_ELF) <= BootElf.MAX_ELF_FILE_SIZE -> reads_kernel fw file -> file = files KERNEL_ELF.
Proof using All.
  intros Hl (w & w' & Hr).
  destruct (read_bounded_file_exact KERNEL_ELF BootElf.MAX_ELF_FILE_SIZE ElfInvalid w
    ltac:(unfold BootElf.MAX_ELF_FILE_SIZE; lia) Hl) as (w'' & Hr'). rewrite Hr in Hr'. by injection Hr'.
Qed.

(** On a good volume only memory can be missing. *)
Lemma prepare_kernel_exact s w :
  len (files KERNEL_ELF) <= BootElf.MAX_ELF_FILE_SIZE -> len (files BOOT_CFG) <= MAX_SCENARIO_BYTES ->
  Scenario.parse (files BOOT_CFG) = Ok s -> slice_ok (files KERNEL_ELF) -> ElfSpec.elf_ok (files KERNEL_ELF) ->
  match prepare_kernel fw w with
  | Ok ((entry, _, s'), _) =>
      entry = BootElf.ve_entry_point (ElfSpec.validated (files KERNEL_ELF)) /\ s' = s
  | Err e => refused e
  | Panic => False
  end.
Proof using All.
  intros Hk Hc Hs Hb Hok. destruct w as [f mem]. unfold prepare_kernel.
  pose proof (sv_file_system f) as E1. destruct (get_image_file_system fw f) as [b f1] eqn:G1. cbn in E1. subst b.
  rewrite (st_bind_step _ _ _ _ _ (with_fw_step _ _ _ _ _ G1)), (st_bind_step (require true _) _ _ tt _ eq_refl).
  pose proof (sv_volume f1) as E2. destruct (open_volume fw f1) as [b f2] eqn:G2. cbn in E2. subst b.
  rewrite (st_bind_step _ _ _ _ _ (with_fw_step _ _ _ _ _ G2)), (st_bind_step (require true _) _ _ tt _ eq_refl).
  destruct (read_bounded_file_exact KERNEL_ELF BootElf.MAX_ELF_FILE_SIZE ElfInvalid (mkWorld f2 mem)
    ltac:(unfold BootElf.MAX_ELF_FILE_SIZE; lia) Hk) as (w3 & E3). rewrite (st_bind_step _ _ _ _ _ E3).
  destruct (read_bounded_file_exact BOOT_CFG MAX_SCENARIO_BYTES ConfigInvalid w3
    ltac:(unfold MAX_SCENARIO_BYTES; lia) Hc) as (w4 & E4). rewrite (st_bind_step _ _ _ _ _ E4).
  rewrite Hs, (st_bind_step (lift (map_err _ (Ok s))) _ w4 s w4 eq_refl).
  rewrite (proj2 (ElfProps.elf_parse_Ok_iff _ _ Hb) (conj Hok eq_refl)).
  rewrite (st_bind_step (lift (map_err _ (Ok _))) _ w4 _ w4 eq_refl). cbv zeta.
  pose proof (place_kernel_safe fw (files KERNEL_ELF) s Hb Hok w4) as Hp.
  match type of Hp with match ?m with _ => _ end => destruct m as [[[[entry storage] s'] w5]|e|] end; [|done..].
  by destruct Hp as (_ & _ & He & Hs').
Qed.
End Volume.

(** ** The files of an image *)

(** The contents of the files the loader opens, as the host reads them from the
    image's system partition. *)
Definition esp_file {U G V D F : Type} (crates : DiskCrates U G V D F) (reserves : Z -> bool) (image : list Z)
    (path : FilePath) : option (list Z) :=
  v ← fat_mount crates get_current_date get_current_date_time (esp_bytes image);
  let '(name, limit) := match path with
                        | KERNEL_ELF => (KERNEL_IMAGE_PATH, BootElf.MAX_ELF_FILE_SIZE)
                        | BOOT_CFG => (SCENARIO_IMAGE_PATH, MAX_SCENARIO_FILE_BYTES)
                        end in
  match read_fat_file crates reserves v (root_dir crates v) name limit with
  | Ok bytes => Some bytes
  | _ => None
  end.

Section Image.
Context {U G V D I : Type} `{EqDecision U} (crates : DiskCrates U G V D I) `{!FatLaws crates}.
Variables (digest : list Z -> list Z) (reserves : Z -> bool).

(** The files of a validated image are the ones its manifest describes. *)
Lemma validated_files image manifest files :
  slice_ok image -> validate_image_bytes crates digest reserves image = Ok manifest ->
  (forall path, esp_file crates reserves image path = Some (files path)) ->
  slice_ok (files KERNEL_ELF) /\ len (files KERNEL_ELF) <= BootElf.MAX_ELF_FILE_SIZE /\
  ElfSpec.elf_ok (files KERNEL_ELF) /\
  hex_encode (E:=ImageError) (digest (files KERNEL_ELF)) = Ok (im_kernel_sha256 manifest) /\
  files BOOT_CFG = Image.as_str (im_scenario manifest) ++ [LF].
Proof using All.
  intros Hs Hv Hf. apply (validate_image_iff crates digest reserves image manifest Hs) in Hv.
  destruct Hv as [_ _ _ (dg & eg & v & loader & kernel & h & hl & hk & _ & _ & _ & Hm & Hvo & _ & _ & Hhk & Hman)].
  destruct Hvo as [_ _ _ _ _ _ _ _ Hk [elf Helf] Hc].
  pose proof (Hf KERNEL_ELF) as Fk. pose proof (Hf BOOT_CFG) as Fc. unfold esp_file in Fk, Fc.
  rewrite Hm in Fk, Fc. cbn [mbind option_bind] in Fk, Fc. rewrite Hk in Fk. rewrite Hc in Fc.
  injection Fk as <-. injection Fc as <-.
  pose proof (read_fat_file_safe crates reserves v BootElf.MAX_ELF_FILE_SIZE ltac:(by_decide)
    (root_dir crates v) KERNEL_IMAGE_PATH) as Hsafe. rewrite Hk in Hsafe. destruct Hsafe as [Hb Hl].
  assert (slice_ok kernel) as Hsk by (split; [done|unfold BootElf.MAX_ELF_FILE_SIZE in Hl; lia]).
  apply ElfProps.elf_parse_Ok_iff in Helf as [Hok _]; [|done].
  split_and!; [done..|rewrite Hhk; by rewrite Hman|done].
Qed.
End Image.

(** ** The boot of an image *)
Section Boot.
Context {U G V D I F H : Type} `{EqDecision U} (crates : DiskCrates U G V D I) `{!FatLaws crates}.
Variables (digest : list Z -> list Z) (reserves : Z -> bool) (image : list Z) (manifest : ImageManifest).
Hypothesis Himage : slice_ok image.
Hypothesis Hvalid : validate_image_bytes crates digest reserves image = Ok manifest.
Context (fw : Firmware F H) (files : FilePath -> list Z) (file_at : H -> F -> list Z -> Prop).
Hypothesis Hfiles : forall path, esp_file crates reserves image path = Some (files path).
Context `{!FirmwareLaws fw, !ServesVolume fw files file_at} (w : World (F:=F)).

Lemma image_prepares :
  match prepare_kernel fw w with
  | Ok ((entry, _, s), _) =>
      entry = BootElf.ve_entry_point (ElfSpec.validated (files KERNEL_ELF)) /\
      s = loader_scenario (im_scenario manifest)
  | Err e => refused e
  | Panic => False
  end.
Proof using All.
  destruct (validated_files crates digest reserves image manifest files Himage Hvalid Hfiles)
    as (Hsk & Hl & Hok & Hd & Hc).
  apply (prepare_kernel_exact fw files file_at (loader_scenario (im_scenario manifest)) w Hl);
    [rewrite Hc; by destruct (im_scenario manifest)..|done|done].
Qed.

Context (lsr : nat -> Z) (execute : Processor) (ld : Layout) `{!RunsKernel execute lsr (files KERNEL_ELF) ld}.
Hypothesis Hapart : grants_apart fw (files KERNEL_ELF).

Lemma image_transfers entry contract n mem m :
  main fw lsr w power_on = Transfer entry contract n mem m ->
  entry = BootElf.ve_entry_point (ElfSpec.validated (files KERNEL_ELF)) /\
  debugcon (boot fw lsr execute w) = guest_log (loader_scenario (im_scenario manifest)) /\
  exits (boot fw lsr execute w) = [QemuExitCode_value (scenario_verdict (loader_scenario (im_scenario manifest))).2].
Proof using All.
  intros E. destruct (boot_transfers fw lsr w execute (files KERNEL_ELF) ld Hapart _ _ _ _ _ E)
    as (file & storage & s & w1 & Hr & _ & Hpk & Hl).
  destruct (validated_files crates digest reserves image manifest files Himage Hvalid Hfiles) as (_ & Hlen & _).
  destruct (Hl (reads_volume_kernel fw files file_at file Hlen Hr)) as [Hdc Hx].
  pose proof image_prepares as Hp. rewrite Hpk in Hp. destruct Hp as [-> ->]. exact (conj eq_refl (conj Hdc Hx)).
Qed.
End Boot.

(** ** Properties *)

(** C2. An image the host accepts is an image the loader boots.  Let the host
    validate an image, let the firmware serve the two files the host read from it,
    in pieces of any size, and let the kernel file be a build of this kernel for
    the processor.  Then the loader never fails on the files.  It gives up only if
    memory is refused (the kernel's fixed addresses, the guard page, the contract's
    pages) or if the final memory map does not fit the contract, and says which; the
    machine is reset only if the transition out of boot services failed, after the
    start and ELF records and with no exit value; in every other case it enters the
    kernel whose digest the manifest records at its entry point, and the boot writes
    exactly the log of the scenario the manifest names and exits once, with that
    scenario's code. *)
Theorem validated_image_boots {U G V D I F H : Type} `{EqDecision U} (crates : DiskCrates U G V D I)
    (digest : list Z -> list Z) (reserves : Z -> bool) (image : list Z) (manifest : ImageManifest)
    (fw : Firmware F H) (files : FilePath -> list Z) (file_at : H -> F -> list Z -> Prop)
    (lsr : nat -> Z) (execute : Processor) (ld : Layout) (w : World) :
  FatLaws crates -> slice_ok image -> validate_image_bytes crates digest reserves image = Ok manifest ->
  (forall path, esp_file crates reserves image path = Some (files path)) ->
  FirmwareLaws fw -> ServesVolume fw files file_at ->
  RunsKernel execute lsr (files KERNEL_ELF) ld -> grants_apart fw (files KERNEL_ELF) ->
  match main fw lsr w power_on with
  | LoaderExit m =>
      (exists e, refused e /\ debugcon m = lines [LOADER_START; marker e]) \/
      debugcon m = lines [LOADER_START; ELF_VALID; CONTRACT_FAILURE] /\
      exists r w1 l, prepare_kernel fw w = Ok (r, w1) /\ exit_boot_services fw (w_fw w1) = Some l /\
        ~ map_ok (sort fw l)
  | ColdReset m =>
      debugcon m = lines [LOADER_START; ELF_VALID] /\ exits m = [] /\
      exists r w1, prepare_kernel fw w = Ok (r, w1) /\ exit_boot_services fw (w_fw w1) = None
  | Transfer entry _ _ _ _ =>
      let s := loader_scenario (im_scenario manifest) in
      hex_encode (E:=ImageError) (digest (files KERNEL_ELF)) = Ok (im_kernel_sha256 manifest) /\
      (exists elf, BootElf.parse (files KERNEL_ELF) = Ok elf /\ entry = BootElf.ve_entry_point elf) /\
      debugcon (boot fw lsr execute w) = guest_log s /\
      exits (boot fw lsr execute w) = [QemuExitCode_value (scenario_verdict s).2]
  end.
Proof.
  intros Hfat Hs Hv Hf Hfw Hsv Hrk Hap. pose proof (main_ends fw lsr w power_on) as Hm.
  destruct (main fw lsr w power_on) as [m|m|entry contract n mem m] eqn:E.
  - pose proof (image_prepares crates digest reserves image manifest Hs Hv fw files file_at Hf w) as Hp.
    destruct Hm as [(e & _ & He & Hlog & _)|[[Hlog _] Hmap]]; change (debugcon power_on) with (@nil Z) in Hlog;
      rewrite app_nil_l in Hlog; [left; exists e; rewrite He in Hp; exact (conj Hp Hlog)|right; exact (conj Hlog Hmap)].
  - exact Hm.
  - destruct (validated_files crates digest reserves image manifest files Hs Hv Hf) as (Hsk & _ & Hok & Hd & _).
    destruct (image_transfers crates digest reserves image manifest Hs Hv fw files file_at Hf w lsr execute ld Hap
      _ _ _ _ _ E) as (-> & Hdc & Hx).
    split; [exact Hd|]. split; [|exact (conj Hdc Hx)].
    exists (ElfSpec.validated (files KERNEL_ELF)). split; [|reflexivity].
    exact (proj2 (ElfProps.elf_parse_Ok_iff _ _ Hsk) (conj Hok eq_refl)).
Qed.
