(* ===== verification/Inspect.v ===== *)
(** The kernel inspector of the host tools: crates/xtask/src/inspect.rs.

    It accepts a linked kernel only when its ELF load segments and the linker's
    map agree on the fixed layout: text, read-only data, data with its [.bss],
    the unmapped guard page and the bootstrap stack.  The messages of the
    failed checks are the constructors of [InspectError]. *)

From stdpp Require Import gmap.
From S2P Require Import Prelude Bytes BootElf Console Text Artifact.

Definition MAX_MAP_FILE_SIZE : Z := 4 * 1024 * 1024.
Definition EXPECTED_SEGMENTS : Z := 4.

Inductive InspectError :=
| InputMissing | InputNotRegular | InputTooLarge (found maximum : Z) | InputUnreadable
| KernelTooLarge (size : Z) | MapTooLarge (size : Z) | MapContainsNul | MapNotUtf8
| KernelRejected (error : ParseError)
| ForbiddenSection (name : list Z)
| ConstantWithoutValue (line : Z) (name : list Z)
| EmptyHexadecimal (line : Z) | InvalidHexadecimal (value : list Z) (line : Z)
| DuplicateRecord (description : string) (name : list Z)
| MissingSection (name : list Z) | MissingConstant (name : list Z) | MissingSymbol (name : list Z)
| WrongConstant (name : list Z) (actual expected : Z)
| WrongSymbol (name : list Z) (actual expected : Z)
| MissingLoadEndExpression
| SegmentCount (found : Z) | WrongEntryPoint (entry_point : Z)
| SectionEndOverflow (name : list Z) | SectionOutOfOrder (name : list Z)
| TextBase | RodataEmptyOrMisaligned | DataEmptyOrMisaligned | BssEmptyOrMisaligned
| TextOverlapsRodata | RodataOverlapsData | DataOverlapsBss
| GuardSectionWrong | StackSectionWrong | LoadOverlapsGuard
| BadAlignment | AlignmentOverflow
| SegmentFlagsDiffer (name : list Z) (found expected : Z) | SegmentAddressDiffers (name : list Z)
| SegmentNotIdentity (name : list Z) | InitializedSizeDiffers (name : list Z)
| UnexpectedZeroFill (name : list Z) | SegmentNotPageAligned (name : list Z)
| BssNotReserved | DataMemoryEndDiffers | DataFileEndDiffers
| StackFlagsWrong | StackAddressWrong | StackConsumesFile | StackSizeWrong
| StackNotPageAligned | StackEndWrong | GuardPageMapped
| SizeDoesNotFit.

(** ** Evidence *)
Record SegmentInspection := mkSegmentInspection {
  si_index : Z;
  si_flags : Z;
  si_file_offset : Z;
  si_virtual_address : Z;
  si_physical_address : Z;
  si_file_size : Z;
  si_memory_size : Z;
  si_zero_fill_size : Z;
  si_alignment : Z
}.

Record SectionInspection := mkSectionInspection {
  sec_name : list Z;
  sec_address : Z;
  sec_size : Z
}.

Record KernelInspection := mkKernelInspection {
  ki_schema_version : Z;
  ki_kernel_sha256 : list Z;
  ki_map_sha256 : list Z;
  ki_kernel_bytes : Z;
  ki_map_bytes : Z;
  ki_entry_point : Z;
  ki_kernel_base : Z;
  ki_kernel_load_end : Z;
  ki_stack_guard_base : Z;
  ki_stack_guard_bytes : Z;
  ki_stack_base : Z;
  ki_stack_top : Z;
  ki_bss_start : Z;
  ki_bss_end : Z;
  ki_data_zero_fill_bytes : Z;
  ki_write_xor_execute : bool;
  ki_segments : list SegmentInspection;
  ki_sections : list SectionInspection
}.

Record MapSection := mkMapSection {
  ms_name : list Z;
  ms_address : Z;
  ms_size : Z;
  ms_line : Z
}.

(** [MapSection::end] *)
Definition section_end (s : MapSection) : exec InspectError Z :=
  ok_or (checked_add 64 (ms_address s) (ms_size s)) (SectionEndOverflow (ms_name s)).
(** [MapSection::report] *)
Definition report (s : MapSection) : SectionInspection :=
  {| sec_name := ms_name s; sec_address := ms_address s; sec_size := ms_size s |}.

Record MapLayout := mkMapLayout {
  ml_sections : gmap (list Z) MapSection;
  ml_constants : gmap (list Z) Z;
  ml_symbols : gmap (list Z) Z;
  ml_saw_load_end_expression : bool
}.

(** ** The linker map *)
Definition TEXT : list Z := ascii_bytes ".text".
Definition RODATA : list Z := ascii_bytes ".rodata".
Definition DATA : list Z := ascii_bytes ".data".
Definition BSS : list Z := ascii_bytes ".bss".
Definition STACK_GUARD : list Z := ascii_bytes ".stack_guard".
Definition STACK : list Z := ascii_bytes ".stack".

Definition section_names : list (list Z) := [TEXT; RODATA; DATA; BSS; STACK_GUARD; STACK].
Definition constant_names : list (list Z) := ascii_bytes <$>
  ["KERNEL_BASE"; "KERNEL_LOAD_LIMIT"; "KERNEL_STACK_GUARD_BASE"; "KERNEL_STACK_BASE";
   "KERNEL_STACK_SIZE"; "PAGE_SIZE"]%string.
Definition symbol_names : list (list Z) := ascii_bytes <$>
  ["__kernel_start"; "__text_start"; "__text_end"; "__rodata_start"; "__rodata_end";
   "__data_start"; "__data_end"; "__bss_start"; "__bss_end"; "__bootstrap_stack_guard_start";
   "__bootstrap_stack_guard_end"; "__bootstrap_stack_bottom"; "__bootstrap_stack_top";
   "__kernel_end"; "polytope_kernel_entry"]%string.
Definition forbidden_names : list (list Z) := ascii_bytes <$>
  [".interp"; ".dynamic"; ".dynsym"; ".dynstr"; ".rela.dyn"; ".rel.dyn"; ".plt"; ".got.plt"]%string.

Definition parse_hex (value : list Z) (line : Z) : exec InspectError Z :=
  let prefix := ascii_bytes "0x" in
  let digits := if bool_decide (take 2 value = prefix) then drop 2 value else value in
  fail_if (bool_decide (digits = [])) (EmptyHexadecimal line) ;;
  ok_or (u64_from_str_radix16 digits) (InvalidHexadecimal value line).

(** [values.insert(name, value).is_none()] *)
Definition insert_unique {T} (values : gmap (list Z) T) (name : list Z) (value : T)
    (description : string) : exec InspectError (gmap (list Z) T) :=
  match values !! name with
  | None => Ok (<[name := value]> values)
  | Some _ => Err (DuplicateRecord description name)
  end.

(** [fields.windows(n).any(|window| window == pattern)] for a pattern of [n]
    fields. *)
Fixpoint has_window (pattern fields : list (list Z)) : bool :=
  bool_decide (take (length pattern) fields = pattern)
  || match fields with [] => false | _ :: t => has_window pattern t end.

Definition is_kernel_load_end_expression (fields : list (list Z)) : bool :=
  has_window (ascii_bytes <$> ["__kernel_load_end"; "="; "ALIGN(PAGE_SIZE)"]%string) fields
  || has_window (ascii_bytes <$> ["__kernel_load_end"; "="; "ALIGN"; "("; "PAGE_SIZE"; ")"]%string)
       fields.

Definition set_sections (m : MapLayout) v := mkMapLayout v (ml_constants m) (ml_symbols m)
  (ml_saw_load_end_expression m).
Definition set_constants (m : MapLayout) v := mkMapLayout (ml_sections m) v (ml_symbols m)
  (ml_saw_load_end_expression m).
Definition set_symbols (m : MapLayout) v := mkMapLayout (ml_sections m) (ml_constants m) v
  (ml_saw_load_end_expression m).

(** The branches on the name of a record of the map, [fields[4]]; [f0] and [f2]
    are [fields[0]] and [fields[2]], [rest] the fields from the sixth on. *)
Definition parse_record (line : Z) (f0 f2 name : list Z) (rest : list (list Z)) (m : MapLayout)
    : exec InspectError MapLayout :=
  if bool_decide (name ∈ section_names) then
    address ← parse_hex f0 line;
    size ← parse_hex f2 line;
    set_sections m <$> insert_unique (ml_sections m) name
      {| ms_name := name; ms_address := address; ms_size := size; ms_line := line |} "section"
  else if bool_decide (name ∈ constant_names) && bool_decide (rest !! 0%nat = Some (ascii_bytes "="))
  then
    value ← ok_or (rest !! 1%nat) (ConstantWithoutValue line name);
    value ← parse_hex value line;
    set_constants m <$> insert_unique (ml_constants m) name value "constant"
  else if bool_decide (name ∈ symbol_names) then
    value ← parse_hex f0 line;
    set_symbols m <$> insert_unique (ml_symbols m) name value "symbol"
  else Ok m.

(** One iteration of the loop over the lines; [line] is [line_index + 1]. *)
Definition parse_line (line : Z) (fields : list (list Z)) (m : MapLayout)
    : exec InspectError MapLayout :=
  match fields with
  | f0 :: _ :: f2 :: _ :: name :: rest =>
      fail_if (bool_decide (name ∈ forbidden_names)) (ForbiddenSection name) ;;
      m ← parse_record line f0 f2 name rest m;
      Ok (if is_kernel_load_end_expression fields
          then mkMapLayout (ml_sections m) (ml_constants m) (ml_symbols m) true else m)
  | _ => Ok m
  end.

Fixpoint parse_lines (line : Z) (l : list (list Z)) (m : MapLayout) : exec InspectError MapLayout :=
  match l with
  | [] => Ok m
  | text :: l => m ← parse_line line (split_whitespace text) m; parse_lines (line + 1) l m
  end.

(** [MapLayout::section] *)
Definition section (m : MapLayout) (name : list Z) : exec InspectError MapSection :=
  ok_or (ml_sections m !! name) (MissingSection name).

Fixpoint require_sections (names : list (list Z)) (m : MapLayout) : exec InspectError unit :=
  match names with
  | [] => Ok tt
  | name :: names => section m name ;; require_sections names m
  end.

(** [MapLayout::parse] *)
Definition MapLayout_parse (text : list Z) : exec InspectError MapLayout :=
  layout ← parse_lines 1 (lines text) (mkMapLayout ∅ ∅ ∅ false);
  require_sections section_names layout ;;
  Ok layout.

Definition report_sections (m : MapLayout) : list SectionInspection :=
  report <$> omap (fun name => ml_sections m !! name) section_names.

(** The loops over the tables of expected constants and symbols. *)
Fixpoint check_table (missing : list Z -> InspectError) (wrong : list Z -> Z -> Z -> InspectError)
    (values : gmap (list Z) Z) (expected : list (string * Z)) : exec InspectError unit :=
  match expected with
  | [] => Ok tt
  | (name, value) :: expected =>
      let name := ascii_bytes name in
      actual ← ok_or (values !! name) (missing name);
      fail_if (negb (actual =? value)) (wrong name actual value) ;;
      check_table missing wrong values expected
  end.

Definition expected_constants : list (string * Z) :=
  [("KERNEL_BASE", KERNEL_BASE_ADDRESS); ("KERNEL_LOAD_LIMIT", KERNEL_LOAD_LIMIT);
   ("KERNEL_STACK_GUARD_BASE", STACK_GUARD_ADDRESS); ("KERNEL_STACK_BASE", STACK_BASE_ADDRESS);
   ("KERNEL_STACK_SIZE", STACK_SIZE_BYTES); ("PAGE_SIZE", PAGE_SIZE)]%string.

Definition validate_constants_and_symbols (m : MapLayout) (entry_point : Z)
    : exec InspectError unit :=
  check_table MissingConstant WrongConstant (ml_constants m) expected_constants ;;
  text ← section m TEXT;
  rodata ← section m RODATA;
  data ← section m DATA;
  bss ← section m BSS;
  text_end ← section_end text;
  rodata_end ← section_end rodata;
  data_end ← section_end data;
  bss_end ← section_end bss;
  check_table MissingSymbol WrongSymbol (ml_symbols m)
    [("__kernel_start", KERNEL_BASE_ADDRESS);
     ("__text_start", ms_address text); ("__text_end", text_end);
     ("__rodata_start", ms_address rodata); ("__rodata_end", rodata_end);
     ("__data_start", ms_address data); ("__data_end", data_end);
     ("__bss_start", ms_address bss); ("__bss_end", bss_end);
     ("__bootstrap_stack_guard_start", STACK_GUARD_ADDRESS);
     ("__bootstrap_stack_guard_end", STACK_BASE_ADDRESS);
     ("__bootstrap_stack_bottom", STACK_BASE_ADDRESS);
     ("__bootstrap_stack_top", STACK_BASE_ADDRESS + STACK_SIZE_BYTES);
     ("__kernel_end", STACK_BASE_ADDRESS + STACK_SIZE_BYTES);
     ("polytope_kernel_entry", entry_point)]%string ;;
  fail_if (negb (ml_saw_load_end_expression m)) MissingLoadEndExpression.

(** ** The combined layout *)
Definition align_up (value alignment : Z) : exec InspectError Z :=
  fail_if (negb (is_power_of_two alignment)) BadAlignment ;;
  ok_or ((fun sum => Z.land sum (bitnot 64 (alignment - 1))) <$> checked_add 64 value (alignment - 1))
    AlignmentOverflow.

Definition validate_segment (segment : SegmentInspection) (section : MapSection) (flags : Z)
    (exact_memory_size : bool) : exec InspectError unit :=
  let name := ms_name section in
  fail_if (negb (si_flags segment =? flags)) (SegmentFlagsDiffer name (si_flags segment) flags) ;;
  fail_if (negb (si_physical_address segment =? ms_address section)) (SegmentAddressDiffers name) ;;
  fail_if (negb (si_virtual_address segment =? si_physical_address segment))
    (SegmentNotIdentity name) ;;
  fail_if (negb (si_file_size segment =? ms_size section)) (InitializedSizeDiffers name) ;;
  fail_if (exact_memory_size && negb (si_memory_size segment =? ms_size section))
    (UnexpectedZeroFill name) ;;
  fail_if (negb (si_alignment segment =? PAGE_SIZE)) (SegmentNotPageAligned name).

Definition validate_data_segment (segment : SegmentInspection) (data bss : MapSection)
    : exec InspectError unit :=
  validate_segment segment data (Z.lor PF_R PF_W) false ;;
  fail_if (negb (ms_size bss <=? si_zero_fill_size segment)) BssNotReserved ;;
  bss_end ← section_end bss;
  fail_if (negb (bool_decide
    (checked_add 64 (si_physical_address segment) (si_memory_size segment) = Some bss_end)))
    DataMemoryEndDiffers ;;
  data_end ← section_end data;
  fail_if (negb (bool_decide
    (checked_add 64 (si_physical_address segment) (si_file_size segment) = Some data_end)))
    DataFileEndDiffers.

Definition validate_stack_segment (segment : SegmentInspection) (stack : MapSection)
    : exec InspectError unit :=
  fail_if (negb (si_flags segment =? Z.lor PF_R PF_W)) StackFlagsWrong ;;
  fail_if (negb ((si_physical_address segment =? STACK_BASE_ADDRESS)
                 && (si_virtual_address segment =? STACK_BASE_ADDRESS))) StackAddressWrong ;;
  fail_if (negb (si_file_size segment =? 0)) StackConsumesFile ;;
  fail_if (negb ((si_memory_size segment =? STACK_SIZE_BYTES)
                 && (si_zero_fill_size segment =? STACK_SIZE_BYTES))) StackSizeWrong ;;
  fail_if (negb (si_alignment segment =? PAGE_SIZE)) StackNotPageAligned ;;
  stack_end ← section_end stack;
  fail_if (negb (stack_end =? STACK_BASE_ADDRESS + STACK_SIZE_BYTES)) StackEndWrong.

(** The loop of [validate_section_order], with the line of the section before. *)
Fixpoint check_order (names : list (list Z)) (previous_line : option Z) (m : MapLayout)
    : exec InspectError unit :=
  match names with
  | [] => Ok tt
  | name :: names =>
      s ← section m name;
      fail_if (match previous_line with Some previous => negb (previous <? ms_line s)
                                      | None => false end) (SectionOutOfOrder name) ;;
      check_order names (Some (ms_line s)) m
  end.
Definition validate_section_order (m : MapLayout) : exec InspectError unit :=
  check_order section_names None m.

(** The [all] over the segments at the end of [validate_combined]. *)
Definition misses_guard (segment : SegmentInspection) : bool :=
  match checked_add 64 (si_physical_address segment) (si_memory_size segment) with
  | Some end_ => (end_ <=? STACK_GUARD_ADDRESS)
                 || (STACK_BASE_ADDRESS <=? si_physical_address segment)
  | None => false
  end.

Definition validate_combined (entry_point : Z) (segments : list SegmentInspection) (map : MapLayout)
    : exec InspectError unit :=
  fail_if (negb (len segments =? EXPECTED_SEGMENTS)) (SegmentCount (len segments)) ;;
  fail_if (negb (entry_point =? KERNEL_BASE_ADDRESS)) (WrongEntryPoint entry_point) ;;
  validate_constants_and_symbols map entry_point ;;
  validate_section_order map ;;
  text ← section map TEXT;
  rodata ← section map RODATA;
  data ← section map DATA;
  bss ← section map BSS;
  guard ← section map STACK_GUARD;
  stack ← section map STACK;
  fail_if (negb ((ms_address text =? KERNEL_BASE_ADDRESS) && (0 <? ms_size text))) TextBase ;;
  fail_if (negb ((ms_address rodata mod PAGE_SIZE =? 0) && (0 <? ms_size rodata)))
    RodataEmptyOrMisaligned ;;
  fail_if (negb ((ms_address data mod PAGE_SIZE =? 0) && (0 <? ms_size data)))
    DataEmptyOrMisaligned ;;
  fail_if (negb ((ms_address bss mod PAGE_SIZE =? 0) && (0 <? ms_size bss))) BssEmptyOrMisaligned ;;
  text_end ← section_end text;
  fail_if (negb (text_end <=? ms_address rodata)) TextOverlapsRodata ;;
  rodata_end ← section_end rodata;
  fail_if (negb (rodata_end <=? ms_address data)) RodataOverlapsData ;;
  data_end ← section_end data;
  fail_if (negb (data_end <=? ms_address bss)) DataOverlapsBss ;;
  fail_if (negb ((ms_address guard =? STACK_GUARD_ADDRESS) && (ms_size guard =? PAGE_SIZE)))
    GuardSectionWrong ;;
  fail_if (negb ((ms_address stack =? STACK_BASE_ADDRESS) && (ms_size stack =? STACK_SIZE_BYTES)))
    StackSectionWrong ;;
  bss_end ← section_end bss;
  load_end ← align_up bss_end PAGE_SIZE;
  fail_if (negb (load_end <=? STACK_GUARD_ADDRESS)) LoadOverlapsGuard ;;
  segment0 ← index_at segments 0;
  validate_segment segment0 text (Z.lor PF_R PF_X) true ;;
  segment1 ← index_at segments 1;
  validate_segment segment1 rodata PF_R true ;;
  segment2 ← index_at segments 2;
  validate_data_segment segment2 data bss ;;
  segment3 ← index_at segments 3;
  validate_stack_segment segment3 stack ;;
  fail_if (negb (forallb misses_guard segments)) GuardPageMapped.

(** ** The inspector *)

(** The closure mapped over the segments of the ELF file. *)
Definition inspect_segment (s : LoadSegment) : exec InspectError SegmentInspection :=
  zero_fill ← zero_fill_size s;
  Ok {| si_index := ls_index s; si_flags := ls_flags s; si_file_offset := ls_file_offset s;
        si_virtual_address := ls_virtual_address s;
        si_physical_address := ls_physical_address s; si_file_size := ls_file_size s;
        si_memory_size := ls_memory_size s; si_zero_fill_size := zero_fill;
        si_alignment := ls_alignment s |}.

Fixpoint inspect_all (l : list LoadSegment) : exec InspectError (list SegmentInspection) :=
  match l with
  | [] => Ok []
  | s :: l => i ← inspect_segment s; rest ← inspect_all l; Ok (i :: rest)
  end.

(** [elf.segments().map(...).collect()]; the iterator ends, so [collect] does. *)
Definition inspect_segments (elf : ValidatedElf) : exec InspectError (list SegmentInspection) :=
  match collect_segments elf with
  | Ok l => inspect_all l
  | _ => Panic
  end.

Definition inspect_kernel_bytes (digest_fn : list Z -> list Z) (kernel map : list Z)
    : exec InspectError KernelInspection :=
  fail_if (negb (len kernel <=? MAX_ELF_FILE_SIZE)) (KernelTooLarge (len kernel)) ;;
  fail_if (negb (len map <=? MAX_MAP_FILE_SIZE)) (MapTooLarge (len map)) ;;
  fail_if (bool_decide (0 ∈ map)) MapContainsNul ;;
  map_text ← ok_or (from_utf8 map) MapNotUtf8;
  elf ← map_err KernelRejected (parse kernel);
  map_layout ← MapLayout_parse map_text;
  segments ← inspect_segments elf;
  validate_combined (ve_entry_point elf) segments map_layout ;;
  bss ← section map_layout BSS;
  bss_end ← section_end bss;
  kernel_load_end ← align_up bss_end PAGE_SIZE;
  kernel_sha256 ← sha256_hex digest_fn kernel;
  map_sha256 ← sha256_hex digest_fn map;
  kernel_bytes ← ok_or (try_uint 64 (len kernel)) SizeDoesNotFit;
  map_bytes ← ok_or (try_uint 64 (len map)) SizeDoesNotFit;
  stack_top ← add_panic 64 STACK_BASE_ADDRESS STACK_SIZE_BYTES;
  segment2 ← index_at segments 2;
  Ok {| ki_schema_version := 1; ki_kernel_sha256 := kernel_sha256; ki_map_sha256 := map_sha256;
        ki_kernel_bytes := kernel_bytes; ki_map_bytes := map_bytes;
        ki_entry_point := ve_entry_point elf; ki_kernel_base := KERNEL_BASE_ADDRESS;
        ki_kernel_load_end := kernel_load_end; ki_stack_guard_base := STACK_GUARD_ADDRESS;
        ki_stack_guard_bytes := PAGE_SIZE; ki_stack_base := STACK_BASE_ADDRESS;
        ki_stack_top := stack_top; ki_bss_start := ms_address bss; ki_bss_end := bss_end;
        ki_data_zero_fill_bytes := si_zero_fill_size segment2; ki_write_xor_execute := true;
        ki_segments := segments; ki_sections := report_sections map_layout |}.

(** A path on the host: what [fs::metadata] (is it a regular file, its length)
    and [fs::read] return for it. *)
Record HostFile := mkHostFile {
  hf_metadata : option (bool * Z);
  hf_contents : option (list Z)
}.

Definition read_bounded (path : HostFile) (maximum : Z) : exec InspectError (list Z) :=
  '(is_file, length) ← ok_or (hf_metadata path) InputMissing;
  fail_if (negb is_file) InputNotRegular ;;
  fail_if (negb (length <=? maximum)) (InputTooLarge length maximum) ;;
  ok_or (hf_contents path) InputUnreadable.

Definition inspect_kernel (digest_fn : list Z -> list Z) (kernel map : HostFile)
    : exec InspectError KernelInspection :=
  kernel ← read_bounded kernel MAX_ELF_FILE_SIZE;
  map ← read_bounded map MAX_MAP_FILE_SIZE;
  inspect_kernel_bytes digest_fn kernel map.
