(* ===== verification/InspectProps.v ===== *)
(** What an accepted inspection guarantees of the kernel: its layout, its
    permissions, the guard page, and what the loader then puts in memory; and
    how the inspector reads the linker map. *)

From stdpp Require Import gmap.
From S2P Require Import Prelude Bytes BootElf ElfSpec ElfProps Console Memory Text Artifact.
From S2P Require Import Loader LoaderProps Inspect.

(** ** Specification *)

(** The four load segments of a kernel with the layout of the linker script. *)
Record laid_out (t r d s : LoadSegment) (bss_start bss_end : Z) : Prop := {
  lo_text : ls_physical_address t = KERNEL_BASE_ADDRESS /\ ls_flags t = 5 /\
            0 < ls_memory_size t /\ ls_file_size t = ls_memory_size t;
  lo_rodata : ls_flags r = 4 /\ 0 < ls_memory_size r /\ ls_file_size r = ls_memory_size r /\
              ls_physical_address t + ls_memory_size t <= ls_physical_address r;
  lo_data : ls_flags d = 6 /\ 0 < ls_file_size d /\
            ls_physical_address r + ls_memory_size r <= ls_physical_address d;
  lo_bss : ls_physical_address d + ls_file_size d <= bss_start /\ bss_start < bss_end /\
           bss_end = ls_physical_address d + ls_memory_size d /\
           bss_start mod 4096 = 0 /\ page_up bss_end <= STACK_GUARD_ADDRESS;
  lo_stack : ls_flags s = 6 /\ ls_physical_address s = STACK_BASE_ADDRESS /\
             ls_file_size s = 0 /\ ls_memory_size s = STACK_SIZE_BYTES
}.

(** ** Lemmas *)

(** The record of the inspection is the segment with its zero-fill size. *)
Definition inspects (s : LoadSegment) (i : SegmentInspection) : Prop :=
  si_index i = ls_index s /\ si_flags i = ls_flags s /\ si_file_offset i = ls_file_offset s /\
  si_virtual_address i = ls_virtual_address s /\ si_physical_address i = ls_physical_address s /\
  si_file_size i = ls_file_size s /\ si_memory_size i = ls_memory_size s /\
  si_zero_fill_size i = ls_memory_size s - ls_file_size s /\ si_alignment i = ls_alignment s.

Lemma inspect_all_inspects l : forall is_, inspect_all l = Ok is_ -> Forall2 inspects l is_.
Proof.
  induction l as [|s l IH]; intros is_ H; cbn [inspect_all] in H; inv_exec; [constructor|].
  constructor; [|by apply IH]. unfold inspect_segment, zero_fill_size, sub_panic in *. inv_exec.
  match goal with H : checked_sub _ _ = Some _ |- _ => apply checked_sub_Some in H as [-> _] end.
  by unfold inspects.
Qed.

Lemma inspect_all_total l :
  Forall (fun s => ls_file_size s <= ls_memory_size s) l -> exists is_, inspect_all l = Ok is_.
Proof.
  induction 1 as [|s l Hs _ [is_ IH]]; [by exists []|]. cbn [inspect_all].
  unfold inspect_segment, zero_fill_size. rewrite sub_panic_exact by done.
  cbn [mbind exec_bind]. rewrite IH. cbn. by eexists.
Qed.

Lemma align_up_page_up x y : 0 <= x -> Inspect.align_up x PAGE_SIZE = Ok y -> y = page_up x.
Proof.
  intros Hx H. unfold Inspect.align_up in H. inv_exec.
  match goal with H : _ <$> _ = Some _ |- _ => rename H into Hs end.
  apply fmap_Some in Hs as (z & Hz & ->). pose proof Hz as [-> ?]%checked_add_Some.
  enough (BootElf.align_up x PAGE_SIZE = Some (page_up x)) as He.
  { unfold BootElf.align_up in He. rewrite Hz in He. by injection He. }
  apply align_up_page; [done|]. change PAGE_SIZE with 4096 in *. lia.
Qed.

Lemma section_end_Ok s e :
  section_end s = Ok e <-> e = ms_address s + ms_size s /\ ms_address s + ms_size s < 2 ^ 64.
Proof. unfold section_end. by rewrite ok_or_Ok, checked_add_Some. Qed.

Lemma validate_segment_inv i sec flags exact_ u :
  validate_segment i sec flags exact_ = Ok u ->
  si_flags i = flags /\ si_physical_address i = ms_address sec /\
  si_virtual_address i = si_physical_address i /\ si_file_size i = ms_size sec /\
  (if exact_ then si_memory_size i = ms_size sec else True) /\ si_alignment i = PAGE_SIZE.
Proof.
  intros H. unfold validate_segment in H. inv_exec. bool_solve. split_and!; try done.
  destruct exact_; naive_solver.
Qed.

Lemma validate_data_segment_inv i data bss u :
  validate_data_segment i data bss = Ok u ->
  si_flags i = 6 /\ si_physical_address i = ms_address data /\ si_file_size i = ms_size data /\
  si_physical_address i + si_memory_size i = ms_address bss + ms_size bss.
Proof.
  intros H. unfold validate_data_segment in H. inv_exec. bool_solve.
  repeat match goal with H : section_end _ = Ok _ |- _ => apply section_end_Ok in H as [-> _] end.
  repeat match goal with H : checked_add _ _ _ = Some _ |- _ => apply checked_add_Some in H as [? _] end.
  match goal with H : validate_segment _ _ _ _ = Ok _ |- _ =>
    apply validate_segment_inv in H as (? & ? & ? & ? & _) end.
  split_and!; try done.
Qed.

Lemma validate_stack_segment_inv i stack u :
  validate_stack_segment i stack = Ok u ->
  si_flags i = 6 /\ si_physical_address i = STACK_BASE_ADDRESS /\ si_file_size i = 0 /\
  si_memory_size i = STACK_SIZE_BYTES.
Proof. intros H. unfold validate_stack_segment in H. inv_exec. bool_solve. by destruct_and?. Qed.

Lemma validate_combined_inv entry segs is_ m bss u :
  Forall2 inspects segs is_ -> section m BSS = Ok bss ->
  (forall name s, ml_sections m !! name = Some s -> 0 <= ms_address s /\ 0 <= ms_size s) ->
  validate_combined entry is_ m = Ok u ->
  exists t r d s, segs = [t; r; d; s] /\ entry = KERNEL_BASE_ADDRESS /\
    laid_out t r d s (ms_address bss) (ms_address bss + ms_size bss).
Proof.
  intros Hi Hb Hpos H. unfold validate_combined in H. rewrite Hb in H.
  apply bind_fail_if in H as [Hn H]. bool_solve. unfold EXPECTED_SEGMENTS in Hn.
  destruct is_ as [|i0 [|i1 [|i2 [|i3 [|]]]]]; try (simpl in Hn; lia).
  apply Forall2_cons_inv_r in Hi as (t & l0 & Ht & Hi & ->).
  apply Forall2_cons_inv_r in Hi as (r & l1 & Hr & Hi & ->).
  apply Forall2_cons_inv_r in Hi as (d & l2 & Hd & Hi & ->).
  apply Forall2_cons_inv_r in Hi as (s & l3 & Hs & Hi & ->). apply Forall2_nil_inv_r in Hi as ->.
  exists t, r, d, s. split; [done|].
  assert (0 <= ms_address bss + ms_size bss) as Hbe.
  { apply ok_or_Ok in Hb. destruct (Hpos _ _ Hb). lia. }
  unfold inspects in *.
  cbn [index_at get_at or_panic Z.leb Z.to_nat lookup list_lookup] in H. inv_exec. bool_solve. destruct_and?.
  repeat match goal with H : index_at _ _ = Ok _ |- _ => cbv in H; injection H as <- end.
  repeat match goal with
  | H : section_end _ = Ok _ |- _ => apply section_end_Ok in H as [-> _]
  | H : validate_segment _ _ _ _ = Ok _ |- _ =>
      apply validate_segment_inv in H as (? & ? & _ & ? & ? & _)
  | H : validate_data_segment _ _ _ = Ok _ |- _ =>
      apply validate_data_segment_inv in H as (? & ? & ? & ?)
  | H : validate_stack_segment _ _ = Ok _ |- _ =>
      apply validate_stack_segment_inv in H as (? & ? & ? & ?)
  | H : Inspect.align_up _ _ = Ok _ |- _ => apply align_up_page_up in H as ->; [|done]
  end.
  change (Z.lor PF_R PF_X) with 5 in *. change PF_R with 4 in *. unfold PAGE_SIZE in *.
  split; [done|]. split; split_and?; try congruence; lia.
Qed.

(** *** The linker map *)

(** A line of the map whose fields declare output section [s] of that name. *)
Definition declares (fields : list (list Z)) (line : Z) (s : MapSection) : Prop :=
  exists f0 f1 f2 f3 rest, fields = f0 :: f1 :: f2 :: f3 :: ms_name s :: rest /\
    ms_name s ∈ section_names /\ ms_line s = line /\
    parse_hex f0 line = Ok (ms_address s) /\ parse_hex f2 line = Ok (ms_size s).

Lemma insert_unique_Ok {T} (values values' : gmap (list Z) T) name v d :
  insert_unique values name v d = Ok values' <-> values !! name = None /\ values' = <[name:=v]> values.
Proof. unfold insert_unique. destruct (values !! name); naive_solver. Qed.

Lemma fmap_Ok {E A B} (f : A -> B) (x : exec E A) b : f <$> x = Ok b <-> exists a, x = Ok a /\ b = f a.
Proof. destruct x; simpl; naive_solver. Qed.

(** Every other record leaves the sections alone. *)
Lemma parse_record_other line f0 f2 name rest m m' :
  name ∉ section_names -> parse_record line f0 f2 name rest m = Ok m' ->
  ml_sections m' = ml_sections m.
Proof.
  intros Hn H. unfold parse_record in H. rewrite bool_decide_eq_false_2 in H by done.
  case_match; [|case_match]; inv_exec; try done;
    match goal with H : _ <$> _ = Ok _ |- _ => apply fmap_Ok in H as (? & _ & ->) end; done.
Qed.

Lemma parse_line_sections line fields m m' :
  parse_line line fields m = Ok m' ->
  (forall name s, ml_sections m' !! name = Some s <->
     ml_sections m !! name = Some s \/ (declares fields line s /\ name = ms_name s)) /\
  (forall f0 f1 f2 f3 name rest, fields = f0 :: f1 :: f2 :: f3 :: name :: rest ->
     name ∈ section_names ->
     ml_sections m !! name = None /\ exists s, declares fields line s /\ ms_name s = name).
Proof.
  intros H. unfold parse_line in H.
  destruct fields as [|f0 [|f1 [|f2 [|f3 [|name0 rest]]]]];
    try (injection H as <-; unfold declares; naive_solver).
  inv_exec. match goal with H : parse_record _ _ _ _ _ _ = Ok ?y |- _ => rename H into Hr, y into m1 end.
  assert (ml_sections (if is_kernel_load_end_expression (f0 :: f1 :: f2 :: f3 :: name0 :: rest)
    then mkMapLayout (ml_sections m1) (ml_constants m1) (ml_symbols m1) true else m1) =
    ml_sections m1) as -> by (by case_match).
  destruct (decide (name0 ∈ section_names)) as [Hin|Hin].
  2: { rewrite (parse_record_other _ _ _ _ _ _ _ Hin Hr). unfold declares. naive_solver. }
  unfold parse_record in Hr. rewrite bool_decide_eq_true_2 in Hr by done. inv_exec.
  apply fmap_Ok in Hr as (v & [Hnone ->]%insert_unique_Ok & ->). cbn [set_sections ml_sections].
  match goal with |- context [<[_ := ?s]> _] => set (sec := s) end.
  assert (declares (f0 :: f1 :: f2 :: f3 :: name0 :: rest) line sec) as Hd.
  { exists f0, f1, f2, f3, rest. done. }
  split; [|intros ?????? [= <- <- <- <- <- <-] _; split; [done|by exists sec]].
  intros name s. destruct (decide (name = name0)) as [->|Hne].
  - rewrite lookup_insert_eq. split; [naive_solver|]. intros [?|[Hs _]]; [congruence|].
    destruct Hs as (?&?&?&?&?&[= -> -> -> -> Hn ->]&_&Hl&Ha&Hz), s; cbn in *; subst. unfold sec. congruence.
  - rewrite lookup_insert_ne by done. split; [by left|]. intros [?|[Hs ->]]; [done|].
    destruct Hs as (?&?&?&?&?&[= _ _ _ _ Hn _]&_). congruence.
Qed.

Lemma parse_lines_sections l : forall k m m',
  parse_lines k l m = Ok m' ->
  (forall name s, ml_sections m' !! name = Some s <->
     ml_sections m !! name = Some s \/
     exists i text, l !! i = Some text /\ declares (split_whitespace text) (k + Z.of_nat i) s /\
       name = ms_name s) /\
  (forall i text f0 f1 f2 f3 name rest, l !! i = Some text ->
     split_whitespace text = f0 :: f1 :: f2 :: f3 :: name :: rest -> name ∈ section_names ->
     exists s, declares (split_whitespace text) (k + Z.of_nat i) s /\ ms_name s = name).
Proof.
  induction l as [|text l IH]; intros k m m' H; cbn [parse_lines] in H.
  { injection H as <-. split; [|done]. intros name s. split; [by left|]. by intros [?|(? & ? & ? & _)]. }
  apply bind_Ok in H as (m1 & H1 & H). apply parse_line_sections in H1 as [P1 Q1].
  apply IH in H as [P2 Q2]. split.
  - intros name s. rewrite P2, P1. split.
    + intros [[?|[Hd ->]]|(i & t & Hi & Hd & ->)]; [by left|right; exists 0%nat, text|right; exists (S i), t].
      * by rewrite Z.add_0_r.
      * split_and!; [done| |done]. by replace (k + Z.of_nat (S i)) with (k + 1 + Z.of_nat i) by lia.
    + intros [?|([|i] & t & Hi & Hd & ->)]; [by left; left| |].
      * injection Hi as ->. rewrite Z.add_0_r in Hd. by left; right.
      * right. exists i, t. split_and!; [done| |done].
        by replace (k + 1 + Z.of_nat i) with (k + Z.of_nat (S i)) by lia.
  - intros [|i] t f0 f1 f2 f3 name rest Hi Hf Hn; simpl in Hi.
    + injection Hi as ->. rewrite Z.add_0_r. by eapply Q1.
    + replace (k + Z.of_nat (S i)) with (k + 1 + Z.of_nat i) by lia. by eapply Q2.
Qed.

Lemma parse_hex_uint v line x : parse_hex v line = Ok x -> uint 64 x.
Proof. intros H. unfold parse_hex in H. inv_exec. by eapply from_str_radix16_uint. Qed.

Lemma require_sections_Ok names m u :
  require_sections names m = Ok u -> Forall (fun name => is_Some (ml_sections m !! name)) names.
Proof.
  induction names as [|n names IH]; intros H; cbn [require_sections] in H; [constructor|].
  unfold section in H. inv_exec. constructor; [by eexists|by apply IH].
Qed.

Lemma parsed_section text m name s :
  MapLayout_parse text = Ok m -> ml_sections m !! name = Some s ->
  name = ms_name s /\ exists i line, Text.lines text !! i = Some line /\
    declares (split_whitespace line) (1 + Z.of_nat i) s.
Proof.
  intros H Hs. unfold MapLayout_parse in H. inv_exec.
  match goal with H : parse_lines _ _ _ = Ok _ |- _ => apply parse_lines_sections in H as [P _] end.
  apply P in Hs as [Hs|(i & t & ? & ? & ->)]; [done|]. split; [done|]. by exists i, t.
Qed.

Lemma parsed_section_uint text m name s :
  MapLayout_parse text = Ok m -> ml_sections m !! name = Some s ->
  uint 64 (ms_address s) /\ uint 64 (ms_size s).
Proof.
  intros H Hs. destruct (parsed_section _ _ _ _ H Hs) as (_ & i & l & _ & Hd).
  destruct Hd as (? & ? & ? & ? & ? & _ & _ & _ & Ha & Hz).
  split; by eapply parse_hex_uint.
Qed.

(** *** Accepted kernels *)
Lemma inspected digest_fn kernel map report :
  slice_ok kernel -> inspect_kernel_bytes digest_fn kernel map = Ok report ->
  exists v t r d s, parse kernel = Ok v /\ collect_segments v = Ok [t; r; d; s] /\
    ve_entry_point v = KERNEL_BASE_ADDRESS /\
    laid_out t r d s (ki_bss_start report) (ki_bss_end report) /\
    Forall2 inspects [t; r; d; s] (ki_segments report).
Proof.
  intros Hk H. unfold inspect_kernel_bytes in H. inv_exec. cbn [ki_bss_start ki_bss_end ki_segments].
  match goal with
  | Hp : parse kernel = Ok ?v, Hi : inspect_segments ?v = Ok ?is_,
    Hm : MapLayout_parse _ = Ok ?m, Hb : section ?m BSS = Ok ?bss,
    He : section_end ?bss = Ok _, Hc : validate_combined _ ?is_ ?m = Ok _ |- _ =>
      unfold inspect_segments in Hi; destruct (collect_segments v) as [segs| |] eqn:Es; try done;
      apply inspect_all_inspects in Hi;
      destruct (validate_combined_inv _ segs _ _ _ _ Hi Hb
        ltac:(intros name s Hs; destruct (parsed_section_uint _ _ _ _ Hm Hs) as [[? _] [? _]]; done)
        Hc) as (t & r & d & s & -> & Hen & Hlo);
      apply section_end_Ok in He as [-> _]; exists v, t, r, d, s; by split_and!
  end.
Qed.

(** The pages of the segments of a laid-out kernel leave the guard page out. *)
Lemma laid_out_guard t r d s b e x a :
  laid_out t r d s b e -> x ∈ [t; r; d; s] ->
  STACK_GUARD_ADDRESS <= a < STACK_BASE_ADDRESS -> ~ segment_pages x a.
Proof.
  intros [Ht Hr Hd Hb Hs] Hx Ha Hp. unfold segment_pages in Hp.
  destruct Hb as (? & ? & -> & ? & Hg).
  assert (page_up (ls_physical_address t + ls_memory_size t) <= STACK_GUARD_ADDRESS /\
          page_up (ls_physical_address r + ls_memory_size r) <= STACK_GUARD_ADDRESS) as [Hg1 Hg2].
  { split; (etrans; [apply page_up_mono|exact Hg]); lia. }
  rewrite !elem_of_cons, elem_of_nil in Hx. naive_solver lia.
Qed.

(** *** Panic freedom *)
#[local] Hint Extern 1 (match ?o with Some _ => _ | None => _ end <> Panic) => destruct o : nopanic.

Lemma parse_hex_no_panic v line : parse_hex v line <> Panic.
Proof. unfold parse_hex. auto with nopanic. Qed.
Lemma insert_unique_no_panic {T} (values : gmap (list Z) T) n v d : insert_unique values n v d <> Panic.
Proof. unfold insert_unique. by case_match. Qed.
Lemma fmap_no_panic {E A B} (f : A -> B) (x : exec E A) : x <> Panic -> f <$> x <> Panic.
Proof. by destruct x. Qed.
Lemma section_no_panic m name : section m name <> Panic.
Proof. unfold section. auto with nopanic. Qed.
Lemma section_end_no_panic s : section_end s <> Panic.
Proof. unfold section_end. auto with nopanic. Qed.
Lemma align_up_no_panic x a : Inspect.align_up x a <> Panic.
Proof. unfold Inspect.align_up. auto with nopanic. Qed.
#[local] Hint Resolve parse_hex_no_panic insert_unique_no_panic fmap_no_panic section_no_panic
  section_end_no_panic align_up_no_panic : nopanic.

Lemma MapLayout_parse_no_panic text : MapLayout_parse text <> Panic.
Proof.
  unfold MapLayout_parse. apply bind_no_panic.
  - generalize (mkMapLayout ∅ ∅ ∅ false). generalize 1.
    induction (Text.lines text) as [|l ls IH]; intros k m; cbn [parse_lines]; [done|].
    apply bind_no_panic; [|done]. unfold parse_line, parse_record.
    repeat case_match; auto 10 with nopanic.
  - intros m _. apply bind_no_panic; [|done].
    induction section_names; cbn [require_sections]; auto with nopanic.
Qed.

Lemma check_table_no_panic f g values l : check_table f g values l <> Panic.
Proof. induction l as [|[n v] l IH]; cbn [check_table]; auto 10 with nopanic. Qed.
Lemma validate_segment_no_panic i s f e : validate_segment i s f e <> Panic.
Proof. unfold validate_segment. auto 10 with nopanic. Qed.
Lemma validate_stack_segment_no_panic i s : validate_stack_segment i s <> Panic.
Proof. unfold validate_stack_segment. auto 10 with nopanic. Qed.
Lemma check_order_no_panic l p m : check_order l p m <> Panic.
Proof. revert p. induction l; intros p; cbn [check_order]; auto 10 with nopanic. Qed.
#[local] Hint Resolve check_table_no_panic validate_segment_no_panic validate_stack_segment_no_panic
  check_order_no_panic : nopanic.
Lemma validate_data_segment_no_panic i d b : validate_data_segment i d b <> Panic.
Proof. unfold validate_data_segment. auto 10 with nopanic. Qed.
Lemma validate_constants_no_panic m e : validate_constants_and_symbols m e <> Panic.
Proof. unfold validate_constants_and_symbols. auto 20 with nopanic. Qed.
#[local] Hint Resolve validate_data_segment_no_panic validate_constants_no_panic : nopanic.

Lemma validate_combined_no_panic e is_ m : validate_combined e is_ m <> Panic.
Proof.
  unfold validate_combined, validate_section_order. apply bind_no_panic; [auto with nopanic|].
  intros _ Hn%fail_if_Ok. bool_solve. unfold EXPECTED_SEGMENTS in Hn.
  destruct is_ as [|i0 [|i1 [|i2 [|i3 [|]]]]]; try (simpl in Hn; lia).
  auto 50 with nopanic.
Qed.

(** Reading an input. *)
Lemma inspect_read_no_panic file maximum : read_bounded file maximum <> Panic.
Proof.
  unfold read_bounded. apply bind_no_panic; [apply ok_or_no_panic|]. intros [f n] _. cbv beta iota.
  do 2 (apply bind_no_panic; [apply fail_if_no_panic|intros _ _]). apply ok_or_no_panic.
Qed.
Lemma inspect_read_Ok file maximum bytes :
  read_bounded file maximum = Ok bytes -> hf_contents file = Some bytes.
Proof.
  unfold read_bounded. intros H. apply bind_Ok in H as ([f n] & _ & H).
  rewrite !bind_fail_if in H. by destruct H as (_ & _ & H%ok_or_Ok).
Qed.

(** ** A sample kernel and its map

    The four segments of the layout over a file that is only its headers; the
    map is the one of the inspector's tests, with those sizes. *)
Definition sample_header (flags address file_size memory_size : Z) : list Z :=
  to_le_bytes 4 PT_LOAD ++ to_le_bytes 4 flags ++ to_le_bytes 8 0 ++ to_le_bytes 8 address ++
  to_le_bytes 8 address ++ to_le_bytes 8 file_size ++ to_le_bytes 8 memory_size ++
  to_le_bytes 8 4096.
Definition sample_kernel : list Z :=
  ident ++ to_le_bytes 2 ET_EXEC ++ to_le_bytes 2 EM_X86_64 ++ to_le_bytes 4 1 ++
  to_le_bytes 8 KERNEL_BASE_ADDRESS ++ to_le_bytes 8 64 ++ to_le_bytes 8 0 ++
  to_le_bytes 4 0 ++ to_le_bytes 2 64 ++ to_le_bytes 2 56 ++ to_le_bytes 2 4 ++ to_le_bytes 6 0 ++
  sample_header 5 KERNEL_BASE_ADDRESS 0x100 0x100 ++
  sample_header 4 (KERNEL_BASE_ADDRESS + 0x1000) 0x80 0x80 ++
  sample_header 6 (KERNEL_BASE_ADDRESS + 0x2000) 0x20 0x1008 ++
  sample_header 6 STACK_BASE_ADDRESS 0 STACK_SIZE_BYTES.

Definition sample_map_lines : list string :=
  ["VMA LMA Size Align Out In Symbol";
   "0 0 0 1 KERNEL_BASE = 0x04000000"; "0 0 0 1 KERNEL_LOAD_LIMIT = 0x04800000";
   "0 0 0 1 KERNEL_STACK_GUARD_BASE = 0x047ff000"; "0 0 0 1 KERNEL_STACK_BASE = 0x04800000";
   "0 0 0 1 KERNEL_STACK_SIZE = 0x00010000"; "0 0 0 1 PAGE_SIZE = 0x1000";
   "4000000 0 0 1 __kernel_start = ."; "4000000 4000000 100 16 .text";
   "4000000 4000000 0 1 __text_start = ."; "4000000 4000000 40 1 polytope_kernel_entry";
   "4000100 4000100 0 1 __text_end = ."; "4001000 4001000 80 8 .rodata";
   "4001000 4001000 0 1 __rodata_start = ."; "4001080 4001080 0 1 __rodata_end = .";
   "4002000 4002000 20 8 .data"; "4002000 4002000 0 1 __data_start = .";
   "4002020 4002020 0 1 __data_end = ."; "4003000 4003000 8 8 .bss";
   "4003000 4003000 0 1 __bss_start = ."; "4003008 4003008 0 1 __bss_end = .";
   "4003008 4003008 0 1 __kernel_load_end = ALIGN ( PAGE_SIZE )";
   "47ff000 47ff000 1000 1 .stack_guard";
   "47ff000 47ff000 0 1 __bootstrap_stack_guard_start = .";
   "4800000 4800000 0 1 __bootstrap_stack_guard_end = ."; "4800000 4800000 10000 1 .stack";
   "4800000 4800000 0 1 __bootstrap_stack_bottom = .";
   "4810000 4810000 0 1 __bootstrap_stack_top = .";
   "4810000 4810000 0 1 __kernel_end = ALIGN(PAGE_SIZE)"]%string.
Definition sample_map : list Z := line ← sample_map_lines; ascii_bytes line ++ [LF].
Definition sample_digest (bytes : list Z) : list Z := replicate 32 0.

Lemma sample_kernel_slice : slice_ok sample_kernel.
Proof. split; [by_decide|vm_compute; reflexivity]. Qed.
Lemma sample_accepted :
  exists report, inspect_kernel_bytes sample_digest sample_kernel sample_map = Ok report.
Proof. apply is_ok_ex. vm_compute. reflexivity. Qed.

Lemma sample_kernel_parses : parse sample_kernel = Ok (validated sample_kernel).
Proof. vm_compute. reflexivity. Qed.
Lemma sample_kernel_loads :
  exists r, load_segments (demo_fw [] [] 7) (validated sample_kernel) (mkWorld [] (fun _ => 255)) = Ok r.
Proof. apply is_ok_ex. vm_compute. reflexivity. Qed.

(** ** Properties *)

(** C10. An accepted kernel has the layout of the linker script: it is an
    accepted ELF file with exactly the four segments text (read, execute, at
    the kernel base, where it is entered), read-only data, data and stack (read,
    write, no file bytes), in that order and apart; [.bss] lies between the file
    bytes of the data segment and its end; and no page of any segment is the
    guard page below the stack.  The report lists those segments. *)
Theorem inspected_kernel_is_laid_out (digest_fn : list Z -> list Z) (kernel map : list Z)
    (report : KernelInspection) :
  slice_ok kernel -> inspect_kernel_bytes digest_fn kernel map = Ok report ->
  exists v t r d s, parse kernel = Ok v /\ collect_segments v = Ok [t; r; d; s] /\
    ve_entry_point v = KERNEL_BASE_ADDRESS /\
    laid_out t r d s (ki_bss_start report) (ki_bss_end report) /\
    (forall x a, x ∈ [t; r; d; s] -> STACK_GUARD_ADDRESS <= a < STACK_BASE_ADDRESS ->
       ~ segment_pages x a) /\
    Forall2 inspects [t; r; d; s] (ki_segments report).
Proof.
  intros Hk H. destruct (inspected _ _ _ _ Hk H) as (v & t & r & d & s & Hp & Hc & He & Hl & Hi).
  exists v, t, r, d, s. split_and!; try done. intros. by eapply laid_out_guard.
Qed.

Lemma inspected_kernel_is_laid_out_witness :
  exists v segs, parse sample_kernel = Ok v /\ collect_segments v = Ok segs /\
    length segs = 4%nat.
Proof.
  destruct sample_accepted as [report E].
  destruct (inspected_kernel_is_laid_out sample_digest sample_kernel sample_map report
    sample_kernel_slice E) as (v & t & r & d & s & Hp & Hc & _).
  exists v, [t; r; d; s]. by split_and!.
Defined.

(** C11. Loading an inspected kernel, whatever the firmware does, leaves every
    byte of the stack guard page as it was, and fills [.bss] and the whole
    bootstrap stack with zeros. *)
Theorem inspected_kernel_keeps_guard_page {F H : Type} (fw : Firmware F H)
    (digest_fn : list Z -> list Z) (kernel map : list Z) (report : KernelInspection)
    (v : ValidatedElf) (w w' : World) :
  slice_ok kernel -> inspect_kernel_bytes digest_fn kernel map = Ok report ->
  parse kernel = Ok v -> load_segments fw v w = Ok (tt, w') ->
  (forall a, STACK_GUARD_ADDRESS <= a < STACK_BASE_ADDRESS -> w_mem w' a = w_mem w a) /\
  (forall a, ki_bss_start report <= a < ki_bss_end report -> w_mem w' a = 0) /\
  (forall a, STACK_BASE_ADDRESS <= a < STACK_BASE_ADDRESS + STACK_SIZE_BYTES -> w_mem w' a = 0).
Proof.
  intros Hk Hi Hp Hl. destruct (inspected _ _ _ _ Hk Hi) as (v' & t & r & d & s & Hp' & Hc & _ & Hlo & _).
  rewrite Hp in Hp'. injection Hp' as <-.
  destruct (load_segments_mem fw _ _ _ _ _ Hk Hp Hc Hl) as [_ Hmem].
  assert (Forall (fun s => len (ls_file_data s) = ls_file_size s /\ ls_file_size s <= ls_memory_size s)
    [t; r; d; s]) as Hsz.
  { apply elf_parse_Ok_iff in Hp as [Hok ->]; [|done].
    rewrite collect_segments_exact in Hc by done. injection Hc as <-. by apply segment_sizes. }
  rewrite !Forall_cons in Hsz. destruct Hsz as (_ & _ & [Hd _] & [Hs _] & _).
  pose proof (fun x a => laid_out_guard t r d s _ _ x a Hlo) as Hg.
  destruct Hlo as [Ht Hr Hda (Hb1 & Hb2 & Hb3 & Hb4 & Hb5) (Hs1 & Hs2 & Hs3 & Hs4)].
  split_and!; intros a Ha.
  - apply (Hmem a). intros x Hx. by eapply Hg.
  - rewrite (proj1 (Hmem a) d) by (unfold segment_pages; set_solver ||
      (pose proof (page_up_bounds (ls_physical_address d + ls_memory_size d)); unfold segment_pages; lia)).
    unfold segment_byte. by rewrite lookup_ge_None_2 by lia.
  - rewrite (proj1 (Hmem a) s) by (unfold segment_pages; set_solver ||
      (pose proof (page_up_bounds (ls_physical_address s + ls_memory_size s)); unfold segment_pages; lia)).
    unfold segment_byte. by rewrite lookup_ge_None_2 by lia.
Qed.

Lemma inspected_kernel_keeps_guard_page_witness :
  exists w', load_segments (demo_fw [] [] 7) (validated sample_kernel) (mkWorld [] (fun _ => 255)) =
    Ok (tt, w') /\ w_mem w' (STACK_BASE_ADDRESS - 1) = 255 /\ w_mem w' STACK_BASE_ADDRESS = 0.
Proof.
  destruct sample_accepted as [report E]. destruct sample_kernel_loads as [[[] w'] L].
  destruct (inspected_kernel_keeps_guard_page (demo_fw [] [] 7) sample_digest sample_kernel sample_map
    report (validated sample_kernel) (mkWorld [] (fun _ => 255)) w' sample_kernel_slice E
    sample_kernel_parses L) as (Hg & _ & Hs).
  exists w'. split; [exact L|]. split.
  - apply Hg. unfold STACK_GUARD_ADDRESS, STACK_BASE_ADDRESS. lia.
  - apply Hs. unfold STACK_SIZE_BYTES. lia.
Defined.

(** The inspector reads the map without ambiguity: in an accepted map every
    required section is declared by exactly one line, a line with that name in
    its fifth field, whose first and third fields are the section's address and
    size in hexadecimal and whose number is the section's line; nothing else is
    recorded as a section. *)
Theorem map_sections_are_unique_lines (text : list Z) (m : MapLayout) :
  MapLayout_parse text = Ok m ->
  (forall name, name ∈ section_names -> exists s, ml_sections m !! name = Some s) /\
  (forall name s, ml_sections m !! name = Some s ->
    name = ms_name s /\
    exists i line, Text.lines text !! i = Some line /\
      declares (split_whitespace line) (1 + Z.of_nat i) s /\
      forall j line' f0 f1 f2 f3 rest, Text.lines text !! j = Some line' ->
        split_whitespace line' = f0 :: f1 :: f2 :: f3 :: name :: rest -> j = i).
Proof.
  intros H. split.
  - intros name Hn. unfold MapLayout_parse in H. inv_exec.
    match goal with H : require_sections _ _ = Ok _ |- _ => apply require_sections_Ok in H as Hr end.
    rewrite Forall_forall in Hr. by apply Hr.
  - intros name s Hs. destruct (parsed_section _ _ _ _ H Hs) as (Hn & i & l & Hl & Hd).
    split; [done|]. exists i, l. split; [done|]. split; [done|].
    intros j l' f0 f1 f2 f3 rest Hj Hf. unfold MapLayout_parse in H. inv_exec.
    match goal with H : parse_lines _ _ _ = Ok _ |- _ => apply parse_lines_sections in H as [P Q] end.
    assert (ms_name s ∈ section_names) as Hin by (by destruct Hd as (? & ? & ? & ? & ? & _ & ? & _)).
    destruct (Q j l' f0 f1 f2 f3 _ rest Hj Hf Hin) as (s' & Hd' & Hn').
    assert (s' = s) as ->.
    { enough (Some s' = Some s) by congruence. rewrite <- Hs. symmetry. apply P. right.
      exists j, l'. by rewrite Hn'. }
    destruct Hd as (? & ? & ? & ? & ? & _ & _ & Hi & _), Hd' as (? & ? & ? & ? & ? & _ & _ & Hj' & _).
    lia.
Qed.

Lemma sample_map_parses : exists m, MapLayout_parse sample_map = Ok m.
Proof. apply is_ok_ex. vm_compute. reflexivity. Qed.

Lemma map_sections_are_unique_lines_witness :
  exists m s, MapLayout_parse sample_map = Ok m /\ ml_sections m !! TEXT = Some s /\
    ms_name s = TEXT.
Proof.
  destruct sample_map_parses as [m E]. destruct (map_sections_are_unique_lines sample_map m E) as [H1 H2].
  destruct (H1 TEXT) as [s Hs]; [by left|]. exists m, s. split_and!; [exact E|exact Hs|].
  symmetry. by apply (H2 TEXT s Hs).
Defined.

(** The inspector never panics: for any kernel and map bytes (and a digest
    function that returns bytes) it reports either the evidence or an error,
    even where the code indexes slices, subtracts sizes and adds addresses. *)
Theorem inspection_never_panics (digest_fn : list Z -> list Z) (kernel map : list Z) :
  (forall x, is_bytes (digest_fn x)) -> slice_ok kernel ->
  inspect_kernel_bytes digest_fn kernel map <> Panic.
Proof.
  intros Hd Hk. unfold inspect_kernel_bytes.
  do 3 (apply bind_no_panic; [auto with nopanic|intros _ _]).
  apply bind_no_panic; [auto with nopanic|intros text _].
  apply bind_no_panic; [by apply map_err_no_panic, elf_parse_no_panic|].
  intros v [Hok ->]%map_err_Ok%elf_parse_Ok_iff; [|done].
  apply bind_no_panic; [apply MapLayout_parse_no_panic|intros m _].
  destruct (inspect_all_total (segment_of kernel <$> loads_of kernel)) as [is_ Hi].
  { eapply Forall_impl; [by apply segment_sizes|]. naive_solver. }
  unfold inspect_segments. rewrite collect_segments_exact by done. rewrite Hi. cbn [mbind exec_bind].
  destruct (validate_combined _ is_ m) as [u| |] eqn:Ev; [|done|by apply validate_combined_no_panic in Ev].
  unfold validate_combined in Ev. apply bind_fail_if in Ev as [Hn _]. bool_solve.
  destruct (hex_encode_total (E:=InspectError) _ (Hd kernel)) as (h1 & H1 & _).
  destruct (hex_encode_total (E:=InspectError) _ (Hd map)) as (h2 & H2 & _).
  unfold sha256_hex. rewrite H1, H2. unfold EXPECTED_SEGMENTS in Hn.
  destruct is_ as [|i0 [|i1 [|i2 [|i3 [|]]]]]; try (simpl in Hn; lia).
  auto 20 with nopanic.
Qed.

Lemma inspection_never_panics_witness :
  inspect_kernel_bytes sample_digest (0x7f :: replicate 70 255) sample_map <> Panic.
Proof.
  apply inspection_never_panics.
  - intros x. apply Forall_replicate. unfold uint. lia.
  - split; [by_decide|vm_compute; reflexivity].
Defined.
