(* ===== verification/XtaskCliTypes.v ===== *)
(** The requests the command line can make: the argument parser of
    crates/xtask/src/main.rs never panics, and every request it returns has
    values of the types and ranges the library expects. *)

From stdpp Require Import gmap.
From S2P Require Import Prelude Bytes Console Text HostScenario HostFs Repro ReproProps XtaskCli.
Import Image.

(** ** Well-formed requests *)

(** A feature as Cargo takes it from a comma-separated list. *)
Definition feature_ok (feature : list Z) : Prop := feature <> [] /\ Forall scalar feature /\ 44 ∉ feature.

(** Names are texts, there is at least one feature, and the flags are not the
    command line's to change. *)
Record spec_ok (contract spec : ArtifactSpec) : Prop := {
  so_package : Forall scalar (as_package spec);
  so_binary : Forall scalar (as_binary spec);
  so_target : Forall scalar (as_target spec);
  so_features : as_features spec <> [] /\ Forall feature_ok (as_features spec);
  so_flags : as_rustc_flags spec = as_rustc_flags contract
}.

(** [timeout_secs] is a positive [u64], [runs] a [usize]. *)
Definition boot_request_ok (request : BootRequest) : Prop := 0 < br_timeout_secs request < 2 ^ 64.

Definition invocation_ok (inv : Invocation) : Prop :=
  match inv with
  | RunRepro request =>
      spec_ok default_loader (rr_loader request) /\ spec_ok default_kernel (rr_kernel request) /\
      is_Some (rr_kernel_map_relative_path request)
  | RunBootTest request => boot_request_ok request
  | RunTimeoutProbe request => boot_request_ok request /\ br_scenario request = Normal
  | RunBaseline request => boot_request_ok (bl_boot request) /\ uint 64 (bl_runs request)
  | Usage | RunImage _ | RunInspect _ => True
  end.

(** ** Texts *)
Lemma split_where_elem p l field c : field ∈ split_where p l -> c ∈ field -> c ∈ l /\ p c = false.
Proof.
  revert field. induction l as [|x l IH]; intros field Hf Hc; cbn [split_where] in Hf.
  - apply list_elem_of_singleton in Hf as ->. by apply not_elem_of_nil in Hc.
  - destruct (p x) eqn:Ep.
    + apply elem_of_cons in Hf as [->|Hf]; [by apply not_elem_of_nil in Hc|].
      destruct (IH field Hf Hc). split; [by right|done].
    + destruct (split_where p l) as [|f fs].
      * apply list_elem_of_singleton in Hf as ->. apply list_elem_of_singleton in Hc as ->. split; [by left|done].
      * apply elem_of_cons in Hf as [->|Hf].
        -- apply elem_of_cons in Hc as [->|Hc]; [split; [by left|done]|].
           destruct (IH f ltac:(by left) Hc). split; [by right|done].
        -- destruct (IH field ltac:(by right) Hc). split; [by right|done].
Qed.

Lemma trim_start_elem l c : c ∈ trim_start l -> c ∈ l.
Proof.
  induction l as [|x l IH]; [done|]. cbn [trim_start]. destruct (is_whitespace x); [|done].
  intros H. right. by apply IH.
Qed.
Lemma trim_elem l c : c ∈ trim l -> c ∈ l.
Proof.
  unfold trim. rewrite list_elem_of_In, <-in_rev, <-list_elem_of_In. intros H%trim_start_elem.
  rewrite list_elem_of_In, <-in_rev, <-list_elem_of_In in H. by apply trim_start_elem.
Qed.

Lemma feature_list_ok value : Forall scalar value -> Forall feature_ok (feature_list value).
Proof.
  intros Hv. rewrite Forall_forall in Hv. apply Forall_forall. intros f Hf. unfold feature_list in Hf.
  apply list_elem_of_filter in Hf as [Hne Hf]. apply list_elem_of_fmap in Hf as (field & -> & Hf).
  split; [done|]. split.
  - apply Forall_forall. intros c Hc%trim_elem. apply Hv. by destruct (split_where_elem _ _ _ _ Hf Hc).
  - intros Hc%trim_elem. by destruct (split_where_elem _ _ _ _ Hf Hc).
Qed.

(** ** Numbers *)
Lemma decimal_digits_uint l : forall acc v, uint 64 acc -> decimal_digits acc l = Some v -> uint 64 v.
Proof.
  induction l as [|c l IH]; intros acc v Ha H; cbn [decimal_digits] in H; [by injection H as <-|].
  destruct (between 48 c 57) eqn:Eb; [|done]. unfold between in Eb. bool_solve.
  apply bind_Some in H as (a & H1 & H). apply bind_Some in H as (b & H2 & H).
  unfold checked_mul, checked_add in *. unfold uint in *.
  destruct (Z.ltb_spec (acc * 10) (2 ^ 64)); [|done]. injection H1 as <-.
  destruct (Z.ltb_spec (acc * 10 + (c - 48)) (2 ^ 64)); [|done]. injection H2 as <-.
  eapply IH; [|exact H]. unfold uint. lia.
Qed.
Lemma parse_u64_uint text v : parse_u64 text = Some v -> uint 64 v.
Proof.
  assert (uint 64 0) as H0 by (unfold uint; lia). unfold parse_u64. intros H.
  repeat case_match; try done; by eapply decimal_digits_uint.
Qed.

(** ** What the parser yields *)

(** [m] never panics, and its results satisfy [P]. *)
Definition yields {A : Type} (m : st Options CliError A) (P : A -> Prop) : Prop :=
  forall v, match m v with Ok (a, _) => P a | Err _ => True | Panic => False end.

Lemma yields_bind {A B : Type} (m : st Options CliError A) (f : A -> st Options CliError B) P Q :
  yields m P -> (forall a, P a -> yields (f a) Q) -> yields (m ≫= f) Q.
Proof.
  intros Hm Hf v. specialize (Hm v). unfold mbind, st_bind. destruct (m v) as [[a v']|e|]; [|done..].
  by apply Hf.
Qed.
Lemma yields_ret {A : Type} (a : A) (P : A -> Prop) : P a -> yields (mret a) P.
Proof. intros H v. exact H. Qed.
Lemma yields_lift {A : Type} (m : exec CliError A) (P : A -> Prop) :
  m <> Panic -> (forall a, m = Ok a -> P a) -> yields (lift_exec m) P.
Proof. intros Hp Hm v. unfold lift_exec. destruct m as [a|e|]; [by apply Hm|done|done]. Qed.
Lemma yields_remove name : yields (remove name) (fun _ => True).
Proof. done. Qed.
Lemma yields_finish : yields finish (fun _ => True).
Proof. intros v. unfold finish. by case_bool_decide. Qed.

(** A present value satisfies [P]. *)
Abbreviation if_present P := (fun o => forall a, o = Some a -> P a).

Lemma yields_transpose {A B : Type} (f : A -> exec CliError B) o (P : B -> Prop) :
  (forall a, f a <> Panic) -> (forall a b, f a = Ok b -> P b) -> yields (transpose f o) (if_present P).
Proof.
  intros Hp Hf. unfold transpose. apply yields_lift; destruct o as [a|]; try done.
  - by apply bind_no_panic.
  - intros r (b & Hb & [= <-])%bind_Ok c [= <-]. by apply (Hf a).
  - by intros r [= <-].
Qed.

Lemma yields_optional_string name : yields (optional_string name) (if_present (Forall scalar)).
Proof.
  unfold optional_string. eapply yields_bind; [apply yields_remove|intros o _].
  apply yields_transpose; [intros a; apply ok_or_no_panic|]. intros a b Hb%ok_or_Ok%from_utf8_iff. by destruct Hb.
Qed.
Lemma yields_optional_u64 name : yields (optional_u64 name) (if_present (uint 64)).
Proof.
  unfold optional_u64. eapply yields_bind; [apply yields_optional_string|intros o _].
  apply yields_transpose; [intros a; apply ok_or_no_panic|]. intros a b Hb%ok_or_Ok. by apply parse_u64_uint in Hb.
Qed.
Lemma yields_scenario : yields scenario_option (fun _ => True).
Proof.
  unfold scenario_option. eapply yields_bind; [apply yields_optional_string|intros o _].
  apply yields_lift; [|done]. destruct o as [v|]; [|done]. apply map_err_no_panic. unfold from_str.
  by repeat case_bool_decide.
Qed.
Lemma yields_required_path name : yields (required_path name) (fun _ => True).
Proof.
  unfold required_path. eapply yields_bind; [apply yields_remove|intros o _].
  by apply yields_lift; [apply ok_or_no_panic|].
Qed.

Section Commands.
Variable as_output : list Z -> OutputPath.

Lemma yields_override_string name text :
  Forall scalar text -> yields (override_string name text) (Forall scalar).
Proof.
  intros Ht. unfold override_string. eapply yields_bind; [apply yields_optional_string|intros o Ho].
  apply yields_ret. destruct o as [v|]; [by apply Ho|done].
Qed.
Lemma yields_override_features name features :
  features <> [] /\ Forall feature_ok features ->
  yields (override_features name features) (fun l => l <> [] /\ Forall feature_ok l).
Proof.
  intros Hf. unfold override_features. eapply yields_bind; [apply yields_optional_string|intros o Ho].
  apply yields_lift; destruct o as [v|]; try done.
  - by apply bind_no_panic; [apply fail_if_no_panic|].
  - intros l [Hne [= <-]]%bind_fail_if. apply bool_decide_eq_false in Hne. split; [done|].
    by apply feature_list_ok, Ho.
  - by intros l [= <-].
Qed.

Lemma yields_override_artifact package bin target artifact features spec contract map :
  spec_ok contract spec -> yields map (fun _ => True) ->
  yields (override_artifact package bin target artifact features spec map) (fun r => spec_ok contract r.1).
Proof.
  intros [H1 H2 H3 H4 H5] Hmap. unfold override_artifact.
  eapply yields_bind; [by apply yields_override_string|intros p Hp].
  eapply yields_bind; [by apply yields_override_string|intros b Hb].
  eapply yields_bind; [by apply yields_override_string|intros t Ht].
  eapply yields_bind; [apply yields_remove|intros path _].
  eapply yields_bind; [exact Hmap|intros m _].
  eapply yields_bind; [by apply yields_override_features|intros f Hf]. by apply yields_ret.
Qed.

Lemma default_specs_ok : spec_ok default_loader default_loader /\ spec_ok default_kernel default_kernel.
Proof.
  assert (forall s, Forall (fun c => 0 <= c < 128) (ascii_bytes s) -> Forall scalar (ascii_bytes s)) as Ha
    by exact ascii_scalar.
  split; (split; [apply Ha; by_decide..| |done]); (split; [done|]); apply Forall_singleton;
    (split; [done|]); (split; [apply Ha; by_decide|by_decide]).
Qed.

Lemma yields_boot_request : yields boot_request boot_request_ok.
Proof.
  unfold boot_request. eapply yields_bind; [apply yields_optional_u64|intros t Ht].
  eapply yields_bind with (P := fun _ => 0 < default 15 t).
  { apply yields_lift; [apply fail_if_no_panic|]. intros u Hu%fail_if_Ok. bool_solve. done. }
  intros _ Hpos. eapply yields_bind; [apply yields_remove|intros image _].
  eapply yields_bind; [apply yields_scenario|intros scenario _].
  do 2 (eapply yields_bind; [apply yields_remove|intros ? _]). apply yields_ret.
  unfold boot_request_ok. cbn [br_timeout_secs]. split; [done|]. destruct t as [v|]; [|done].
  by destruct (Ht v eq_refl).
Qed.

(** Steps whose results are not constrained. *)
Ltac yields_steps :=
  repeat match goal with
  | |- yields (remove _ ≫= _) _ => eapply yields_bind; [apply yields_remove|intros ? _]
  | |- yields (finish ≫= _) _ => eapply yields_bind; [apply yields_finish|intros ? _]
  | |- yields (scenario_option ≫= _) _ => eapply yields_bind; [apply yields_scenario|intros ? _]
  | |- yields (required_path _ ≫= _) _ => eapply yields_bind; [apply yields_required_path|intros ? _]
  | |- yields (mret _) _ => apply yields_ret
  end.

Lemma command_repro_yields : yields (command_repro as_output) invocation_ok.
Proof.
  unfold command_repro, optional_path. destruct default_specs_ok as [Hl Hk]. yields_steps.
  eapply yields_bind; [by apply (yields_override_artifact _ _ _ _ _ _ default_loader)|intros l Hl'].
  eapply yields_bind; [apply (yields_override_artifact _ _ _ _ _ _ default_kernel); [done|apply yields_remove]|].
  intros k Hk'. yields_steps. cbn. split_and!; [done|done|]. by destruct k.2.
Qed.

Lemma dispatch_yields command m : dispatch as_output command = Some m -> yields m invocation_ok.
Proof.
  unfold dispatch. intros H. repeat (case_bool_decide; [injection H as <-|]); try done.
  - unfold command_image, optional_path. by yields_steps.
  - unfold command_inspect_kernel. by yields_steps.
  - apply command_repro_yields.
  - unfold command_boot_test. eapply yields_bind; [apply yields_boot_request|intros r Hr]. by yields_steps.
  - unfold command_timeout_probe. eapply yields_bind; [apply yields_boot_request|intros r Hr].
    eapply yields_bind with (P := fun _ => br_scenario r = Normal).
    { apply yields_lift; [apply fail_if_no_panic|]. intros u Hu%fail_if_Ok. by bool_solve. }
    intros _ Hn. by yields_steps.
  - unfold command_baseline, optional_usize, optional_path.
    eapply yields_bind; [apply yields_boot_request|intros r Hr].
    eapply yields_bind; [apply yields_optional_u64|intros n Hn]. yields_steps. split; [done|].
    cbn [bl_runs]. destruct n as [v|]; [by apply Hn|done].
Qed.

Lemma parse_options_no_panic n : forall arguments values,
  (length arguments <= n)%nat -> parse_options arguments values <> Panic.
Proof.
  induction n as [|n IH]; intros [|a arguments] values Hn; cbn [length] in Hn; try lia; try done.
  cbn [parse_options]. apply bind_no_panic; [apply ok_or_no_panic|intros name _].
  do 2 (apply bind_no_panic; [apply fail_if_no_panic|intros _ _]).
  destruct arguments as [|value arguments]; [done|]. cbn [length] in Hn.
  apply bind_no_panic; [apply fail_if_no_panic|intros _ _]. apply IH. lia.
Qed.

Lemma parse_invocation_yields arguments :
  parse_invocation as_output arguments <> Panic /\
  forall inv, parse_invocation as_output arguments = Ok inv -> invocation_ok inv.
Proof.
  destruct arguments as [|command arguments]; [by split; [|intros inv [= <-]]|]. cbn [parse_invocation].
  destruct (from_utf8 command) as [text|]; cbn [ok_or]; [|done]. rewrite bind_value.
  destruct (is_help text); [by split; [|intros inv [= <-]]|].
  pose proof (parse_options_no_panic (length arguments) arguments ∅ ltac:(done)) as Hp.
  unfold Options_parse. destruct (parse_options arguments ∅) as [options|e|]; [|done..]. rewrite bind_value.
  destruct (dispatch as_output text) as [m|] eqn:Ed; [|done]. pose proof (dispatch_yields _ _ Ed options) as Hy.
  destruct (m options) as [[inv v]|e|]; [|done..]. rewrite bind_value. split; [done|]. by intros i [= <-].
Qed.
End Commands.

(** C17. Requests are well typed.  Whatever the arguments, parsing them returns a
    request or an error, never a panic, and every request has values in range: a
    positive 64-bit timeout, a 64-bit run count, the normal scenario for a
    timeout probe; and for a reproducible build, package, binary, target and
    feature names that are Unicode texts, at least one feature and none empty or
    with a comma in it, a path for the kernel map, and exactly the compiler flags
    of the artifact contracts, which no option can change. *)
Theorem requests_are_well_typed (as_output : list Z -> OutputPath) (arguments : list (list Z)) :
  match parse_invocation as_output arguments with
  | Ok inv => invocation_ok inv
  | Err _ => True
  | Panic => False
  end.
Proof.
  destruct (parse_invocation_yields as_output arguments) as [H1 H2].
  destruct (parse_invocation as_output arguments); [by apply H2|done|done].
Qed.
