(* ===== verification/Xtask.v ===== *)
(** The program xtask: crates/xtask/src/main.rs with the library it drives.

    A command line is parsed by [XtaskCli]; what a command does is the operation
    of its component ([DiskImage], [Inspect], [Repro], [BootRunner]), run on its
    part of one world, and the printed result.  [run] and [main] are the whole
    program, from the arguments to the exit status and the two output streams.
    [serde_json]'s text of a result and [anyhow]'s text of an error are
    parameters. *)

From stdpp Require Import gmap.
From S2P Require Import Prelude Bytes Console Text Artifact HostScenario HostRun RawImage HostFs DiskImage Inspect.
From S2P Require Import Repro XtaskCli HostExec BootRunner.
Import Image.

(** ** Errors and outputs *)
Inductive XtaskError :=
| CommandLine (e : CliError)
| ImageFailed (e : BuildError)
| InspectFailed (e : InspectError)
| ReproFailed (e : ReproError)
| BootFailed (e : BootError).

(** The texts of the results other than those of [BootHost]. *)
Record Serializers := mkSerializers {
  sz_image : ImageManifest -> option (list Z);
  sz_inspection : KernelInspection -> option (list Z);
  sz_repro : ReproReport -> option (list Z)
}.

(** The text of [print_usage], line by line; a backslash at the end of a line of
    the literal also drops the indentation of the next. *)
Definition USAGE_LINES : list (list Z) :=
  [ascii_bytes "PolytopeOS deterministic boot tooling";
   ascii_bytes "";
   ascii_bytes "Usage:";
   ascii_bytes "cargo xtask image --loader PATH --kernel PATH [--output PATH] [--scenario TOKEN]";
   ascii_bytes "cargo xtask inspect-kernel --kernel PATH --map PATH";
   ascii_bytes "cargo xtask repro-check [--workspace PATH] [--output PATH] [artifact overrides]";
   ascii_bytes "cargo xtask boot-test [--image PATH] [--scenario TOKEN] [--timeout-secs N]";
   ascii_bytes "cargo xtask timeout-probe [--image PATH] [--timeout-secs N]";
   ascii_bytes "cargo xtask baseline [--image PATH] [--runs N] [--output PATH]";
   ascii_bytes "";
   ascii_bytes "Scenario tokens: normal, bad-version, truncated, panic";
   ascii_bytes "Firmware overrides: POLYTOPE_OVMF_CODE and POLYTOPE_OVMF_VARS";
   ascii_bytes "Tool overrides: --cargo/POLYTOPE_CARGO and --qemu/POLYTOPE_QEMU";
   ascii_bytes "Default image: " ++ DEFAULT_IMAGE;
   ascii_bytes "Default baseline: " ++ DEFAULT_BASELINE].
Definition USAGE : list Z := join 10 USAGE_LINES.

(** The process: the world its library works on, and its standard error. *)
Record Process (W : Type) := mkProcess {
  xp_world : BootWorld W;
  xp_stderr : list (list Z)
}.
Arguments mkProcess {W}.
Arguments xp_world {W}.
Arguments xp_stderr {W}.

(** ** A component on its part of the world *)

(** [m] runs on the part [get] shows, and [put] writes that part back. *)
Definition embed {S T E E' A} (get : S -> T) (put : T -> S -> S) (wrap : E -> E') (m : io T E A) : io S E' A :=
  fun s => let (r, t) := m (get s) in (map_err wrap r, put t s).

Section Parts.
Context {W : Type}.

Definition set_fs (fs : FsState) (s : BootWorld W) : BootWorld W :=
  mkBootWorld (bw_proc s) fs (bw_next_id s) (bw_stdout s).

(** The reproducibility check uses the host, the files and the counter of
    temporary directories. *)
Definition repro_part (s : BootWorld W) : ReproWorld W :=
  mkReproWorld (ps_world (bw_proc s)) (bw_fs s) (bw_next_id s).
Definition set_repro (t : ReproWorld W) (s : BootWorld W) : BootWorld W :=
  mkBootWorld (mkPState (rw_host t) (ps_spawned (bw_proc s)) (ps_settled (bw_proc s)))
    (rw_fs t) (rw_next_id t) (bw_stdout s).
End Parts.

Section Xtask.
Context {W U G V D F : Type} `{EqDecision U}.
Variables (h : BootHost W) (crates : DiskCrates U G V D F).
Variables (digest : list Z -> list Z) (reserves : Z -> bool).
Variables (json : Serializers) (render : XtaskError -> list Z).

Abbreviation M := (io (BootWorld W) XtaskError).

Definition on_boot {A} (m : io (BootWorld W) BootError A) : M A := embed id (fun t _ => t) BootFailed m.
Definition on_repro {A} (m : io (ReproWorld W) ReproError A) : M A :=
  embed repro_part set_repro ReproFailed m.
Definition on_files {A} (m : io FsState BuildError A) : M A := embed bw_fs set_fs ImageFailed m.

(** What the host answers for a path that is read now. *)
Definition host_artifact (path : list Z) (s : BootWorld W) : HostArtifact :=
  let w := ps_world (bw_proc s) in
  mkHostArtifact (h_metadata (bh_host h) path w) (h_read (bh_host h) path w).
Definition host_file (path : list Z) (s : BootWorld W) : HostFile :=
  let w := ps_world (bw_proc s) in
  mkHostFile (h_metadata (bh_host h) path w) (h_read (bh_host h) path w).

(** ** The commands *)
Definition print (serialized : option (list Z)) : M unit := on_boot (print_json h serialized).
Definition print_usage : M unit := on_boot (println h USAGE).

Definition perform_image (request : XImageRequest) : M unit :=
  manifest ← (fun s =>
    on_files (build_image crates digest reserves (bh_os h) (bh_pid h) (host_artifact (xi_loader request) s)
                (host_artifact (xi_kernel request) s) (bh_as_output h (xi_output request))
                (xi_scenario request)) s);
  print (sz_image json manifest).

Definition perform_inspect (request : XInspectionRequest) : M unit :=
  inspection ← (fun s =>
    (map_err InspectFailed (inspect_kernel digest (host_file (xk_kernel request) s)
                              (host_file (xk_map request) s)), s));
  print (sz_inspection json inspection).

Definition perform_repro (request : ReproRequest) : M unit :=
  report ← on_repro (verify (bh_host h) crates digest reserves (bh_os h) (bh_pid h) request);
  print (sz_repro json report).

Definition perform (invocation : Invocation) : M unit :=
  match invocation with
  | Usage => print_usage
  | RunImage request => perform_image request
  | RunInspect request => perform_inspect request
  | RunRepro request => perform_repro request
  | RunBootTest request => on_boot (boot_test h crates digest reserves request)
  | RunTimeoutProbe request => on_boot (timeout_probe h crates digest reserves request)
  | RunBaseline request => on_boot (baseline h crates digest reserves request)
  end.

(** ** The program; [arguments] without the program name *)
Definition run (arguments : list (list Z)) : M unit :=
  invocation ← (fun s => (map_err CommandLine (parse_invocation (bh_as_output h) arguments), s));
  perform invocation.

(** [eprintln!] panics when standard error cannot be written. *)
Definition eprintln (text : list Z) : io (Process W) XtaskError unit := fun s =>
  if bh_stderr_takes h (xp_stderr s) text
  then (Ok tt, mkProcess (xp_world s) (xp_stderr s ++ [text]))
  else (Panic, s).
Definition FAILED : list Z := ascii_bytes "xtask failed: ".
Definition HINT : list Z := ascii_bytes "run `cargo xtask help` for command usage".

(** The exit status; a panic, whose own message is left out, ends the process
    with status 101. *)
Definition main (arguments : list (list Z)) : io (Process W) XtaskError Z := fun s =>
  match run arguments (xp_world s) with
  | (Ok _, w) => (Ok 0, mkProcess w (xp_stderr s))
  | (Err error, w) =>
      (eprintln (FAILED ++ render error) ;; eprintln HINT ;; mret 1) (mkProcess w (xp_stderr s))
  | (Panic, w) => (Panic, mkProcess w (xp_stderr s))
  end.
End Xtask.
