(* ===== verification/XtaskProps.v ===== *)
(** The program xtask as a whole: it exits with 0 or 1 unless a standard stream
    cannot be written, cleans up after itself, and says what it did on its output
    streams. *)

From Stdlib Require Import SpecFloat.
From stdpp Require Import gmap.
From S2P Require Import Prelude Bytes Console Text Artifact HostScenario HostRun RawImage HostFs HostFsProps.
From S2P Require Import DiskImage DiskImageProps Inspect InspectProps Repro ReproProps ReproTotal XtaskCli HostExec.
From S2P Require Import HostExecProps Statistics StatisticsProps BootRunner BootRunnerProps XtaskCliTypes Xtask.
Import Image.

(** ** Computations that end *)
Section Ends.
Context {W : Type} (h : BootHost W).
Abbreviation os := (bh_os h).

(** Every process that was started has been waited for, and all are reaped when
    waits do not fail. *)
Definition settled (s : BootWorld W) : Prop := accounted (waits_succeed h) (bw_proc s).
Definition no_failures : Prop := forall n, os_fails os n = false.

(** [m] returns, owes no process, prints nothing, and leaves no directory when
    the file system works. *)
Definition ends {E A} (m : io (BootWorld W) E A) : Prop := forall s, settled s ->
  let '(r, s') := m s in
  r <> Panic /\ settled s' /\ bw_stdout s' = bw_stdout s /\
  (no_failures -> fs_directories (bw_fs s') = fs_directories (bw_fs s)).

(** A continuation is only run on results of the first step. *)
Lemma ends_bind {E A B} (m : io (BootWorld W) E A) (k : A -> io (BootWorld W) E B) :
  ends m -> (forall a, (exists s s', m s = (Ok a, s')) -> ends (k a)) -> ends (m ≫= k).
Proof.
  intros Hm Hk s Hs. specialize (Hm s Hs). unfold mbind, io_bind.
  destruct (m s) as [[a|e|] s1] eqn:Em; destruct Hm as (R1 & S1 & O1 & D1); [|by split_and!|done].
  specialize (Hk a (ex_intro _ s (ex_intro _ s1 Em)) s1 S1). destruct (k a s1) as [r s2].
  destruct Hk as (R2 & S2 & O2 & D2). split_and!; [done|done|congruence|]. intros Ho. by rewrite D2, D1.
Qed.
Lemma ends_ret {E A} (a : A) : ends (E:=E) (mret a).
Proof. done. Qed.
Lemma ends_value {E A} (m : exec E A) : m <> Panic -> ends (fun s => (m, s)).
Proof. done. Qed.
Lemma ends_fs_call {A} (m : io FsState FsError A) : files_only m -> ends (fs_call m).
Proof.
  intros Hm s Hs. destruct (Hm (bw_fs s)) as [H1 H2]. unfold fs_call. destruct (m (bw_fs s)) as [r fs].
  split_and!; [by apply map_err_no_panic|done|done|done].
Qed.
End Ends.

(** ** The baseline *)
Lemma collect_no_panic f message samples : collect f message samples <> Panic.
Proof.
  induction samples as [|a samples IH]; [done|]. cbn [collect].
  apply bind_no_panic; [apply ok_or_no_panic|intros v _]. by apply bind_no_panic.
Qed.
Lemma check_identity_no_panic first samples : check_identity first samples <> Panic.
Proof.
  induction samples as [|a samples IH]; [done|]. cbn [check_identity].
  by apply bind_no_panic; [apply fail_if_no_panic|].
Qed.
Lemma statistics_of_no_panic samples message : len samples < 2 ^ 32 -> statistics_of samples message <> Panic.
Proof.
  intros Hl. unfold statistics_of. apply bind_no_panic; [by apply sample_statistics_no_panic|].
  intros s _. apply ok_or_no_panic.
Qed.

Lemma baseline_report_no_panic {W} (h : BootHost W) samples :
  len samples < 2 ^ 32 -> baseline_report h samples <> Panic.
Proof.
  intros Hl. unfold baseline_report.
  assert (forall f message values, collect f message samples = Ok values -> len values = len samples) as Hc.
  { intros f message values H%collect_Ok. apply (f_equal length) in H. rewrite !length_fmap in H. by rewrite H. }
  apply bind_no_panic; [apply collect_no_panic|intros times Ht].
  apply bind_no_panic; [apply collect_no_panic|intros rss Hr].
  apply bind_no_panic; [apply ok_or_no_panic|intros first _].
  apply bind_no_panic; [apply check_identity_no_panic|intros _ _].
  apply bind_no_panic; [apply statistics_of_no_panic; by rewrite (Hc _ _ _ Ht)|intros st _].
  apply bind_no_panic; [apply statistics_of_no_panic; by rewrite (Hc _ _ _ Hr)|done].
Qed.

Lemma scenario_verdict_no_panic run : validate_scenario_outcome run <> Panic.
Proof. unfold validate_scenario_outcome. destruct (HostRun.br_scenario run); apply fail_if_no_panic. Qed.
Lemma boot_verdict_no_panic run : validate_boot_outcome run <> Panic.
Proof.
  unfold validate_boot_outcome. apply bind_no_panic; [apply fail_if_no_panic|intros _ _; apply scenario_verdict_no_panic].
Qed.

(** ** The commands *)
Section Total.
Context {W U G V D F : Type} `{EqDecision U}.
Variables (h : BootHost W) (crates : DiskCrates U G V D F).
Variables (digest : list Z -> list Z) (reserves : Z -> bool) (time : W -> Z).
Variables (json : Serializers) (render : XtaskError -> list Z).
Hypothesis Hmachine : forall f, MachineLaws (bh_machine h f) time.
Hypothesis Hcrates : FatLaws crates.
Hypothesis Hdigest : forall l, is_bytes (digest l).
Hypothesis Hread : forall p w b, h_read (bh_host h) p w = Some b -> slice_ok b.

Abbreviation ends := (ends h).
Abbreviation settled := (settled h).

Lemma ends_observe_boot request mode : ends (observe_boot h crates digest reserves request mode).
Proof using Hmachine Hcrates Hdigest Hread.
  intros s Hs.
  pose proof (observe_boot_total h crates digest reserves Hcrates Hdigest Hread time request mode s Hmachine Hs) as H.
  destruct (observe_boot _ _ _ _ _ _ s) as [r s']. destruct H as (H1 & H2 & H3 & H4).
  split_and!; [done..|]. intros Ho. by destruct (H4 Ho).
Qed.

Lemma ends_run_boot request : ends (run_boot h crates digest reserves request).
Proof using Hmachine Hcrates Hdigest Hread.
  unfold run_boot. apply ends_bind; [apply ends_observe_boot|intros run _].
  apply ends_bind; [by apply ends_value, map_err_no_panic, boot_verdict_no_panic|intros _ _; apply ends_ret].
Qed.

Lemma ends_run_samples n request : ends (run_samples h crates digest reserves n request).
Proof using Hmachine Hcrates Hdigest Hread.
  induction n as [|n IH]; cbn [run_samples]; [apply ends_ret|].
  apply ends_bind; [apply ends_run_boot|intros a _]. apply ends_bind; [exact IH|intros l _; apply ends_ret].
Qed.

Lemma ends_run_baseline request : ends (run_baseline h crates digest reserves request).
Proof using Hmachine Hcrates Hdigest Hread.
  unfold run_baseline, ensure. apply ends_bind; [apply ends_value, fail_if_no_panic|intros _ _].
  apply ends_bind; [apply ends_value, fail_if_no_panic|intros u (s1 & s1' & Hcap)].
  apply boot_pure_Ok in Hcap as [Hcap _]. apply fail_if_Ok in Hcap. bool_solve.
  apply ends_bind; [apply ends_value, fail_if_no_panic|intros _ _].
  apply ends_bind; [apply ends_run_samples|intros samples (s2 & s2' & [Hn _]%run_samples_Ok)].
  apply ends_bind; [apply ends_value, baseline_report_no_panic; lia|intros rep _].
  apply ends_bind; [apply ends_fs_call, write_json_files_only|intros _ _; apply ends_ret].
Qed.

Lemma ends_image request s : settled s ->
  let '(r, s') := on_files (build_image crates digest reserves (bh_os h) (bh_pid h)
    (host_artifact h (xi_loader request) s) (host_artifact h (xi_kernel request) s)
    (bh_as_output h (xi_output request)) (xi_scenario request)) s in
  r <> Panic /\ settled s' /\ bw_stdout s' = bw_stdout s /\
  (no_failures h -> fs_directories (bw_fs s') = fs_directories (bw_fs s)).
Proof using Hcrates Hdigest Hread.
  intros Hs. unfold on_files, embed.
  pose proof (build_image_total crates digest reserves Hdigest (bh_os h) (bh_pid h)
    (host_artifact h (xi_loader request) s) (host_artifact h (xi_kernel request) s)
    (bh_as_output h (xi_output request)) (xi_scenario request) (bw_fs s)) as H.
  destruct (build_image _ _ _ _ _ _ _ _ _ _) as [r fs]. destruct H as [H1 H2]; [intros b; apply Hread..|].
  split_and!; [by apply map_err_no_panic|done|done|done].
Qed.

Lemma ends_verify request :
  ends (on_repro (verify (bh_host h) crates digest reserves (bh_os h) (bh_pid h) request)).
Proof using Hcrates Hdigest Hread.
  intros s Hs. unfold on_repro, embed.
  pose proof (verify_total (bh_host h) crates digest reserves (bh_os h) (bh_pid h) Hdigest Hread request (repro_part s)) as H.
  destruct (verify _ _ _ _ _ _ _ _) as [r t]. destruct H as [H1 H2].
  split_and!; [by apply map_err_no_panic|destruct Hs; by split|done|done].
Qed.

Lemma inspect_kernel_no_panic kernel map s :
  inspect_kernel digest (host_file h kernel s) (host_file h map s) <> Panic.
Proof using Hdigest Hread.
  unfold inspect_kernel. apply bind_no_panic; [apply inspect_read_no_panic|intros k Hk%inspect_read_Ok].
  apply bind_no_panic; [apply inspect_read_no_panic|intros m _].
  apply inspection_never_panics; [done|]. exact (Hread _ _ _ Hk).
Qed.

(** ** The outputs *)

(** [m] returns, or standard output refused a text.  On success it printed one
    text, when it was refused none, and otherwise at most one. *)
Definition reports {E A} (m : io (BootWorld W) E A) : Prop := forall s, settled s ->
  let '(r, s') := m s in
  settled s' /\
  (no_failures h -> fs_directories (bw_fs s') = fs_directories (bw_fs s)) /\
  exists printed, bw_stdout s' = bw_stdout s ++ printed /\ (length printed <= 1)%nat /\
    ((exists a, r = Ok a) -> length printed = 1%nat) /\
    (r = Panic -> printed = [] /\ exists text, bh_stdout_takes h (bw_stdout s) text = false).

Lemma reports_nothing {E A} (r : exec E A) (s : BootWorld W) :
  r <> Panic -> (forall a, r <> Ok a) -> settled s ->
  settled s /\ (no_failures h -> fs_directories (bw_fs s) = fs_directories (bw_fs s)) /\
  exists printed, bw_stdout s = bw_stdout s ++ printed /\ (length printed <= 1)%nat /\
    ((exists a, r = Ok a) -> length printed = 1%nat) /\
    (r = Panic -> printed = [] /\ exists text, bh_stdout_takes h (bw_stdout s) text = false).
Proof.
  intros Hp Ho Hs. split_and!; [done..|]. exists []. rewrite app_nil_r.
  split_and!; [done|cbn; lia|intros [a Ha]; by destruct (Ho a)|done].
Qed.

Lemma reports_after {E A B} (m : io (BootWorld W) E A) (k : A -> io (BootWorld W) E B) :
  ends m -> (forall a, reports (k a)) -> reports (m ≫= k).
Proof.
  intros Hm Hk s Hs. specialize (Hm s Hs). unfold mbind, io_bind.
  destruct (m s) as [[a|e|] s1]; destruct Hm as (R1 & S1 & O1 & D1); [| |done].
  - specialize (Hk a s1 S1). destruct (k a s1) as [r s2]. destruct Hk as (S2 & D2 & O2). rewrite O1 in O2.
    split_and!; [done| |done]. intros Ho. by rewrite D2, D1.
  - pose proof (reports_nothing (E:=E) (A:=B) (Err e) s1 ltac:(discriminate) ltac:(discriminate) S1) as (_ & _ & O2). rewrite O1 in O2. split_and!; [exact S1|exact D1|rewrite O1; exact O2].
Qed.

Lemma reports_println text : reports (println h text).
Proof.
  intros s Hs. unfold println. destruct (bh_stdout_takes h (bw_stdout s) text) eqn:E; (split; [done|]); (split; [done|]).
  - exists [text]. split_and!; [done|cbn; lia|done|done].
  - exists []. rewrite app_nil_r. split_and!; [done|cbn; lia|by intros [? ?]|]. intros _. split; [done|]. by exists text.
Qed.
Lemma reports_print_json serialized : reports (print_json h serialized).
Proof.
  destruct serialized as [text|]; [exact (reports_println text)|]. intros s Hs.
  unfold print_json, BootRunner.require, pure, mbind, io_bind. cbn [ok_or]. by apply reports_nothing.
Qed.
(** A verdict that follows the print. *)
Lemma reports_check {A B} (m : io (BootWorld W) BootError A) (v : exec BootError B) :
  v <> Panic -> reports m -> reports (m ≫= fun _ => pure v).
Proof.
  intros Hv Hm s Hs. specialize (Hm s Hs). unfold mbind, io_bind.
  destruct (m s) as [[a|e|] s1]; destruct Hm as (S1 & D1 & printed & E & Hle & Hok & Hp);
    split_and!; try done; exists printed; split_and!; try done.
  - intros _. apply Hok. by eexists.
  - by intros [? ?].
  - by intros [? ?].
  - intros _. by apply Hp.
Qed.
Lemma reports_on_boot {A} (m : io (BootWorld W) BootError A) : reports m -> reports (on_boot m).
Proof.
  intros Hm s Hs. specialize (Hm s Hs). unfold on_boot, embed. cbn [id]. destruct (m s) as [r s1].
  destruct Hm as (S1 & D1 & printed & E & Hle & Hok & Hp). split_and!; [done|done|].
  exists printed. split_and!; [done|done| |].
  - intros [a Ha%map_err_Ok]. apply Hok. by exists a.
  - intros Hr. apply Hp. by destruct r.
Qed.

Lemma timeout_verdict_no_panic run : validate_timeout_probe run <> Panic.
Proof. apply fail_if_no_panic. Qed.

Lemma perform_reports invocation : reports (perform h crates digest reserves json invocation).
Proof using Hmachine Hcrates Hdigest Hread.
  destruct invocation as [|request|request|request|request|request|request]; cbn [perform].
  - apply reports_on_boot, reports_println.
  - unfold perform_image. apply reports_after; [|intros m; apply reports_on_boot, reports_print_json].
    intros s Hs. by apply ends_image.
  - unfold perform_inspect. apply reports_after; [|intros m; apply reports_on_boot, reports_print_json].
    intros s Hs. split_and!; [by apply map_err_no_panic, inspect_kernel_no_panic|done..].
  - unfold perform_repro. apply reports_after; [|intros m; apply reports_on_boot, reports_print_json].
    apply ends_verify.
  - apply reports_on_boot. unfold boot_test. apply reports_after; [apply ends_observe_boot|intros run].
    apply reports_check; [apply map_err_no_panic, boot_verdict_no_panic|apply reports_print_json].
  - apply reports_on_boot. unfold timeout_probe. apply reports_after; [apply ends_observe_boot|intros run].
    apply reports_check; [apply map_err_no_panic, timeout_verdict_no_panic|apply reports_print_json].
  - apply reports_on_boot. unfold baseline. apply reports_after; [apply ends_run_baseline|intros rep].
    apply reports_print_json.
Qed.

Lemma run_reports arguments : reports (run h crates digest reserves json arguments).
Proof using Hmachine Hcrates Hdigest Hread.
  unfold run. apply reports_after; [|intros inv; apply perform_reports].
  apply ends_value, map_err_no_panic. apply parse_invocation_yields.
Qed.
End Total.

(** Two lines on standard error, or as many as it takes. *)
Lemma eprintln_pair {W} (h : BootHost W) (first second : list Z) (w : BootWorld W) (stderr : list (list Z)) :
  (eprintln h first ;; eprintln h second ;; mret 1) (mkProcess w stderr) =
  if bh_stderr_takes h stderr first
  then if bh_stderr_takes h (stderr ++ [first]) second
       then (Ok 1, mkProcess w (stderr ++ [first; second]))
       else (Panic, mkProcess w (stderr ++ [first]))
  else (Panic, mkProcess w stderr).
Proof.
  unfold eprintln, mbind, io_bind. cbn [xp_stderr xp_world].
  destruct (bh_stderr_takes h stderr first); [|done]. cbn [xp_stderr xp_world].
  destruct (bh_stderr_takes h (stderr ++ [first]) second); [|done]. cbn. by rewrite <- app_assoc.
Qed.

(** C16. The program always ends, with the right status.  Whatever the arguments
    and whatever the host, its files, the programs it runs and the emulator
    answer: a wait was made for every emulator and memory sampler it started, all
    of them are reaped when waits do not fail, and when no file-system call fails
    no temporary directory is left.  It ends in one of three ways.  With status 0:
    it printed exactly one text and wrote nothing to standard error.  With status
    1: it printed at most one text, and wrote the error and then the hint to
    standard error.  With a panic (status 101): only because a standard stream
    could not be written, standard output for the one text, or standard error for
    the error or the hint. *)
Theorem xtask_always_exits {W U G V D F : Type} `{EqDecision U} (h : BootHost W)
    (crates : DiskCrates U G V D F) (digest : list Z -> list Z) (reserves : Z -> bool) (time : W -> Z)
    (json : Serializers) (render : XtaskError -> list Z) (arguments : list (list Z)) (s : Process W) :
  (forall f, MachineLaws (bh_machine h f) time) -> FatLaws crates -> (forall l, is_bytes (digest l)) ->
  (forall p w b, h_read (bh_host h) p w = Some b -> slice_ok b) -> settled h (xp_world s) ->
  let '(r, s') := main h crates digest reserves json render arguments s in
  settled h (xp_world s') /\
  (no_failures h -> fs_directories (bw_fs (xp_world s')) = fs_directories (bw_fs (xp_world s))) /\
  exists printed written,
    bw_stdout (xp_world s') = bw_stdout (xp_world s) ++ printed /\ (length printed <= 1)%nat /\
    xp_stderr s' = xp_stderr s ++ written /\
    ((r = Ok 0 /\ length printed = 1%nat /\ written = []) \/
     (exists error, r = Ok 1 /\ written = [FAILED ++ render error; HINT]) \/
     (r = Panic /\ printed = [] /\ written = [] /\
      exists text, bh_stdout_takes h (bw_stdout (xp_world s)) text = false) \/
     (r = Panic /\ exists error rest line, written ++ line :: rest = [FAILED ++ render error; HINT] /\
      bh_stderr_takes h (xp_stderr s') line = false)).
Proof.
  intros Hm Hf Hd Hr Hs. unfold main.
  pose proof (run_reports h crates digest reserves time json Hm Hf Hd Hr arguments (xp_world s) Hs) as H.
  destruct (run _ _ _ _ _ _ _) as [[u|error|] w]; destruct H as (S1 & D1 & printed & E & Hle & Hok & Hp).
  - cbn [xp_world xp_stderr]. split_and!; [done..|]. exists printed, []. rewrite app_nil_r. split_and!; [done..|].
    left. split_and!; [done| |done]. apply Hok. by exists u.
  - rewrite eprintln_pair. destruct (bh_stderr_takes h (xp_stderr s) (FAILED ++ render error)) eqn:E1.
    + destruct (bh_stderr_takes h (xp_stderr s ++ [FAILED ++ render error]) HINT) eqn:E2;
        cbn [xp_world xp_stderr]; (split; [done|]); (split; [done|]).
      * eexists printed, _. split_and!; [done|done|reflexivity|]. right. left. by exists error.
      * eexists printed, _. split_and!; [done|done|reflexivity|]. right. right. right. split; [done|].
        by exists error, [], HINT.
    + cbn [xp_world xp_stderr]. split_and!; [done..|]. exists printed, []. rewrite app_nil_r. split_and!; [done..|].
      right. right. right. split; [done|]. by exists error, [HINT], (FAILED ++ render error).
  - cbn [xp_world xp_stderr]. split_and!; [done..|]. exists printed, []. rewrite app_nil_r. split_and!; [done..|].
    right. right. left. destruct (Hp eq_refl) as [-> Ht]. by split_and!.
Qed.
