(* ===== verification/XtaskRuns.v ===== *)
(** What the exit status 0 of xtask says: a successful command did its work, on
    exactly the files and with exactly the request of its command line. *)

From stdpp Require Import gmap.
From S2P Require Import Prelude Bytes Console Text Artifact Protocol ProtocolProps HostScenario HostRun HostRunProps.
From S2P Require Import RawImage HostFs HostFsProps DiskImage DiskImageProps Inspect InspectProps Repro XtaskCli HostExec.
From S2P Require Import BootRunner BootRunnerProps XtaskCliTypes Xtask.
Import Image.

(** ** Inversion of a successful run *)
Section Success.
Context {W U G V D F : Type} `{EqDecision U}.
Variables (h : BootHost W) (crates : DiskCrates U G V D F).
Variables (digest : list Z -> list Z) (reserves : Z -> bool).
Variables (json : Serializers) (render : XtaskError -> list Z).

Lemma embed_Ok {S T E E' A} (get : S -> T) (put : T -> S -> S) (wrap : E -> E') (m : io T E A) s a s' :
  embed get put wrap m s = (Ok a, s') -> exists t, m (get s) = (Ok a, t) /\ s' = put t s.
Proof. unfold embed. destruct (m (get s)) as [[b|e|] t]; [|done..]. intros [= <- <-]. by exists t. Qed.
Lemma on_boot_Ok {A} (m : io (BootWorld W) BootError A) s a s' :
  on_boot m s = (Ok a, s') -> m s = (Ok a, s').
Proof. intros (t & Ht & ->)%embed_Ok. exact Ht. Qed.

Lemma print_json_Ok serialized (s s' : BootWorld W) u :
  print_json h serialized s = (Ok u, s') ->
  exists text, serialized = Some text /\
    s' = mkBootWorld (bw_proc s) (bw_fs s) (bw_next_id s) (bw_stdout s ++ [text]).
Proof.
  unfold print_json. intros (text & s1 & Hr & Hp)%io_bind_Ok. apply require_Ok in Hr as [-> ->].
  unfold println in Hp. destruct (bh_stdout_takes h (bw_stdout s) text); [|done]. injection Hp as _ <-. by exists text.
Qed.

(** Status 0 means that the arguments were a request and its command succeeded. *)
Lemma main_Ok arguments s s' :
  main h crates digest reserves json render arguments s = (Ok 0, s') ->
  exists invocation u, parse_invocation (bh_as_output h) arguments = Ok invocation /\
    perform h crates digest reserves json invocation (xp_world s) = (Ok u, xp_world s') /\
    xp_stderr s' = xp_stderr s.
Proof.
  unfold main. destruct (run _ _ _ _ _ _ _) as [[u|e|] w] eqn:E; [|intros H; exfalso|done].
  2: { revert H. unfold eprintln, mbind, io_bind. cbn [xp_stderr].
       destruct (bh_stderr_takes h (xp_stderr s) _); [|done]. cbn [xp_stderr].
       by destruct (bh_stderr_takes h _ HINT). }
  intros [= <-].
  unfold run in E. apply io_bind_Ok in E as (inv & s1 & Hp & E). injection Hp as Hp <-. apply map_err_Ok in Hp.
  exists inv, u. by split_and!.
Qed.

(** ** Boots *)

(** The report of a finished boot: what ran, on what, and with which logs. *)
Definition boot_evidence (request : BootRequest) (mode : BootMode) (s : BootWorld W) (run : BootRun)
    (execution : QemuExecution) (debug : LogFile) : Prop :=
  exists inputs temporary s1 p,
    launched h crates digest reserves request inputs temporary s s1 /\
    emulation h request mode inputs temporary s1 = (Ok execution, p) /\
    debug = bh_log h (path_join (temporary_path temporary) DEBUG_LOG) (ps_world p) /\
    reports_inputs h digest request mode inputs temporary run.

Lemma observe_boot_evidence request mode s run s' :
  observe_boot h crates digest reserves request mode s = (Ok run, s') ->
  exists identity execution serial debug stderr stdout,
    boot_evidence request mode s run execution debug /\
    observe_execution mode (br_scenario request) identity execution serial debug stderr stdout = Ok run.
Proof.
  intros H. pose proof (observe_boot_launches h crates digest reserves request mode s) as Hb. rewrite H in Hb.
  destruct Hb as [[_ Hn]|(inputs & temporary & s1 & Hl & _ & Hr)]; [by destruct (Hn run)|].
  destruct (Hr run eq_refl) as [Hi (identity & execution & p & He & Ho)].
  eexists identity, execution, _, _, _, _. split; [|exact Ho]. by exists inputs, temporary, s1, p.
Qed.

Lemma boot_test_success request s u s' :
  boot_test h crates digest reserves request s = (Ok u, s') ->
  exists run execution debug text,
    boot_evidence request ScenarioRun s run execution (Contents debug) /\
    qe_timed_out execution = false /\ qe_exit_status execution = Some (scenario_status (br_scenario request)) /\
    protocol_lines debug = handoff_lines ++ [scenario_record (br_scenario request)] /\
    bh_run_json h run = Some text /\ last (bw_stdout s') = Some text.
Proof.
  unfold boot_test, host_check. intros H. inv_boot.
  match goal with H : print_json _ _ _ = _ |- _ => apply print_json_Ok in H as (text & Hj & ->) end.
  match goal with H : map_err _ _ = Ok u |- _ => destruct u; apply map_err_Ok in H; rename H into Hv end.
  match goal with H : observe_boot _ _ _ _ _ _ _ = (Ok ?run, _) |- _ =>
    apply observe_boot_evidence in H as (identity & execution & serial & debug & stderr & stdout & He & Ho);
    exists run, execution end.
  destruct (accepted_run_evidence _ _ _ _ _ _ _ _ _ Ho Hv) as (bytes & -> & _ & Ht & Hs & _ & _ & Hl).
  exists bytes, text. split_and!; [done..|apply last_snoc].
Qed.

(** The program on a boot that is accepted: it prints the report and exits with 0. *)
Lemma boot_test_accepts request run text arguments (s s1 : BootWorld W) stderr :
  observe_boot h crates digest reserves request ScenarioRun s = (Ok run, s1) ->
  validate_boot_outcome run = Ok tt -> bh_run_json h run = Some text ->
  bh_stdout_takes h (bw_stdout s1) text = true ->
  parse_invocation (bh_as_output h) arguments = Ok (RunBootTest request) ->
  main h crates digest reserves json render arguments (mkProcess s stderr) =
    (Ok 0, mkProcess (mkBootWorld (bw_proc s1) (bw_fs s1) (bw_next_id s1) (bw_stdout s1 ++ [text])) stderr).
Proof.
  intros Ho Hv Hj Ht Hp. unfold main, Xtask.run. unfold mbind, io_bind. cbn [xp_world xp_stderr]. rewrite Hp.
  cbn [map_err]. cbn [perform]. unfold on_boot, embed, boot_test, mbind, io_bind. cbn [id]. rewrite Ho, Hj.
  unfold print_json, BootRunner.require, pure, println, mbind, io_bind. cbn [ok_or]. rewrite Ht.
  unfold host_check, pure. by rewrite Hv.
Qed.

(** A timeout is reported only of an emulator that was stopped. *)
Lemma timeout_class timed_out status trace : classify_boot timed_out status trace = Timeout_ -> timed_out = true.
Proof. unfold classify_boot. destruct timed_out; [done|]. repeat case_match; done. Qed.

Lemma timeout_probe_success request s u s' :
  timeout_probe h crates digest reserves request s = (Ok u, s') ->
  exists run execution debug text,
    boot_evidence request TimeoutProbe s run execution debug /\ qe_timed_out execution = true /\
    br_timeout_ms run <= qe_duration_ms execution /\
    bh_run_json h run = Some text /\ last (bw_stdout s') = Some text.
Proof.
  unfold timeout_probe, host_check. intros H. inv_boot.
  match goal with H : print_json _ _ _ = _ |- _ => apply print_json_Ok in H as (text & Hj & ->) end.
  match goal with H : map_err _ _ = Ok u |- _ => apply map_err_Ok in H; rename H into Hv end.
  match goal with H : observe_boot _ _ _ _ _ _ _ = (Ok ?run, _) |- _ =>
    apply observe_boot_evidence in H as (identity & execution & serial & debug & stderr & stdout & He & Ho);
    exists run, execution, debug, text end.
  unfold validate_timeout_probe in Hv. apply fail_if_Ok in Hv. bool_solve. destruct Hv as [[_ Hc] Hd].
  unfold observe_execution in Ho. apply bind_Ok in Ho as ([b t] & _ & Ho). apply bind_Ok in Ho as (trace & _ & Ho).
  apply bind_Ok in Ho as (log & _ & [= Hr]). rewrite <- Hr in Hc, Hd. cbn [br_classification br_duration_ms] in Hc, Hd.
  apply timeout_class in Hc. split_and!; [done|done| |done|apply last_snoc]. by rewrite <- Hr.
Qed.

(** ** Images *)
Lemma build_image_Ok os pid loader kernel output scenario fs manifest fs' :
  build_image crates digest reserves os pid loader kernel output scenario fs = (Ok manifest, fs') ->
  exists l k disk name, ha_read loader = Some l /\ ha_read kernel = Some k /\
    build_image_bytes crates digest reserves l k scenario = Ok (disk, manifest) /\
    op_file_name output = Some name /\ fs_files fs' !! (output_directory output, name) = Some disk.
Proof.
  unfold build_image. destruct (_ ≫= _) as [[disk m]|e|] eqn:E; [|done..].
  apply bind_Ok in E as (l & Hl%read_host_artifact_Ok & E). apply bind_Ok in E as (k & Hk%read_host_artifact_Ok & E).
  destruct (write_atomic os pid output disk fs) as [[[]|e|] fs1] eqn:Hw; [|done..]. intros [= <- <-].
  apply write_atomic_Ok in Hw as (name & Hn & Hf). by exists l, k, disk, name.
Qed.

Lemma perform_image_success request s u s' :
  perform_image h crates digest reserves json request s = (Ok u, s') ->
  exists l k disk manifest name text,
    h_read (bh_host h) (xi_loader request) (ps_world (bw_proc s)) = Some l /\
    h_read (bh_host h) (xi_kernel request) (ps_world (bw_proc s)) = Some k /\
    build_image_bytes crates digest reserves l k (xi_scenario request) = Ok (disk, manifest) /\
    op_file_name (bh_as_output h (xi_output request)) = Some name /\
    fs_files (bw_fs s') !! (output_directory (bh_as_output h (xi_output request)), name) = Some disk /\
    sz_image json manifest = Some text /\ bw_stdout s' = bw_stdout s ++ [text].
Proof.
  unfold perform_image. intros (manifest & s1 & Hb & Hp)%io_bind_Ok.
  apply embed_Ok in Hb as (fs & Hb & ->). apply build_image_Ok in Hb as (l & k & disk & name & Hl & Hk & Hi & Hn & Hf).
  unfold print in Hp. apply on_boot_Ok, print_json_Ok in Hp as (text & Ht & ->).
  by exists l, k, disk, manifest, name, text.
Qed.

(** ** The other commands *)
Lemma perform_inspect_success request s u s' :
  perform_inspect h digest json request s = (Ok u, s') ->
  exists kernel map inspection text,
    h_read (bh_host h) (xk_kernel request) (ps_world (bw_proc s)) = Some kernel /\
    h_read (bh_host h) (xk_map request) (ps_world (bw_proc s)) = Some map /\
    inspect_kernel_bytes digest kernel map = Ok inspection /\
    sz_inspection json inspection = Some text /\ bw_stdout s' = bw_stdout s ++ [text].
Proof.
  unfold perform_inspect. intros (inspection & s1 & Hb & Hp)%io_bind_Ok. injection Hb as Hb <-.
  apply map_err_Ok in Hb. unfold inspect_kernel in Hb. apply bind_Ok in Hb as (k & Hk%inspect_read_Ok & Hb).
  apply bind_Ok in Hb as (m & Hm%inspect_read_Ok & Hb).
  unfold print in Hp. apply on_boot_Ok, print_json_Ok in Hp as (text & Ht & ->). by exists k, m, inspection, text.
Qed.

Lemma perform_repro_success request s u s' :
  perform_repro h crates digest reserves json request s = (Ok u, s') ->
  exists report t text,
    verify (bh_host h) crates digest reserves (bh_os h) (bh_pid h) request (repro_part s) = (Ok report, t) /\
    bw_fs s' = rw_fs t /\ sz_repro json report = Some text /\ bw_stdout s' = bw_stdout s ++ [text].
Proof.
  unfold perform_repro. intros (report & s1 & Hb & Hp)%io_bind_Ok. apply embed_Ok in Hb as (t & Hb & ->).
  unfold print in Hp. apply on_boot_Ok, print_json_Ok in Hp as (text & Ht & ->). by exists report, t, text.
Qed.

Lemma baseline_success request s u s' :
  baseline h crates digest reserves request s = (Ok u, s') ->
  exists report s1 text,
    run_baseline h crates digest reserves request s = (Ok report, s1) /\ bw_fs s' = bw_fs s1 /\
    bh_baseline_json h report = Some text /\ last (bw_stdout s') = Some text.
Proof.
  unfold baseline. intros (report & s1 & Hb & Hp)%io_bind_Ok. apply print_json_Ok in Hp as (text & Ht & ->).
  exists report, s1, text. split_and!; [done..|apply last_snoc].
Qed.
End Success.

(** ** Properties *)

(** What a command has established when it succeeds, from the world [s] it was
    started in to the world [s'] it left. *)
Definition established {W U G V D F : Type} `{EqDecision U} (h : BootHost W) (crates : DiskCrates U G V D F)
    (digest : list Z -> list Z) (reserves : Z -> bool) (json : Serializers) (invocation : Invocation)
    (s s' : BootWorld W) : Prop :=
  match invocation with
  | Usage => bw_stdout s' = bw_stdout s ++ [USAGE]
  | RunImage request =>
      exists l k disk manifest name text,
        h_read (bh_host h) (xi_loader request) (ps_world (bw_proc s)) = Some l /\
        h_read (bh_host h) (xi_kernel request) (ps_world (bw_proc s)) = Some k /\
        build_image_bytes crates digest reserves l k (xi_scenario request) = Ok (disk, manifest) /\
        op_file_name (bh_as_output h (xi_output request)) = Some name /\
        fs_files (bw_fs s') !! (output_directory (bh_as_output h (xi_output request)), name) = Some disk /\
        sz_image json manifest = Some text /\ bw_stdout s' = bw_stdout s ++ [text]
  | RunInspect request =>
      exists kernel map inspection text,
        h_read (bh_host h) (xk_kernel request) (ps_world (bw_proc s)) = Some kernel /\
        h_read (bh_host h) (xk_map request) (ps_world (bw_proc s)) = Some map /\
        inspect_kernel_bytes digest kernel map = Ok inspection /\
        sz_inspection json inspection = Some text /\ bw_stdout s' = bw_stdout s ++ [text]
  | RunRepro request =>
      exists report t text,
        verify (bh_host h) crates digest reserves (bh_os h) (bh_pid h) request (repro_part s) = (Ok report, t) /\
        bw_fs s' = rw_fs t /\ sz_repro json report = Some text /\ bw_stdout s' = bw_stdout s ++ [text]
  | RunBootTest request =>
      exists run execution debug text,
        boot_evidence h crates digest reserves request ScenarioRun s run execution (Contents debug) /\
        qe_timed_out execution = false /\
        qe_exit_status execution = Some (scenario_status (br_scenario request)) /\
        protocol_lines debug = handoff_lines ++ [scenario_record (br_scenario request)] /\
        bh_run_json h run = Some text /\ last (bw_stdout s') = Some text
  | RunTimeoutProbe request =>
      exists run execution debug text,
        boot_evidence h crates digest reserves request TimeoutProbe s run execution debug /\
        br_scenario request = Normal /\ qe_timed_out execution = true /\
        br_timeout_ms run <= qe_duration_ms execution /\
        bh_run_json h run = Some text /\ last (bw_stdout s') = Some text
  | RunBaseline request =>
      exists report s1 text,
        run_baseline h crates digest reserves request s = (Ok report, s1) /\ bw_fs s' = bw_fs s1 /\
        bh_baseline_json h report = Some text /\ last (bw_stdout s') = Some text
  end.

(** C15. Exit status 0 is evidence.  When xtask exits with 0, its command line was
    a well-typed request and the command did what it is for, on the files its
    options name: [image] wrote to the output path the image built from the
    loader and kernel it read; [inspect-kernel] found the kernel and map
    consistent; [repro-check] verified the builds; [boot-test] booted a copy of a
    validated image with the requested scenario in an emulator that ended by
    itself with the scenario's status, and whose debug log has exactly the
    handoff records and the scenario's record; [timeout-probe] saw the emulator
    stopped by the timeout and not before; [baseline] made its baseline.  The
    printed text is the serialized result, and nothing is on standard error. *)
Theorem exit_zero_is_evidence {W U G V D F : Type} `{EqDecision U} (h : BootHost W)
    (crates : DiskCrates U G V D F) (digest : list Z -> list Z) (reserves : Z -> bool) (json : Serializers)
    (render : XtaskError -> list Z) (arguments : list (list Z)) (s s' : Process W) :
  main h crates digest reserves json render arguments s = (Ok 0, s') ->
  exists invocation, parse_invocation (bh_as_output h) arguments = Ok invocation /\ invocation_ok invocation /\
    established h crates digest reserves json invocation (xp_world s) (xp_world s') /\ xp_stderr s' = xp_stderr s.
Proof.
  intros (inv & u & Hp & H & Hs)%main_Ok. exists inv. split; [done|].
  destruct (parse_invocation_yields (bh_as_output h) arguments) as [_ Hty]. specialize (Hty inv Hp).
  split; [done|]. split; [|done]. destruct inv as [|request|request|request|request|request|request]; cbn [perform] in H.
  - apply on_boot_Ok in H. unfold println in H. destruct (bh_stdout_takes h _ USAGE); [|done]. by injection H as _ <-.
  - by apply perform_image_success in H.
  - by apply perform_inspect_success in H.
  - by apply perform_repro_success in H.
  - by apply on_boot_Ok, boot_test_success in H.
  - apply on_boot_Ok, timeout_probe_success in H as (run & execution & debug & text & H1 & H2 & H3 & H4 & H5).
    exists run, execution, debug, text. destruct Hty as [_ Hn]. by split_and!.
  - by apply on_boot_Ok, baseline_success in H.
Qed.
