(* ===== verification/Acceptance.v ===== *)
(** The boot as a whole, seen from the host: a validated image, the loader and
    the kernel on it, the emulator that runs them, the polling of the debug log,
    the collected logs, and the verdict of [run_boot] (crates/xtask/src/qemu.rs)
    and of the program (crates/xtask/src/main.rs). *)

From stdpp Require Import gmap.
From S2P Require Import Prelude Bytes Console Text Artifact Protocol ProtocolProps HostScenario HostRun HostRunProps.
From S2P Require Import RawImage HostFs HostFsProps DiskImage DiskImageProps Repro XtaskCli HostExec HostExecProps.
From S2P Require Import BootRunner BootRunnerProps GuestRun Xtask XtaskRuns.
From S2P Require Scenario Memory Loader LoaderContract LoaderProps Pipeline VolumeBoot.
Import Image.

(** ** Text that is read line by line *)
Section Contains.
Variable record : list Z.
Hypothesis Hne : record <> [].
Hypothesis Hlf : LF ∉ record.

Lemma contains_nil : contains [] record = false.
Proof using Hne. cbn [contains]. rewrite take_nil, orb_false_r. by apply bool_decide_eq_false. Qed.

(** A record does not go over the end of a line. *)
Lemma take_break a b : take (length record) (a ++ LF :: b) = record <-> take (length record) a = record.
Proof using Hne Hlf.
  destruct (decide (length record <= length a)%nat) as [Hl|Hl]; [by rewrite take_app_le|]. split.
  - intros H. exfalso. apply Hlf. rewrite <- H. apply (list_elem_of_lookup_2 _ (length a)).
    rewrite lookup_take_lt by lia. by rewrite lookup_app_r, Nat.sub_diag by lia.
  - intros H. apply (f_equal length) in H. rewrite length_take in H. lia.
Qed.

Lemma contains_break a b : contains (a ++ LF :: b) record = contains a record || contains b record.
Proof using Hne Hlf.
  induction a as [|x a IH].
  - rewrite contains_nil. cbn [app contains]. rewrite bool_decide_eq_false_2; [done|].
    intros H. apply (take_break [] b) in H. rewrite take_nil in H. by apply Hne.
  - cbn [app contains]. rewrite IH, orb_assoc. do 2 f_equal. apply bool_decide_ext, (take_break (x :: a)).
Qed.

(** Text whose lines are all complete. *)
Definition complete (text : list Z) : Prop := text = [] \/ last text = Some LF.

Lemma contains_app a b : complete a -> contains (a ++ b) record = contains a record || contains b record.
Proof using Hne Hlf.
  intros [->|H]; [by rewrite contains_nil|]. apply last_Some in H as [a' ->].
  rewrite <- app_assoc. cbn [app]. by rewrite !contains_break, contains_nil, orb_false_r.
Qed.
End Contains.

(** ** The collected logs *)
Definition TRUNCATION_NOTE : list Z := ascii_bytes "[host: log truncated at 4194304 bytes]" ++ [LF].

(** The text [collect_logs] takes from a log file. *)
Definition captured (path : LogFile) : list Z :=
  match read_log_bounded path with Ok (bytes, _) => from_utf8_lossy bytes | _ => [] end.

Lemma collect_logs_contain record paths : forall combined,
  record <> [] -> (LF ∉ record) -> contains TRUNCATION_NOTE record = false ->
  Forall (fun path => path <> Unreadable) paths -> complete combined ->
  exists log, collect_logs_from combined paths = Ok log /\
    contains log record = contains combined record || existsb (fun path => contains (captured path) record) paths.
Proof.
  induction paths as [|path paths IH]; intros combined Hne Hlf Hnote Hr Hc; cbn [collect_logs_from existsb].
  { exists combined. by rewrite orb_false_r. }
  inversion Hr as [|? ? Hp Hr']; subst. unfold captured at 1.
  assert (exists bytes truncated, read_log_bounded path = Ok (bytes, truncated)) as (bytes & truncated & E)
    by (destruct path; [by eexists _, _|done|by eexists _, _]).
  rewrite E, bind_value. set (c1 := combined ++ from_utf8_lossy bytes).
  set (c2 := if negb (bool_decide (c1 = [])) && negb (bool_decide (last c1 = Some LF)) then c1 ++ [LF] else c1).
  assert (complete c2 /\ contains c2 record = contains c1 record) as [Hc2 E2].
  { subst c2. destruct (decide (c1 = [])) as [H|H]; [rewrite bool_decide_eq_true_2 by done; split; [by left|done]|].
    rewrite (bool_decide_eq_false_2 (c1 = [])) by done. cbn [negb andb].
    case_bool_decide as Hl; cbn [negb]; [split; [by right|done]|]. split; [right; apply last_snoc|].
    by rewrite contains_break, contains_nil, orb_false_r. }
  set (c3 := if truncated then c2 ++ _ else c2).
  assert (complete c3 /\ contains c3 record = contains c2 record) as [Hc3 E3].
  { subst c3. destruct truncated; [|done]. change (_ ++ [LF]) with TRUNCATION_NOTE.
    split; [right; rewrite last_app; reflexivity|]. by rewrite contains_app, Hnote, orb_false_r. }
  destruct (IH c3 Hne Hlf Hnote Hr' Hc3) as (log & El & Hlog). exists log. split; [exact El|].
  rewrite Hlog, E3, E2. unfold c1. rewrite contains_app by done. by rewrite orb_assoc.
Qed.

(** ** The verdict *)

(** The record whose presence would contradict a rejection. *)
Definition other_rejection (s : BootScenario) : option (list Z) :=
  match s with
  | BadVersion => Some TRUNCATED_MARKER
  | Truncated => Some BAD_VERSION_MARKER
  | _ => None
  end.
(** A log file that does not speak against scenario [s]. *)
Definition harmless (s : BootScenario) (path : LogFile) : Prop :=
  path <> Unreadable /\ forall record, other_rejection s = Some record -> contains (captured path) record = false.

(** What a guest in scenario [s] leaves, as the model of the guest has it. *)
Definition scenario_log (s : BootScenario) : list Z := Pipeline.guest_log (loader_scenario s).

Lemma scenario_log_captured s :
  read_log_bounded (Contents (scenario_log s)) = Ok (scenario_log s, false) /\
  captured (Contents (scenario_log s)) = scenario_log s.
Proof. destruct s; vm_compute; by split. Qed.

Lemma collected s record serial stderr stdout :
  record = BAD_VERSION_MARKER \/ record = TRUNCATED_MARKER ->
  serial <> Unreadable -> stderr <> Unreadable -> stdout <> Unreadable ->
  exists log, collect_logs [serial; Contents (scenario_log s); stderr; stdout] = Ok log /\
    contains log record = contains (captured serial) record || contains (scenario_log s) record
      || contains (captured stderr) record || contains (captured stdout) record.
Proof.
  intros Hrec H1 H2 H3.
  destruct (collect_logs_contain record [serial; Contents (scenario_log s); stderr; stdout] [])
    as (log & E & Hlog).
  - by destruct Hrec as [->| ->].
  - destruct Hrec as [->| ->]; by_decide.
  - by destruct Hrec as [->| ->].
  - by repeat constructor.
  - by left.
  - exists log. split; [exact E|]. rewrite Hlog. cbn [existsb].
    rewrite (proj2 (scenario_log_captured s)), orb_false_r, !orb_assoc. by destruct Hrec as [->| ->].
Qed.

(** The execution of a guest in scenario [s], as [GuestRun.reports_guest] has it. *)
Definition scenario_execution (s : BootScenario) (e : QemuExecution) : Prop :=
  reports_guest (scenario_log s) (Some (Pipeline.guest_status (loader_scenario s))) e.

(** Both rejection records are in the collected log exactly as the scenario wants. *)
Lemma rejection_evidence s serial stderr stdout :
  harmless s serial -> harmless s stderr -> harmless s stdout ->
  exists log, collect_logs [serial; Contents (scenario_log s); stderr; stdout] = Ok log /\
    (s = BadVersion -> contains log BAD_VERSION_MARKER = true /\ contains log TRUNCATED_MARKER = false) /\
    (s = Truncated -> contains log TRUNCATED_MARKER = true /\ contains log BAD_VERSION_MARKER = false).
Proof.
  intros [R1 H1] [R2 H2] [R3 H3].
  destruct (collected s BAD_VERSION_MARKER serial stderr stdout) as (log & E & Hb); [auto|done..|].
  destruct (collected s TRUNCATED_MARKER serial stderr stdout) as (log' & E' & Ht); [auto|done..|].
  rewrite E in E'. injection E' as <-. exists log. split; [done|]. rewrite Hb, Ht.
  split; intros ->; cbn [other_rejection] in *;
    rewrite (H1 _ eq_refl), (H2 _ eq_refl), (H3 _ eq_refl); (split; [|by vm_compute]);
    apply orb_true_iff; left; apply orb_true_iff; left; apply orb_true_iff; right; vm_compute; reflexivity.
Qed.

Lemma scenario_run_accepted s identity e serial stderr stdout :
  scenario_execution s e -> harmless s serial -> harmless s stderr -> harmless s stdout ->
  exists run, observe_execution ScenarioRun s identity e serial (Contents (scenario_log s)) stderr stdout = Ok run /\
    validate_boot_outcome run = Ok tt.
Proof.
  intros (Hst & Hto & Hready) H1 H2 H3.
  destruct (rejection_evidence s serial stderr stdout H1 H2 H3) as (log & El & Hbad & Htrunc).
  assert (s <> Normal -> qe_time_to_ready_marker_ms e = None) as Hnone.
  { intros Hs. destruct (qe_time_to_ready_marker_ms e) as [t|]; [|done]. exfalso.
    pose proof (proj1 Hready (ltac:(by eexists))) as Hr. destruct s; [by apply Hs|discriminate Hr..]. }
  unfold observe_execution. rewrite (proj1 (scenario_log_captured s)), bind_value, parse_stream_exact, bind_value.
  rewrite El, bind_value. eexists. split; [reflexivity|].
  unfold validate_boot_outcome, validate_scenario_outcome.
  cbn [br_mode br_scenario br_classification br_exit_status br_saw_ready_marker br_saw_reject_marker
    br_saw_panic_marker br_time_to_ready_marker_ms br_terminal_code br_diagnostic_protocol_error br_log].
  rewrite Hst, Hto. destruct s.
  - destruct (proj2 Hready ltac:(vm_compute; reflexivity)) as [t ->]. vm_compute. reflexivity.
  - destruct (Hbad eq_refl) as [-> ->]. rewrite Hnone by done. vm_compute. reflexivity.
  - destruct (Htrunc eq_refl) as [-> ->]. rewrite Hnone by done. vm_compute. reflexivity.
  - rewrite Hnone by done. vm_compute. reflexivity.
Qed.

(** ** The emulator *)

(** The exit status the emulator's debug-exit device makes of the values written
    to it: it ends at the first. *)
Definition emulator_status (written : list Z) : option Z :=
  match written with v :: _ => Some (Z.lor (Z.shiftl v 1) 1) | [] => None end.

(** The emulator on the command line this program makes, as its manual has it: with
    [-debugcon file:] what the guest writes to port 0xe9 goes to the debug log, and
    with [isa-debug-exit] the first value the guest writes to port 0xf4 ends the
    process with a status made of it.  [guest] is the final state of the devices of
    the machine that is booted from the image copy; it ends within [deadline], and
    the other log files do not speak against [s].  That [guest] wrote the log of any
    scenario is not assumed here. *)
Class RunsGuest {W : Type} (h : BootHost W) (time : W -> Z) (directory : list Z) (inputs : BootInputs)
    (s : BootScenario) (guest : Console.Machine) (deadline : Z) : Prop := {
  rg_emulates written : written !! (directory, IMAGE_COPY) = Some (bi_image inputs) ->
    exists g, Emulates (machine_at h written (path_join directory DEBUG_LOG)) time
      (boot_command h directory inputs ScenarioRun) (debugcon guest) (emulator_status (exits guest)) deadline g;
  rg_quiet name w : name ∈ [SERIAL_LOG; STDERR_LOG; STDOUT_LOG] ->
    harmless s (bh_log h (path_join directory name) w)
}.

Section Run.
Context {W U G V D I : Type} `{EqDecision U} (h : BootHost W) (crates : DiskCrates U G V D I).
Variables (digest : list Z -> list Z) (reserves : Z -> bool) (time : W -> Z).
Hypothesis Htime : forall f, MachineLaws (bh_machine h f) time.
Hypothesis Hdigest : forall l, is_bytes (digest l).
(** No file-system call fails. *)
Hypothesis Hos : forall n, os_fails (bh_os h) n = false.

Lemma run_identity_total request inputs invocation :
  len (bi_image inputs) = DISK_BYTES -> exists identity, run_identity digest request inputs invocation = Ok identity.
Proof using Hdigest.
  intros Hl. unfold run_identity, sha256_hex. rewrite Hl.
  change (try_uint 64 DISK_BYTES) with (Some DISK_BYTES). cbn [ok_or]. rewrite bind_value.
  destruct (hex_encode_total (E:=BootError) _ (Hdigest (bi_image inputs))) as (h1 & -> & _). rewrite bind_value.
  destruct (hex_encode_total (E:=BootError) _ (Hdigest (bi_ovmf_code inputs))) as (h2 & -> & _). rewrite bind_value.
  destruct (hex_encode_total (E:=BootError) _ (Hdigest (bi_ovmf_vars inputs))) as (h3 & -> & _). rewrite bind_value.
  by eexists.
Qed.

(** The boot, in its temporary directory. *)
Lemma boot_in_accepted request inputs temporary guest deadline s :
  0 <= request_timeout request -> deadline <= request_timeout request -> len (bi_image inputs) = DISK_BYTES ->
  RunsGuest h time (temporary_path temporary) inputs (br_scenario request) guest deadline ->
  debugcon guest = scenario_log (br_scenario request) ->
  emulator_status (exits guest) = Some (Pipeline.guest_status (loader_scenario (br_scenario request))) ->
  exists run s', boot_in h digest (temporary_path temporary) request ScenarioRun inputs s = (Ok run, s') /\
    validate_boot_outcome run = Ok tt.
Proof using Htime Hdigest Hos.
  intros Hto Hdl Hlen [Hem Hq] Hlog Hst. set (directory := temporary_path temporary) in *. unfold boot_in.
  pose proof (stage_succeeds h directory inputs s Hos) as Hs.
  destruct (stage h directory inputs s) as [r s1] eqn:Es. cbn [fst] in Hs. subst r.
  destruct (stage_Ok h directory inputs s s1 Es) as (_ & Hf & _).
  destruct (Hem (fs_files (bw_fs s1))) as [g Hg]; [rewrite Hf; apply staged_copies|]. rewrite Hlog, Hst in Hg.
  pose proof (machine_at_laws h (fs_files (bw_fs s1)) (path_join directory DEBUG_LOG) time (Htime _)) as Hm.
  assert (len (scenario_log (br_scenario request)) <= MAX_OBSERVED_LOG_BYTES) as Hl
    by (destruct (br_scenario request); by_decide).
  destruct (execution_reports _ time _ _ _ _ g (bh_chunk h) (request_timeout request) (bw_proc s1) Hl Hto Hdl)
    as (e & p & Ee & He & Hx).
  set (s2 := mkBootWorld p (bw_fs s1) (bw_next_id s1) (bw_stdout s1)).
  assert (execute h directory (boot_command h directory inputs ScenarioRun) (request_timeout request) s1 = (Ok e, s2))
    as E2 by (unfold execute; by rewrite Ee).
  assert (bh_log h (path_join directory DEBUG_LOG) (ps_world p) = Contents (scenario_log (br_scenario request))) as Hd.
  { pose proof (em_complete _ Hx) as Hc. destruct (em_log (ps_world p)) as [Hd|[Hz _]]; cbn [machine_at m_debug_log] in *.
    - by rewrite take_ge in Hd by done.
    - exfalso. rewrite Hz in Hc. apply Nat.le_0_r in Hc. destruct (br_scenario request); discriminate Hc. }
  destruct (run_identity_total request inputs (boot_invocation h directory inputs ScenarioRun) Hlen) as [identity Hi].
  destruct (scenario_run_accepted (br_scenario request) identity e
    (bh_log h (path_join directory SERIAL_LOG) (ps_world p)) (bh_log h (path_join directory STDERR_LOG) (ps_world p))
    (bh_log h (path_join directory STDOUT_LOG) (ps_world p))) as (run & Hr & Hv);
    [exact He|apply Hq; rewrite !elem_of_cons; auto..|].
  exists run, s2. split; [|exact Hv]. unfold mbind, io_bind. rewrite Es, E2. unfold report.
  cbn [bw_proc s2]. by rewrite Hi, bind_value, Hd, Hr.
Qed.
End Run.

(** An accepted run was classified as its scenario demands. *)
Lemma accepted_class run :
  validate_boot_outcome run = Ok tt ->
  br_classification run = Pipeline.expected_class (loader_scenario (HostRun.br_scenario run)).
Proof.
  unfold validate_boot_outcome, validate_scenario_outcome. intros H. apply bind_fail_if in H as [_ H].
  destruct (HostRun.br_scenario run); apply fail_if_Ok, negb_false_iff in H; rewrite !andb_true_iff in H;
    rewrite bool_decide_eq_true in H; apply H.
Qed.

(** A normal run is only accepted with a time for its marker. *)
Lemma accepted_ready_time run :
  validate_boot_outcome run = Ok tt -> HostRun.br_scenario run = Normal -> is_Some (br_time_to_ready_marker_ms run).
Proof.
  intros Hok Hrs. unfold validate_boot_outcome, validate_scenario_outcome in Hok.
  apply bind_fail_if in Hok as [_ Hok]. rewrite Hrs in Hok. apply fail_if_Ok, negb_false_iff in Hok.
  destruct (br_time_to_ready_marker_ms run); [done|]. rewrite !andb_true_iff in Hok. naive_solver.
Qed.

(** ** Properties *)

(** C1. The whole system, end to end.  Take any image, firmware files and host on
    which the preparation of a boot succeeds: the image is validated and has the
    requested scenario, a temporary directory was made, and no file-system call
    fails.  Let the kernel file of that image be a build of this kernel for the
    machine's processor, let the firmware serve the files of that image and grant
    the loader its memory, so that the loader reaches its jump, and let the
    emulator, whenever it is started on a copy of that image, log what this
    machine's guest writes to its debug console and exit with the status made of the
    guest's exit code, within the timeout, its other logs not containing the other
    rejection.  Then, for each of the four scenarios and however reads of the log are
    cut and polls fall, the boot is observed with a report that passes validation:
    the class is the one the scenario demands, and a normal boot has a time for its
    ready marker.  [run_boot] returns that report, and the program started with any
    boot-test command line that makes this request, on a standard output that takes
    the report's text, prints that text and exits with status 0, with nothing on
    standard error. *)
Theorem validated_images_are_accepted {W U G V D I F H : Type} `{EqDecision U} (h : BootHost W)
    (crates : DiskCrates U G V D I) (digest : list Z -> list Z) (reserves : Z -> bool) (time : W -> Z)
    (request : BootRequest) (inputs : BootInputs) (temporary : list Z * list Z) (s s1 s2 : BootWorld W)
    (fw : Loader.Firmware F H) (files : Loader.FilePath -> list Z) (file_at : H -> F -> list Z -> Prop)
    (lsr : nat -> Z) (execute : Pipeline.Processor) (ld : Pipeline.Layout) (w : Loader.World) (deadline : Z)
    entry contract n mem m :
  (forall f, MachineLaws (bh_machine h f) time) -> (forall l, is_bytes (digest l)) -> FatLaws crates ->
  (forall i, os_fails (bh_os h) i = false) ->
  read_inputs h crates digest reserves request s = (Ok inputs, s1) -> slice_ok (bi_image inputs) ->
  create_temporary_directory h s1 = (Ok temporary, s2) ->
  (forall path, VolumeBoot.esp_file crates reserves (bi_image inputs) path = Some (files path)) ->
  LoaderProps.FirmwareLaws fw -> VolumeBoot.ServesVolume fw files file_at ->
  Pipeline.RunsKernel execute lsr (files Loader.KERNEL_ELF) ld ->
  Pipeline.grants_apart fw (files Loader.KERNEL_ELF) ->
  Loader.main fw lsr w power_on = Loader.Transfer entry contract n mem m ->
  RunsGuest h time (temporary_path temporary) inputs (br_scenario request) (Pipeline.boot fw lsr execute w)
    deadline ->
  deadline <= request_timeout request ->
  exists run, HostRun.br_scenario run = br_scenario request /\ validate_boot_outcome run = Ok tt /\
    br_classification run = Pipeline.expected_class (loader_scenario (br_scenario request)) /\
    (br_scenario request = Normal -> is_Some (br_time_to_ready_marker_ms run)) /\
    (exists s', run_boot h crates digest reserves request s = (Ok run, s')) /\
    forall json render arguments stderr text,
      parse_invocation (bh_as_output h) arguments = Ok (RunBootTest request) -> bh_run_json h run = Some text ->
      (forall printed, bh_stdout_takes h printed text = true) ->
      exists s', main h crates digest reserves json render arguments (mkProcess s stderr) =
          (Ok 0, mkProcess s' stderr) /\ last (bw_stdout s') = Some text.
Proof.
  intros Htime Hdigest Hfat Hos Hin Hsl Htmp Hfiles Hfw Hsv Hrk Hap Hmain Hrun Hdl.
  destruct (read_inputs_Ok _ _ _ _ _ _ _ _ Hin) as (Hto & _ & manifest & Hv & Hsc).
  destruct (VolumeBoot.image_transfers crates digest reserves _ manifest Hsl Hv fw files file_at Hfiles w lsr execute ld
    Hap _ _ _ _ _ Hmain) as (_ & Hdc & Hx). rewrite Hsc in Hdc, Hx.
  destruct (boot_in_accepted h digest time Htime Hdigest Hos request inputs temporary _ deadline s2
    ltac:(lia) Hdl (validated_length crates digest reserves _ manifest Hv) Hrun Hdc ltac:(by rewrite Hx)) as (run & s3 & Hb & Hok).
  assert (observe_boot h crates digest reserves request ScenarioRun s = (Ok run,
    mkBootWorld (bw_proc s3) (drop_directory h temporary (bw_fs s3)) (bw_next_id s3) (bw_stdout s3))) as Ho.
  { unfold observe_boot, mbind, io_bind. rewrite Hin, Htmp. unfold with_temporary. by rewrite Hb. }
  destruct (observe_boot_report h crates digest reserves _ _ _ _ _ Ho) as [_ Hrs].
  exists run. split; [done|]. split; [done|]. split; [by rewrite (accepted_class run Hok), Hrs|]. split.
  - intros Hn. rewrite Hn in Hrs. by apply accepted_ready_time.
  - split; [eexists; unfold run_boot, host_check, pure, mbind, io_bind; rewrite Ho, Hok; reflexivity|].
    intros json render arguments stderr text Hp Hj Hst. eexists.
    split; [by apply (boot_test_accepts _ _ _ _ _ _ request run)|]. cbn [bw_stdout]. apply last_snoc.
Qed.
