(* ===== verification/AcceptanceDemo.v ===== *)
(** The theorems of [VolumeBoot], [Acceptance], [XtaskProps] and [XtaskRuns]
    applied to a concrete system: the disk of [DiskDemo], the firmware of
    [LoaderProps] on its files, the processor of [Pipeline], the host of [BootDemo]
    and one whose emulator logs, in two steps, whatever its guest writes. *)

From stdpp Require Import gmap.
From S2P Require Import Prelude Bytes Console Text Artifact Protocol ProtocolProps HostScenario HostRun HostRunProps.
From S2P Require Import RawImage HostFs HostFsProps DiskImage DiskImageProps DiskDemo Repro XtaskCli HostExec HostExecProps.
From S2P Require Import BootRunner BootRunnerProps BootDemo GuestRun Xtask XtaskProps XtaskRuns Acceptance.
From S2P Require Scenario Memory Loader LoaderContract LoaderProps Pipeline VolumeBoot ElfSpec ElfProps.
Import Image.

(** ** The firmware on the files of the disk *)
Definition disk_files (path : Loader.FilePath) : list Z :=
  match path with Loader.KERNEL_ELF => ElfProps.sample_elf | Loader.BOOT_CFG => as_str Normal ++ [LF] end.
Definition disk_firmware : Loader.Firmware (list Z) unit :=
  LoaderProps.demo_fw ElfProps.sample_elf (as_str Normal ++ [LF]) 7.
Definition served (_ : unit) (f rest : list Z) : Prop := f = rest /\ is_bytes rest.

#[global] Instance disk_served : VolumeBoot.ServesVolume disk_firmware disk_files served.
Proof.
  split; try done.
  - intros path f. exists tt. eexists. split; [reflexivity|]. split; [by destruct path|]. destruct path; by_decide.
  - intros h f rest Hs. exists f. by split.
  - intros []. apply LoaderProps.demo_serves.
Qed.

(** What the host's FAT library reads from the disk. *)
Lemma disk_esp_files path : VolumeBoot.esp_file demo_crates demo_reserves demo_disk path = Some (disk_files path).
Proof.
  unfold VolumeBoot.esp_file. generalize (esp_bytes demo_disk). intros esp.
  change (fat_mount demo_crates get_current_date get_current_date_time esp) with (Some tt). cbn [mbind option_bind].
  change (root_dir demo_crates tt) with DRoot. destruct path.
  - by rewrite (demo_read_file _ _ (disk_files Loader.KERNEL_ELF)) by by_decide.
  - by rewrite (demo_read_file _ _ (disk_files Loader.BOOT_CFG)) by by_decide.
Qed.

Definition disk_world : Loader.World := Loader.mkWorld (@nil Z) (fun _ => 0xaa).

Lemma disk_transfers lsr : exists entry contract n mem m,
  Loader.main disk_firmware lsr disk_world power_on = Loader.Transfer entry contract n mem m.
Proof. exact (Pipeline.demo_transfers Scenario.Normal lsr). Qed.

(** The kernel of the disk is code the processor knows. *)
Definition disk_guest : Console.Machine :=
  Pipeline.boot disk_firmware (fun _ => 0) (Pipeline.demo_cpu (fun _ => 0)) disk_world.

#[local] Opaque Pipeline.boot.

(** A boot of the demo firmware is read as ready. *)
Lemma every_boot_is_classified_witness :
  Pipeline.host_reads false (debugcon disk_guest) (Pipeline.demo_status (exits disk_guest)) Ready
    (Some "KERNEL_READY"%string).
Proof.
  pose proof (Pipeline.every_boot_is_classified disk_firmware (fun _ => 0) (Pipeline.demo_cpu (fun _ => 0))
    ElfProps.sample_elf Pipeline.demo_layout disk_world Pipeline.demo_status (LoaderProps.demo_laws _ _ _)
    (Pipeline.demo_runs _) (Pipeline.demo_apart _ _ _)) as Hb.
  destruct (disk_transfers (fun _ => 0)) as (entry & contract & n & mem & m & Hm). rewrite Hm in Hb.
  destruct Hb as (file & storage & s & w1 & Hr & _ & Hp & Hl).
  - reflexivity.
  - intros st [= <-]. by_decide.
  - destruct (Pipeline.demo_prepares Scenario.Normal) as (entry' & storage' & w1' & Hp').
    change (Loader.prepare_kernel disk_firmware disk_world = Ok ((entry', storage', Scenario.Normal), w1')) in Hp'.
    rewrite Hp in Hp'. injection Hp' as _ _ -> _. apply Hl.
    exact (VolumeBoot.reads_volume_kernel disk_firmware disk_files served file ltac:(by_decide) Hr).
Defined.

(** The loader on that firmware enters the kernel, and the boot leaves the log of
    a normal boot. *)
Lemma validated_image_boots_witness :
  debugcon disk_guest = Pipeline.guest_log Scenario.Normal /\ exits disk_guest = [0x10].
Proof.
  pose proof (VolumeBoot.validated_image_boots demo_crates demo_digest demo_reserves demo_disk demo_manifest
    disk_firmware disk_files served (fun _ => 0) (Pipeline.demo_cpu (fun _ => 0)) Pipeline.demo_layout disk_world
    demo_fat_laws demo_disk_slice demo_validates disk_esp_files (LoaderProps.demo_laws _ _ _) disk_served
    (Pipeline.demo_runs _) (Pipeline.demo_apart _ _ _)) as H.
  destruct (disk_transfers (fun _ => 0)) as (entry & contract & n & mem & m & Hm). rewrite Hm in H.
  destruct H as (_ & _ & Hd & Hx). exact (conj Hd Hx).
Defined.

(** ** The emulator: the clock is [W], the guest ends after one poll interval, and
    the first forty bytes of its log are there before that.  The log and the status
    are those of the guest it is given. *)
Section Emulator.
Variable guest : Console.Machine.

Definition accept_written (w : Z) : nat :=
  if w <? POLL_INTERVAL then Nat.min 40 (length (debugcon guest)) else length (debugcon guest).

Definition accept_machine : Machine Z := {|
  m_now w := (Z.max 0 w, w);
  m_spawn c w := (Some (if bool_decide (cmd_program c = ascii_bytes "ps") then 8 else 7), w);
  m_try_wait pid w := (Some (if pid =? 7 then if w <? POLL_INTERVAL then None else Some (emulator_status (exits guest))
                             else Some (Some 0)), w);
  m_kill _ w := (true, w);
  m_wait _ w := (Some None, w);
  m_stdout _ w := (Some (ascii_bytes "2048"), w);
  m_sleep d w := Z.max 0 w + Z.max 0 d;
  m_debug_log _ := NotFound
|}.
#[global] Instance accept_laws : MachineLaws accept_machine (Z.max 0).
Proof. split; cbn; intros; lia. Qed.

Definition accept_log (path : list Z) (w : Z) : LogFile :=
  if is_debug_log path then Contents (take (accept_written w) (debugcon guest)) else NotFound.
Definition accept_host : list Z -> BootHost Z := host_with accept_machine accept_log.

Definition accept_run : Guest Z := mkGuest _ (fun w => POLL_INTERVAL <= w) accept_written (fun pid => pid = 7)
  (fun _ => POLL_INTERVAL).

Lemma accept_keeps w w' : w <= w' -> keeps accept_run w w'.
Proof.
  intros H. split; cbn; [lia|]. unfold accept_written.
  destruct (Z.ltb_spec w POLL_INTERVAL), (Z.ltb_spec w' POLL_INTERVAL); lia.
Qed.

Lemma accept_emulates disk written :
  Emulates (machine_at (accept_host disk) written (path_join (temporary_path boot_temporary) DEBUG_LOG)) (Z.max 0)
    (boot_command (accept_host disk) (temporary_path boot_temporary) (boot_inputs disk) ScenarioRun)
    (debugcon guest) (emulator_status (exits guest)) POLL_INTERVAL accept_run.
Proof.
  split; try (intros; apply accept_keeps; cbn; lia).
  - intros w now w' [= <- <-]. exists 7, w. split; [reflexivity|]. split; [reflexivity|]. cbn. lia.
  - intros pid w ->. cbn. destruct (Z.ltb_spec w POLL_INTERVAL); [|by split]. unfold POLL_INTERVAL, MILLISECOND in *. lia.
  - intros w. left. reflexivity.
  - intros w. cbn. unfold accept_written. intros Hw. rewrite (proj2 (Z.ltb_ge _ _)) by done. done.
Qed.

Lemma accept_runs disk :
  RunsGuest (accept_host disk) (Z.max 0) (temporary_path boot_temporary) (boot_inputs disk) Normal guest
    POLL_INTERVAL.
Proof.
  split.
  - intros written _. exists accept_run. apply accept_emulates.
  - intros name w Hn. assert (bh_log (accept_host disk) (path_join (temporary_path boot_temporary) name) w = NotFound) as ->.
    { rewrite !elem_of_cons in Hn. destruct Hn as [->|[->|[->|Hn]]]; [reflexivity..|by apply elem_of_nil in Hn]. }
    split; [done|]. intros record [=].
Qed.
End Emulator.

(** The command line that makes the demo's request. *)
Definition boot_arguments : list (list Z) :=
  ascii_bytes <$> ["boot-test"; "--image"; "disk.img"; "--qemu"; "/bin/qemu-system-x86_64"; "--ovmf-cache"; "ovmf"]%string.
Definition demo_json : Serializers :=
  mkSerializers (fun _ => Some (ascii_bytes "{}")) (fun _ => Some (ascii_bytes "{}")) (fun _ => Some (ascii_bytes "{}")).
Definition demo_render (_ : XtaskError) : list Z := ascii_bytes "error".

Lemma boot_arguments_parse as_output : parse_invocation as_output boot_arguments = Ok (RunBootTest boot_request).
Proof. vm_compute. reflexivity. Qed.

(** The whole system on the demo disk: the program exits with 0. *)
Lemma validated_images_are_accepted_witness : exists run s',
  br_classification run = Ready /\ is_Some (br_time_to_ready_marker_ms run) /\
  main (accept_host disk_guest demo_disk) demo_crates demo_digest demo_reserves demo_json demo_render boot_arguments
    (mkProcess boot_world []) = (Ok 0, mkProcess s' []) /\ last (bw_stdout s') = Some (ascii_bytes "{}").
Proof.
  destruct (disk_transfers (fun _ => 0)) as (entry & contract & n & mem & m & Hm).
  destruct (validated_images_are_accepted (accept_host disk_guest demo_disk) demo_crates demo_digest demo_reserves
    (Z.max 0) boot_request (boot_inputs demo_disk) boot_temporary boot_world boot_world boot_world1 disk_firmware
    disk_files served (fun _ => 0) (Pipeline.demo_cpu (fun _ => 0)) Pipeline.demo_layout disk_world POLL_INTERVAL entry
    contract n mem m (fun _ => accept_laws _) demo_digest_bytes demo_fat_laws (fun _ => eq_refl)
    (demo_read_inputs demo_crates demo_reserves demo_disk demo_manifest demo_disk_len demo_validates eq_refl _ _)
    demo_disk_slice (demo_temporary demo_disk _ _) disk_esp_files (LoaderProps.demo_laws _ _ _) disk_served
    (Pipeline.demo_runs _) (Pipeline.demo_apart _ _ _) Hm (accept_runs disk_guest demo_disk))
    as (run & _ & _ & Hc & Ht & _ & Hrun).
  - vm_compute. discriminate.
  - destruct (Hrun demo_json demo_render boot_arguments [] (ascii_bytes "{}") (boot_arguments_parse _) eq_refl
      (fun _ => eq_refl)) as (s' & E & L).
    exists run, s'. exact (conj Hc (conj (Ht eq_refl) (conj E L))).
Defined.

(** ** The program on the host of [BootDemo] *)
Lemma demo_program : exists s',
  main (boot_host demo_disk) demo_crates demo_digest demo_reserves demo_json demo_render boot_arguments
    (mkProcess boot_world []) = (Ok 0, s').
Proof.
  destruct (demo_observe demo_crates demo_reserves demo_disk demo_manifest demo_disk_len demo_validates eq_refl)
    as (s' & Ho & _). eexists.
  exact (boot_test_accepts (boot_host demo_disk) demo_crates demo_digest demo_reserves demo_json demo_render
    boot_request (boot_run demo_disk) (ascii_bytes "{}") boot_arguments boot_world s' [] Ho (demo_verdict demo_disk) eq_refl
    eq_refl (boot_arguments_parse _)).
Qed.

Lemma exit_zero_is_evidence_witness : exists run execution debug,
  boot_evidence (boot_host demo_disk) demo_crates demo_digest demo_reserves boot_request ScenarioRun boot_world run
    execution (Contents debug) /\
  qe_exit_status execution = Some 33 /\ protocol_lines debug = handoff_lines ++ [READY_MARKER].
Proof.
  destruct demo_program as (s' & Hm).
  destruct (exit_zero_is_evidence (boot_host demo_disk) demo_crates demo_digest demo_reserves demo_json demo_render
    boot_arguments (mkProcess boot_world []) s' Hm) as (inv & Hp & _ & He & _).
  rewrite boot_arguments_parse in Hp. injection Hp as <-.
  destruct He as (run & execution & debug & text & H1 & _ & H2 & H3 & _). exists run, execution, debug.
  exact (conj H1 (conj H2 H3)).
Defined.

(** Any command line on that host: a baseline of two runs. *)
Definition baseline_arguments : list (list Z) :=
  ascii_bytes <$> ["baseline"; "--image"; "disk.img"; "--runs"; "2"]%string.
Lemma xtask_always_exits_witness :
  let '(r, s') := main (boot_host demo_disk) demo_crates demo_digest demo_reserves demo_json demo_render
                    baseline_arguments (mkProcess boot_world []) in
  (r = Ok 0 \/ r = Ok 1) /\ reaped (bw_proc (xp_world s')) /\ fs_directories (bw_fs (xp_world s')) = ∅.
Proof.
  pose proof (xtask_always_exits (boot_host demo_disk) demo_crates demo_digest demo_reserves (fun w => w) demo_json
    demo_render baseline_arguments (mkProcess boot_world []) (fun _ => boot_machine_laws) demo_fat_laws
    demo_digest_bytes demo_reads (accounted_nothing _)) as H.
  destruct (main _ _ _ _ _ _ _ _) as [r s']. destruct H as ([_ H1] & H2 & printed & written & _ & _ & _ & H3).
  split; [|split; [exact (H1 (fun _ _ _ => ltac:(by eexists)))|exact (H2 (fun _ => eq_refl))]].
  destruct H3 as [[H3 _]|[(error & H3 & _)|[(_ & _ & _ & text & [=])|(_ & error & rest & line & _ & [=])]]];
    [left; exact H3|right; exact H3].
Defined.
