(* ===== verification/Lifecycle.v ===== *)
(** From one command to the next: the image that [image] wrote is one that
    [boot-test] takes (crates/xtask/src/image.rs and qemu.rs, through
    crates/xtask/src/main.rs). *)

From stdpp Require Import gmap.
From S2P Require Import Prelude Bytes Console Text Artifact HostScenario HostRun RawImage HostFs HostFsProps.
From S2P Require Import DiskImage DiskImageProps Repro XtaskCli HostExec BootRunner BootRunnerProps Xtask XtaskRuns.
From S2P Require Loader VolumeBoot.
Import Image.

(** What [read_inputs] still does once the image is accepted: find the emulator
    and the firmware. *)
Definition find_tools {W} (h : BootHost W) (request : BootRequest) (image : list Z)
    : io (BootWorld W) BootError BootInputs :=
  qemu ← resolve_qemu h (br_qemu request);
  version ← qemu_version h qemu;
  firmware ← resolve_firmware h (br_ovmf_cache request);
  ovmf_code ← read_bounded h (fp_code firmware) (64 * 1024 * 1024) "OVMF code";
  ovmf_vars ← read_bounded h (fp_vars firmware) (64 * 1024 * 1024) "OVMF vars";
  mret (mkBootInputs image qemu version firmware ovmf_code ovmf_vars).

Section Accepted.
Context {W U G V D F : Type} `{EqDecision U}.
Variables (h : BootHost W) (crates : DiskCrates U G V D F).
Variables (digest : list Z -> list Z) (reserves : Z -> bool).

Lemma world_step {A B} (m : io (BootWorld W) BootError A) (k : A -> io (BootWorld W) BootError B) s a s1 :
  m s = (Ok a, s1) -> (m ≫= k) s = k a s1.
Proof. unfold mbind, io_bind. by intros ->. Qed.
Lemma ensure_true message (s : BootWorld W) : BootRunner.ensure true message s = (Ok tt, s).
Proof. done. Qed.

(** An image in place passes every check that [read_inputs] makes of it. *)
Lemma read_inputs_validated request image manifest n s :
  0 < br_timeout_secs request ->
  h_metadata (bh_host h) (br_image request) (ps_world (bw_proc s)) = Some (true, n) -> n <= DISK_BYTES ->
  h_read (bh_host h) (br_image request) (ps_world (bw_proc s)) = Some image ->
  validate_image_bytes crates digest reserves image = Ok manifest -> im_scenario manifest = br_scenario request ->
  read_inputs h crates digest reserves request s = find_tools h request image s.
Proof.
  intros Ht Hmd Hn Hrd Hv Hs. pose proof (validated_length crates digest reserves image manifest Hv) as Hl.
  unfold read_inputs. rewrite (proj2 (Z.ltb_lt _ _)) by (unfold request_timeout; lia).
  rewrite (world_step _ _ _ _ _ (ensure_true _ s)).
  assert (read_bounded h (br_image request) DISK_BYTES "boot image" s = (Ok image, s)) as Hr.
  { unfold read_bounded, mbind, io_bind, asks, BootRunner.require, BootRunner.ensure, pure.
    rewrite Hmd. cbn [ok_or fst snd negb fail_if]. rewrite (proj2 (Z.leb_le _ _) Hn). by rewrite Hrd. }
  rewrite (world_step _ _ _ _ _ Hr), Hl, Z.eqb_refl, (world_step _ _ _ _ _ (ensure_true _ s)), Hv.
  rewrite (world_step (pure (map_err BootImageError (Ok manifest))) _ s manifest s eq_refl).
  rewrite bool_decide_eq_true_2 by done. by rewrite (world_step _ _ _ _ _ (ensure_true _ s)).
Qed.

(** A valid image has both files of the loader. *)
Lemma volume_files_present image v loader kernel s :
  fat_mount crates get_current_date get_current_date_time (esp_bytes image) = Some v ->
  volume_ok crates reserves v loader kernel s ->
  forall path, is_Some (VolumeBoot.esp_file crates reserves image path).
Proof.
  intros Hm Hv path. unfold VolumeBoot.esp_file. rewrite Hm. cbn [mbind option_bind].
  destruct path; [rewrite (vo_kernel _ _ _ _ _ _ Hv)|rewrite (vo_scenario _ _ _ _ _ _ Hv)]; by eexists.
Qed.
End Accepted.

(** ** The image command succeeds *)
Section Builds.
Context {W U G V D F : Type} `{EqDecision U}.
Variables (h : BootHost W) (crates : DiskCrates U G V D F).
Variables (digest : list Z -> list Z) (reserves : Z -> bool) (json : Serializers) (render : XtaskError -> list Z).

Lemma read_host_artifact_present a n bytes :
  ha_metadata a = Some (true, n) -> n <= MAX_PAYLOAD_BYTES -> ha_read a = Some bytes ->
  read_host_artifact a = Ok bytes.
Proof.
  intros Hm Hn Hr. unfold read_host_artifact. rewrite Hm, Hr. cbn [fst snd RawImage.context ok_or].
  rewrite bind_value. cbn [fst snd]. by rewrite (proj2 (Z.leb_le _ _)) by done.
Qed.

(** When the inputs are readable and build an image, and no file-system call
    fails, the command writes it and exits with 0. *)
Lemma image_command_succeeds arguments request s loader kernel n1 n2 disk manifest name text :
  parse_invocation (bh_as_output h) arguments = Ok (RunImage request) ->
  let w := ps_world (bw_proc (xp_world s)) in
  let output := bh_as_output h (xi_output request) in
  h_metadata (bh_host h) (xi_loader request) w = Some (true, n1) -> n1 <= MAX_PAYLOAD_BYTES ->
  h_metadata (bh_host h) (xi_kernel request) w = Some (true, n2) -> n2 <= MAX_PAYLOAD_BYTES ->
  h_read (bh_host h) (xi_loader request) w = Some loader -> h_read (bh_host h) (xi_kernel request) w = Some kernel ->
  build_image_bytes crates digest reserves loader kernel (xi_scenario request) = Ok (disk, manifest) ->
  op_file_name output = Some name -> (forall n, os_fails (bh_os h) n = false) ->
  fs_files (bw_fs (xp_world s)) !! (output_directory output, temporary_name name (ascii_bytes ".tmp-") (bh_pid h)) = None ->
  sz_image json manifest = Some text -> (forall printed, bh_stdout_takes h printed text = true) ->
  exists s', main h crates digest reserves json render arguments s = (Ok 0, s').
Proof.
  intros Hp w output M1 N1 M2 N2 R1 R2 Hb Hn Hos Htmp Hj Ht.
  destruct (writer_atomic (bh_os h) (bh_pid h) output name disk ".tmp-"
    (write_atomic (bh_os h) (bh_pid h) output disk) (bw_fs (xp_world s)) Hn
    ltac:(unfold writers; rewrite !elem_of_cons; auto)) as (_ & _ & _ & _ & _ & Hok).
  specialize (Hok Hos Htmp). unfold main, Xtask.run, mbind, io_bind. rewrite Hp. cbn [map_err perform].
  unfold perform_image, mbind, io_bind, on_files, embed, build_image.
  rewrite (read_host_artifact_present (host_artifact h (xi_loader request) (xp_world s)) n1 loader M1 N1 R1), bind_value.
  rewrite (read_host_artifact_present (host_artifact h (xi_kernel request) (xp_world s)) n2 kernel M2 N2 R2), bind_value.
  rewrite Hb. fold output.
  destruct (write_atomic _ _ output disk _) as [r fs]. cbn [fst] in Hok. subst r. cbn [map_err].
  unfold print, on_boot, embed, print_json, require, pure, println, mbind, io_bind. rewrite Hj. cbn [ok_or id].
  rewrite Ht. by eexists.
Qed.
End Builds.

(** C23. What [image] writes, [boot-test] boots.  When xtask exits with 0 on an
    image command, the output path holds a disk whose volume has a loader and a
    kernel with the digests of the two input files and the requested scenario,
    and both files the boot loader will open.  Any later boot-test of that
    scenario, on any host where its image path is a regular file with these
    bytes, passes every check of its image: all that can still fail before the
    boot is finding the emulator and the firmware. *)
Theorem written_image_is_booted {W W' U G V D F : Type} `{EqDecision U} (h : BootHost W)
    (crates : DiskCrates U G V D F) (digest : list Z -> list Z) (reserves : Z -> bool) (json : Serializers)
    (render : XtaskError -> list Z) (arguments : list (list Z)) (request : XImageRequest) (s s' : Process W) :
  FatLaws crates -> (forall l, is_bytes (digest l)) ->
  parse_invocation (bh_as_output h) arguments = Ok (RunImage request) ->
  main h crates digest reserves json render arguments s = (Ok 0, s') ->
  let world := ps_world (bw_proc (xp_world s)) in
  exists loader kernel disk name v loader' kernel',
    h_read (bh_host h) (xi_loader request) world = Some loader /\
    h_read (bh_host h) (xi_kernel request) world = Some kernel /\
    op_file_name (bh_as_output h (xi_output request)) = Some name /\
    fs_files (bw_fs (xp_world s')) !! (output_directory (bh_as_output h (xi_output request)), name) = Some disk /\
    fat_mount crates get_current_date get_current_date_time (esp_bytes disk) = Some v /\
    volume_ok crates reserves v loader' kernel' (xi_scenario request) /\
    digest loader' = digest loader /\ digest kernel' = digest kernel /\
    (forall path, is_Some (VolumeBoot.esp_file crates reserves disk path)) /\
    forall (h' : BootHost W') (boot : BootRequest) (size : Z) (s2 : BootWorld W'),
      br_scenario boot = xi_scenario request -> 0 < br_timeout_secs boot ->
      h_metadata (bh_host h') (br_image boot) (ps_world (bw_proc s2)) = Some (true, size) -> size <= DISK_BYTES ->
      h_read (bh_host h') (br_image boot) (ps_world (bw_proc s2)) = Some disk ->
      read_inputs h' crates digest reserves boot s2 = find_tools h' boot disk s2.
Proof.
  intros Hf Hd Hp Hm world. apply main_Ok in Hm as (inv & u & Hp' & H & _). rewrite Hp in Hp'. injection Hp' as <-.
  apply perform_image_success in H as (l & k & disk & manifest & name & text & Hl & Hk & Hb & Hn & Hfile & _).
  destruct (built_image crates digest reserves _ _ _ _ _ Hb) as (_ & Hv & _ & _ & Hsc).
  destruct (built_image_reads_back crates digest reserves _ _ _ _ _ Hf Hd Hb)
    as (_ & v & l' & k' & elf & Hmount & Hvol & Hdl & Hdk & _).
  exists l, k, disk, name, v, l', k'. split_and!; try done; [by eapply volume_files_present|].
  intros h' boot size s2 Hs Ht Hmd Hsize Hrd.
  by apply (read_inputs_validated h' crates digest reserves boot disk manifest size); [..|congruence].
Qed.
