(* ===== verification/LifecycleDemo.v ===== *)
(** The theorem of [Lifecycle] applied to a concrete system: the loader and kernel
    of [DiskDemo] on one host, and the disk built from them on the host of
    [BootDemo]. *)

From stdpp Require Import gmap.
From S2P Require Import Prelude Bytes Console Text Artifact HostScenario HostRun RawImage HostFs HostFsProps.
From S2P Require Import DiskImage DiskImageProps DiskDemo Repro XtaskCli HostExec BootRunner BootRunnerProps BootDemo.
From S2P Require Import Xtask XtaskRuns AcceptanceDemo Lifecycle.
From S2P Require ElfProps VolumeBoot.
Import Image.

Definition loader_path : list Z := ascii_bytes "loader.efi".
Definition build_host : BootHost Z :=
  let h := boot_host [] in {|
  bh_host := {|
    h_env := h_env (bh_host h); h_canonicalize := h_canonicalize (bh_host h); h_is_file := h_is_file (bh_host h);
    h_is_dir := h_is_dir (bh_host h); h_metadata := h_metadata (bh_host h);
    h_read path _ := Some (if bool_decide (path = loader_path) then demo_loader else ElfProps.sample_elf);
    h_create_dir_all := h_create_dir_all (bh_host h); h_run := h_run (bh_host h)
  |};
  bh_machine := bh_machine h; bh_log := bh_log h; bh_fetch := bh_fetch h; bh_chunk := bh_chunk h; bh_os := bh_os h;
  bh_pid := bh_pid h; bh_temp_dir := bh_temp_dir h; bh_linux := bh_linux h; bh_file_name := bh_file_name h;
  bh_as_output _ := mkOutputPath (Some (ascii_bytes "out")) (Some (ascii_bytes "boot.img"));
  bh_consts_os := bh_consts_os h; bh_consts_arch := bh_consts_arch h; bh_run_json := bh_run_json h;
  bh_baseline_json := bh_baseline_json h;
  bh_stdout_takes := bh_stdout_takes h;
  bh_stderr_takes := bh_stderr_takes h
|}.

Definition image_arguments : list (list Z) :=
  ascii_bytes <$> ["image"; "--loader"; "loader.efi"; "--kernel"; "kernel.elf"; "--output"; "out/boot.img"]%string.
Definition image_request : XImageRequest :=
  mkXImageRequest loader_path (ascii_bytes "kernel.elf") (ascii_bytes "out/boot.img") Normal.
Lemma image_arguments_parse as_output : parse_invocation as_output image_arguments = Ok (RunImage image_request).
Proof. vm_compute. reflexivity. Qed.

Lemma demo_image_command : exists s',
  main build_host demo_crates demo_digest demo_reserves demo_json demo_render image_arguments
    (mkProcess boot_world []) = (Ok 0, s').
Proof.
  apply (image_command_succeeds build_host demo_crates demo_digest demo_reserves demo_json demo_render image_arguments
    image_request (mkProcess boot_world []) demo_loader ElfProps.sample_elf 4096 4096 demo_disk demo_manifest
    (ascii_bytes "boot.img") (ascii_bytes "{}")).
  - apply image_arguments_parse.
  - reflexivity.
  - by_decide.
  - reflexivity.
  - by_decide.
  - reflexivity.
  - reflexivity.
  - exact demo_build.
  - reflexivity.
  - intros n. reflexivity.
  - reflexivity.
  - reflexivity.
  - intros printed. reflexivity.
Qed.

(** The command succeeds, and a boot test on a host that holds the disk gets past
    the checks of its image. *)
Lemma written_image_is_booted_witness : exists disk,
  (forall path, is_Some (VolumeBoot.esp_file demo_crates demo_reserves disk path)) /\
  forall s2 : BootWorld Z,
    read_inputs (boot_host disk) demo_crates demo_digest demo_reserves boot_request s2 =
    find_tools (boot_host disk) boot_request disk s2.
Proof.
  destruct demo_image_command as (s' & Hm).
  destruct (written_image_is_booted (W':=Z) build_host demo_crates demo_digest demo_reserves demo_json demo_render
    image_arguments image_request (mkProcess boot_world []) s' demo_fat_laws demo_digest_bytes
    (image_arguments_parse _) Hm) as (l & k & disk & name & v & l' & k' & _ & _ & _ & _ & _ & _ & _ & _ & Hfiles & H).
  exists disk. split; [exact Hfiles|]. intros s2.
  exact (H (boot_host disk) boot_request 4096 s2 eq_refl eq_refl eq_refl ltac:(by_decide) eq_refl).
Defined.
