(* ===== verification/BuildScript.v ===== *)
(** The kernel's build script: crates/kernel/build.rs, the lines it prints for
    Cargo.  [Path::parent] is taken on paths whose separators are single. *)

From S2P Require Import Prelude Bytes Console Text HostScenario HostFs Repro.
Import Image.

(** ** [Path::parent] and [Path::ancestors] *)
Fixpoint strip_slashes (l : list Z) : list Z :=
  match l with
  | c :: t => if c =? 47 then strip_slashes t else l
  | [] => []
  end.
Fixpoint skip_component (l : list Z) : list Z :=
  match l with
  | c :: t => if c =? 47 then l else skip_component t
  | [] => []
  end.
Definition path_parent (path : list Z) : option (list Z) :=
  match strip_slashes (rev path) with
  | [] => None
  | l => match skip_component l with
         | [] => Some []
         | rest => match strip_slashes rest with
                   | [] => Some [47]
                   | rest => Some (rev rest)
                   end
         end
  end.
(** [path.ancestors().nth(n)] *)
Fixpoint ancestor (n : nat) (path : list Z) : option (list Z) :=
  match n with
  | O => Some path
  | S n => path_parent path ≫= ancestor n
  end.

(** ** The script *)
Section Script.
(** [env::var_os] *)
Variable env : string -> option (list Z).

(** An [expect] that fails is a panic; the result is what was printed. *)
Definition build_script : exec Empty_set (list (list Z)) :=
  target ← or_panic (env "TARGET" ≫= from_utf8);
  if negb (bool_decide (target = ascii_bytes "x86_64-unknown-none")) then Ok [] else
  manifest_dir ← or_panic (env "CARGO_MANIFEST_DIR");
  workspace ← or_panic (path_parent manifest_dir ≫= path_parent);
  let linker_script := path_join workspace (ascii_bytes "arch/x86_64/kernel/linker.ld") in
  output_dir ← or_panic (env "OUT_DIR");
  profile_dir ← or_panic (ancestor 3 output_dir);
  let linker_map := path_join profile_dir (ascii_bytes "polytope-kernel-x86_64.map") in
  Ok [ascii_bytes "cargo:rerun-if-changed=" ++ from_utf8_lossy linker_script;
      ascii_bytes "cargo:rustc-link-arg-bin=polytope-kernel-x86_64=-T" ++ from_utf8_lossy linker_script;
      ascii_bytes "cargo:rustc-link-arg-bin=polytope-kernel-x86_64=-Map=" ++ from_utf8_lossy linker_map].
End Script.

(** ** Paths built from components *)
Definition component (name : list Z) : Prop := name <> [] /\ 47 ∉ name.
Definition directory_path (d : list Z) : Prop := d <> [] /\ last d <> Some 47.

Lemma strip_clean l : head l <> Some 47 -> strip_slashes l = l.
Proof. destruct l as [|c l]; [done|]. cbn. intros H. by rewrite (proj2 (Z.eqb_neq c 47)) by congruence. Qed.

Lemma skip_component_app a b : 47 ∉ a -> skip_component (a ++ 47 :: b) = 47 :: b.
Proof.
  induction a as [|c a IH]; [done|]. rewrite not_elem_of_cons. intros [Hc Ha]. cbn.
  rewrite (proj2 (Z.eqb_neq c 47)) by congruence. by apply IH.
Qed.

Lemma head_rev_last (d : list Z) : head (rev d) = last d.
Proof. rewrite <-(rev_involutive d) at 2. destruct (rev d) as [|x l]; [done|]. cbn. by rewrite last_snoc. Qed.

Lemma path_parent_join d name :
  directory_path d -> component name -> path_parent (d ++ 47 :: name) = Some d.
Proof.
  intros [Hd Hl] [Hn Hs]. unfold path_parent.
  assert (rev (d ++ 47 :: name) = rev name ++ 47 :: rev d) as -> by (rewrite rev_app_distr; cbn; by rewrite <-app_assoc).
  rewrite strip_clean.
  2: { destruct (rev name) as [|c l] eqn:E; [by apply (f_equal (@rev Z)) in E; rewrite rev_involutive in E|].
       cbn. intros [= ->]. apply Hs. apply list_elem_of_In, in_rev. rewrite E. by left. }
  destruct (rev name ++ 47 :: rev d) as [|c l] eqn:E; [by destruct (rev name)|]. rewrite <-E.
  rewrite skip_component_app by (intros Hin; apply Hs, list_elem_of_In, in_rev, list_elem_of_In; done).
  change (strip_slashes (47 :: rev d)) with (strip_slashes (rev d)). rewrite strip_clean by (by rewrite head_rev_last).
  destruct (rev d) as [|x t] eqn:Er; [by apply (f_equal (@rev Z)) in Er; rewrite rev_involutive in Er|].
  rewrite <-Er. by rewrite rev_involutive.
Qed.

Lemma join_directory d name : component name -> directory_path (d ++ 47 :: name).
Proof.
  intros [Hn Hs]. split; [by destruct d|]. destruct name as [|c name _] using rev_ind; [done|].
  change (d ++ 47 :: name ++ [c]) with (d ++ (47 :: name) ++ [c]). rewrite app_assoc, last_snoc.
  intros [= ->]. apply Hs, elem_of_app. right. by apply list_elem_of_singleton.
Qed.

Lemma ancestor_three d a b c :
  directory_path d -> component a -> component b -> component c ->
  ancestor 3 (((d ++ 47 :: a) ++ 47 :: b) ++ 47 :: c) = Some d.
Proof.
  intros Hd Ha Hb Hc. cbn [ancestor].
  rewrite path_parent_join by (done || by apply join_directory). cbn [mbind option_bind].
  rewrite path_parent_join by (done || by apply join_directory). cbn [mbind option_bind].
  by rewrite path_parent_join.
Qed.

Lemma path_join_directory d path : directory_path d -> is_absolute path = false -> path_join d path = d ++ 47 :: path.
Proof.
  intros [Hd Hl] Ha. unfold path_join. rewrite Ha, (bool_decide_eq_false_2 (d = [])) by done. cbn [orb].
  by rewrite bool_decide_eq_false_2.
Qed.

(** C29. The linker map is written where it is checked.  Cargo gives the build
    script of the kernel an output directory three levels below the profile
    directory of the kernel's target; then the map file that the linker is told
    to write is the one that the reproducibility check and the inspector read,
    the default map path of a request joined to the target directory, and the
    linker script is the one of the workspace. *)
Theorem linker_map_is_where_it_is_checked (env : string -> option (list Z))
    (target_directory workspace package : list Z) (output : OutputPath) :
  directory_path target_directory -> directory_path workspace -> component package ->
  env "TARGET" = Some (ascii_bytes "x86_64-unknown-none") ->
  env "CARGO_MANIFEST_DIR" = Some (workspace ++ ascii_bytes "/crates/kernel") ->
  env "OUT_DIR" = Some (target_directory ++ ascii_bytes "/x86_64-unknown-none/boot" ++ ascii_bytes "/build"
                        ++ 47 :: package ++ ascii_bytes "/out") ->
  exists relative,
    rr_kernel_map_relative_path (polytope_defaults workspace output) = Some relative /\
    build_script env =
      Ok [ascii_bytes "cargo:rerun-if-changed=" ++
            from_utf8_lossy (workspace ++ ascii_bytes "/arch/x86_64/kernel/linker.ld");
          ascii_bytes "cargo:rustc-link-arg-bin=polytope-kernel-x86_64=-T" ++
            from_utf8_lossy (workspace ++ ascii_bytes "/arch/x86_64/kernel/linker.ld");
          ascii_bytes "cargo:rustc-link-arg-bin=polytope-kernel-x86_64=-Map=" ++
            from_utf8_lossy (path_join target_directory relative)].
Proof.
  intros Ht Hw Hp E1 E2 E3. eexists. split; [reflexivity|]. unfold build_script. rewrite E1.
  change (Some (ascii_bytes "x86_64-unknown-none") ≫= from_utf8) with (Some (ascii_bytes "x86_64-unknown-none")).
  cbn [or_panic]. rewrite bind_value. change (negb _) with false. cbv iota. rewrite E2. cbn [or_panic].
  rewrite bind_value.
  assert (path_parent (workspace ++ ascii_bytes "/crates/kernel") ≫= path_parent = Some workspace) as ->.
  { change (ascii_bytes "/crates/kernel") with (ascii_bytes "/crates" ++ 47 :: ascii_bytes "kernel").
    rewrite app_assoc, path_parent_join; [|by apply join_directory; by_decide|by_decide].
    change (workspace ++ ascii_bytes "/crates") with (workspace ++ 47 :: ascii_bytes "crates").
    apply path_parent_join; [done|by_decide]. }
  cbn [or_panic]. rewrite bind_value, E3. cbn [or_panic]. rewrite bind_value.
  set (profile := target_directory ++ 47 :: ascii_bytes "x86_64-unknown-none" ++ 47 :: ascii_bytes "boot").
  assert (directory_path profile) as Hprofile.
  { unfold profile. change (47 :: ascii_bytes "x86_64-unknown-none" ++ 47 :: ascii_bytes "boot")
      with ((47 :: ascii_bytes "x86_64-unknown-none") ++ 47 :: ascii_bytes "boot").
    rewrite app_assoc. apply join_directory. by_decide. }
  assert (target_directory ++ ascii_bytes "/x86_64-unknown-none/boot" ++ ascii_bytes "/build"
          ++ 47 :: package ++ ascii_bytes "/out"
          = ((profile ++ 47 :: ascii_bytes "build") ++ 47 :: package) ++ 47 :: ascii_bytes "out") as ->.
  { unfold profile. by rewrite <-!app_assoc. }
  rewrite (ancestor_three profile (ascii_bytes "build") package (ascii_bytes "out")); [|done|by_decide|done|by_decide].
  change (or_panic (Some profile)) with (Ok (E:=Empty_set) profile). rewrite bind_value.
  rewrite !path_join_directory by done. do 4 f_equal. unfold profile. by rewrite <-!app_assoc.
Qed.

Lemma linker_map_is_where_it_is_checked_witness :
  build_script (fun name => if bool_decide (name = "TARGET"%string) then Some (ascii_bytes "x86_64-unknown-none")
                            else if bool_decide (name = "CARGO_MANIFEST_DIR"%string) then Some (ascii_bytes "/ws/crates/kernel")
                            else Some (ascii_bytes "/t/x86_64-unknown-none/boot/build/polytope-kernel-1/out")) =
  Ok [ascii_bytes "cargo:rerun-if-changed=/ws/arch/x86_64/kernel/linker.ld";
      ascii_bytes "cargo:rustc-link-arg-bin=polytope-kernel-x86_64=-T/ws/arch/x86_64/kernel/linker.ld";
      ascii_bytes "cargo:rustc-link-arg-bin=polytope-kernel-x86_64=-Map=/t/x86_64-unknown-none/boot/polytope-kernel-x86_64.map"].
Proof.
  destruct (linker_map_is_where_it_is_checked
    (fun name => if bool_decide (name = "TARGET"%string) then Some (ascii_bytes "x86_64-unknown-none")
                 else if bool_decide (name = "CARGO_MANIFEST_DIR"%string) then Some (ascii_bytes "/ws/crates/kernel")
                 else Some (ascii_bytes "/t/x86_64-unknown-none/boot/build/polytope-kernel-1/out"))
    (ascii_bytes "/t") (ascii_bytes "/ws") (ascii_bytes "polytope-kernel-1") (mkOutputPath None None))
    as (relative & [= <-] & ->); [by_decide..|reflexivity|reflexivity|reflexivity|].
  vm_compute. reflexivity.
Defined.
