(* ===== verification/Entry.v ===== *)
(** The entry shim instruction by instruction: arch/x86_64/boot/entry.S on a
    processor with the registers and flags it uses, and that it does what
    [Pipeline.polytope_kernel_entry] says.

    Memory is physical and identity mapped, and addresses do not wrap: the image
    ends far below the end of the address space.  Interrupts other than the
    maskable ones are left out. *)

From S2P Require Import Prelude Bytes Console Memory Kernel Pipeline.

(** ** The processor *)
Inductive reg := RAX | RCX | RDX | RDI | RSI | RSP | RBP | R12 | R13.
#[global] Instance reg_eq_dec : EqDecision reg.
Proof. solve_decision. Defined.

(** The symbols of the linker script and of the shim. *)
Inductive symbol := bootstrap_stack_top | bss_start_ | bss_end_ | polytope_boot_bss_probe.
Inductive label := Lbss_clear_failure | Lqemu_exit | L1.

(** AT&T order: the destination comes last. *)
Inductive instr :=
| Cli | Cld | Hlt
| Movq (src dst : reg)
| Movabsq (imm : Z) (dst : reg)
| Movl (imm : Z) (dst : reg)
| Movw (imm : Z) (dst : reg)
| Leaq (s : symbol) (dst : reg)
| Movq_to (src : reg) (s : symbol)
| Andq (imm : Z) (dst : reg)
| Xorq (src dst : reg)
| Xorl (src dst : reg)
| Subq (src dst : reg)
| Rep_stosb
| Cmpq (imm : Z) (s : symbol)
| Jne (l : label)
| Jmp (l : label)
| Call_polytope_kernel_main
| Outl_eax_dx.

(** Where the linker put things: the symbols, and each instruction. *)
Record Image := mkImage {
  im_layout : Layout;
  im_stack_top : Z;
  im_code : nat -> Z
}.
Definition resolve (im : Image) (s : symbol) : Z :=
  match s with
  | bootstrap_stack_top => im_stack_top im
  | bss_start_ => bss_start (im_layout im)
  | bss_end_ => bss_end (im_layout im)
  | polytope_boot_bss_probe => bss_probe (im_layout im)
  end.

Record Cpu := mkCpu {
  c_pc : nat;
  c_regs : reg -> Z;
  c_if : bool;
  c_df : bool;
  c_zf : bool;
  c_mem : memory;
  c_io : Machine
}.

(** ** The code *)
Definition entry_code : list instr :=
  [ Cli; Cld;
    Movq RDI R12; Movq RSI R13;
    Leaq bootstrap_stack_top RSP; Andq (-16) RSP; Xorq RBP RBP;
    Movabsq 0x50544f5342535354 RAX; Movq_to RAX polytope_boot_bss_probe;
    Leaq bss_start_ RDI; Leaq bss_end_ RCX; Subq RDI RCX; Xorl RAX RAX; Rep_stosb;
    Cmpq 0 polytope_boot_bss_probe; Jne Lbss_clear_failure;
    Movq R12 RDI; Movq R13 RSI; Call_polytope_kernel_main;
    Movl 0x23 RAX; Jmp Lqemu_exit;
    (* .Lbss_clear_failure: *) Movl 0x22 RAX;
    (* .Lqemu_exit: *) Movw 0x00f4 RDX; Outl_eax_dx;
    (* 1: *) Cli; Hlt; Jmp L1 ].
Definition target (l : label) : nat :=
  match l with Lbss_clear_failure => 21 | Lqemu_exit => 22 | L1 => 24 end.

(** ** Semantics *)
Definition wrap64 (v : Z) : Z := v mod 2 ^ 64.
Definition update (r : reg) (v : Z) (regs : reg -> Z) : reg -> Z := fun r' => if decide (r' = r) then v else regs r'.

(** What one instruction leads to: the next one, the call of the kernel, or a halt
    that no maskable interrupt ends. *)
Inductive outcome := Next (c : Cpu) | Called (c : Cpu) | Stopped (c : Cpu) | Stuck.

Section Step.
Variable im : Image.

(** The next instruction, with a new register value and the zero flag. *)
Definition assign (r : reg) (v : Z) (zf : bool) (c : Cpu) : outcome :=
  Next (mkCpu (S (c_pc c)) (update r v (c_regs c)) (c_if c) (c_df c) zf (c_mem c) (c_io c)).
Definition result (r : reg) (v : Z) (c : Cpu) : outcome := assign r v (v =? 0) c.
Definition jump (pc : nat) (c : Cpu) : outcome :=
  Next (mkCpu pc (c_regs c) (c_if c) (c_df c) (c_zf c) (c_mem c) (c_io c)).
Definition store (mem : memory) (c : Cpu) : outcome :=
  Next (mkCpu (S (c_pc c)) (c_regs c) (c_if c) (c_df c) (c_zf c) mem (c_io c)).

Definition execute (i : instr) (c : Cpu) : outcome :=
  let r := c_regs c in
  match i with
  | Cli => Next (mkCpu (S (c_pc c)) r false (c_df c) (c_zf c) (c_mem c) (c_io c))
  | Cld => Next (mkCpu (S (c_pc c)) r (c_if c) false (c_zf c) (c_mem c) (c_io c))
  | Hlt => if c_if c then Stuck else Stopped c
  | Movq src dst => assign dst (r src) (c_zf c) c
  | Movabsq imm dst => assign dst (wrap64 imm) (c_zf c) c
  | Movl imm dst => assign dst (imm mod 2 ^ 32) (c_zf c) c
  | Movw imm dst => assign dst (r dst - r dst mod 2 ^ 16 + imm mod 2 ^ 16) (c_zf c) c
  | Leaq s dst => assign dst (resolve im s) (c_zf c) c
  | Movq_to src s => store (copy_at (resolve im s) (to_le_bytes 8 (r src)) (c_mem c)) c
  | Andq imm dst => result dst (wrap64 (Z.land (r dst) imm)) c
  | Xorq src dst => result dst (Z.lxor (r src) (r dst)) c
  | Xorl src dst => result dst (Z.lxor (r src) (r dst) mod 2 ^ 32) c
  | Subq src dst => result dst (wrap64 (r dst - r src)) c
  | Rep_stosb =>
      let n := r RCX in
      let first := if c_df c then r RDI - n + 1 else r RDI in
      let rdi := wrap64 (if c_df c then r RDI - n else r RDI + n) in
      Next (mkCpu (S (c_pc c)) (update RCX 0 (update RDI rdi r)) (c_if c) (c_df c) (c_zf c)
              (write_bytes_at first (r RAX mod 256) n (c_mem c)) (c_io c))
  | Cmpq imm s =>
      Next (mkCpu (S (c_pc c)) r (c_if c) (c_df c)
              (from_le_bytes (slice_at (c_mem c) (resolve im s) 8) =? imm) (c_mem c) (c_io c))
  | Jne l => jump (if c_zf c then S (c_pc c) else target l) c
  | Jmp l => jump (target l) c
  | Call_polytope_kernel_main =>
      let rsp := wrap64 (r RSP - 8) in
      let mem := copy_at rsp (to_le_bytes 8 (im_code im (S (c_pc c)))) (c_mem c) in
      Called (mkCpu (c_pc c) (update RSP rsp r) (c_if c) (c_df c) (c_zf c) mem (c_io c))
  | Outl_eax_dx =>
      Next (mkCpu (S (c_pc c)) r (c_if c) (c_df c) (c_zf c) (c_mem c)
              (out_u32 (r RDX mod 2 ^ 16) (r RAX mod 2 ^ 32) (c_io c)))
  end.

Definition step (c : Cpu) : outcome :=
  match entry_code !! c_pc c with Some i => execute i c | None => Stuck end.

(** At most [fuel] instructions; running out of it is being stuck. *)
Fixpoint run (fuel : nat) (c : Cpu) : outcome :=
  match fuel with
  | O => Stuck
  | S fuel => match step c with Next c => run fuel c | final => final end
  end.
End Step.

(** The longest way through has twenty-one instructions. *)
Definition ENTRY_FUEL : nat := 21.

(** The processor when the loader jumps to the shim: any registers and flags. *)
Definition entered (regs : reg -> Z) (if_ df zf : bool) (mem : memory) (m : Machine) : Cpu :=
  mkCpu 0 regs if_ df zf mem m.

(** ** What it leaves *)

(** Symbols that a 64-bit register can hold. *)
Definition image_ok (im : Image) : Prop :=
  0 <= bss_start (im_layout im) <= bss_end (im_layout im) /\ bss_end (im_layout im) < 2 ^ 64 /\
  16 <= im_stack_top im < 2 ^ 64.

(** Memory when .bss has been cleared, the probe having been poisoned before. *)
Definition cleared (ld : Layout) (mem : memory) : memory :=
  write_bytes_at (bss_start ld) 0 (bss_end ld - bss_start ld)
    (copy_at (bss_probe ld) (to_le_bytes 8 PROBE_VALUE) mem).

(** The kernel is called as the System V convention demands: stack aligned,
    direction flag clear; no maskable interrupt; the arguments are the ones the
    loader passed; the only memory touched since is the return address. *)
Record called_ok (im : Image) (regs : reg -> Z) (mem : memory) (m : Machine) (c : Cpu) : Prop := {
  co_rdi : c_regs c RDI = regs RDI;
  co_rsi : c_regs c RSI = regs RSI;
  co_rbp : c_regs c RBP = 0;
  co_rsp : c_regs c RSP = im_stack_top im - im_stack_top im mod 16 - 8;
  co_aligned : (c_regs c RSP + 8) mod 16 = 0;
  co_if : c_if c = false;
  co_df : c_df c = false;
  co_io : c_io c = m;
  co_mem : c_mem c = copy_at (c_regs c RSP) (to_le_bytes 8 (im_code im 19)) (cleared (im_layout im) mem)
}.

Lemma align_stack top : 0 <= top < 2 ^ 64 -> wrap64 (Z.land top (-16)) = top - top mod 16.
Proof.
  intros Ht. unfold wrap64. change (-16) with (Z.lnot (Z.ones 4)).
  rewrite <- Z.ldiff_land, Z.ldiff_ones_r, Z.shiftr_div_pow2, Z.shiftl_mul_pow2 by lia.
  change (2 ^ 4) with 16. rewrite Z.mod_small; Z.to_euclidean_division_equations; lia.
Qed.

Lemma run_next im n c i c' : entry_code !! c_pc c = Some i -> execute im i c = Next c' -> run im (S n) c = run im n c'.
Proof. intros Hi He. cbn [run]. unfold step. by rewrite Hi, He. Qed.
Lemma update_same r v regs : update r v regs r = v.
Proof. unfold update. by rewrite decide_True. Qed.
Lemma update_other r r' v regs : r' <> r -> update r v regs r' = regs r'.
Proof. intros H. unfold update. by rewrite decide_False. Qed.

Ltac read_registers := repeat first [rewrite update_same | rewrite update_other by discriminate].
(** One instruction of the shim. *)
Ltac instruction :=
  erewrite run_next by (cbn [c_pc]; reflexivity);
  cbn [c_pc c_regs c_if c_df c_zf c_mem c_io resolve];
  read_registers.

(** The instructions up to the check of the probe. *)
Lemma entry_clears im regs if_ df zf mem m :
  image_ok im ->
  exists c, run im ENTRY_FUEL (entered regs if_ df zf mem m) = run im 6 c /\ c_pc c = 15%nat /\
    c_regs c R12 = regs RDI /\ c_regs c R13 = regs RSI /\ c_regs c RBP = 0 /\
    c_regs c RSP = im_stack_top im - im_stack_top im mod 16 /\ c_if c = false /\ c_df c = false /\ c_io c = m /\
    c_mem c = cleared (im_layout im) mem /\
    c_zf c = (from_le_bytes (slice_at (cleared (im_layout im) mem) (bss_probe (im_layout im)) 8) =? 0).
Proof.
  intros (Hb & He & Ht). unfold entered, ENTRY_FUEL. do 15 instruction.
  eexists. split; [reflexivity|]. cbn [c_pc c_regs c_if c_df c_zf c_mem c_io]. read_registers.
  rewrite !Z.lxor_nilpotent, align_stack by lia. change (wrap64 0x50544f5342535354) with PROBE_VALUE.
  assert (wrap64 (bss_end (im_layout im) - bss_start (im_layout im)) = bss_end (im_layout im) - bss_start (im_layout im))
    as -> by (apply Z.mod_small; lia).
  change ((0 mod 2 ^ 32) mod 256) with 0. by split_and!.
Qed.

(** The value of the probe after the clear decides. *)
Definition probe_after (ld : Layout) (mem : memory) : Z :=
  from_le_bytes (slice_at (cleared ld mem) (bss_probe ld) 8).

Lemma entry_calls im regs if_ df zf mem m :
  image_ok im -> probe_after (im_layout im) mem = 0 ->
  exists c, run im ENTRY_FUEL (entered regs if_ df zf mem m) = Called c /\ called_ok im regs mem m c.
Proof.
  intros Him Hp. destruct (entry_clears im regs if_ df zf mem m Him)
    as ([pc r fi fd fz mm io] & -> & Hpc & H12 & H13 & Hbp & Hsp & Hi & Hd & Hio & Hm & Hz).
  cbn [c_pc c_regs c_if c_df c_zf c_mem c_io] in *. fold (probe_after (im_layout im) mem) in Hz. rewrite Hp in Hz.
  subst pc fi fd fz mm io. destruct Him as (_ & _ & Ht). change (0 =? 0) with true. do 3 instruction. cbn [run step].
  change (entry_code !! 18%nat) with (Some Call_polytope_kernel_main). cbn [execute c_regs c_pc].
  assert (wrap64 (im_stack_top im - im_stack_top im mod 16 - 8) = im_stack_top im - im_stack_top im mod 16 - 8) as Hw.
  { apply Z.mod_small. Z.to_euclidean_division_equations; lia. }
  eexists. split; [reflexivity|].
  split; cbn [c_regs c_if c_df c_io c_mem]; read_registers; rewrite ?Hsp, ?Hw; try done.
  Z.to_euclidean_division_equations; lia.
Qed.

Lemma entry_stops im regs if_ df zf mem m :
  image_ok im -> probe_after (im_layout im) mem <> 0 ->
  exists c, run im ENTRY_FUEL (entered regs if_ df zf mem m) = Stopped c /\ c_if c = false /\
    c_io c = out_u32 QEMU_EXIT 0x22 m.
Proof.
  intros Him Hp. destruct (entry_clears im regs if_ df zf mem m Him)
    as ([pc r fi fd fz mm io] & -> & Hpc & _ & _ & _ & _ & Hi & Hd & Hio & Hm & Hz).
  cbn [c_pc c_regs c_if c_df c_zf c_mem c_io] in *. fold (probe_after (im_layout im) mem) in Hz.
  rewrite (proj2 (Z.eqb_neq _ _) Hp) in Hz. subst pc fi fd fz mm io. do 5 instruction.
  assert ((r RDX - r RDX mod 2 ^ 16 + 244 mod 2 ^ 16) mod 2 ^ 16 = QEMU_EXIT) as ->
    by (unfold QEMU_EXIT; Z.to_euclidean_division_equations; lia).
  cbn [run step]. change (entry_code !! _) with (Some Hlt). cbn [execute c_if c_io]. by eexists.
Qed.

(** ** Properties *)

(** C13. The entry shim, instruction by instruction.  Started with any registers,
    flags and memory, and for any symbol addresses, the code of the shim reaches
    the call of the kernel or stops, and does exactly what the model of the shim
    says.  It calls the kernel if the probe reads zero once .bss is cleared: with
    the pointer and length it was given, interrupts off, the direction flag
    clear, the frame pointer zero and the stack aligned, .bss cleared and no
    other memory changed but the probe and the return address.  If the probe
    survived, it writes the failure code to the exit device and halts with
    interrupts off. *)
Theorem entry_code_refines_shim (lsr : nat -> Z) (im : Image) (regs : reg -> Z) (if_ df zf : bool)
    (mem : memory) (m : Machine) :
  image_ok im ->
  let shim := polytope_kernel_entry lsr (im_layout im) mem (regs RDI) (regs RSI) m in
  match run im ENTRY_FUEL (entered regs if_ df zf mem m) with
  | Called c => called_ok im regs mem m c /\
      shim = polytope_kernel_main lsr (cleared (im_layout im) mem) (c_regs c RDI) (c_regs c RSI) (c_io c)
  | Stopped c => c_if c = false /\ c_io c = shim /\ exits shim = exits m ++ [QemuExitCode_value LoaderFailure]
  | Next _ | Stuck => False
  end.
Proof.
  intros Him shim.
  assert (shim = if probe_after (im_layout im) mem =? 0
                 then polytope_kernel_main lsr (cleared (im_layout im) mem) (regs RDI) (regs RSI) m
                 else out_u32 QEMU_EXIT 0x22 m) as ->.
  { unfold shim, polytope_kernel_entry, probe_after, cleared. by destruct (_ =? 0). }
  destruct (Z.eqb_spec (probe_after (im_layout im) mem) 0) as [Hp|Hp].
  - destruct (entry_calls im regs if_ df zf mem m Him Hp) as (c & -> & Hc). split; [done|].
    by rewrite (co_rdi _ _ _ _ _ Hc), (co_rsi _ _ _ _ _ Hc), (co_io _ _ _ _ _ Hc).
  - destruct (entry_stops im regs if_ df zf mem m Him Hp) as (c & -> & Hi & Hio).
    split; [done|]. split; [done|]. apply (qemu_exit_observed LoaderFailure m).
Qed.

(** A layout with the probe at the start of .bss, junk in every register and in
    memory: the kernel is called, on an aligned stack. *)
Definition sample_image : Image := mkImage demo_layout 0x4810000 (fun pc => 0x4000000 + 4 * Z.of_nat pc).

Lemma entry_code_refines_shim_witness :
  exists c, run sample_image ENTRY_FUEL (entered (fun _ => 7) true true true (fun _ => 0xaa) power_on) = Called c /\
    c_regs c RDI = 7 /\ c_regs c RSI = 7 /\ c_regs c RSP = 0x480fff8 /\ c_if c = false /\ c_df c = false.
Proof.
  pose proof (entry_code_refines_shim (fun _ => 0) sample_image (fun _ => 7) true true true (fun _ => 0xaa) power_on
    ltac:(by_decide)) as H.
  assert (match run sample_image ENTRY_FUEL (entered (fun _ => 7) true true true (fun _ => 0xaa) power_on) with
          | Called _ => true | _ => false end = true) as Hc by (vm_compute; reflexivity).
  destruct (run sample_image _ _) as [c|c|c|]; [discriminate Hc| |discriminate Hc|discriminate Hc].
  exists c. destruct H as [[Hdi Hsi _ Hsp _ Hi Hd _ _] _]. split; [reflexivity|].
  exact (conj Hdi (conj Hsi (conj Hsp (conj Hi Hd)))).
Defined.
