(* ===== verification/Linker.v ===== *)
(** The linker script of the kernel: arch/x86_64/kernel/linker.ld.

    The location counter is followed through the script for any sizes of the
    input sections; the assertions of the script are the checks of [link].  The
    theorems relate it to the inspector (crates/xtask/src/inspect.rs), which
    checks the result, and to the entry shim, which uses its symbols. *)

From stdpp Require Import gmap.
From S2P Require Import Prelude Bytes BootElf ElfSpec Console Text Artifact Inspect.
From S2P Require InspectProps Pipeline Entry.

Module Script.
Definition KERNEL_BASE : Z := 0x04000000.
Definition KERNEL_LOAD_LIMIT : Z := 0x04800000.
Definition KERNEL_STACK_GUARD_BASE : Z := 0x047ff000.
Definition KERNEL_STACK_BASE : Z := 0x04800000.
Definition KERNEL_STACK_SIZE : Z := 0x00010000.
Definition PAGE_SIZE : Z := 0x1000.
End Script.

(** [ALIGN(align)] at location [dot] *)
Definition ALIGN (dot align : Z) : Z := Z.land (dot + align - 1) (Z.lnot (align - 1)).

(** The sizes of what the input section patterns select, padding included. *)
Record Sizes := mkSizes {
  sz_text : Z;
  sz_rodata : Z;
  sz_data : Z;
  sz_bss : Z
}.

(** The symbols of the script. *)
Record Symbols := mkSymbols {
  kernel_start : Z;
  text_start : Z; text_end : Z;
  rodata_start : Z; rodata_end : Z;
  data_start : Z; data_end : Z;
  bss_start : Z; bss_end : Z;
  kernel_load_end : Z;
  bootstrap_stack_guard_start : Z; bootstrap_stack_guard_end : Z;
  bootstrap_stack_bottom : Z; bootstrap_stack_top : Z;
  kernel_end : Z
}.

(** SECTIONS *)
Definition layout (sizes : Sizes) : Symbols :=
  let dot := Script.KERNEL_BASE in
  let kernel_start := dot in
  let text_start := ALIGN dot Script.PAGE_SIZE in
  let text_end := text_start + sz_text sizes in
  let rodata_start := ALIGN text_end Script.PAGE_SIZE in
  let rodata_end := rodata_start + sz_rodata sizes in
  let data_start := ALIGN rodata_end Script.PAGE_SIZE in
  let data_end := data_start + sz_data sizes in
  let bss_start := ALIGN data_end Script.PAGE_SIZE in
  let bss_end := bss_start + sz_bss sizes in
  let kernel_load_end := ALIGN bss_end Script.PAGE_SIZE in
  let dot := Script.KERNEL_STACK_GUARD_BASE in
  let guard_start := dot in
  let guard_end := guard_start + Script.PAGE_SIZE in
  let dot := Script.KERNEL_STACK_BASE in
  let stack_bottom := ALIGN dot Script.PAGE_SIZE in
  let stack_top := stack_bottom + Script.KERNEL_STACK_SIZE in
  let kernel_end := ALIGN stack_top Script.PAGE_SIZE in
  mkSymbols kernel_start text_start text_end rodata_start rodata_end data_start data_end bss_start bss_end
    kernel_load_end guard_start guard_end stack_bottom stack_top kernel_end.

(** The ASSERT commands, in order. *)
Definition assertions (s : Symbols) : list bool :=
  [ kernel_load_end s <=? Script.KERNEL_STACK_GUARD_BASE;
    kernel_start s mod Script.PAGE_SIZE =? 0;
    text_start s mod Script.PAGE_SIZE =? 0;
    rodata_start s mod Script.PAGE_SIZE =? 0;
    data_start s mod Script.PAGE_SIZE =? 0;
    bss_start s mod Script.PAGE_SIZE =? 0;
    text_end s <=? rodata_start s;
    rodata_end s <=? data_start s;
    data_end s <=? bss_start s;
    bootstrap_stack_bottom s mod Script.PAGE_SIZE =? 0;
    bootstrap_stack_top s - bootstrap_stack_bottom s =? Script.KERNEL_STACK_SIZE;
    bootstrap_stack_guard_end s - bootstrap_stack_guard_start s =? Script.PAGE_SIZE;
    bootstrap_stack_guard_start s =? Script.KERNEL_STACK_GUARD_BASE;
    bootstrap_stack_guard_end s =? Script.KERNEL_LOAD_LIMIT;
    Script.KERNEL_LOAD_LIMIT =? Script.KERNEL_STACK_BASE ].

Definition link (sizes : Sizes) : option Symbols :=
  let s := layout sizes in if forallb id (assertions s) then Some s else None.

(** ** What the linker makes of the script

    The linker is not part of the program; these are the parts of the script its
    output is about, and what its output says of them. *)

(** The output sections, in the order of the script. *)
Definition sections_of (s : Symbols) : list (list Z * Z * Z) :=
  [ (TEXT, text_start s, text_end s); (RODATA, rodata_start s, rodata_end s);
    (DATA, data_start s, data_end s); (BSS, bss_start s, bss_end s);
    (STACK_GUARD, bootstrap_stack_guard_start s, bootstrap_stack_guard_end s);
    (STACK, bootstrap_stack_bottom s, bootstrap_stack_top s) ].
(** The assignments before SECTIONS. *)
Definition constants_of : list (list Z * Z) :=
  (fun '(name, v) => (ascii_bytes name, v)) <$>
  [ ("KERNEL_BASE", Script.KERNEL_BASE); ("KERNEL_LOAD_LIMIT", Script.KERNEL_LOAD_LIMIT);
    ("KERNEL_STACK_GUARD_BASE", Script.KERNEL_STACK_GUARD_BASE); ("KERNEL_STACK_BASE", Script.KERNEL_STACK_BASE);
    ("KERNEL_STACK_SIZE", Script.KERNEL_STACK_SIZE); ("PAGE_SIZE", Script.PAGE_SIZE) ]%string.
(** The symbols; KEEP of .text.entry first puts the entry point at the start of
    .text. *)
Definition symbols_of (s : Symbols) : list (list Z * Z) :=
  (fun '(name, v) => (ascii_bytes name, v)) <$>
  [ ("__kernel_start", kernel_start s); ("__text_start", text_start s); ("__text_end", text_end s);
    ("__rodata_start", rodata_start s); ("__rodata_end", rodata_end s);
    ("__data_start", data_start s); ("__data_end", data_end s);
    ("__bss_start", bss_start s); ("__bss_end", bss_end s);
    ("__bootstrap_stack_guard_start", bootstrap_stack_guard_start s);
    ("__bootstrap_stack_guard_end", bootstrap_stack_guard_end s);
    ("__bootstrap_stack_bottom", bootstrap_stack_bottom s); ("__bootstrap_stack_top", bootstrap_stack_top s);
    ("__kernel_end", kernel_end s); ("polytope_kernel_entry", text_start s) ]%string.

(** PHDRS: the segments with their flags and the sections assigned to them, from
    the first address to the end of the file contents and to the end of memory.
    .text and .rodata fill theirs, the NOLOAD .bss extends the data segment, and
    the NOLOAD stack has no file contents. *)
Definition phdrs (s : Symbols) : list (Z * Z * Z * Z) :=
  [ (5, text_start s, text_end s, text_end s); (4, rodata_start s, rodata_end s, rodata_end s);
    (6, data_start s, data_end s, bss_end s);
    (6, bootstrap_stack_bottom s, bootstrap_stack_bottom s, bootstrap_stack_top s) ].

(** The inspector's record of a program header that is as PHDRS says: loaded where
    it is linked, aligned to the page size of the architecture, at any index and
    file offset. *)
Record header_of (p : Z * Z * Z * Z) (x : SegmentInspection) : Prop := {
  ho_flags : si_flags x = p.1.1.1;
  ho_virtual : si_virtual_address x = p.1.1.2;
  ho_physical : si_physical_address x = p.1.1.2;
  ho_file : si_file_size x = p.1.2 - p.1.1.2;
  ho_memory : si_memory_size x = p.2 - p.1.1.2;
  ho_zero_fill : si_zero_fill_size x = si_memory_size x - si_file_size x;
  ho_alignment : si_alignment x = 4096
}.

(** The ELF file and the map of a link that defined the symbols [s]: the program
    headers are those of PHDRS, in order; the map lists each output section once,
    with its address and size, in the order of the script, each assignment with its
    value, and the assignment of __kernel_load_end with its expression. *)
Class LinkOutput (s : Symbols) (segments : list SegmentInspection) (map : MapLayout) : Prop := {
  lo_segments : Forall2 header_of (phdrs s) segments;
  lo_sections : exists lines : list Z, StronglySorted Z.lt lines /\
    Forall2 (fun '(name, start, end_) line => section map name = Ok (mkMapSection name start (end_ - start) line))
      (sections_of s) lines;
  lo_constants : Forall (fun '(name, v) => ml_constants map !! name = Some v) constants_of;
  lo_symbols : Forall (fun '(name, v) => ml_symbols map !! name = Some v) (symbols_of s);
  lo_load_end : ml_saw_load_end_expression map = true
}.

(** The symbols the entry shim uses; KEEP of .bss.boot first puts the probe at the
    start of .bss. *)
Definition image_of (s : Symbols) (code : nat -> Z) : Entry.Image :=
  Entry.mkImage (Pipeline.mkLayout (bss_start s) (bss_end s) (bss_start s)) (bootstrap_stack_top s) code.

(** ** Lemmas *)
Lemma ALIGN_page dot : 0 <= dot -> ALIGN dot Script.PAGE_SIZE = page_up dot.
Proof.
  intros Hd. unfold ALIGN, Script.PAGE_SIZE, page_up. change (0x1000 - 1) with (Z.ones 12).
  rewrite <- Z.ldiff_land, Z.ldiff_ones_r, Z.shiftr_div_pow2, Z.shiftl_mul_pow2 by lia.
  change (2 ^ 12) with 4096. do 2 f_equal. lia.
Qed.

Definition sizes_ok (sizes : Sizes) : Prop :=
  0 < sz_text sizes /\ 0 < sz_rodata sizes /\ 0 < sz_data sizes /\ 8 <= sz_bss sizes.

(** The location counter, in the order of the script. *)
Lemma layout_facts sizes :
  sizes_ok sizes -> let s := layout sizes in
  text_start s = Script.KERNEL_BASE /\ kernel_start s = Script.KERNEL_BASE /\
  text_end s = text_start s + sz_text sizes /\ rodata_start s = page_up (text_end s) /\
  rodata_end s = rodata_start s + sz_rodata sizes /\ data_start s = page_up (rodata_end s) /\
  data_end s = data_start s + sz_data sizes /\ bss_start s = page_up (data_end s) /\
  bss_end s = bss_start s + sz_bss sizes /\ kernel_load_end s = page_up (bss_end s).
Proof.
  intros (H1 & H2 & H3 & H4) s. subst s. unfold layout. cbn [text_start kernel_start text_end rodata_start
    rodata_end data_start data_end bss_start bss_end kernel_load_end].
  set (t := ALIGN Script.KERNEL_BASE Script.PAGE_SIZE). assert (t = Script.KERNEL_BASE) as Ht by done.
  assert (0 <= t) by (rewrite Ht; done).
  rewrite (ALIGN_page (t + _)) by lia. set (r := page_up _). pose proof (page_up_bounds (t + sz_text sizes)).
  rewrite (ALIGN_page (r + _)) by lia. set (d := page_up (r + _)). pose proof (page_up_bounds (r + sz_rodata sizes)).
  rewrite (ALIGN_page (d + _)) by lia. set (b := page_up (d + _)). pose proof (page_up_bounds (d + sz_data sizes)).
  rewrite (ALIGN_page (b + _)) by lia. done.
Qed.

Lemma page_up_mod x : page_up x mod 4096 = 0.
Proof. unfold page_up. apply Z.mod_mul. done. Qed.

(** Only one assertion of the script can fail. *)
Lemma link_iff sizes s :
  sizes_ok sizes -> link sizes = Some s <-> s = layout sizes /\ page_up (bss_end s) <= STACK_GUARD_ADDRESS.
Proof.
  intros Hs. destruct (layout_facts sizes Hs) as (Ht & Hk & Hte & Hr & Hre & Hd & Hde & Hb & Hbe & Hl).
  unfold link. assert (forallb id (assertions (layout sizes)) =
    (kernel_load_end (layout sizes) <=? Script.KERNEL_STACK_GUARD_BASE)) as ->.
  { unfold assertions. cbn [forallb]. unfold id. rewrite <- (andb_true_r (_ <=? Script.KERNEL_STACK_GUARD_BASE)) at 2.
    f_equal. rewrite Hk, Ht, Hr, Hd, Hb. unfold Script.PAGE_SIZE. change 0x1000 with 4096.
    rewrite !page_up_mod. pose proof (page_up_bounds (text_end (layout sizes))).
    pose proof (page_up_bounds (rodata_end (layout sizes))). pose proof (page_up_bounds (data_end (layout sizes))).
    rewrite !(proj2 (Z.leb_le _ _)) by lia. reflexivity. }
  rewrite Hl. change Script.KERNEL_STACK_GUARD_BASE with STACK_GUARD_ADDRESS.
  destruct (Z.leb_spec (page_up (bss_end (layout sizes))) STACK_GUARD_ADDRESS) as [H|H]; split.
  - intros [= <-]. done.
  - intros [-> _]. done.
  - done.
  - intros [-> Hle]. lia.
Qed.

Lemma check_table_ok missing wrong values expected :
  Forall (fun '(name, v) => values !! ascii_bytes name = Some v) expected ->
  check_table missing wrong values expected = Ok tt.
Proof.
  induction 1 as [|[name v] expected Hv _ IH]; [done|]. cbn [check_table]. rewrite Hv. cbn [ok_or].
  rewrite bind_value, Z.eqb_refl. exact IH.
Qed.

Lemma Forall_named (values : gmap (list Z) Z) (l : list (string * Z)) :
  Forall (fun '(name, v) => values !! name = Some v) ((fun '(name, v) => (ascii_bytes name, v)) <$> l) ->
  Forall (fun '(name, v) => values !! ascii_bytes name = Some v) l.
Proof. rewrite Forall_fmap. intros H. eapply Forall_impl; [exact H|]. by intros [name v]. Qed.

Section Linked.
Variables (sizes : Sizes) (s : Symbols).
Hypothesis Hsizes : sizes_ok sizes.
Hypothesis Hlink : link sizes = Some s.

(** The sections follow each other below the guard page. *)
Lemma linked_order :
  text_start s = KERNEL_BASE_ADDRESS /\ text_start s < text_end s /\ text_end s <= rodata_start s /\
  rodata_start s < rodata_end s /\ rodata_end s <= data_start s /\ data_start s < data_end s /\
  data_end s <= bss_start s /\ bss_start s + 8 <= bss_end s /\ bss_end s <= page_up (bss_end s) <= STACK_GUARD_ADDRESS /\
  rodata_start s mod 4096 = 0 /\ data_start s mod 4096 = 0 /\ bss_start s mod 4096 = 0.
Proof using Hsizes Hlink.
  destruct (proj1 (link_iff sizes s Hsizes) Hlink) as [-> Hg].
  destruct (layout_facts sizes Hsizes) as (Ht & _ & Hte & Hr & Hre & Hd & Hde & Hb & Hbe & _).
  destruct Hsizes as (H1 & H2 & H3 & H4).
  pose proof (page_up_bounds (text_end (layout sizes))). pose proof (page_up_bounds (rodata_end (layout sizes))).
  pose proof (page_up_bounds (data_end (layout sizes))). pose proof (page_up_bounds (bss_end (layout sizes))).
  split_and!; [exact Ht|lia..|rewrite Hr; apply page_up_mod|rewrite Hd; apply page_up_mod|
    rewrite Hb; apply page_up_mod].
Qed.

Lemma linked_fixed :
  kernel_start s = KERNEL_BASE_ADDRESS /\
  bootstrap_stack_guard_start s = STACK_GUARD_ADDRESS /\ bootstrap_stack_guard_end s = STACK_BASE_ADDRESS /\
  bootstrap_stack_bottom s = STACK_BASE_ADDRESS /\ bootstrap_stack_top s = STACK_BASE_ADDRESS + STACK_SIZE_BYTES /\
  kernel_end s = STACK_BASE_ADDRESS + STACK_SIZE_BYTES.
Proof using Hsizes Hlink. destruct (proj1 (link_iff sizes s Hsizes) Hlink) as [-> _]. by split_and!. Qed.

Variables (segments : list SegmentInspection) (map : MapLayout).
Context `{Hout : !LinkOutput s segments map}.

Definition section_at (line : Z) (name : list Z) (start end_ : Z) : MapSection :=
  mkMapSection name start (end_ - start) line.

Lemma map_sections : exists l0 l1 l2 l3 l4 l5,
  (l0 < l1 /\ l1 < l2 /\ l2 < l3 /\ l3 < l4 /\ l4 < l5) /\
  section map TEXT = Ok (section_at l0 TEXT (text_start s) (text_end s)) /\
  section map RODATA = Ok (section_at l1 RODATA (rodata_start s) (rodata_end s)) /\
  section map DATA = Ok (section_at l2 DATA (data_start s) (data_end s)) /\
  section map BSS = Ok (section_at l3 BSS (bss_start s) (bss_end s)) /\
  section map STACK_GUARD =
    Ok (section_at l4 STACK_GUARD (bootstrap_stack_guard_start s) (bootstrap_stack_guard_end s)) /\
  section map STACK = Ok (section_at l5 STACK (bootstrap_stack_bottom s) (bootstrap_stack_top s)).
Proof using Hout.
  destruct lo_sections as (lines & Hsort & Hall). unfold sections_of in Hall.
  repeat match goal with H : Forall2 _ (_ :: _) _ |- _ => inversion H; clear H; subst end.
  match goal with H : Forall2 _ [] _ |- _ => inversion H; clear H; subst end.
  repeat match goal with H : StronglySorted _ (_ :: _) |- _ => inversion H; clear H; subst end.
  repeat match goal with H : Forall _ (_ :: _) |- _ => inversion H; clear H; subst end.
  eexists _, _, _, _, _, _. split; [|split_and!; eassumption]. split_and!; assumption.
Qed.

Lemma section_at_end i name start end_ : end_ < 2 ^ 64 -> section_end (section_at i name start end_) = Ok end_.
Proof.
  intros H. apply InspectProps.section_end_Ok. cbn [section_at ms_address ms_size]. lia.
Qed.

Lemma linked_symbols : validate_constants_and_symbols map (text_start s) = Ok tt.
Proof using Hout Hsizes Hlink.
  destruct linked_order as (Ht & O1 & O2 & O3 & O4 & O5 & O6 & O7 & O8 & _).
  destruct linked_fixed as (Fk & Fg & Fge & Fb & Ft & Fe).
  destruct map_sections as (l0 & l1 & l2 & l3 & l4 & l5 & _ & S1 & S2 & S3 & S4 & _).
  unfold STACK_GUARD_ADDRESS in O8. unfold validate_constants_and_symbols.
  rewrite check_table_ok by exact (Forall_named _ expected_constants lo_constants).
  rewrite bind_value, S1, bind_value, S2, bind_value, S3, bind_value, S4, bind_value.
  rewrite !section_at_end, !bind_value by lia. rewrite check_table_ok.
  - rewrite lo_load_end. reflexivity.
  - cbn [section_at ms_address]. apply Forall_named. pose proof lo_symbols as Hsym. unfold symbols_of in Hsym.
    rewrite Fk, Fg, Fge, Fb, Ft, Fe in Hsym. exact Hsym.
Qed.

Lemma check_order_step name names previous sec m :
  section m name = Ok sec -> (forall p, previous = Some p -> p < ms_line sec) ->
  check_order (name :: names) previous m = check_order names (Some (ms_line sec)) m.
Proof.
  intros Hs Hp. cbn [check_order]. rewrite Hs, bind_value. destruct previous as [p|]; [|done].
  by rewrite (proj2 (Z.ltb_lt _ _) (Hp p eq_refl)).
Qed.

Lemma linked_order_of_lines : validate_section_order map = Ok tt.
Proof using Hout.
  destruct map_sections as (l0 & l1 & l2 & l3 & l4 & l5 & (L1 & L2 & L3 & L4 & L5) & S1 & S2 & S3 & S4 & S5 & S6).
  unfold validate_section_order, section_names.
  rewrite (check_order_step _ _ _ _ _ S1), (check_order_step _ _ _ _ _ S2), (check_order_step _ _ _ _ _ S3),
    (check_order_step _ _ _ _ _ S4), (check_order_step _ _ _ _ _ S5), (check_order_step _ _ _ _ _ S6); [done|..];
    by intros p [= <-].
Qed.

(** A condition of the inspector that holds. *)
Lemma pass {E A} (c : bool) (e : E) (k : unit -> exec E A) : c = true -> (fail_if (negb c) e ≫= k) = k tt.
Proof. by intros ->. Qed.

Lemma inspect_align x : 0 <= x -> x + 4095 < 2 ^ 64 -> Inspect.align_up x PAGE_SIZE = Ok (page_up x).
Proof.
  intros H0 H1. pose proof (align_up_page x H0 H1) as E. unfold BootElf.align_up in E. unfold Inspect.align_up.
  apply fmap_Some in E as (sum & -> & ->). reflexivity.
Qed.

Lemma checked_add_exact a b : 0 <= a + b < 2 ^ 64 -> checked_add 64 a b = Some (a + b).
Proof. intros H. apply checked_add_Some. lia. Qed.

(** A segment that is one section, or starts with one. *)
Lemma header_validates p x line name exact_ :
  header_of p x -> (exact_ = true -> p.2 = p.1.2) ->
  validate_segment x (section_at line name p.1.1.2 p.1.2) p.1.1.1 exact_ = Ok tt.
Proof.
  intros [H1 H2 H3 H4 H5 H6 H7] Hm. unfold validate_segment, section_at. cbn [ms_name ms_address ms_size].
  rewrite H1, H2, H3, H4, H5, H7. rewrite !pass by apply Z.eqb_refl. destruct exact_; cbn [andb]; [|done].
  by rewrite (Hm eq_refl), !Z.eqb_refl.
Qed.

Lemma header_data x l2 l3 :
  header_of (6, data_start s, data_end s, bss_end s) x ->
  validate_data_segment x (section_at l2 DATA (data_start s) (data_end s))
    (section_at l3 BSS (bss_start s) (bss_end s)) = Ok tt.
Proof using Hsizes Hlink.
  intros Hx. destruct linked_order as (Ht & O1 & O2 & O3 & O4 & O5 & O6 & O7 & O8 & _).
  unfold KERNEL_BASE_ADDRESS, STACK_GUARD_ADDRESS in *. unfold validate_data_segment.
  pose proof (header_validates _ x l2 DATA false Hx ltac:(done)) as Hv. cbn [fst snd] in Hv.
  change (Z.lor PF_R PF_W) with 6. rewrite Hv, bind_value.
  destruct Hx as [H1 H2 H3 H4 H5 H6 H7]. cbn [fst snd] in *. rewrite pass.
  2: { apply Z.leb_le. cbn [section_at ms_size]. lia. }
  rewrite !section_at_end, bind_value by lia. rewrite H3, H4, H5.
  rewrite !checked_add_exact by lia. rewrite pass by (apply bool_decide_eq_true; f_equal; lia).
  rewrite bind_value. apply fail_if_Ok, negb_false_iff, bool_decide_eq_true. f_equal. lia.
Qed.

Lemma header_stack x l5 :
  header_of (6, bootstrap_stack_bottom s, bootstrap_stack_bottom s, bootstrap_stack_top s) x ->
  validate_stack_segment x (section_at l5 STACK (bootstrap_stack_bottom s) (bootstrap_stack_top s)) = Ok tt.
Proof using Hsizes Hlink.
  intros [H1 H2 H3 H4 H5 H6 H7]. destruct linked_fixed as (_ & _ & _ & Fb & Fs & _). cbn [fst snd] in *.
  unfold validate_stack_segment. rewrite H1, H2, H3, H6, H4, H5, H7, Fb, Fs.
  rewrite section_at_end by done. reflexivity.
Qed.

Lemma header_guard p x :
  header_of p x -> 0 <= p.2 < 2 ^ 64 -> p.2 <= STACK_GUARD_ADDRESS \/ STACK_BASE_ADDRESS <= p.1.1.2 ->
  misses_guard x = true.
Proof.
  intros [H1 H2 H3 H4 H5 H6 H7] Hp Hg. unfold misses_guard. rewrite H3, H5, checked_add_exact by lia.
  replace (p.1.1.2 + (p.2 - p.1.1.2)) with p.2 by lia.
  apply orb_true_iff. destruct Hg; [left|right]; by apply Z.leb_le.
Qed.

Lemma linked_segments l0 l1 l2 l3 l5 :
  exists s0 s1 s2 s3, segments = [s0; s1; s2; s3] /\
    validate_segment s0 (section_at l0 TEXT (text_start s) (text_end s)) (Z.lor PF_R PF_X) true = Ok tt /\
    validate_segment s1 (section_at l1 RODATA (rodata_start s) (rodata_end s)) PF_R true = Ok tt /\
    validate_data_segment s2 (section_at l2 DATA (data_start s) (data_end s))
      (section_at l3 BSS (bss_start s) (bss_end s)) = Ok tt /\
    validate_stack_segment s3 (section_at l5 STACK (bootstrap_stack_bottom s) (bootstrap_stack_top s)) = Ok tt /\
    forallb misses_guard [s0; s1; s2; s3] = true.
Proof using Hout Hsizes Hlink.
  pose proof (lo_segments (segments:=segments)) as Hseg. unfold phdrs in Hseg.
  repeat match goal with H : Forall2 header_of (_ :: _) _ |- _ => inversion H; clear H; subst end.
  match goal with H : Forall2 header_of [] _ |- _ => inversion H; clear H; subst end.
  match goal with |- exists s0 s1 s2 s3, [?a; ?b; ?c; ?d] = _ /\ _ => exists a, b, c, d; rename a into x0, b into x1, c into x2, d into x3 end.
  repeat match goal with H : header_of _ ?x |- _ =>
    lazymatch x with x0 => rename H into H0 | x1 => rename H into H1 | x2 => rename H into H2 | x3 => rename H into H3 end end.
  split; [reflexivity|]. split; [by apply (header_validates _ x0 l0 TEXT true H0)|].
  split; [by apply (header_validates _ x1 l1 RODATA true H1)|]. split; [by apply header_data|].
  split; [by apply header_stack|].
  destruct linked_order as (Ht & O1 & O2 & O3 & O4 & O5 & O6 & O7 & O8 & _).
  destruct linked_fixed as (_ & _ & _ & Fb & Fs & _).
  unfold KERNEL_BASE_ADDRESS, STACK_GUARD_ADDRESS, STACK_BASE_ADDRESS, STACK_SIZE_BYTES in *. cbn [forallb].
  rewrite (header_guard _ x0 H0), (header_guard _ x1 H1), (header_guard _ x2 H2), (header_guard _ x3 H3); [done|..];
    cbn [fst snd]; unfold STACK_GUARD_ADDRESS, STACK_BASE_ADDRESS; lia.
Qed.
End Linked.

(** The inspector's checks, in order. *)
Lemma linked_combined sizes s segments map `{!LinkOutput s segments map} :
  sizes_ok sizes -> link sizes = Some s -> validate_combined (text_start s) segments map = Ok tt.
Proof.
  intros Hs Hl. destruct (linked_order sizes s Hs Hl) as (Ht & O1 & O2 & O3 & O4 & O5 & O6 & O7 & O8 & M1 & M2 & M3).
  destruct (linked_fixed sizes s Hs Hl) as (_ & Fg & Fge & Fb & Fs & _).
  destruct (map_sections s segments map) as (l0 & l1 & l2 & l3 & l4 & l5 & _ & S1 & S2 & S3 & S4 & S5 & S6).
  destruct (linked_segments sizes s Hs Hl segments map l0 l1 l2 l3 l5)
    as (s0 & s1 & s2 & s3 & Esegs & V0 & V1 & V2 & V3 & Vg).
  unfold validate_combined. rewrite Esegs, pass, pass by (done || by rewrite Ht).
  rewrite (linked_symbols sizes s Hs Hl segments map), bind_value.
  rewrite (linked_order_of_lines s segments map), bind_value.
  rewrite S1, bind_value, S2, bind_value, S3, bind_value, S4, bind_value, S5, bind_value, S6, bind_value.
  do 4 rewrite pass by (apply andb_true_iff; cbn [section_at ms_address ms_size];
    split; [by apply Z.eqb_eq|apply Z.ltb_lt; lia]).
  unfold STACK_GUARD_ADDRESS in O8. unfold KERNEL_BASE_ADDRESS in Ht.
  rewrite !section_at_end, bind_value, pass, bind_value, pass, bind_value, pass by (apply Z.leb_le; cbn; lia) || lia.
  rewrite pass by (cbn [section_at ms_address ms_size]; by rewrite Fg, Fge).
  rewrite pass by (cbn [section_at ms_address ms_size]; by rewrite Fb, Fs).
  rewrite bind_value, inspect_align, bind_value by lia.
  rewrite pass by (apply Z.leb_le; unfold STACK_GUARD_ADDRESS; lia).
  change (index_at [s0; s1; s2; s3] 0) with (@Ok InspectError _ s0).
  change (index_at [s0; s1; s2; s3] 1) with (@Ok InspectError _ s1).
  change (index_at [s0; s1; s2; s3] 2) with (@Ok InspectError _ s2).
  change (index_at [s0; s1; s2; s3] 3) with (@Ok InspectError _ s3).
  by rewrite bind_value, V0, !bind_value, V1, !bind_value, V2, !bind_value, V3, !bind_value, Vg.
Qed.

(** The symbols of a link are what the shim relies on. *)
Lemma linked_image sizes s code :
  sizes_ok sizes -> link sizes = Some s ->
  Pipeline.layout_ok (Entry.im_layout (image_of s code)) /\ Entry.image_ok (image_of s code).
Proof.
  intros Hs Hl. destruct (linked_order sizes s Hs Hl) as (Ht & O1 & O2 & O3 & O4 & O5 & O6 & O7 & O8 & _).
  destruct (linked_fixed sizes s Hs Hl) as (_ & _ & _ & _ & Fs & _).
  unfold Pipeline.layout_ok, Entry.image_ok, image_of. cbn [Entry.im_layout Entry.im_stack_top Pipeline.bss_start
    Pipeline.bss_end Pipeline.bss_probe]. rewrite Fs.
  unfold KERNEL_BASE_ADDRESS, STACK_GUARD_ADDRESS, STACK_BASE_ADDRESS, STACK_SIZE_BYTES in *. lia.
Qed.

(** ** Properties *)

(** C14. Linker script, inspector and entry shim agree.  Take sections that are
    not empty, with a .bss that has the probe.  The script either links, or stops
    because the load segments would reach the stack guard: no other assertion of it
    can fail.  Whatever ELF file and map a linker writes for it, if the program
    headers are those of PHDRS and the map lists the script's sections, symbols and
    constants, they pass every layout check of the inspector, at any file offsets
    and on any increasing lines; and on the linked addresses the shim, started in
    any state, calls the kernel at once: .bss is cleared, the stack is the reserved
    one and aligned, and the arguments are the loader's. *)
Theorem linked_kernel_is_accepted_and_entered (sizes : Sizes) (code : nat -> Z) (regs : Entry.reg -> Z)
    (if_ df zf : bool) (mem : Memory.memory) (m : Machine) :
  sizes_ok sizes ->
  match link sizes with
  | None => STACK_GUARD_ADDRESS < page_up (bss_end (layout sizes))
  | Some s =>
      (forall segments map, LinkOutput s segments map -> validate_combined (text_start s) segments map = Ok tt) /\
      exists c, Entry.run (image_of s code) Entry.ENTRY_FUEL (Entry.entered regs if_ df zf mem m) = Entry.Called c /\
        Entry.called_ok (image_of s code) regs mem m c /\
        Entry.c_regs c Entry.RSP = STACK_BASE_ADDRESS + STACK_SIZE_BYTES - 8
  end.
Proof.
  intros Hs. destruct (link sizes) as [s|] eqn:Hl.
  2: { apply Z.nle_gt. intros Hle. pose proof (proj2 (link_iff sizes (layout sizes) Hs) (conj eq_refl Hle)) as E.
       rewrite Hl in E. discriminate. }
  split; [intros segments map Hout; exact (linked_combined sizes s segments map Hs Hl)|].
  destruct (linked_image sizes s code Hs Hl) as [Hlo Hio].
  destruct (Entry.entry_calls (image_of s code) regs if_ df zf mem m Hio (Pipeline.probe_cleared _ Hlo _)) as (c & E & Hc).
  exists c. split; [exact E|]. split; [exact Hc|]. rewrite (Entry.co_rsp _ _ _ _ _ Hc).
  cbn [image_of Entry.im_stack_top]. destruct (linked_fixed sizes s Hs Hl) as (_ & _ & _ & _ & -> & _). reflexivity.
Qed.

(** ** A link: consecutive lines and offsets *)
Definition sample_segments (s : Symbols) : list SegmentInspection :=
  imap (fun i '(flags, start, file_end, memory_end) =>
    mkSegmentInspection (Z.of_nat i) flags (4096 * Z.of_nat i) start start (file_end - start) (memory_end - start)
      ((memory_end - start) - (file_end - start)) 4096) (phdrs s).
Definition sample_map (s : Symbols) : MapLayout :=
  mkMapLayout
    (list_to_map (imap (fun i '(name, start, end_) => (name, mkMapSection name start (end_ - start) (10 + Z.of_nat i)))
       (sections_of s)))
    (list_to_map constants_of) (list_to_map (symbols_of s)) true.

Lemma sample_output s : LinkOutput s (sample_segments s) (sample_map s).
Proof.
  split.
  - repeat constructor.
  - exists [10; 11; 12; 13; 14; 15]. split; [repeat constructor|]. repeat (constructor; [reflexivity|]). constructor.
  - repeat (constructor; [reflexivity|]). constructor.
  - repeat (constructor; [reflexivity|]). constructor.
  - reflexivity.
Qed.

(** Sections of a few pages; and a .bss that would reach the guard page. *)
Lemma linked_kernel_is_accepted_and_entered_witness :
  (exists s, link (mkSizes 0x3210 0x800 16 8) = Some s /\
     validate_combined (text_start s) (sample_segments s) (sample_map s) = Ok tt) /\
  link (mkSizes 0x3210 0x800 16 0x800000) = None.
Proof.
  split; [|reflexivity].
  pose proof (linked_kernel_is_accepted_and_entered (mkSizes 0x3210 0x800 16 8) (fun _ => 0) (fun _ => 0) true true
    true (fun _ => 1) power_on ltac:(by_decide)) as H.
  assert (link (mkSizes 0x3210 0x800 16 8) = Some (layout (mkSizes 0x3210 0x800 16 8))) as E by reflexivity.
  rewrite E in H. exists (layout (mkSizes 0x3210 0x800 16 8)). split; [exact E|].
  exact (proj1 H _ _ (sample_output _)).
Defined.
